(** * Twinset site indexer: a shallow embedding of
    [scripts/twinset_site_indexer.py] and the properties of its
    URL normalisation, block detection, queue store, classifier,
    sitemap resolver, HTTP client and match layer (Parts I to III), and
    of its reader of embedded JavaScript values, its reader of
    robots.txt, its statistics and its runs as a whole (Parts IV and V).

    Conventions of the embedding.
    - Python [str] and [bytes] values are [string]s: sequences of 8-bit
      characters.  Case mapping ([lower], [upper]) and the character
      classes of [re] and [str] ([\d], [\s], [[a-z]], [isspace]) are
      those of ASCII; characters above 127 are left alone by case mapping
      and belong to no class.
    - Python [int] is [Z]; SQL [NULL] and Python [None] are [None].
      Python [float] is the binary64 [float] of Rocq.
    - An SQLite table is the list of its rows in rowid (insertion) order;
      the primary key is enforced by the operations, as SQLite does.
      [ORDER BY ... LIMIT 1] returns the first of the rows that come
      first in the order.
    - Code that can raise returns a [result]; state that survives a
      raise (the open SQLite transaction) is threaded explicitly.
    - [now_iso()] reads a clock: a store operation takes the text read as
      its argument [now], and the crawl loops count the readings.
    - What comes from outside the program (the network, codecs, the XML
      parser, the clock, the random numbers, [time.sleep]) is an
      [Environment].
    - Logging and [commit] are left out: they do not touch the tables.
      So are the files written from the tables (CSV exports, JSON
      summaries), but for the counts of the match summary.
    - A Python dict that is only read by key is given by its lookup. *)

From Stdlib Require Import String Ascii List ZArith Bool Arith Lia.
From Stdlib Require Import Permutation DecimalString OrderedTypeEx.
From Stdlib Require Import Floats.PrimFloat.
Import ListNotations.

Local Open Scope string_scope.
Local Open Scope Z_scope.

(* ================================================================== *)
(** * Part I. The embedding                                            *)
(* ================================================================== *)

(** ** Python text primitives *)

Definition code (c : ascii) : nat := nat_of_ascii c.

Definition in_range (lo hi : nat) (c : ascii) : bool :=
  (Nat.leb lo (code c) && Nat.leb (code c) hi)%bool.

Definition is_upper (c : ascii) : bool := in_range 65 90 c.
Definition is_lower (c : ascii) : bool := in_range 97 122 c.
Definition is_digit (c : ascii) : bool := in_range 48 57 c.
Definition is_alpha (c : ascii) : bool := (is_upper c || is_lower c)%bool.
Definition is_alnum (c : ascii) : bool := (is_digit c || is_alpha c)%bool.

(** [str.isspace] on one character: TAB, LF, VT, FF, CR, FS, GS, RS, US
    and SPACE. *)
Definition is_space (c : ascii) : bool :=
  (in_range 9 13 c || in_range 28 32 c)%bool.

Definition lower_char (c : ascii) : ascii :=
  if is_upper c then ascii_of_nat (code c + 32) else c.

Definition upper_char (c : ascii) : ascii :=
  if is_lower c then ascii_of_nat (code c - 32) else c.

Fixpoint map_str (f : ascii -> ascii) (s : string) : string :=
  match s with
  | EmptyString => EmptyString
  | String c s' => String (f c) (map_str f s')
  end.

(** [s.lower()] and [s.upper()]. *)
Definition lower (s : string) : string := map_str lower_char s.
Definition upper (s : string) : string := map_str upper_char s.

(** [s.startswith(p)]. *)
Fixpoint startswith (p s : string) : bool :=
  match p, s with
  | EmptyString, _ => true
  | String a p', String b s' => (Ascii.eqb a b && startswith p' s')%bool
  | String _ _, EmptyString => false
  end.

(** [sub in s]. *)
Fixpoint contains (sub s : string) : bool :=
  (startswith sub s ||
   match s with
   | EmptyString => false
   | String _ s' => contains sub s'
   end)%bool.

(** [s.endswith(suf)]: some tail of [s] is [suf]. *)
Fixpoint endswith (suf s : string) : bool :=
  (String.eqb suf s ||
   match s with
   | EmptyString => false
   | String _ s' => endswith suf s'
   end)%bool.

(** [s.count(c)] for a one-character [c]. *)
Fixpoint count_char (c : ascii) (s : string) : Z :=
  match s with
  | EmptyString => 0
  | String a s' => (if Ascii.eqb a c then 1 else 0) + count_char c s'
  end.

(** [s[:-1]]. *)
Fixpoint drop_last (s : string) : string :=
  match s with
  | EmptyString => EmptyString
  | String _ EmptyString => EmptyString
  | String a s' => String a (drop_last s')
  end.

(** [c in s] for a one-character [c]. *)
Fixpoint has_char (c : ascii) (s : string) : bool :=
  match s with
  | EmptyString => false
  | String a s' => (Ascii.eqb a c || has_char c s')%bool
  end.

Fixpoint all_chars (p : ascii -> bool) (s : string) : bool :=
  match s with
  | EmptyString => true
  | String a s' => (p a && all_chars p s')%bool
  end.

(** The text before the first character satisfying [p], and the text from
    that character on (empty when there is none). *)
Fixpoint break_at (p : ascii -> bool) (s : string) : string * string :=
  match s with
  | EmptyString => (EmptyString, EmptyString)
  | String a s' =>
      if p a then (EmptyString, s)
      else let '(l, r) := break_at p s' in (String a l, r)
  end.

(** [i = s.find(c)] as the pair [(s[:i], s[i+1:])], [None] when [i < 0]. *)
Definition find_char (c : ascii) (s : string) : option (string * string) :=
  match break_at (Ascii.eqb c) s with
  | (l, String _ r) => Some (l, r)
  | (_, EmptyString) => None
  end.

(** [i = s.rfind(c)] as the pair [(s[:i], s[i+1:])], [None] when [i < 0]. *)
Fixpoint rfind_char (c : ascii) (s : string) : option (string * string) :=
  match s with
  | EmptyString => None
  | String a s' =>
      match rfind_char c s' with
      | Some (l, r) => Some (String a l, r)
      | None => if Ascii.eqb a c then Some (EmptyString, s') else None
      end
  end.

Fixpoint filter_str (p : ascii -> bool) (s : string) : string :=
  match s with
  | EmptyString => EmptyString
  | String a s' => if p a then String a (filter_str p s') else filter_str p s'
  end.

(** [s.lstrip(chars)] with [chars] given as a predicate. *)
Fixpoint lstrip_by (p : ascii -> bool) (s : string) : string :=
  match s with
  | EmptyString => EmptyString
  | String a s' => if p a then lstrip_by p s' else s
  end.

(** [re.sub(r"\s+", " ", s)]: every maximal run of white space becomes one
    space.  [in_run] tells that the previous character was white space. *)
Fixpoint collapse_spaces (in_run : bool) (s : string) : string :=
  match s with
  | EmptyString => EmptyString
  | String a s' =>
      if is_space a
      then if in_run then collapse_spaces true s'
           else String " " (collapse_spaces true s')
      else String a (collapse_spaces false s')
  end.

(** [s.rstrip()]. *)
Fixpoint rstrip (s : string) : string :=
  match s with
  | EmptyString => EmptyString
  | String a s' =>
      match rstrip s' with
      | EmptyString => if is_space a then EmptyString else String a EmptyString
      | t => String a t
      end
  end.

(** [s.strip()]. *)
Definition strip (s : string) : string := rstrip (lstrip_by is_space s).

(** [normalize_space], source lines 48-49. *)
Definition normalize_space (value : string) : string :=
  strip (collapse_spaces false value).

(** Truthiness of a Python [str]. *)
Definition truthy (s : string) : bool :=
  match s with EmptyString => false | _ => true end.

Definition mem_str (x : string) (l : list string) : bool :=
  existsb (String.eqb x) l.

(** [dedupe_keep_order], source lines 68-78; [seen] is the set built so
    far. *)
Fixpoint dedupe_from (seen : list string) (values : list string) : list string :=
  match values with
  | [] => []
  | value :: rest =>
      if negb (truthy value) then dedupe_from seen rest
      else if mem_str value seen then dedupe_from seen rest
      else value :: dedupe_from (value :: seen) rest
  end.

Definition dedupe_keep_order (values : list string) : list string :=
  dedupe_from [] values.

(** ** Block-page detection, source lines 86-97 *)

Definition markers : list string :=
  [ "attention required!";
    "cf-challenge";
    "verify you are a human";
    "captcha";
    "access denied";
    "temporarily unavailable" ].

Definition block_score (lowered : string) : Z :=
  fold_right Z.add 0
    (map (fun marker => 1) (filter (fun marker => contains marker lowered) markers)).

Definition detect_block_page (page_html : string) : bool :=
  let lowered := lower page_html in
  let score := block_score lowered in
  ((2 <=? score) || contains "cf-challenge" lowered)%bool.

(** The specification's reading of "marker occurs case-insensitively in
    the page": some stretch of the page equals the marker up to case. *)
Definition occurs_ci (marker page_html : string) : Prop :=
  exists before stretch rest,
    page_html = before ++ stretch ++ rest /\ lower stretch = lower marker.

(** ** Embedded JavaScript values, source lines 107-159 *)

(** [s[len(p):]] when [s.startswith(p)]. *)
Fixpoint strip_prefix (p s : string) : option string :=
  match p, s with
  | EmptyString, _ => Some s
  | String a p', String b s' => if Ascii.eqb a b then strip_prefix p' s' else None
  | String _ _, EmptyString => None
  end.

(** [i = s.find(marker)] as the pair [(s[:i], s[i + len(marker):])],
    [None] when [i < 0]. *)
Fixpoint find_sub (marker s : string) : option (string * string) :=
  match strip_prefix marker s with
  | Some after => Some (EmptyString, after)
  | None =>
      match s with
      | EmptyString => None
      | String a s' =>
          match find_sub marker s' with
          | Some (l, r) => Some (String a l, r)
          | None => None
          end
      end
  end.

(** The double quote character. *)
Definition dquote : ascii := "034".

(** [{"{": "}", "[": "]"}.get(open_ch)]. *)
Definition close_of (open_ch : ascii) : option ascii :=
  if Ascii.eqb open_ch "{" then Some "}"%char
  else if Ascii.eqb open_ch "[" then Some "]"%char
  else None.

(** The variables of the scanning loop, lines 125-128. *)
Record scan := mkScan {
  sc_depth : Z;
  sc_in_string : bool;
  sc_escaped : bool;
  sc_quote_char : string
}.

(** One round of the [for pos in range(idx, length)] loop, lines 131-157:
    the variables after the round, or [None] when the round returns. *)
Definition scan_step (open_ch close_ch : ascii) (st : scan) (ch : ascii)
    : option scan :=
  if sc_in_string st then
    if sc_escaped st
    then Some (mkScan (sc_depth st) true false (sc_quote_char st))
    else if Ascii.eqb ch "\"
    then Some (mkScan (sc_depth st) true true (sc_quote_char st))
    else if String.eqb (String ch EmptyString) (sc_quote_char st)
    then Some (mkScan (sc_depth st) false (sc_escaped st) EmptyString)
    else Some st
  else if (Ascii.eqb ch "'" || Ascii.eqb ch dquote)%bool
  then Some (mkScan (sc_depth st) true (sc_escaped st) (String ch EmptyString))
  else if Ascii.eqb ch open_ch
  then Some (mkScan (sc_depth st + 1) (sc_in_string st) (sc_escaped st)
               (sc_quote_char st))
  else if Ascii.eqb ch close_ch
  then if sc_depth st - 1 =? 0 then None
       else Some (mkScan (sc_depth st - 1) (sc_in_string st) (sc_escaped st)
                    (sc_quote_char st))
  else Some st.

(** The loop from position [idx] on: [page_html[idx : pos + 1]] for the
    round [pos] that returns, [None] when the text ends first. *)
Fixpoint scan_value (open_ch close_ch : ascii) (st : scan) (s : string)
    : option string :=
  match s with
  | EmptyString => None
  | String ch rest =>
      match scan_step open_ch close_ch st ch with
      | None => Some (String ch EmptyString)
      | Some st' =>
          match scan_value open_ch close_ch st' rest with
          | Some v => Some (String ch v)
          | None => None
          end
      end
  end.

(** [extract_js_value], lines 107-159. *)
Definition extract_js_value (page_html marker : string) : option string :=
  match find_sub marker page_html with
  | None => None
  | Some (_, after) =>
      match lstrip_by is_space after with
      | EmptyString => None
      | String open_ch _ as body =>
          match close_of open_ch with
          | None => None
          | Some close_ch =>
              scan_value open_ch close_ch (mkScan 0 false false EmptyString) body
          end
      end
  end.

(** ** The persistent store, source lines 312-664 *)

(** A row of [sitemaps]. *)
Record SitemapRecord := mkSitemap {
  sm_site : string;
  sm_url : string;
  sm_status : string;
  sm_discovered_from : option string;
  sm_item_count : option Z;
  sm_attempts : Z;
  sm_last_error : option string;
  sm_updated_at : string
}.

(** A row of [url_queue]. *)
Record QueueItem := mkQueueItem {
  q_site : string;
  q_url : string;
  q_url_type : string;
  q_status : string;
  q_depth : Z;
  q_discovered_from : option string;
  q_attempts : Z;
  q_last_http_status : option Z;
  q_blocked : Z;
  q_last_error : option string;
  q_updated_at : string
}.

(** A row of [products]. *)
Record ProductRecord := mkProduct {
  p_site : string;
  p_url : string;
  p_sku : option string;
  p_title : option string;
  p_category_path : option string;
  p_payload_json : string;
  p_updated_at : string
}.

(** A row of [sku_index]. *)
Record SkuIndexEntry := mkSkuIndex {
  x_site : string;
  x_sku : string;
  x_url : string;
  x_title : option string;
  x_category_path : option string;
  x_updated_at : string
}.

Record IndexDb := mkDb {
  sitemaps : list SitemapRecord;
  url_queue : list QueueItem;
  products : list ProductRecord;
  sku_index : list SkuIndexEntry
}.

Definition empty_db : IndexDb := mkDb [] [] [] [].

Definition with_sitemaps (db : IndexDb) (t : list SitemapRecord) : IndexDb :=
  mkDb t (url_queue db) (products db) (sku_index db).
Definition with_url_queue (db : IndexDb) (t : list QueueItem) : IndexDb :=
  mkDb (sitemaps db) t (products db) (sku_index db).
Definition with_products (db : IndexDb) (t : list ProductRecord) : IndexDb :=
  mkDb (sitemaps db) (url_queue db) t (sku_index db).
Definition with_sku_index (db : IndexDb) (t : list SkuIndexEntry) : IndexDb :=
  mkDb (sitemaps db) (url_queue db) (products db) t.

(** [COALESCE(?, column)]. *)
Definition coalesce {A : Type} (new old : option A) : option A :=
  match new with Some _ => new | None => old end.

Definition sitemap_key (site url : string) (r : SitemapRecord) : bool :=
  (String.eqb (sm_site r) site && String.eqb (sm_url r) url)%bool.

Definition queue_key (site url : string) (r : QueueItem) : bool :=
  (String.eqb (q_site r) site && String.eqb (q_url r) url)%bool.

Definition product_key (site url : string) (r : ProductRecord) : bool :=
  (String.eqb (p_site r) site && String.eqb (p_url r) url)%bool.

Definition sku_key (site sku url : string) (r : SkuIndexEntry) : bool :=
  (String.eqb (x_site r) site && String.eqb (x_sku r) sku
   && String.eqb (x_url r) url)%bool.

(** [enqueue_sitemap], lines 378-386: [INSERT ... ON CONFLICT DO NOTHING]. *)
Definition enqueue_sitemap (db : IndexDb) (site url : string)
    (discovered_from : option string) (now : string) : IndexDb :=
  if existsb (sitemap_key site url) (sitemaps db) then db
  else with_sitemaps db
         (sitemaps db ++
          [mkSitemap site url "pending" discovered_from None 0 None now]).

(** [set_sitemap_status], lines 388-407. *)
Definition set_sitemap_status (db : IndexDb) (site url status : string)
    (item_count : option Z) (error : option string) (now : string) : IndexDb :=
  with_sitemaps db
    (map (fun r =>
            if sitemap_key site url r
            then mkSitemap (sm_site r) (sm_url r) status (sm_discovered_from r)
                   (coalesce item_count (sm_item_count r))
                   (sm_attempts r + 1) error now
            else r)
         (sitemaps db)).

(** [ORDER BY ... LIMIT 1]: the first row, in table order, that no other
    row precedes strictly. *)
Fixpoint first_min {A : Type} (lt : A -> A -> bool) (best : option A)
    (rows : list A) : option A :=
  match rows with
  | [] => best
  | r :: rest =>
      match best with
      | None => first_min lt (Some r) rest
      | Some b => first_min lt (Some (if lt r b then r else b)) rest
      end
  end.

Definition sitemap_before (a b : SitemapRecord) : bool :=
  ((sm_attempts a <? sm_attempts b) ||
   ((sm_attempts a =? sm_attempts b) &&
    String.ltb (sm_updated_at a) (sm_updated_at b)))%bool.

(** [next_pending_sitemap], lines 409-422. *)
Definition next_pending_sitemap (db : IndexDb) (site : string) : option string :=
  match first_min sitemap_before None
          (filter (fun r => (String.eqb (sm_site r) site
                             && String.eqb (sm_status r) "pending")%bool)
                  (sitemaps db)) with
  | None => None
  | Some row => Some (sm_url row)
  end.

(** [enqueue_url], lines 424-439: [INSERT ... ON CONFLICT DO NOTHING]. *)
Definition enqueue_url (db : IndexDb) (site url url_type : string) (depth : Z)
    (discovered_from : option string) (now : string) : IndexDb :=
  if existsb (queue_key site url) (url_queue db) then db
  else with_url_queue db
         (url_queue db ++
          [mkQueueItem site url url_type "pending" depth discovered_from
             0 None 0 None now]).

(** The [ORDER BY depth ASC, attempts ASC, updated_at ASC] comparison. *)
Definition queue_before (a b : QueueItem) : bool :=
  ((q_depth a <? q_depth b) ||
   ((q_depth a =? q_depth b) &&
    ((q_attempts a <? q_attempts b) ||
     ((q_attempts a =? q_attempts b) &&
      String.ltb (q_updated_at a) (q_updated_at b)))))%bool.

(** The [WHERE] clause of [next_pending_url]. *)
Definition pending_candidate (site : string) (allowed_types : list string)
    (max_depth : Z) (r : QueueItem) : bool :=
  (String.eqb (q_site r) site
   && String.eqb (q_status r) "pending"
   && mem_str (q_url_type r) allowed_types
   && (q_depth r <=? max_depth))%bool.

(** [next_pending_url], lines 441-457. *)
Definition next_pending_url (db : IndexDb) (site : string)
    (allowed_types : list string) (max_depth : Z) : option QueueItem :=
  first_min queue_before None
    (filter (pending_candidate site allowed_types max_depth) (url_queue db)).




(** [set_url_status], lines 459-480. *)
Definition set_url_status (db : IndexDb) (site url status : string)
    (http_status : option Z) (blocked : bool) (error : option string)
    (now : string) : IndexDb :=
  with_url_queue db
    (map (fun r =>
            if queue_key site url r
            then mkQueueItem (q_site r) (q_url r) (q_url_type r) status
                   (q_depth r) (q_discovered_from r) (q_attempts r + 1)
                   (coalesce http_status (q_last_http_status r))
                   (if blocked then 1 else 0) error now
            else r)
         (url_queue db)).

(** Truthiness of an [Optional[str]]. *)
Definition truthy_opt (s : option string) : bool :=
  match s with Some t => truthy t | None => false end.

(** The first statement of [upsert_product], lines 492-504. *)
Definition upsert_products_row (rows : list ProductRecord) (site url : string)
    (sku title category_path : option string) (payload_json now : string)
    : list ProductRecord :=
  if existsb (product_key site url) rows
  then map (fun r =>
              if product_key site url r
              then mkProduct (p_site r) (p_url r) sku title category_path
                     payload_json now
              else r) rows
  else rows ++ [mkProduct site url sku title category_path payload_json now].

(** The second statement of [upsert_product], lines 506-516. *)
Definition upsert_sku_index_row (rows : list SkuIndexEntry)
    (site sku url : string) (title category_path : option string)
    (now : string) : list SkuIndexEntry :=
  if existsb (sku_key site sku url) rows
  then map (fun r =>
              if sku_key site sku url r
              then mkSkuIndex (x_site r) (x_sku r) (x_url r) title
                     category_path now
              else r) rows
  else rows ++ [mkSkuIndex site sku url title category_path now].

(** [upsert_product], lines 482-516.  [payload_json] is
    [json.dumps(payload, ensure_ascii=False)]; [now1] and [now2] are the
    two readings of the clock. *)
Definition upsert_product (db : IndexDb) (site url : string)
    (sku title category_path : option string) (payload_json : string)
    (now1 now2 : string) : IndexDb :=
  let db1 :=
    with_products db
      (upsert_products_row (products db) site url sku title category_path
         payload_json now1) in
  match sku with
  | Some s =>
      if truthy s
      then with_sku_index db1
             (upsert_sku_index_row (sku_index db1) site s url title
                category_path now2)
      else db1
  | None => db1
  end.

Definition resets (site : string) (r : QueueItem) : bool :=
  (String.eqb (q_site r) site
   && (String.eqb (q_status r) "error" || String.eqb (q_status r) "blocked"))%bool.

(** [reset_errors], lines 518-527: the new store and [cur.rowcount]. *)
Definition reset_errors (db : IndexDb) (site now : string) : IndexDb * Z :=
  (with_url_queue db
     (map (fun r =>
             if resets site r
             then mkQueueItem (q_site r) (q_url r) (q_url_type r) "pending"
                    (q_depth r) (q_discovered_from r) (q_attempts r)
                    (q_last_http_status r) 0 None now
             else r)
          (url_queue db)),
   Z.of_nat (List.length (filter (resets site) (url_queue db)))).

(** A row of [articles_found.csv]. *)
Record FoundRow := mkFound {
  f_article : string;
  f_site : string;
  f_url : string;
  f_title : option string;
  f_category_path : option string;
  f_updated_at : string
}.

(** The found row written for a matching index row, lines 624-633. *)
Definition found_row (article : string) (row : SkuIndexEntry) : FoundRow :=
  mkFound article (x_site row) (x_url row) (x_title row)
    (x_category_path row) (x_updated_at row).

(** [ORDER BY updated_at DESC]: insertion into a list already in
    descending order, after the rows that are not smaller. *)
Fixpoint insert_desc (r : SkuIndexEntry) (sorted : list SkuIndexEntry)
    : list SkuIndexEntry :=
  match sorted with
  | [] => [r]
  | h :: t =>
      if String.ltb (x_updated_at h) (x_updated_at r)
      then r :: sorted
      else h :: insert_desc r t
  end.

Fixpoint sort_desc (rows : list SkuIndexEntry) : list SkuIndexEntry :=
  match rows with
  | [] => []
  | r :: rest => insert_desc r (sort_desc rest)
  end.

(** The query of [match_articles], lines 611-619. *)
Definition select_by_sku (db : IndexDb) (article : string) : list SkuIndexEntry :=
  sort_desc (filter (fun r => String.eqb (x_sku r) article) (sku_index db)).

(** Lines 604-605. *)
Definition clean_articles (articles : list string) : list string :=
  dedupe_keep_order
    (map (fun a => upper (normalize_space a))
         (filter (fun a => truthy (normalize_space a)) articles)).

(** The loop of [match_articles], lines 610-633: the rows written to
    [articles_found.csv] and to [articles_missing.csv]. *)
Fixpoint match_loop (db : IndexDb) (cleaned : list string)
    : list FoundRow * list string :=
  match cleaned with
  | [] => ([], [])
  | article :: rest =>
      let '(found_rows, missing_rows) := match_loop db rest in
      match select_by_sku db article with
      | [] => (found_rows, article :: missing_rows)
      | rows =>
          ((map (found_row article) rows ++ found_rows)%list,
           missing_rows)
      end
  end.

Definition match_articles (db : IndexDb) (articles : list string)
    : list FoundRow * list string :=
  match_loop db (clean_articles articles).

(** ** Statistics, the articles of the command line and the summary of a
    match *)

(** [stats], lines 529-549.  Each of the two dicts built at line 537 is
    given by its lookup: the count of a status, 0 for a status that is no
    key of the dict. *)
Definition group_count {A : Type} (site_of status_of : A -> string)
    (rows : list A) (site status : string) : Z :=
  Z.of_nat
    (List.length
       (filter (fun r => (String.eqb (site_of r) site
                          && String.eqb (status_of r) status)%bool) rows)).

Record Stats := mkStats {
  stats_sitemaps : string -> Z;
  stats_url_queue : string -> Z;
  stats_products_with_sku : Z;
  stats_distinct_skus : Z
}.

Definition stats (db : IndexDb) (site : string) : Stats :=
  mkStats
    (group_count sm_site sm_status (sitemaps db) site)
    (group_count q_site q_status (url_queue db) site)
    (Z.of_nat
       (List.length
          (filter (fun p => (String.eqb (p_site p) site && truthy_opt (p_sku p))%bool)
                  (products db))))
    (Z.of_nat
       (List.length
          (nodup string_dec
             (map x_sku
                (filter (fun e => String.eqb (x_site e) site) (sku_index db)))))).

(** [s.split(sep)] for a one-character [sep]. *)
Fixpoint split_on (sep : ascii) (s : string) : list string :=
  match s with
  | EmptyString => [EmptyString]
  | String c s' =>
      if Ascii.eqb c sep then EmptyString :: split_on sep s'
      else match split_on sep s' with
           | [] => [String c EmptyString]
           | field :: rest => String c field :: rest
           end
  end.

(** The articles of [--articles], [run_match] lines 1111-1112. *)
Definition cli_articles (articles : string) : list string :=
  dedupe_keep_order
    (map (fun a => upper (normalize_space a))
       (filter (fun a => truthy (normalize_space a)) (split_on "," articles))).

(** The three counts of [articles_summary.json], lines 648-651. *)
Record Summary := mkSummary {
  total_articles : Z;
  found_articles : Z;
  missing_articles : Z
}.

Definition match_summary (db : IndexDb) (articles : list string) : Summary :=
  let cleaned := clean_articles articles in
  let missing_rows := snd (match_loop db cleaned) in
  mkSummary (Z.of_nat (List.length cleaned))
    (Z.of_nat (List.length cleaned) - Z.of_nat (List.length missing_rows))
    (Z.of_nat (List.length missing_rows)).

(** ** Exceptions *)

(** The exceptions the program tells apart: [urllib.error.HTTPError]
    with its status code, and every other [Exception]; [text] is
    [str(exc)]. *)
Inductive exn : Type :=
| HTTPError (code : Z) (text : string)
| Exception (text : string).

Inductive result (A : Type) : Type :=
| Ok (a : A)
| Raise (e : exn).

Arguments Ok {A} a.
Arguments Raise {A} e.

Definition bind {A B : Type} (m : result A) (k : A -> result B) : result B :=
  match m with
  | Ok a => k a
  | Raise e => Raise e
  end.

Notation "x <- m ;; k" := (bind m (fun x => k))
  (at level 61, m at next level, right associativity).

Definition exn_text (e : exn) : string :=
  match e with
  | HTTPError _ text => text
  | Exception text => text
  end.

(** [safe_exc], lines 81-83. *)
Definition safe_exc (e : exn) : string :=
  substring 0 1200 (normalize_space (exn_text e)).

(** ** robots.txt, source lines 667-676 *)

(** The line boundaries of [str.splitlines]: LF, VT, FF, CR, FS, GS, RS
    (and CR LF as one boundary). *)
Definition is_linebreak (c : ascii) : bool :=
  (in_range 10 13 c || in_range 28 30 c)%bool.

(** [s.splitlines()]. *)
Fixpoint splitlines (s : string) : list string :=
  match s with
  | EmptyString => []
  | String c s' =>
      if is_linebreak c
      then EmptyString ::
             match s' with
             | String c2 s'' =>
                 if (Nat.eqb (code c) 13 && Nat.eqb (code c2) 10)%bool
                 then splitlines s'' else splitlines s'
             | EmptyString => []
             end
      else match splitlines s' with
           | [] => [String c EmptyString]
           | line :: rest => String c line :: rest
           end
  end.

(** One round of the loop of [parse_robots_for_sitemaps], lines 670-675:
    what the line adds to [out].  [line_clean.split(":", 1)[1]] raises
    [IndexError] when the line holds no colon. *)
Definition robots_line (line : string) : result (list string) :=
  let line_clean := strip line in
  if negb (startswith "sitemap:" (lower line_clean)) then Ok []
  else
    match find_char ":" line_clean with
    | None => Raise (Exception "list index out of range")
    | Some (_, after) =>
        let url := normalize_space after in
        if truthy url then Ok [url] else Ok []
    end.

Fixpoint robots_lines (lines : list string) : result (list string) :=
  match lines with
  | [] => Ok []
  | line :: rest =>
      found <- robots_line line ;;
      more <- robots_lines rest ;;
      Ok (found ++ more)%list
  end.

(** [parse_robots_for_sitemaps], lines 667-676. *)
Definition parse_robots_for_sitemaps (robots_text : string)
    : result (list string) :=
  out <- robots_lines (splitlines robots_text) ;;
  Ok (dedupe_keep_order out).

(** ** The environment *)

(** What [self.opener.open(req, timeout=...)] followed by [resp.read()]
    does on one attempt. *)
Inductive response : Type :=
| Response (raw : string) (headers : list (string * string))
| HttpFailure (code : Z) (text : string)
    (** raises [HTTPError] *)
| NetworkFailure (text : string)
    (** raises [URLError] (not [HTTPError]), [TimeoutError] or
        [ConnectionError] *)
| OtherFailure (text : string).
    (** raises anything else *)

(** The sleeps: [Backoff attempt] is the [time.sleep(1.2 * attempt)] of
    the HTTP client, [Pause secs] the sleep of [secs] seconds between two
    rounds of a crawl loop. *)
Inductive effect : Type :=
| Backoff (attempt : Z)
| Pause (secs : float).

Definition headers_t : Type := list (string * string).

(** What the program takes from outside, and the two page scrapers,
    which are taken as given. *)
Record Environment := mkEnv {
  (** [urlsplit] hands the network location to two validators,
      [_check_bracketed_netloc] (when it holds both brackets) and
      [_checknetloc] (when it holds non-ASCII characters); each either
      returns or raises [ValueError].  [netloc_error nl] is the message
      of the [ValueError] raised for [nl], if any.  Both are functions of
      the network location alone. *)
  env_netloc_error : string -> option string;
  (** The network: the outcome of the [attempt]-th try of fetching [url]
      within one call of [get_bytes]. *)
  env_opener_open : string -> Z -> response;
  (** [bytes.decode(charset, errors="ignore")]: [None] when the codec is
      unknown ([LookupError]). *)
  env_decode : string -> string -> option string;
  (** [gzip.decompress]. *)
  env_gunzip : string -> result string;
  (** [ET.fromstring(payload)] followed by [root.iter()]: the elements in
      document order, each with its [tag] and [text]. *)
  env_xml_iter : string -> result (list (string * option string));
  (** [clock n] is what the [n]-th reading of [now_iso()] that stamps a
      row returns. *)
  env_clock : nat -> string;
  (** [parse_product(site_key, page_html, page_url)], lines 819-824: the
      entries [sku], [title] and [category_path] of the dict it returns.
      The page parsers are best-effort HTML scrapers and do not raise. *)
  env_parse_product :
    string -> string -> string
    -> option string * option string * option string;
  (** [extract_links(page_html, page_url)], lines 162-173. *)
  env_extract_links : string -> string -> result (list string);
  (** [json.dumps({"headers": headers, "url_type": url_type},
      ensure_ascii=False)]. *)
  env_json_dumps_payload : headers_t -> string -> string;
  (** [random.uniform(a, b)] at the [n]-th draw of the run, counted
      from 0. *)
  env_uniform : nat -> float -> float -> float;
  (** [time.sleep(secs)]: what it raises, if anything ([ValueError] for
      a negative length and for NaN, [OverflowError] for a length too
      large). *)
  env_sleep : float -> option exn
}.

(** The state of a crawl: the store, the number of clock readings taken,
    and the sleeps so far. *)
Record state := mkState {
  st_db : IndexDb;
  st_tick : nat;
  st_trace : list effect
}.

(** ** Sample data, for the examples of Part III *)

(** A clock that counts. *)
Definition counting_clock (n : nat) : string :=
  "t" ++ DecimalString.NilZero.string_of_uint (Nat.to_uint n).

(** A generator that always draws the middle of the interval. *)
Definition midpoint (_ : nat) (a b : float) : float :=
  (a + (b - a) * 0.5)%float.

(** A [time.sleep] that refuses the lengths below 0 and NaN. *)
Definition sleep_checked (secs : float) : option exn :=
  if PrimFloat.ltb secs 0%float
  then Some (Exception "sleep length must be non-negative")
  else if PrimFloat.eqb secs secs then None
  else Some (Exception "Invalid value NaN (not a number)").

(** An environment where every host is accepted, every fetch fails at
    the network level, the scrapers find nothing, and the pauses are of
    middle length. *)
Definition offline : Environment :=
  mkEnv (fun _ => None)
    (fun _ _ => NetworkFailure "<urlopen error timed out>")
    (fun _ raw => Some raw)
    (fun _ => Raise (Exception "Not a gzipped file"))
    (fun _ => Raise (Exception "syntax error"))
    counting_clock
    (fun _ _ _ => (None, None, None))
    (fun _ _ => Ok [])
    (fun _ _ => "{}")
    midpoint
    sleep_checked.

(** The same, with another network. *)
Definition with_network (opener : string -> Z -> response)
    (xml : string -> result (list (string * option string))) : Environment :=
  mkEnv (env_netloc_error offline) opener (env_decode offline)
    (env_gunzip offline) xml (env_clock offline) (env_parse_product offline)
    (env_extract_links offline) (env_json_dumps_payload offline)
    (env_uniform offline) (env_sleep offline).

(** A server that answers every request with 404. *)
Definition always_404 : Environment :=
  with_network (fun _ _ => HttpFailure 404 "HTTP Error 404: Not Found")
    (env_xml_iter offline).

Definition dress_row : QueueItem :=
  mkQueueItem "twinset.ru" "https://twinset.ru/catalog/dresses/123/" "product"
    "pending" 1 (Some "https://twinset.ru/catalog/") 0 None 0 None "t0".

Definition dress_state : state := mkState (mkDb [] [dress_row] [] []) 1 [].

Definition two_rows : IndexDb :=
  mkDb []
    [ mkQueueItem "twinset.ru" "https://twinset.ru/catalog/a/1/" "product"
        "error" 1 None 2 (Some 500) 0 (Some "HTTP Error 500") "t3";
      mkQueueItem "twinset.com" "https://www.twinset.com/row/women" "category"
        "blocked" 0 None 1 (Some 200) 1 (Some "captcha_or_block") "t4" ]
    [] [].

Definition three_pending : IndexDb :=
  mkDb []
    [ mkQueueItem "twinset.ru" "https://twinset.ru/catalog/a/1/" "product"
        "pending" 1 None 0 None 0 None "t3";
      mkQueueItem "twinset.ru" "https://twinset.ru/catalog/b/" "category"
        "pending" 0 None 1 None 0 None "t1";
      mkQueueItem "twinset.ru" "https://twinset.ru/catalog/c/" "category"
        "pending" 0 None 0 None 0 None "t2";
      mkQueueItem "twinset.com" "https://www.twinset.com/row/women" "category"
        "pending" 0 None 0 None 0 None "t0" ]
    [] [].

Definition variants : IndexDb :=
  mkDb [] [] []
    [ mkSkuIndex "twinset.com" "ABC123" "https://www.twinset.com/row/a-abc123_1.html"
        (Some "Dress") None "t1";
      mkSkuIndex "twinset.com" "XYZ999" "https://www.twinset.com/row/x.html"
        None None "t2";
      mkSkuIndex "twinset.com" "ABC123" "https://www.twinset.com/row/a-abc123_2.html"
        (Some "Dress") None "t3" ].

Definition idx_url : string := "https://www.twinset.com/sitemap_index.xml".
Definition leaf1_url : string := "https://www.twinset.com/sitemap_0-product.xml".
Definition leaf2_url : string := "https://www.twinset.com/sitemap_1-product.xml".
Definition dress_url : string :=
  "https://www.twinset.com/row/long-dress-241tp2130_00006.html".
Definition skirt_url : string :=
  "https://www.twinset.com/row/short-skirt-242tt2041_00330.html".

(** A site with a sitemap index, two leaf sitemaps and nothing else. *)
Definition small_site : Environment :=
  with_network
    (fun url _ =>
       if String.eqb url idx_url then Response "index" []
       else if String.eqb url leaf1_url then Response "leaf 1" []
       else if String.eqb url leaf2_url then Response "leaf 2" []
       else HttpFailure 404 "HTTP Error 404: Not Found")
    (fun payload =>
       if String.eqb payload "index"
       then Ok [ ("{http://www.sitemaps.org/schemas/sitemap/0.9}sitemapindex", None);
                 ("{http://www.sitemaps.org/schemas/sitemap/0.9}sitemap", None);
                 ("{http://www.sitemaps.org/schemas/sitemap/0.9}loc", Some leaf1_url);
                 ("{http://www.sitemaps.org/schemas/sitemap/0.9}sitemap", None);
                 ("{http://www.sitemaps.org/schemas/sitemap/0.9}loc", Some leaf2_url) ]
       else if String.eqb payload "leaf 1"
       then Ok [ ("{http://www.sitemaps.org/schemas/sitemap/0.9}urlset", None);
                 ("{http://www.sitemaps.org/schemas/sitemap/0.9}url", None);
                 ("{http://www.sitemaps.org/schemas/sitemap/0.9}loc", Some dress_url) ]
       else if String.eqb payload "leaf 2"
       then Ok [ ("{http://www.sitemaps.org/schemas/sitemap/0.9}urlset", None);
                 ("{http://www.sitemaps.org/schemas/sitemap/0.9}url", None);
                 ("{http://www.sitemaps.org/schemas/sitemap/0.9}loc", Some skirt_url) ]
       else Raise (Exception "syntax error")).

Definition fresh_with_index : state :=
  mkState (enqueue_sitemap empty_db "twinset.com" idx_url None "t0") 1 [].

(** A network that fails once at the network level, then answers 503,
    then answers. *)
Definition flaky : Environment :=
  with_network
    (fun _ attempt =>
       if attempt =? 1 then NetworkFailure "<urlopen error timed out>"
       else if attempt =? 2
       then HttpFailure 503 "HTTP Error 503: Service Unavailable"
       else Response "ok" [("Content-Type", "text/html")])
    (env_xml_iter offline).

(** A site that answers every request with a challenge page. *)
Definition challenge_site : Environment :=
  with_network
    (fun _ _ => Response "<html><div id='cf-challenge'>wait</div></html>" [])
    (env_xml_iter offline).

Definition pending_state : state := mkState three_pending 4 [].

(** A site that names its charset and whose every page links to two
    categories and to a page of another host. *)
Definition linked_site : Environment :=
  mkEnv (env_netloc_error offline)
    (fun _ _ =>
       Response "<html></html>"
         [("Content-Type", "text/html; charset=ISO-8859-1")])
    (fun charset raw =>
       if String.eqb (lower charset) "iso-8859-1" then Some raw
       else if String.eqb (lower charset) "utf-8" then Some raw
       else None)
    (env_gunzip offline) (env_xml_iter offline) (env_clock offline)
    (env_parse_product offline)
    (fun _ _ => Ok [ "https://twinset.ru/catalog/dresses/";
                     "https://twinset.ru/catalog/skirts/";
                     "https://example.com/x" ])
    (env_json_dumps_payload offline) (env_uniform offline) (env_sleep offline).

Section Indexer.

Variable env : Environment.

Local Abbreviation netloc_error := (env_netloc_error env).
Local Abbreviation opener_open := (env_opener_open env).
Local Abbreviation decode := (env_decode env).
Local Abbreviation gunzip := (env_gunzip env).
Local Abbreviation xml_iter := (env_xml_iter env).
Local Abbreviation clock := (env_clock env).
Local Abbreviation parse_product := (env_parse_product env).
Local Abbreviation extract_links := (env_extract_links env).
Local Abbreviation json_dumps_payload := (env_json_dumps_payload env).
Local Abbreviation uniform := (env_uniform env).
Local Abbreviation sleep := (env_sleep env).

(** ** [urllib.parse], as used by [strip_query_and_fragment] *)

Definition uses_netloc : list string :=
  [ ""; "ftp"; "http"; "gopher"; "nntp"; "telnet"; "imap"; "wais"; "file";
    "mms"; "https"; "shttp"; "snews"; "prospero"; "rtsp"; "rtspu"; "rsync";
    "svn"; "svn+ssh"; "sftp"; "nfs"; "git"; "git+ssh"; "ws"; "wss" ].

Definition uses_params : list string :=
  [ ""; "ftp"; "hdl"; "prospero"; "http"; "imap"; "https"; "shttp"; "rtsp";
    "rtspu"; "sip"; "sips"; "mms"; "sftp"; "tel" ].

Definition scheme_char (c : ascii) : bool :=
  (is_alnum c || has_char c "+-.")%bool.

(** [_WHATWG_C0_CONTROL_OR_SPACE]. *)
Definition is_c0_or_space (c : ascii) : bool := Nat.leb (code c) 32.

(** Not one of [_UNSAFE_URL_BYTES_TO_REMOVE] (TAB, CR, LF). *)
Definition is_safe_byte (c : ascii) : bool :=
  negb (Nat.eqb (code c) 9 || Nat.eqb (code c) 13 || Nat.eqb (code c) 10).

Definition is_netloc_delim (c : ascii) : bool := has_char c "/?#".

Record SplitResult := mkSplit {
  s_scheme : string;
  s_netloc : string;
  s_path : string;
  s_query : string;
  s_fragment : string
}.

Record ParseResult := mkParse {
  scheme : string;
  netloc : string;
  path : string;
  params : string;
  query : string;
  fragment : string
}.

(** The scheme test of [urlsplit]: [i = url.find(':')], [i > 0], a
    letter first, scheme characters up to [i]. *)
Definition split_scheme (url : string) : string * string :=
  match find_char ":" url with
  | Some (String c0 pre, rest) =>
      if (is_alpha c0 && all_chars scheme_char (String c0 pre))%bool
      then (lower (String c0 pre), rest)
      else (EmptyString, url)
  | _ => (EmptyString, url)
  end.

(** The bracket test of [urlsplit]. *)
Definition unbalanced_brackets (nl : string) : bool :=
  ((has_char "[" nl && negb (has_char "]" nl)) ||
   (has_char "]" nl && negb (has_char "[" nl)))%bool.

(** [url[:2] == '//'] and [_splitnetloc(url, 2)]. *)
Definition split_netloc (url : string) : option (string * string) :=
  match url with
  | String "/" (String "/" rest) => Some (break_at is_netloc_delim rest)
  | _ => None
  end.

(** [url.split(c, 1)] when [c in url], else [(url, "")]. *)
Definition split_once (c : ascii) (url : string) : string * string :=
  match find_char c url with
  | Some (l, r) => (l, r)
  | None => (url, EmptyString)
  end.

Definition urlsplit (url0 : string) : result SplitResult :=
  let url := filter_str is_safe_byte (lstrip_by is_c0_or_space url0) in
  let '(scheme, url) := split_scheme url in
  let '(netloc, url) :=
    match split_netloc url with
    | Some (nl, rest) => (nl, rest)
    | None => (EmptyString, url)
    end in
  if unbalanced_brackets netloc then Raise (Exception "Invalid IPv6 URL")
  else
    let '(url, fragment) := split_once "#" url in
    let '(url, query) := split_once "?" url in
    match netloc_error netloc with
    | Some msg => Raise (Exception msg)
    | None => Ok (mkSplit scheme netloc url query fragment)
    end.

(** [_splitparams]. *)
Definition splitparams (url : string) : string * string :=
  match rfind_char "/" url with
  | Some (before, after) =>
      match find_char ";" after with
      | Some (a, b) => (before ++ String "/" a, b)
      | None => (url, EmptyString)
      end
  | None =>
      match find_char ";" url with
      | Some (a, b) => (a, b)
      | None => (url, EmptyString)
      end
  end.

Definition urlparse (url : string) : result ParseResult :=
  sp <- urlsplit url ;;
  let '(url, params) :=
    if (mem_str (s_scheme sp) uses_params && has_char ";" (s_path sp))%bool
    then splitparams (s_path sp)
    else (s_path sp, EmptyString) in
  Ok (mkParse (s_scheme sp) (s_netloc sp) url params (s_query sp)
        (s_fragment sp)).

Definition urlunsplit (scheme netloc url query fragment : string) : string :=
  let url :=
    if (truthy netloc ||
        (truthy scheme && mem_str scheme uses_netloc
         && negb (startswith "//" url)))%bool
    then
      let url :=
        if (truthy url && negb (startswith "/" url))%bool
        then String "/" url else url in
      "//" ++ netloc ++ url
    else url in
  let url := if truthy scheme then scheme ++ ":" ++ url else url in
  let url := if truthy query then url ++ "?" ++ query else url in
  let url := if truthy fragment then url ++ "#" ++ fragment else url in
  url.

(** [ParseResult.geturl], that is [urlunparse]. *)
Definition geturl (r : ParseResult) : string :=
  let url := if truthy (params r) then path r ++ ";" ++ params r else path r in
  urlunsplit (scheme r) (netloc r) url (query r) (fragment r).

(** The condition of the [if] at line 63. *)
Definition trailing_slash_rule (parsed : ParseResult) (normalized : string)
    : bool :=
  (endswith "/" normalized
   && endswith "twinset.com" (netloc parsed)
   && (3 <? count_char "/" normalized))%bool.

(** [strip_query_and_fragment], lines 59-65. *)
Definition strip_query_and_fragment (url : string) : result string :=
  parsed <- urlparse url ;;
  let clean :=
    mkParse (scheme parsed) (netloc parsed) (path parsed) (params parsed)
      EmptyString EmptyString in
  let normalized := geturl clean in
  if trailing_slash_rule parsed normalized
  then Ok (drop_last normalized)
  else Ok normalized.

(** ** Regular expressions ([re]), as far as the program uses them

    [matches r s] lists, in the order in which the backtracking matcher
    of [re] tries them, the texts that can remain after [r] has matched
    a prefix of [s].  Repetition is greedy.  One round of a [Star] has to
    consume a character (every starred expression of the program is a
    character class). *)

Inductive regex : Type :=
| Eps
| Sym (p : ascii -> bool)
| Cat (r1 r2 : regex)
| Alt (r1 r2 : regex)
| Star (r : regex)
| Eol.

Fixpoint star_iter (step : string -> list string) (fuel : nat) (s : string)
    : list string :=
  match fuel with
  | O => [s]
  | S fuel' =>
      (flat_map
         (fun s' =>
            if Nat.ltb (String.length s') (String.length s)
            then star_iter step fuel' s' else [])
         (step s)
       ++ [s])%list
  end.

(** [$] without [re.MULTILINE]: at the end, or before a final newline. *)
Definition at_eol (s : string) : bool :=
  match s with
  | EmptyString => true
  | String c EmptyString => Nat.eqb (code c) 10
  | _ => false
  end.

Fixpoint matches (r : regex) (s : string) {struct r} : list string :=
  match r with
  | Eps => [s]
  | Sym p =>
      match s with
      | String c s' => if p c then [s'] else []
      | EmptyString => []
      end
  | Cat r1 r2 => flat_map (matches r2) (matches r1 s)
  | Alt r1 r2 => (matches r1 s ++ matches r2 s)%list
  | Star r1 => star_iter (matches r1) (String.length s) s
  | Eol => if at_eol s then [s] else []
  end.

(** [re.match(r, s)] is not [None]. *)
Definition re_match (r : regex) (s : string) : bool :=
  match matches r s with [] => false | _ => true end.

(** The text of [s] before its tail [rest]. *)
Definition consumed (s rest : string) : string :=
  substring 0 (String.length s - String.length rest) s.

(** [re.match] of [pre (g) post] at the start of [s]: [group(1)] of the
    first match the backtracking finds. *)
Definition match_group (pre g post : regex) (s : string) : option string :=
  hd_error
    (flat_map
       (fun s1 =>
          flat_map
            (fun s2 =>
               match matches post s2 with
               | [] => []
               | _ => [consumed s1 s2]
               end)
            (matches g s1))
       (matches pre s)).

(** [re.search] of [pre (g) post] in [s]: the leftmost start wins. *)
Fixpoint search_group (pre g post : regex) (s : string) : option string :=
  match match_group pre g post s with
  | Some x => Some x
  | None =>
      match s with
      | EmptyString => None
      | String _ s' => search_group pre g post s'
      end
  end.

(** Pattern syntax.  All patterns of the classifier are compiled with
    [re.IGNORECASE]: a literal matches both cases of a letter. *)
Definition chr_ci (c : ascii) : regex :=
  Sym (fun x => Ascii.eqb (lower_char x) (lower_char c)).

Fixpoint lit_ci (s : string) : regex :=
  match s with
  | EmptyString => Eps
  | String c s' => Cat (chr_ci c) (lit_ci s')
  end.

(** [.]: any character but a newline. *)
Definition dot : regex := Sym (fun x => negb (Nat.eqb (code x) 10)).
(** [\d]. *)
Definition digit : regex := Sym is_digit.
(** [[a-z]] and [[A-Z]] under [re.IGNORECASE]. *)
Definition letter : regex := Sym is_alpha.
(** [[0-9A-Z]] under [re.IGNORECASE]. *)
Definition alnum : regex := Sym is_alnum.

Definition plus (r : regex) : regex := Cat r (Star r).
Definition opt (r : regex) : regex := Alt r Eps.

(** [r{n}]. *)
Fixpoint times (n : nat) (r : regex) : regex :=
  match n with
  | O => Eps
  | S n' => Cat r (times n' r)
  end.

(** [r{0,n}]. *)
Fixpoint upto (n : nat) (r : regex) : regex :=
  match n with
  | O => Eps
  | S n' => opt (Cat r (upto n' r))
  end.

(** ** Site configuration, lines 176-219 *)

Record SiteConfig := mkSite {
  key : string;
  base_url : string;
  sitemap_candidates : list string;
  seed_category_urls : list string;
  product_url_re : regex;
  category_url_re : regex
}.

(** The pattern "^https://twinset\.ru/catalog/.+/\d+/?$". *)
Definition twinset_ru_product_re : regex :=
  Cat (lit_ci "https://twinset.ru/catalog/")
    (Cat (plus dot)
       (Cat (chr_ci "/") (Cat (plus digit) (Cat (opt (chr_ci "/")) Eol)))).

(** The pattern "^https://twinset\.ru/catalog(?:/.* )?/?$" (the blank is
    not part of it). *)
Definition twinset_ru_category_re : regex :=
  Cat (lit_ci "https://twinset.ru/catalog")
    (Cat (opt (Cat (chr_ci "/") (Star dot))) (Cat (opt (chr_ci "/")) Eol)).

(** The group "(?:row|[a-z]{2}(?:-[a-z]{2})?)". *)
Definition locale_re : regex :=
  Alt (lit_ci "row")
    (Cat (times 2 letter) (opt (Cat (chr_ci "-") (times 2 letter)))).

(** The pattern
    "^https://www\.twinset\.com/(?:row|[a-z]{2}(?:-[a-z]{2})?)/.+\.html$". *)
Definition twinset_com_product_re : regex :=
  Cat (lit_ci "https://www.twinset.com/")
    (Cat locale_re
       (Cat (chr_ci "/") (Cat (plus dot) (Cat (lit_ci ".html") Eol)))).

(** The pattern "^https://www\.twinset\.com/(?:row|[a-z]{2}(?:-[a-z]{2})?)/"
    followed by "(?:|women.*|man.*|child.*|sale.*|new.*|collection.* )$"
    (the blank is not part of it). *)
Definition twinset_com_category_re : regex :=
  Cat (lit_ci "https://www.twinset.com/")
    (Cat locale_re
       (Cat (chr_ci "/")
          (Cat
             (Alt Eps
                (Alt (Cat (lit_ci "women") (Star dot))
                   (Alt (Cat (lit_ci "man") (Star dot))
                      (Alt (Cat (lit_ci "child") (Star dot))
                         (Alt (Cat (lit_ci "sale") (Star dot))
                            (Alt (Cat (lit_ci "new") (Star dot))
                               (Cat (lit_ci "collection") (Star dot))))))))
             Eol))).

Definition twinset_ru : SiteConfig :=
  mkSite "twinset.ru" "https://twinset.ru"
    [ "https://twinset.ru/sitemap.xml"; "https://twinset.ru/robots.txt" ]
    [ "https://twinset.ru/catalog/" ]
    twinset_ru_product_re twinset_ru_category_re.

Definition twinset_com : SiteConfig :=
  mkSite "twinset.com" "https://www.twinset.com"
    [ "https://www.twinset.com/sitemap_index.xml";
      "https://www.twinset.com/robots.txt" ]
    [ "https://www.twinset.com/row/" ]
    twinset_com_product_re twinset_com_category_re.

(** [SITE_CONFIGS[site_key]]. *)
Definition SITE_CONFIGS (site_key : string) : option SiteConfig :=
  if String.eqb site_key "twinset.ru" then Some twinset_ru
  else if String.eqb site_key "twinset.com" then Some twinset_com
  else None.

(** ** The URL classifier, lines 701-726 *)

(** The pattern "^https://twinset\.ru/catalog/\d+/?$". *)
Definition stale_path_re : regex :=
  Cat (lit_ci "https://twinset.ru/catalog/")
    (Cat (plus digit) (Cat (opt (chr_ci "/")) Eol)).

(** The pattern of [extract_twinset_com_sku_from_url],
    "-([0-9]{3}[A-Z]{2,5}[0-9A-Z]{2,})(?:_[0-9A-Z]+)?\.html$",
    as what precedes the group, the group, and what follows it. *)
Definition sku_pre_re : regex := chr_ci "-".
Definition sku_group_re : regex :=
  Cat (times 3 digit)
    (Cat (Cat (times 2 letter) (upto 3 letter))
       (Cat (times 2 alnum) (Star alnum))).
Definition sku_post_re : regex :=
  Cat (opt (Cat (chr_ci "_") (plus alnum))) (Cat (lit_ci ".html") Eol).

(** [extract_twinset_com_sku_from_url], lines 718-726. *)
Definition extract_twinset_com_sku_from_url (url : string) : option string :=
  match search_group sku_pre_re sku_group_re sku_post_re url with
  | None => None
  | Some g => Some (upper g)
  end.

(** [classify_url], lines 701-715. *)
Definition classify_url (site_cfg : SiteConfig) (url : string) : result string :=
  clean <- strip_query_and_fragment url ;;
  if (String.eqb (key site_cfg) "twinset.ru" && re_match stale_path_re clean)%bool
  then Ok "other"
  else if re_match (product_url_re site_cfg) clean
  then
    if String.eqb (key site_cfg) "twinset.com"
    then
      if truthy_opt (extract_twinset_com_sku_from_url clean)
      then Ok "product"
      else Ok "category"
    else Ok "product"
  else if re_match (category_url_re site_cfg) clean
  then Ok "category"
  else Ok "other".

(** ** The HTTP client, lines 245-309 *)

(** The sleeps [time.sleep(1.2 * first)], [time.sleep(1.2 * (first + 1))],
    ... of [n] consecutive failed attempts. *)
Fixpoint backoff_run (first : Z) (n : nat) : list effect :=
  match n with
  | O => []
  | S n' => Backoff first :: backoff_run (first + 1) n'
  end.

(** [{k.lower(): v for k, v in resp.headers.items()}]. *)
Definition lower_keys (headers : headers_t) : headers_t :=
  map (fun kv => (lower (fst kv), snd kv)) headers.

(** [d.get(k, default)] on a dict built by successive assignments. *)
Fixpoint dict_get (d : headers_t) (k default : string) : string :=
  match d with
  | [] => default
  | (k', v) :: rest =>
      let later := dict_get rest k default in
      if (String.eqb k' k && negb (existsb (fun kv => String.eqb (fst kv) k) rest))%bool
      then v else later
  end.

(** [str(last_error)] in the message of the final [RuntimeError]. *)
Definition str_of_last_error (last_error : option string) : string :=
  match last_error with Some t => t | None => "None" end.

Definition http_failed (url : string) (last_error : option string) : exn :=
  Exception ("HTTP failed for " ++ url ++ ": " ++ str_of_last_error last_error).

(** The loop of [get_bytes], lines 281-300, from attempt [attempt] with
    [remaining] rounds to go: the outcome and the sleeps performed. *)
Fixpoint get_bytes_from (retries : Z) (url : string) (remaining : nat)
    (attempt : Z) (last_error : option string)
    : result (string * headers_t) * list effect :=
  match remaining with
  | O => (Raise (http_failed url last_error), [])
  | S remaining' =>
      match opener_open url attempt with
      | Response raw headers => (Ok (raw, lower_keys headers), [])
      | HttpFailure code text =>
          if retries <=? attempt then (Raise (HTTPError code text), [])
          else
            let '(r, sleeps) :=
              get_bytes_from retries url remaining' (attempt + 1) (Some text) in
            (r, Backoff attempt :: sleeps)
      | NetworkFailure text =>
          if retries <=? attempt
          then (Raise (http_failed url (Some text)), [])
          else
            let '(r, sleeps) :=
              get_bytes_from retries url remaining' (attempt + 1) (Some text) in
            (r, Backoff attempt :: sleeps)
      | OtherFailure text => (Raise (Exception text), [])
      end
  end.

(** [SimpleHttpClient.get_bytes], lines 270-300; [retries] is
    [self.retries]. *)
Definition get_bytes (retries : Z) (url : string)
    : result (string * headers_t) * list effect :=
  get_bytes_from retries url (Z.to_nat retries) 1 None.

Fixpoint lit (s : string) : regex :=
  match s with
  | EmptyString => Eps
  | String c s' => Cat (Sym (Ascii.eqb c)) (lit s')
  end.

(** The class "[a-zA-Z0-9._-]". *)
Definition charset_char (c : ascii) : bool :=
  (is_alnum c || has_char c "._-")%bool.

(** [SimpleHttpClient.get_text], lines 302-309. *)
Definition get_text (retries : Z) (url : string)
    : result (string * headers_t) * list effect :=
  let '(fetched, sleeps) := get_bytes retries url in
  (rh <- fetched ;;
   let '(raw, headers) := rh in
   let ctype := dict_get headers "content-type" "" in
   let charset :=
     match search_group (lit "charset=") (plus (Sym charset_char)) Eps ctype with
     | Some g => strip g
     | None => "utf-8"
     end in
   match decode charset raw with
   | Some text => Ok (text, headers)
   | None => Raise (Exception ("unknown encoding: " ++ charset))
   end,
   sleeps).

(** ** Sitemap parsing, lines 679-698 *)

Definition gzip_magic : string :=
  String (ascii_of_nat 31) (String (ascii_of_nat 139) EmptyString).

(** [elem.tag.rsplit("}", 1)[-1]]. *)
Definition local_name (tag : string) : string :=
  match rfind_char "}" tag with
  | Some (_, after) => after
  | None => tag
  end.

Definition loc_texts (elems : list (string * option string)) : list string :=
  flat_map
    (fun elem =>
       if String.eqb (local_name (fst elem)) "loc"
       then match snd elem with
            | Some text => if truthy text then [normalize_space text] else []
            | None => []
            end
       else [])
    elems.

Definition parse_sitemap_locs (raw_bytes source_url : string)
    : result (list string) :=
  payload <-
    (if endswith ".gz" (lower source_url) then gunzip raw_bytes
     else if startswith gzip_magic raw_bytes
          then match gunzip raw_bytes with
               | Ok p => Ok p
               | Raise _ => Ok raw_bytes
               end
          else Ok raw_bytes) ;;
  elems <- xml_iter payload ;;
  Ok (dedupe_keep_order (loc_texts elems)).

(** ** The crawl state *)

(** Run a store operation that reads the clock once. *)
Definition stamped (st : state) (op : IndexDb -> string -> IndexDb) : state :=
  mkState (op (st_db st) (clock (st_tick st))) (S (st_tick st)) (st_trace st).

Definition slept (st : state) (sleeps : list effect) : state :=
  mkState (st_db st) (st_tick st) (st_trace st ++ sleeps).

Definition is_pause (e : effect) : bool :=
  match e with
  | Pause _ => true
  | Backoff _ => false
  end.

(** The number of draws of [random.uniform] so far: one for each pause
    made, the program drawing nowhere else. *)
Definition draws (st : state) : nat :=
  List.length (filter is_pause (st_trace st)).

(** The end of a round of either crawl loop, lines 926-927 and 1025-1026:
    [if delay_max > 0: time.sleep(random.uniform(delay_min, delay_max))].
    What [time.sleep] raises leaves the loop.  A round of [crawl_urls]
    that finds a block page does not come here. *)
Definition pause (delay_min delay_max : float) (st : state) : result state :=
  if PrimFloat.ltb 0%float delay_max
  then
    let secs := uniform (draws st) delay_min delay_max in
    match sleep secs with
    | Some e => Raise e
    | None => Ok (slept st [Pause secs])
    end
  else Ok st.

(** ** The sitemap resolver, lines 887-929 *)

Definition is_sitemap_url (clean : string) : bool :=
  (endswith ".xml" (lower clean) || endswith ".xml.gz" (lower clean))%bool.

Definition enqueued_type (url_type : string) : bool :=
  (String.eqb url_type "product" || String.eqb url_type "category")%bool.

(** One round of the [for loc in locs] loop, lines 903-913. *)
Definition process_loc (site_cfg : SiteConfig) (next_url : string)
    (st : state) (loc : string) : state * option exn :=
  match strip_query_and_fragment loc with
  | Raise e => (st, Some e)
  | Ok clean =>
      if is_sitemap_url clean
      then (stamped st (fun db now =>
                          enqueue_sitemap db (key site_cfg) clean (Some next_url) now),
            None)
      else
        match classify_url site_cfg clean with
        | Raise e => (st, Some e)
        | Ok url_type =>
            if enqueued_type url_type
            then (stamped st (fun db now =>
                                enqueue_url db (key site_cfg) clean url_type 0
                                  (Some next_url) now),
                  None)
            else (st, None)
        end
  end.

Fixpoint process_locs (site_cfg : SiteConfig) (next_url : string)
    (st : state) (locs : list string) : state * option exn :=
  match locs with
  | [] => (st, None)
  | loc :: rest =>
      match process_loc site_cfg next_url st loc with
      | (st', None) => process_locs site_cfg next_url st' rest
      | (st', Some e) => (st', Some e)
      end
  end.

(** The body of the [while], lines 896-924, for the sitemap [next_url];
    the boolean tells whether [processed] is incremented. *)
Definition crawl_sitemap (site_cfg : SiteConfig) (retries : Z) (st : state)
    (next_url : string) : state * bool :=
  let '(fetched, sleeps) := get_bytes retries next_url in
  let st := slept st sleeps in
  let failed (st : state) (e : exn) :=
    (stamped st (fun db now =>
                   set_sitemap_status db (key site_cfg) next_url "error" None
                     (Some (safe_exc e)) now),
     false) in
  match fetched with
  | Raise e => failed st e
  | Ok (raw, _) =>
      match parse_sitemap_locs raw next_url with
      | Raise e => failed st e
      | Ok locs =>
          let item_count := Z.of_nat (List.length locs) in
          match process_locs site_cfg next_url st locs with
          | (st', Some e) => failed st' e
          | (st', None) =>
              (stamped st' (fun db now =>
                              set_sitemap_status db (key site_cfg) next_url
                                "done" (Some item_count) None now),
               true)
          end
      end
  end.

(** [max_x is not None and processed >= max_x]. *)
Definition budget_spent (limit : option Z) (processed : Z) : bool :=
  match limit with
  | Some m => m <=? processed
  | None => false
  end.

(** The [while True] of [crawl_sitemaps], lines 887-929, run for at most
    [fuel] rounds: [None] when the rounds do not suffice, [Raise] when
    the pause that ends a round raises. *)
Fixpoint crawl_sitemaps_loop (fuel : nat) (site_cfg : SiteConfig)
    (retries : Z) (delay_min delay_max : float) (max_sitemaps : option Z)
    (processed : Z) (st : state) : option (result (state * Z)) :=
  if budget_spent max_sitemaps processed then Some (Ok (st, processed))
  else
    match next_pending_sitemap (st_db st) (key site_cfg) with
    | None => Some (Ok (st, processed))
    | Some next_url =>
        if negb (truthy next_url) then Some (Ok (st, processed))
        else
          match fuel with
          | O => None
          | S fuel' =>
              let '(st', counted) := crawl_sitemap site_cfg retries st next_url in
              match pause delay_min delay_max st' with
              | Raise e => Some (Raise e)
              | Ok st'' =>
                  crawl_sitemaps_loop fuel' site_cfg retries delay_min delay_max
                    max_sitemaps (if counted then processed + 1 else processed)
                    st''
              end
          end
    end.

(** ** The seeds of the sitemap queue and [crawl_sitemaps], lines 866-929 *)

(** The [for sitemap_url in parse_robots_for_sitemaps(text)] loop, lines
    879-880. *)
Fixpoint enqueue_robots_sitemaps (site_cfg : SiteConfig) (candidate : string)
    (st : state) (urls : list string) : state * option exn :=
  match urls with
  | [] => (st, None)
  | sitemap_url :: rest =>
      match strip_query_and_fragment sitemap_url with
      | Raise e => (st, Some e)
      | Ok clean =>
          enqueue_robots_sitemaps site_cfg candidate
            (stamped st (fun db now =>
                           enqueue_sitemap db (key site_cfg) clean
                             (Some candidate) now))
            rest
      end
  end.

(** One round of the [for candidate in site_cfg.sitemap_candidates] loop,
    lines 876-884.  What is raised while robots.txt is read or its
    sitemaps are enqueued is logged and dropped; the rows enqueued before
    stay. *)
Definition seed_candidate (site_cfg : SiteConfig) (retries : Z) (st : state)
    (candidate : string) : result state :=
  if endswith "robots.txt" candidate
  then
    let '(fetched, sleeps) := get_text retries candidate in
    let st := slept st sleeps in
    match fetched with
    | Raise _ => Ok st
    | Ok (text, _) =>
        match parse_robots_for_sitemaps text with
        | Raise _ => Ok st
        | Ok urls =>
            Ok (fst (enqueue_robots_sitemaps site_cfg candidate st urls))
        end
    end
  else
    clean <- strip_query_and_fragment candidate ;;
    Ok (stamped st (fun db now =>
                      enqueue_sitemap db (key site_cfg) clean None now)).

(** Lines 875-885: the seeds of the sitemap queue. *)
Fixpoint seed_sitemaps (site_cfg : SiteConfig) (retries : Z) (st : state)
    (candidates : list string) : result state :=
  match candidates with
  | [] => Ok st
  | candidate :: rest =>
      st' <- seed_candidate site_cfg retries st candidate ;;
      seed_sitemaps site_cfg retries st' rest
  end.

(** [crawl_sitemaps], lines 866-929. *)
Definition crawl_sitemaps (fuel : nat) (site_cfg : SiteConfig) (retries : Z)
    (delay_min delay_max : float) (max_sitemaps : option Z) (st : state)
    : option (result (state * Z)) :=
  match seed_sitemaps site_cfg retries st (sitemap_candidates site_cfg) with
  | Raise e => Some (Raise e)
  | Ok st' =>
      crawl_sitemaps_loop fuel site_cfg retries delay_min delay_max
        max_sitemaps 0 st'
  end.

(** ** The crawl loop, lines 932-1028 *)

(** [str(x or "")] for an [Optional[str]]. *)
Definition or_empty (x : option string) : string :=
  match x with Some t => t | None => EmptyString end.

(** [s or None]. *)
Definition or_none (s : string) : option string :=
  if truthy s then Some s else None.

(** [str(code)] for an [int]. *)
Definition str_of_int (n : Z) : string :=
  DecimalString.NilZero.string_of_int (Z.to_int n).

Definition mark (site_cfg : SiteConfig) (url status : string)
    (http_status : option Z) (blocked : bool) (error : option string)
    (st : state) : state :=
  stamped st (fun db now =>
                set_url_status db (key site_cfg) url status http_status
                  blocked error now).

(** The two [except] clauses, lines 1007-1023. *)
Definition on_exception (site_cfg : SiteConfig) (url : string) (st : state)
    (exc : exn) : state :=
  match exc with
  | HTTPError code _ =>
      if ((code =? 404) || (code =? 410))%bool
      then mark site_cfg url "gone" (Some code) false
             (Some ("HTTP " ++ str_of_int code)) st
      else mark site_cfg url "error" (Some code) false (Some (safe_exc exc)) st
  | Exception _ =>
      mark site_cfg url "error" None false (Some (safe_exc exc)) st
  end.

(** The [for link in links] loop, lines 992-997. *)
Fixpoint enqueue_links (site_cfg : SiteConfig) (url : string) (depth : Z)
    (st : state) (links : list string) : state * option exn :=
  match links with
  | [] => (st, None)
  | link :: rest =>
      if negb (startswith (base_url site_cfg) link)
      then enqueue_links site_cfg url depth st rest
      else
        match classify_url site_cfg link with
        | Raise e => (st, Some e)
        | Ok link_type =>
            if enqueued_type link_type
            then enqueue_links site_cfg url depth
                   (stamped st (fun db now =>
                                  enqueue_url db (key site_cfg) link link_type
                                    (depth + 1) (Some url) now))
                   rest
            else enqueue_links site_cfg url depth st rest
        end
  end.

(** Lines 976-988: parse a product page and upsert what was found. *)
Definition record_product (site_cfg : SiteConfig) (url url_type : string)
    (page_html : string) (headers : headers_t) (st : state) : state :=
  let '(sku, title, category_path) := parse_product (key site_cfg) page_html url in
  let found_sku := or_none (upper (normalize_space (or_empty sku))) in
  let found_title := or_none (normalize_space (or_empty title)) in
  let found_category := or_none (normalize_space (or_empty category_path)) in
  mkState
    (upsert_product (st_db st) (key site_cfg) url found_sku found_title
       found_category (json_dumps_payload headers url_type)
       (clock (st_tick st)) (clock (S (st_tick st))))
    (if truthy_opt found_sku then S (S (st_tick st)) else S (st_tick st))
    (st_trace st).

(** The body of the [while], lines 958-1023, for the dequeued [row]. *)
Definition crawl_url (site_cfg : SiteConfig) (retries max_depth : Z)
    (discover_links : bool) (st : state) (row : QueueItem) : state :=
  let url := q_url row in
  let url_type := q_url_type row in
  let depth := q_depth row in
  let '(fetched, sleeps) := get_text retries url in
  let st := slept st sleeps in
  match fetched with
  | Raise exc => on_exception site_cfg url st exc
  | Ok (page_html, headers) =>
      if detect_block_page page_html
      then mark site_cfg url "blocked" (Some 200) true
             (Some "captcha_or_block") st
      else
        let st1 :=
          if String.eqb url_type "product"
          then record_product site_cfg url url_type page_html headers st
          else st in
        let '(st2, raised) :=
          if (discover_links && (depth <? max_depth))%bool
          then match extract_links page_html url with
               | Raise e => (st1, Some e)
               | Ok links => enqueue_links site_cfg url depth st1 links
               end
          else (st1, None) in
        match raised with
        | Some exc => on_exception site_cfg url st2 exc
        | None => mark site_cfg url "done" (Some 200) false None st2
        end
  end.

(** An [int] that [sqlite3] binds to a parameter of a statement: a
    signed 64-bit integer. *)
Definition sqlite_integer (n : Z) : bool :=
  ((- 2 ^ 63 <=? n) && (n <? 2 ^ 63))%bool.

(** [db.next_pending_url(site_cfg.key, allowed_types=allowed_types,
    max_depth=max_depth)] as the loop calls it, line 954.  The statement
    takes [max_depth] as a parameter, and [sqlite3] raises
    [OverflowError] for one that is no signed 64-bit integer. *)
Definition next_pending_row (db : IndexDb) (site : string) (max_depth : Z)
    : result (option QueueItem) :=
  if sqlite_integer max_depth
  then Ok (next_pending_url db site ["product"; "category"] max_depth)
  else Raise (Exception "Python int too large to convert to SQLite INTEGER").

(** Whether the round for the address [url] ends in the [continue] of
    line 971, which skips the pause: it does when the page fetched is
    taken for a block page. *)
Definition round_continues (retries : Z) (url : string) : bool :=
  match fst (get_text retries url) with
  | Ok (page_html, _) => detect_block_page page_html
  | Raise _ => false
  end.

(** The [while True] of [crawl_urls], lines 950-1026, run for at most
    [fuel] rounds: [None] when the rounds do not suffice, [Raise] when
    the query for the next row or the pause that ends a round raises,
    both standing outside the [try]. *)
Fixpoint crawl_urls_loop (fuel : nat) (site_cfg : SiteConfig)
    (retries : Z) (delay_min delay_max : float) (max_pages : option Z)
    (max_depth : Z) (discover_links : bool) (processed : Z) (st : state)
    : option (result (state * Z)) :=
  if budget_spent max_pages processed then Some (Ok (st, processed))
  else
    match next_pending_row (st_db st) (key site_cfg) max_depth with
    | Raise e => Some (Raise e)
    | Ok None => Some (Ok (st, processed))
    | Ok (Some row) =>
        match fuel with
        | O => None
        | S fuel' =>
            let st1 :=
              crawl_url site_cfg retries max_depth discover_links st row in
            if round_continues retries (q_url row)
            then crawl_urls_loop fuel' site_cfg retries delay_min delay_max
                   max_pages max_depth discover_links (processed + 1) st1
            else
              match pause delay_min delay_max st1 with
              | Raise e => Some (Raise e)
              | Ok st' =>
                  crawl_urls_loop fuel' site_cfg retries delay_min delay_max
                    max_pages max_depth discover_links (processed + 1) st'
              end
        end
    end.

(** Lines 943-945: the seeds. *)
Fixpoint enqueue_seeds (site_cfg : SiteConfig) (st : state)
    (seeds : list string) : result state :=
  match seeds with
  | [] => Ok st
  | seed :: rest =>
      clean <- strip_query_and_fragment seed ;;
      enqueue_seeds site_cfg
        (stamped st (fun db now =>
                       enqueue_url db (key site_cfg) clean "category" 0
                         (Some "seed") now))
        rest
  end.

(** [crawl_urls], lines 932-1028. *)
Definition crawl_urls (fuel : nat) (site_cfg : SiteConfig)
    (retries : Z) (delay_min delay_max : float) (max_pages : option Z)
    (max_depth : Z) (discover_links : bool) (st : state)
    : option (result (state * Z)) :=
  match enqueue_seeds site_cfg st (seed_category_urls site_cfg) with
  | Raise e => Some (Raise e)
  | Ok st' =>
      crawl_urls_loop fuel site_cfg retries delay_min delay_max max_pages
        max_depth discover_links 0 st'
  end.

(** ** The crawl of the selected sites, [run_crawl] lines 1042-1079

    The exports and the summary written at the end only read the store. *)

(** [["twinset.ru", "twinset.com"] if args.site == "both" else
    [args.site]]. *)
Definition selected_sites (site : string) : list string :=
  if String.eqb site "both" then ["twinset.ru"; "twinset.com"] else [site].

(** The body of the [for site_key in selected_sites] loop, lines
    1046-1076; [SITE_CONFIGS[site_key]] raises [KeyError] for an unknown
    key. *)
Definition crawl_site (fuel : nat) (site_key : string) (retry_errors : bool)
    (retries : Z) (delay_min delay_max : float)
    (max_sitemaps max_pages : option Z) (max_depth : Z)
    (discover_links : bool) (st : state) : option (result state) :=
  match SITE_CONFIGS site_key with
  | None => Some (Raise (Exception ("'" ++ site_key ++ "'")))
  | Some cfg =>
      let st :=
        if retry_errors
        then stamped st (fun db now => fst (reset_errors db site_key now))
        else st in
      match crawl_sitemaps fuel cfg retries delay_min delay_max max_sitemaps
              st with
      | None => None
      | Some (Raise e) => Some (Raise e)
      | Some (Ok (st1, _)) =>
          match crawl_urls fuel cfg retries delay_min delay_max max_pages
                  max_depth discover_links st1 with
          | None => None
          | Some (Raise e) => Some (Raise e)
          | Some (Ok (st2, _)) => Some (Ok st2)
          end
      end
  end.

Fixpoint crawl_sites (fuel : nat) (sites : list string) (retry_errors : bool)
    (retries : Z) (delay_min delay_max : float)
    (max_sitemaps max_pages : option Z) (max_depth : Z)
    (discover_links : bool) (st : state) : option (result state) :=
  match sites with
  | [] => Some (Ok st)
  | site_key :: rest =>
      match crawl_site fuel site_key retry_errors retries delay_min delay_max
              max_sitemaps max_pages max_depth discover_links st with
      | None => None
      | Some (Raise e) => Some (Raise e)
      | Some (Ok st') =>
          crawl_sites fuel rest retry_errors retries delay_min delay_max
            max_sitemaps max_pages max_depth discover_links st'
      end
  end.

(** [run_crawl]: the store after the crawl; [fuel] bounds the rounds of
    each loop. *)
Definition run_crawl (fuel : nat) (site : string) (retry_errors : bool)
    (retries : Z) (delay_min delay_max : float)
    (max_sitemaps max_pages : option Z) (max_depth : Z)
    (discover_links : bool) (st : state) : option (result state) :=
  crawl_sites fuel (selected_sites site) retry_errors retries delay_min
    delay_max max_sitemaps max_pages max_depth discover_links st.

(** ** Notions used to state the properties *)

(** A scheme, a network location and a body as [urlparse] returns them. *)
Definition valid_scheme (s : string) : Prop :=
  s = "" \/
  exists c0 t, s = String c0 t /\ is_alpha c0 = true
               /\ all_chars scheme_char s = true /\ lower s = s.

Definition valid_netloc (nl : string) : Prop :=
  all_chars (fun c => negb (is_netloc_delim c)) nl = true
  /\ all_chars is_safe_byte nl = true
  /\ unbalanced_brackets nl = false
  /\ netloc_error nl = None.

Definition valid_body (b : string) : Prop :=
  (b = "" \/ startswith "/" b = true)
  /\ has_char "#" b = false /\ has_char "?" b = false
  /\ all_chars is_safe_byte b = true.

(** [path;params], or [path] when there are no params: the path part of
    [urlunparse]. *)
Definition join_params (p q : string) : string :=
  if truthy q then p ++ ";" ++ q else p.

(** What [urlunsplit] builds from a scheme, a non-empty network location
    and a body, with no query and no fragment. *)
Definition assemble (s nl body : string) : string :=
  if truthy s then s ++ ":" ++ ("//" ++ nl ++ body) else "//" ++ nl ++ body.

(** The params test of [urlparse]. *)
Definition split_params_of (s x : string) : string * string :=
  if (mem_str s uses_params && has_char ";" x)%bool
  then splitparams x else (x, EmptyString).

(** The row that [set_sitemap_status ... "done"] leaves in place of [r]. *)
Definition done_row (site url : string) (item_count : Z) (now : string)
    (r : SitemapRecord) : SitemapRecord :=
  if sitemap_key site url r
  then mkSitemap (sm_site r) (sm_url r) "done" (sm_discovered_from r)
         (Some item_count) (sm_attempts r + 1) None now
  else r.

(** A [<loc>] value that the resolver gets through: it can be
    normalised and, unless it is the address of a sitemap, classified. *)
Definition handled (site_cfg : SiteConfig) (loc : string) : Prop :=
  exists clean,
    strip_query_and_fragment loc = Ok clean
    /\ (is_sitemap_url clean = true
        \/ exists url_type, classify_url site_cfg clean = Ok url_type).

(** A [<loc>] value on which the resolver raises [e]: normalising it
    raises, or it is not the address of a sitemap and classifying it
    raises. *)
Definition fails (site_cfg : SiteConfig) (loc : string) (e : exn) : Prop :=
  strip_query_and_fragment loc = Raise e
  \/ exists clean,
       strip_query_and_fragment loc = Ok clean
       /\ is_sitemap_url clean = false
       /\ classify_url site_cfg clean = Raise e.

(** A row of [sitemaps] as the sitemap [next_url] enqueues it for one of
    the values [locs]. *)
Definition nested_row (site_cfg : SiteConfig) (next_url : string)
    (locs : list string) (r : SitemapRecord) : Prop :=
  sm_site r = key site_cfg /\ sm_status r = "pending"
  /\ sm_discovered_from r = Some next_url /\ sm_attempts r = 0
  /\ exists loc,
       In loc locs /\ strip_query_and_fragment loc = Ok (sm_url r)
       /\ is_sitemap_url (sm_url r) = true.

(** A row of [url_queue] as the sitemap [next_url] enqueues it for one
    of the values [locs]. *)
Definition leaf_row (site_cfg : SiteConfig) (next_url : string)
    (locs : list string) (r : QueueItem) : Prop :=
  q_site r = key site_cfg /\ q_status r = "pending" /\ q_depth r = 0
  /\ q_discovered_from r = Some next_url /\ q_attempts r = 0
  /\ (q_url_type r = "product" \/ q_url_type r = "category")
  /\ exists loc,
       In loc locs /\ strip_query_and_fragment loc = Ok (q_url r)
       /\ is_sitemap_url (q_url r) = false
       /\ classify_url site_cfg (q_url r) = Ok (q_url_type r).

(** What the values handled so far have done to the state: pending rows
    appended to [sitemaps] and to [url_queue], each for one of the values
    [locs], and nothing else. *)
Definition resolved (site_cfg : SiteConfig) (next_url : string)
    (locs : list string) (st st' : state) : Prop :=
  (exists added,
     sitemaps (st_db st') = (sitemaps (st_db st) ++ added)%list
     /\ Forall (nested_row site_cfg next_url locs) added)
  /\ (exists added,
        url_queue (st_db st') = (url_queue (st_db st) ++ added)%list
        /\ Forall (leaf_row site_cfg next_url locs) added)
  /\ products (st_db st') = products (st_db st)
  /\ sku_index (st_db st') = sku_index (st_db st).

(** The pauses that take the draws [first], ..., [first + count - 1]
    return. *)
Definition pauses_return (delay_min delay_max : float) (first count : nat)
    : Prop :=
  PrimFloat.ltb 0%float delay_max = true ->
  forall n, (first <= n < first + count)%nat ->
            sleep (uniform n delay_min delay_max) = None.

(** [steps r s s']: the expression [r] can match a prefix of [s] and
    leave [s']. *)
Inductive steps : regex -> string -> string -> Prop :=
| steps_eps s : steps Eps s s
| steps_sym p c s : p c = true -> steps (Sym p) (String c s) s
| steps_cat r1 r2 s s1 s2 :
    steps r1 s s1 -> steps r2 s1 s2 -> steps (Cat r1 r2) s s2
| steps_alt_l r1 r2 s s' : steps r1 s s' -> steps (Alt r1 r2) s s'
| steps_alt_r r1 r2 s s' : steps r2 s s' -> steps (Alt r1 r2) s s'
| steps_star_nil r s : steps (Star r) s s
| steps_star_cons r s s1 s2 :
    steps r s s1 -> steps (Star r) s1 s2 -> steps (Star r) s s2
| steps_eol s : at_eol s = true -> steps Eol s s.

(** The specification's SKU token: 3 digits, then 2 to 5 letters, then
    alphanumerics (the pattern asks for at least two). *)
Definition sku_token (g : string) : Prop :=
  exists d l a,
    g = d ++ l ++ a
    /\ String.length d = 3%nat /\ all_chars is_digit d = true
    /\ (2 <= String.length l <= 5)%nat /\ all_chars is_alpha l = true
    /\ (2 <= String.length a)%nat /\ all_chars is_alnum a = true.

(** What may follow the token up to the end of the URL: an optional
    "_" with alphanumerics, ".html" in any letter case, and the end of the
    text (or a final newline). *)
Definition sku_tail (t : string) : Prop :=
  exists suffix ext eol,
    t = suffix ++ ext ++ eol
    /\ (suffix = ""
        \/ exists x, suffix = String "_" x /\ x <> ""
                     /\ all_chars is_alnum x = true)
    /\ lower ext = ".html"
    /\ at_eol eol = true.

(** A SKU is syntactically derivable from [url]: a "-" followed by a
    token and the tail. *)
Definition sku_derivable (url : string) : Prop :=
  exists before g t,
    url = before ++ String "-" (g ++ t) /\ sku_token g /\ sku_tail t.

(** The text between the quotes of a string literal closed by [qc]: plain
    characters and backslash escapes. *)
Inductive literal_body (qc : ascii) : string -> Prop :=
| literal_nil : literal_body qc EmptyString
| literal_plain c s :
    c <> "\"%char -> c <> qc -> literal_body qc s ->
    literal_body qc (String c s)
| literal_escape c s :
    literal_body qc s -> literal_body qc (String "\" (String c s)).

(** No quote character occurs in [s]. *)
Definition quote_free (s : string) : Prop :=
  has_char "'" s = false /\ has_char dquote s = false.

(** [v] is the shortest non-empty prefix of [body] in which [open_ch] and
    [close_ch] occur equally often. *)
Definition shortest_balanced (open_ch close_ch : ascii) (body v : string) : Prop :=
  (exists rest, body = v ++ rest)
  /\ v <> ""
  /\ count_char open_ch v = count_char close_ch v
  /\ forall p p', v = p ++ p' -> p <> "" -> p' <> "" ->
                  count_char close_ch p < count_char open_ch p.

(** Every white-space character of [s] is a blank that follows a
    character other than white space ([after_space] tells what precedes
    [s]). *)
Fixpoint single_spaced (after_space : bool) (s : string) : bool :=
  match s with
  | EmptyString => true
  | String a s' =>
      if is_space a
      then (Ascii.eqb a " " && negb after_space && single_spaced true s')%bool
      else single_spaced false s'
  end.

(** White space that does not end a line: TAB, US and the blank. *)
Definition is_padding (c : ascii) : bool :=
  (is_space c && negb (is_linebreak c))%bool.

(** An attempt of [get_bytes] that is tried again when it is not the
    last. *)
Definition transient (r : response) : bool :=
  match r with
  | HttpFailure _ _ | NetworkFailure _ => true
  | Response _ _ | OtherFailure _ => false
  end.

(** What [get_bytes] makes of the attempt that ends its loop. *)
Definition outcome (url : string) (r : response) : result (string * headers_t) :=
  match r with
  | Response raw headers => Ok (raw, lower_keys headers)
  | HttpFailure code text => Raise (HTTPError code text)
  | NetworkFailure text => Raise (http_failed url (Some text))
  | OtherFailure text => Raise (Exception text)
  end.

(** The primary keys of the four tables are pairwise different. *)
Definition keys_unique (db : IndexDb) : Prop :=
  NoDup (map (fun r => (sm_site r, sm_url r)) (sitemaps db))
  /\ NoDup (map (fun r => (q_site r, q_url r)) (url_queue db))
  /\ NoDup (map (fun r => (p_site r, p_url r)) (products db))
  /\ NoDup (map (fun r => (x_site r, x_sku r, x_url r)) (sku_index db)).

(** Every product that has a SKU is in the SKU index under that SKU. *)
Definition indexed (db : IndexDb) : Prop :=
  forall p s, In p (products db) -> p_sku p = Some s -> truthy s = true ->
    exists e, In e (sku_index db)
              /\ x_site e = p_site p /\ x_sku e = s /\ x_url e = p_url p.

(** The order of [ORDER BY attempts ASC, updated_at ASC]: [a] does not
    come after [b]. *)
Definition sitemap_le (a b : SitemapRecord) : Prop :=
  sm_attempts a < sm_attempts b
  \/ (sm_attempts a = sm_attempts b
      /\ String.leb (sm_updated_at a) (sm_updated_at b) = true).

(** [site_ops site db db']: [db'] comes from [db] by operations of the
    store that are all given the site [site]. *)
Inductive site_ops (site : string) (db : IndexDb) : IndexDb -> Prop :=
| ops_none : site_ops site db db
| ops_enqueue_sitemap db' url discovered_from now :
    site_ops site db db' ->
    site_ops site db (enqueue_sitemap db' site url discovered_from now)
| ops_set_sitemap_status db' url status item_count error now :
    site_ops site db db' ->
    site_ops site db
      (set_sitemap_status db' site url status item_count error now)
| ops_enqueue_url db' url url_type depth discovered_from now :
    site_ops site db db' ->
    site_ops site db
      (enqueue_url db' site url url_type depth discovered_from now)
| ops_set_url_status db' url status http_status blocked error now :
    site_ops site db db' ->
    site_ops site db
      (set_url_status db' site url status http_status blocked error now)
| ops_upsert_product db' url sku title category_path payload_json now1 now2 :
    site_ops site db db' ->
    site_ops site db
      (upsert_product db' site url sku title category_path payload_json
         now1 now2)
| ops_reset_errors db' now :
    site_ops site db db' ->
    site_ops site db (fst (reset_errors db' site now)).

(** The rows of the sites other than [site]. *)
Definition other_sites (site : string) (db : IndexDb) : IndexDb :=
  mkDb
    (filter (fun r => negb (String.eqb (sm_site r) site)) (sitemaps db))
    (filter (fun r => negb (String.eqb (q_site r) site)) (url_queue db))
    (filter (fun r => negb (String.eqb (p_site r) site)) (products db))
    (filter (fun r => negb (String.eqb (x_site r) site)) (sku_index db)).

(** A row as link discovery on the page of [row] enqueues it. *)
Definition discovered (site_cfg : SiteConfig) (row r : QueueItem) : Prop :=
  q_site r = key site_cfg
  /\ startswith (base_url site_cfg) (q_url r) = true
  /\ (q_url_type r = "product" \/ q_url_type r = "category")
  /\ q_status r = "pending"
  /\ q_depth r = q_depth row + 1
  /\ q_discovered_from r = Some (q_url row)
  /\ q_attempts r = 0 /\ q_last_http_status r = None
  /\ q_blocked r = 0 /\ q_last_error r = None.

(** The rows that [next_pending_url] chooses among in [crawl_urls]. *)
Definition crawlable (site_cfg : SiteConfig) (max_depth : Z) (db : IndexDb)
    : list QueueItem :=
  filter (pending_candidate (key site_cfg) ["product"; "category"] max_depth)
    (url_queue db).

(** A row of the sitemap table as seeding enqueues it. *)
Definition seeded (site_cfg : SiteConfig) (r : SitemapRecord) : Prop :=
  sm_site r = key site_cfg /\ sm_status r = "pending"
  /\ sm_item_count r = None /\ sm_attempts r = 0 /\ sm_last_error r = None
  /\ (sm_discovered_from r = None
      \/ exists candidate,
           sm_discovered_from r = Some candidate
           /\ In candidate (sitemap_candidates site_cfg)
           /\ endswith "robots.txt" candidate = true).

(** What seeding may do to the store: append seeded rows to the sitemap
    table. *)
Definition seeds_only (site_cfg : SiteConfig) (db db' : IndexDb) : Prop :=
  (exists added, sitemaps db' = (sitemaps db ++ added)%list
                 /\ Forall (seeded site_cfg) added)
  /\ url_queue db' = url_queue db /\ products db' = products db
  /\ sku_index db' = sku_index db.

(** A text without TAB, CR and LF and without "?" and "#". *)
Definition plain_text (s : string) : Prop :=
  all_chars is_safe_byte s = true
  /\ has_char "?" s = false /\ has_char "#" s = false.

(* ================================================================== *)
(** * Part II. Properties                                              *)
(* ================================================================== *)

(** ** Text lemmas *)

Lemma append_nil_r (s : string) : s ++ "" = s.
Proof. induction s as [|c s IH]; simpl; [reflexivity | now rewrite IH]. Qed.

Lemma append_assoc (a b c : string) : (a ++ b) ++ c = a ++ (b ++ c).
Proof. induction a as [|x a IH]; simpl; [reflexivity | now rewrite IH]. Qed.

Lemma map_str_app (f : ascii -> ascii) (a b : string) :
  map_str f (a ++ b) = map_str f a ++ map_str f b.
Proof. induction a as [|x a IH]; simpl; [reflexivity | now rewrite IH]. Qed.

Lemma map_str_split (f : ascii -> ascii) (s a b : string) :
  map_str f s = a ++ b ->
  exists s1 s2, s = s1 ++ s2 /\ map_str f s1 = a /\ map_str f s2 = b.
Proof.
  revert s. induction a as [|x a IH]; intros s H.
  - exists "", s. auto.
  - destruct s as [|c s]; simpl in H; [discriminate|].
    injection H as Hc Hs. destruct (IH _ Hs) as (s1 & s2 & -> & H1 & H2).
    exists (String c s1), s2. simpl. now rewrite Hc, H1.
Qed.

Lemma startswith_iff (p s : string) :
  startswith p s = true <-> exists r, s = p ++ r.
Proof.
  revert s. induction p as [|a p IH]; intros s; simpl.
  - split; [now exists s | reflexivity].
  - destruct s as [|b s].
    + split; [discriminate | intros [r H]; discriminate].
    + rewrite andb_true_iff, Ascii.eqb_eq, IH. split.
      * intros [-> [r ->]]. now exists r.
      * intros [r H]. injection H as -> ->. split; [reflexivity | now exists r].
Qed.

Lemma contains_iff (sub s : string) :
  contains sub s = true <-> exists a b, s = a ++ sub ++ b.
Proof.
  induction s as [|c s IH].
  - simpl. rewrite orb_false_r, startswith_iff. split.
    + intros [r H]. now exists "", r.
    + intros (a & b & H). destruct a; simpl in H; [now exists b | discriminate].
  - cbn [contains]. rewrite orb_true_iff, startswith_iff, IH. split.
    + intros [[r H] | (a & b & H)].
      * now exists "", r.
      * exists (String c a), b. simpl. now rewrite H.
    + intros (a & b & H). destruct a as [|x a]; simpl in H.
      * left. now exists b.
      * right. injection H as _ H. now exists a, b.
Qed.

(** The code's test, [marker in page_html.lower()], is the
    specification's case-insensitive occurrence. *)
Lemma contains_lower_iff (marker page_html : string) :
  lower marker = marker ->
  contains marker (lower page_html) = true <-> occurs_ci marker page_html.
Proof.
  intros Hm. unfold occurs_ci. rewrite contains_iff, Hm. split.
  - intros (a & b & H). unfold lower in H.
    destruct (map_str_split _ _ _ _ H) as (s1 & s23 & -> & H1 & H23).
    destruct (map_str_split _ _ _ _ H23) as (s2 & s3 & -> & H2 & H3).
    now exists s1, s2, s3.
  - intros (a & w & b & -> & Hw). exists (lower a), (lower b).
    unfold lower in *. now rewrite !map_str_app, Hw.
Qed.

(** ** Counting *)

Lemma two_hits_iff {A : Type} (p : A -> bool) (l : list A) :
  NoDup l ->
  (2 <= List.length (filter p l))%nat <->
  exists x y, In x l /\ In y l /\ x <> y /\ p x = true /\ p y = true.
Proof.
  intros Hnd. split.
  - intros Hlen.
    destruct (filter p l) as [|x [|y t]] eqn:E; simpl in Hlen; try lia.
    assert (Hx : In x (filter p l)) by (rewrite E; now left).
    assert (Hy : In y (filter p l)) by (rewrite E; right; now left).
    apply filter_In in Hx, Hy. exists x, y. repeat split; try tauto.
    intros ->.
    assert (Hnd' : NoDup (filter p l)) by now apply NoDup_filter.
    rewrite E in Hnd'. inversion Hnd' as [|? ? Hn _]. apply Hn. now left.
  - intros (x & y & Hx & Hy & Hxy & Px & Py).
    assert (Hincl : incl [x; y] (filter p l)).
    { intros z [<- | [<- | []]]; apply filter_In; auto. }
    assert (Hnd2 : NoDup [x; y]).
    { constructor; [intros [H | []]; now apply Hxy | constructor; [intros [] | constructor]]. }
    apply (NoDup_incl_length Hnd2) in Hincl. exact Hincl.
Qed.

Lemma block_score_length (lowered : string) :
  block_score lowered
  = Z.of_nat (List.length (filter (fun marker => contains marker lowered) markers)).
Proof.
  unfold block_score.
  induction (filter (fun marker => contains marker lowered) markers) as [|m t IH].
  - reflexivity.
  - cbn [map fold_right List.length]. rewrite IH. lia.
Qed.

Lemma markers_NoDup : NoDup markers.
Proof.
  unfold markers.
  repeat (constructor; [simpl; intros H; repeat destruct H as [H | H]; try discriminate H; exact H |]).
  constructor.
Qed.

Lemma markers_lower (m : string) : In m markers -> lower m = m.
Proof.
  unfold markers. simpl.
  intros H; repeat destruct H as [H | H]; try (subst m; reflexivity). destruct H.
Qed.

(** ** Block detection *)

(** C3.  A page is classified as blocked exactly when at least two of the
    six markers occur in it case-insensitively, or "cf-challenge" occurs
    at all.  In particular: "captcha" together with "access denied" is
    blocked; "captcha" and no other marker is not blocked; "cf-challenge"
    alone is blocked. *)
Theorem detect_block_page_spec (page_html : string) :
  (detect_block_page page_html = true <->
     (exists m1 m2, In m1 markers /\ In m2 markers /\ m1 <> m2
                    /\ occurs_ci m1 page_html /\ occurs_ci m2 page_html)
     \/ occurs_ci "cf-challenge" page_html)
  /\ (occurs_ci "captcha" page_html /\ occurs_ci "access denied" page_html ->
      detect_block_page page_html = true)
  /\ (occurs_ci "captcha" page_html
      /\ (forall m, In m markers -> m <> "captcha" -> ~ occurs_ci m page_html) ->
      detect_block_page page_html = false)
  /\ (occurs_ci "cf-challenge" page_html -> detect_block_page page_html = true).
Proof.
  assert (Hiff :
    detect_block_page page_html = true <->
     (exists m1 m2, In m1 markers /\ In m2 markers /\ m1 <> m2
                    /\ occurs_ci m1 page_html /\ occurs_ci m2 page_html)
     \/ occurs_ci "cf-challenge" page_html).
  { unfold detect_block_page. cbv zeta.
    rewrite orb_true_iff, block_score_length, Z.leb_le.
    rewrite (contains_lower_iff "cf-challenge") by reflexivity.
    assert (H2 : 2 <= Z.of_nat (List.length
                   (filter (fun marker => contains marker (lower page_html)) markers))
                 <-> (2 <= List.length
                   (filter (fun marker => contains marker (lower page_html)) markers))%nat)
      by lia.
    rewrite H2, (two_hits_iff _ markers markers_NoDup).
    split; (intros [(m1 & m2 & I1 & I2 & Hne & P1 & P2) | H]; [left | now right]);
      exists m1, m2; repeat split; auto.
    - now apply contains_lower_iff; [apply markers_lower|].
    - now apply contains_lower_iff; [apply markers_lower|].
    - now apply contains_lower_iff; [apply markers_lower|].
    - now apply contains_lower_iff; [apply markers_lower|]. }
  split; [exact Hiff|]. split; [|split].
  - intros [H1 H2]. apply Hiff. left.
    exists "captcha", "access denied". unfold markers. simpl.
    repeat split; auto 10. discriminate.
  - intros [_ Hnone].
    apply not_true_is_false. intros E. apply Hiff in E.
    destruct E as [(m1 & m2 & I1 & I2 & Hne & P1 & P2) | H].
    + destruct (string_dec m1 "captcha") as [-> | N1].
      * apply (Hnone m2 I2); [congruence | exact P2].
      * exact (Hnone m1 I1 N1 P1).
    + apply (Hnone "cf-challenge"); [unfold markers; simpl; auto | discriminate | exact H].
  - intros H. apply Hiff. now right.
Qed.

Example detect_block_page_two_markers :
  detect_block_page "<p>CAPTCHA</p> Access Denied" = true.
Proof. reflexivity. Qed.

Example detect_block_page_one_marker :
  detect_block_page "please solve the Captcha" = false.
Proof. reflexivity. Qed.

Example normalize_space_ex :
  normalize_space "  a   b  " = "a b".
Proof. reflexivity. Qed.

(** ** The queue store *)

Lemma existsb_queue_key (site url : string) (rows : list QueueItem) :
  existsb (queue_key site url) rows = true <->
  exists r, In r rows /\ q_site r = site /\ q_url r = url.
Proof.
  rewrite existsb_exists. unfold queue_key.
  split; intros (r & Hin & H); exists r; split; auto.
  - apply andb_true_iff in H. now rewrite !String.eqb_eq in H.
  - destruct H as [-> ->]. now rewrite !String.eqb_refl.
Qed.

(** C4.  Enqueuing a (site, url) key that [url_queue] already holds leaves
    the whole store as it was: no row is added and no field of the
    existing row changes. *)
Theorem enqueue_url_existing_key (db : IndexDb) (site url url_type : string)
    (depth : Z) (discovered_from : option string) (now : string) :
  (exists r, In r (url_queue db) /\ q_site r = site /\ q_url r = url) ->
  enqueue_url db site url url_type depth discovered_from now = db.
Proof.
  intros H. apply existsb_queue_key in H.
  unfold enqueue_url. now rewrite H.
Qed.

(** Enqueuing creates the key, so a second enqueue of the same key, with
    whatever other arguments, changes nothing. *)
Lemma enqueue_url_twice (db : IndexDb) (site url : string)
    (t1 t2 : string) (d1 d2 : Z) (f1 f2 : option string) (now1 now2 : string) :
  enqueue_url (enqueue_url db site url t1 d1 f1 now1) site url t2 d2 f2 now2
  = enqueue_url db site url t1 d1 f1 now1.
Proof.
  apply enqueue_url_existing_key. unfold enqueue_url.
  destruct (existsb (queue_key site url) (url_queue db)) eqn:E.
  - now apply existsb_queue_key.
  - eexists. split; [simpl; apply in_or_app; right; left; reflexivity|].
    simpl. auto.
Qed.

(** The key stays unique. *)
Lemma enqueue_url_keeps_key_unique (db : IndexDb) (site url url_type : string)
    (depth : Z) (discovered_from : option string) (now : string) :
  NoDup (map (fun r => (q_site r, q_url r)) (url_queue db)) ->
  NoDup (map (fun r => (q_site r, q_url r))
           (url_queue (enqueue_url db site url url_type depth discovered_from now))).
Proof.
  intros Hnd. unfold enqueue_url.
  destruct (existsb (queue_key site url) (url_queue db)) eqn:E; [exact Hnd|].
  simpl. rewrite map_app. simpl.
  apply NoDup_app_remove_l with (l := []). simpl.
  apply Permutation_NoDup with (l := (site, url) :: map (fun r => (q_site r, q_url r)) (url_queue db)).
  - apply Permutation_cons_append.
  - constructor; [|exact Hnd].
    intros Hin. apply in_map_iff in Hin. destruct Hin as (r & Hk & Hin).
    injection Hk as Hs Hu.
    assert (existsb (queue_key site url) (url_queue db) = true)
      by (apply existsb_queue_key; eauto).
    congruence.
Qed.

(** C5.  [reset_errors site] rewrites exactly the rows of [site] whose
    status is 'error' or 'blocked': such a row gets status 'pending',
    [blocked] 0, [last_error] NULL (and a fresh [updated_at]), its other
    fields kept; every other row, and every other table, is unchanged. *)
Theorem reset_errors_spec (db : IndexDb) (site now : string) (i : nat)
    (r : QueueItem) :
  nth_error (url_queue db) i = Some r ->
  let db' := fst (reset_errors db site now) in
  (q_site r = site /\ (q_status r = "error" \/ q_status r = "blocked") ->
   exists r',
     nth_error (url_queue db') i = Some r'
     /\ q_status r' = "pending" /\ q_blocked r' = 0 /\ q_last_error r' = None
     /\ q_updated_at r' = now
     /\ q_site r' = q_site r /\ q_url r' = q_url r
     /\ q_url_type r' = q_url_type r /\ q_depth r' = q_depth r
     /\ q_discovered_from r' = q_discovered_from r
     /\ q_attempts r' = q_attempts r
     /\ q_last_http_status r' = q_last_http_status r)
  /\ (~ (q_site r = site /\ (q_status r = "error" \/ q_status r = "blocked")) ->
      nth_error (url_queue db') i = Some r)
  /\ List.length (url_queue db') = List.length (url_queue db)
  /\ sitemaps db' = sitemaps db /\ products db' = products db
  /\ sku_index db' = sku_index db.
Proof.
  intros Hnth db'. subst db'. unfold reset_errors. cbn [fst url_queue with_url_queue
    sitemaps products sku_index].
  assert (Hres : resets site r = true <->
                 q_site r = site /\ (q_status r = "error" \/ q_status r = "blocked")).
  { unfold resets. now rewrite andb_true_iff, orb_true_iff, !String.eqb_eq. }
  rewrite nth_error_map, Hnth. cbn [option_map].
  split; [|split; [|split; [apply length_map | auto]]].
  - intros H. apply Hres in H. rewrite H. eexists. split; [reflexivity|].
    cbn. repeat split; reflexivity.
  - intros H. destruct (resets site r) eqn:E; [|reflexivity].
    exfalso. apply H, Hres. reflexivity.
Qed.

Lemma reset_errors_rowcount (db : IndexDb) (site now : string) :
  snd (reset_errors db site now)
  = Z.of_nat (List.length (filter (resets site) (url_queue db))).
Proof. reflexivity. Qed.

(** ** Priority-ordered retrieval *)

Lemma string_ltb_irrefl (a : string) : String.ltb a a = false.
Proof.
  unfold String.ltb.
  destruct (String.compare a a) eqn:E; try reflexivity.
  pose proof (String.compare_antisym a a) as H. rewrite E in H. discriminate.
Qed.

Lemma string_ltb_trans (a b c : string) :
  String.ltb a b = true -> String.ltb b c = true -> String.ltb a c = true.
Proof.
  unfold String.ltb. intros H1 H2.
  destruct (String.compare a b) eqn:E1; try discriminate.
  destruct (String.compare b c) eqn:E2; try discriminate.
  apply OrderedTypeEx.String_as_OT.cmp_lt in E1, E2.
  pose proof (OrderedTypeEx.String_as_OT.lt_trans _ _ _ E1 E2) as H.
  apply OrderedTypeEx.String_as_OT.cmp_lt in H.
  unfold OrderedTypeEx.String_as_OT.cmp in H. now rewrite H.
Qed.

Lemma string_not_ltb_leb (a b : string) :
  String.ltb a b = false -> String.leb b a = true.
Proof.
  unfold String.ltb, String.leb. rewrite (String.compare_antisym b a).
  destruct (String.compare a b); simpl; congruence.
Qed.

Lemma queue_before_irrefl (a : QueueItem) : queue_before a a = false.
Proof.
  unfold queue_before.
  rewrite !Z.ltb_irrefl, !Z.eqb_refl, string_ltb_irrefl. reflexivity.
Qed.

Lemma queue_before_trans (a b c : QueueItem) :
  queue_before a b = true -> queue_before b c = true -> queue_before a c = true.
Proof.
  unfold queue_before.
  rewrite !orb_true_iff, !andb_true_iff, !orb_true_iff, !andb_true_iff,
    !Z.ltb_lt, !Z.eqb_eq.
  intros [H1 | [H1 [H1' | [H1' H1'']]]] [H2 | [H2 [H2' | [H2' H2'']]]];
    try (left; lia); right; (split; [lia|]); try (left; lia).
  right. split; [lia|]. eapply string_ltb_trans; eassumption.
Qed.


(** [first_min] returns a row that no row of the list precedes. *)
Lemma first_min_spec {A : Type} (lt : A -> A -> bool)
    (irrefl : forall a, lt a a = false)
    (trans : forall a b c, lt a b = true -> lt b c = true -> lt a c = true)
    (rows : list A) (best : option A) (seen : list A) :
  (match best with
   | None => seen = []
   | Some b => In b seen /\ forall x, In x seen -> lt x b = false
   end) ->
  match first_min lt best rows with
  | None => best = None /\ rows = []
  | Some r => In r (seen ++ rows)%list
              /\ forall x, In x (seen ++ rows)%list -> lt x r = false
  end.
Proof.
  revert best seen. induction rows as [|r rows IH]; intros best seen Hinv.
  - simpl. destruct best as [b|]; [|auto].
    rewrite app_nil_r. exact Hinv.
  - cbn [first_min]. destruct best as [b|].
    + specialize (IH (Some (if lt r b then r else b)) (seen ++ [r])%list).
      rewrite <- app_assoc in IH. simpl in IH.
      destruct Hinv as [Hb Hmin].
      assert (Hpre : In (if lt r b then r else b) (seen ++ [r])%list /\
                     forall x, In x (seen ++ [r])%list ->
                               lt x (if lt r b then r else b) = false).
      { destruct (lt r b) eqn:E.
        - split; [apply in_or_app; right; now left|].
          intros x Hx. apply in_app_or in Hx. destruct Hx as [Hx | [<- | []]].
          + destruct (lt x r) eqn:E'; [|reflexivity].
            rewrite <- (Hmin x Hx). symmetry. eapply trans; eassumption.
          + apply irrefl.
        - split; [apply in_or_app; now left|].
          intros x Hx. apply in_app_or in Hx. destruct Hx as [Hx | [<- | []]]; auto. }
      specialize (IH Hpre).
      destruct (first_min lt (Some (if lt r b then r else b)) rows); [exact IH|].
      destruct IH as [IH _]. discriminate.
    + subst seen. specialize (IH (Some r) [r]). simpl in IH. simpl.
      assert (Hpre : (r = r \/ False) /\ forall x, r = x \/ False -> lt x r = false).
      { split; [now left|]. intros x [<- | []]. apply irrefl. }
      specialize (IH Hpre).
      destruct (first_min lt (Some r) rows); [exact IH|].
      destruct IH as [IH _]. discriminate.
Qed.

Lemma mem_str_iff (x : string) (l : list string) : mem_str x l = true <-> In x l.
Proof.
  unfold mem_str. rewrite existsb_exists. split.
  - intros (y & Hy & E). apply String.eqb_eq in E. now subst.
  - intros H. exists x. split; [exact H | apply String.eqb_refl].
Qed.



(** ** Products and the SKU index *)

Lemma upsert_sku_index_row_keeps (rows : list SkuIndexEntry)
    (site sku url : string) (title category_path : option string)
    (now : string) (e : SkuIndexEntry) :
  In e rows ->
  (sku_key site sku url e = false ->
   In e (upsert_sku_index_row rows site sku url title category_path now))
  /\ exists e',
       In e' (upsert_sku_index_row rows site sku url title category_path now)
       /\ x_site e' = x_site e /\ x_sku e' = x_sku e /\ x_url e' = x_url e.
Proof.
  intros Hin. unfold upsert_sku_index_row.
  destruct (existsb (sku_key site sku url) rows) eqn:E.
  - split.
    + intros Hk. apply in_map_iff. exists e. now rewrite Hk.
    + eexists. split; [apply in_map_iff; exists e; split; [reflexivity | exact Hin]|].
      destruct (sku_key site sku url e); auto.
  - split.
    + intros _. apply in_or_app. now left.
    + exists e. split; [apply in_or_app; now left | auto].
Qed.

Lemma upsert_sku_index_row_length (rows : list SkuIndexEntry)
    (site sku url : string) (title category_path : option string) (now : string) :
  (List.length rows
   <= List.length (upsert_sku_index_row rows site sku url title category_path now))%nat.
Proof.
  unfold upsert_sku_index_row.
  destruct (existsb (sku_key site sku url) rows).
  - now rewrite length_map.
  - rewrite length_app. lia.
Qed.

Lemma sku_key_iff (site sku url : string) (e : SkuIndexEntry) :
  sku_key site sku url e = true <->
  x_site e = site /\ x_sku e = sku /\ x_url e = url.
Proof.
  unfold sku_key. rewrite !andb_true_iff, !String.eqb_eq. tauto.
Qed.

Lemma upsert_sku_index_row_has (rows : list SkuIndexEntry)
    (site sku url : string) (title category_path : option string) (now : string) :
  exists e,
    In e (upsert_sku_index_row rows site sku url title category_path now)
    /\ x_site e = site /\ x_sku e = sku /\ x_url e = url
    /\ x_title e = title /\ x_category_path e = category_path
    /\ x_updated_at e = now.
Proof.
  unfold upsert_sku_index_row.
  destruct (existsb (sku_key site sku url) rows) eqn:E.
  - apply existsb_exists in E. destruct E as (e & Hin & Hk).
    eexists. split; [apply in_map_iff; exists e; split; [reflexivity | exact Hin]|].
    rewrite Hk. apply sku_key_iff in Hk. cbn. tauto.
  - eexists. split; [apply in_or_app; right; left; reflexivity|]. cbn. tauto.
Qed.

Lemma upsert_products_row_sku (rows : list ProductRecord) (site url : string)
    (sku title category_path : option string) (payload_json now : string) :
  (forall p,
     In p (upsert_products_row rows site url sku title category_path
             payload_json now) ->
     p_site p = site -> p_url p = url -> p_sku p = sku)
  /\ exists p,
       In p (upsert_products_row rows site url sku title category_path
               payload_json now)
       /\ p_site p = site /\ p_url p = url.
Proof.
  assert (Hk : forall p, product_key site url p = true <->
                         p_site p = site /\ p_url p = url).
  { intros p. unfold product_key. now rewrite andb_true_iff, !String.eqb_eq. }
  unfold upsert_products_row.
  destruct (existsb (product_key site url) rows) eqn:E.
  - split.
    + intros p Hin Hs Hu. apply in_map_iff in Hin. destruct Hin as (q & Hq & Hin).
      destruct (product_key site url q) eqn:Eq.
      * now subst p.
      * subst q. assert (product_key site url p = true) by now apply Hk.
        congruence.
    + apply existsb_exists in E. destruct E as (q & Hin & Hq).
      eexists. split; [apply in_map_iff; exists q; split; [reflexivity | exact Hin]|].
      rewrite Hq. apply Hk in Hq. cbn. exact Hq.
  - split.
    + intros p Hin Hs Hu. apply in_app_or in Hin. destruct Hin as [Hin | [<- | []]].
      * assert (existsb (product_key site url) rows = true)
          by (apply existsb_exists; exists p; split; [exact Hin | now apply Hk]).
        congruence.
      * reflexivity.
    + eexists. split; [apply in_or_app; right; left; reflexivity|]. cbn. auto.
Qed.

(** C10.  [upsert_product] touches [sku_index] only when the SKU is
    neither NULL nor empty, and it never deletes from it: every entry
    present before is present after under the same key, and is the very
    same row unless its key is the (site, sku, url) being written.  So
    when a (site, url) that was indexed under an old SKU is upserted with
    a different SKU, the old entry stays next to the new one, although
    the [products] row of that URL now carries the new SKU only. *)
Theorem upsert_product_spec (db : IndexDb) (site url : string)
    (sku title category_path : option string) (payload_json now1 now2 : string) :
  let db' :=
    upsert_product db site url sku title category_path payload_json now1 now2 in
  (truthy_opt sku = false -> sku_index db' = sku_index db)
  /\ (forall e, In e (sku_index db) ->
        exists e', In e' (sku_index db')
                   /\ x_site e' = x_site e /\ x_sku e' = x_sku e
                   /\ x_url e' = x_url e)
  /\ (List.length (sku_index db) <= List.length (sku_index db'))%nat
  /\ (forall new_sku old,
        sku = Some new_sku -> truthy new_sku = true ->
        In old (sku_index db) ->
        x_site old = site -> x_url old = url -> x_sku old <> new_sku ->
        In old (sku_index db')
        /\ (exists e, In e (sku_index db')
                      /\ x_site e = site /\ x_sku e = new_sku /\ x_url e = url)
        /\ (forall p, In p (products db') -> p_site p = site -> p_url p = url ->
                      p_sku p = Some new_sku)
        /\ (exists p, In p (products db') /\ p_site p = site /\ p_url p = url)).
Proof.
  intros db'. subst db'. unfold upsert_product.
  pose proof (upsert_products_row_sku (products db) site url sku title
                category_path payload_json now1) as [Hp1 Hp2].
  split; [|split; [|split]].
  - destruct sku as [s|]; [|reflexivity]. simpl. now intros ->.
  - intros e Hin. destruct sku as [s|]; [destruct (truthy s)|];
      cbn [sku_index with_sku_index with_products]; try (exists e; now auto).
    now apply upsert_sku_index_row_keeps.
  - destruct sku as [s|]; [destruct (truthy s)|];
      cbn [sku_index with_sku_index with_products]; try lia.
    apply upsert_sku_index_row_length.
  - intros new_sku old -> Ht Hin Hs Hu Hne. rewrite Ht.
    cbn [sku_index products with_sku_index with_products].
    split; [|split; [|split]].
    + apply upsert_sku_index_row_keeps; [exact Hin|].
      destruct (sku_key site new_sku url old) eqn:E; [|reflexivity].
      apply sku_key_iff in E. tauto.
    + destruct (upsert_sku_index_row_has (sku_index db) site new_sku url title
                  category_path now2) as (e & He & H). exists e. tauto.
    + exact Hp1.
    + exact Hp2.
Qed.

(** ** The match layer *)

Lemma match_loop_closed_form (db : IndexDb) (cleaned : list string) :
  match_loop db cleaned
  = (flat_map (fun a => map (found_row a) (select_by_sku db a)) cleaned,
     filter (fun a => match select_by_sku db a with [] => true | _ => false end)
       cleaned).
Proof.
  induction cleaned as [|a rest IH]; [reflexivity|].
  cbn [match_loop flat_map filter]. rewrite IH.
  destruct (select_by_sku db a) as [|r rows]; reflexivity.
Qed.

Lemma insert_desc_perm (r : SkuIndexEntry) (l : list SkuIndexEntry) :
  Permutation (r :: l) (insert_desc r l).
Proof.
  induction l as [|h t IH]; simpl; [reflexivity|].
  destruct (String.ltb (x_updated_at h) (x_updated_at r)); [reflexivity|].
  rewrite perm_swap. now constructor.
Qed.

Lemma sort_desc_perm (l : list SkuIndexEntry) : Permutation l (sort_desc l).
Proof.
  induction l as [|h t IH]; simpl; [reflexivity|].
  rewrite <- insert_desc_perm. now constructor.
Qed.

Lemma dedupe_from_spec (seen values : list string) :
  NoDup (dedupe_from seen values)
  /\ forall x, In x (dedupe_from seen values) <->
               In x values /\ x <> "" /\ ~ In x seen.
Proof.
  revert seen. induction values as [|v rest IH]; intros seen.
  - simpl. split; [constructor | tauto].
  - cbn [dedupe_from].
    destruct (truthy v) eqn:Tv; cbn [negb].
    + destruct (mem_str v seen) eqn:Mv.
      * apply mem_str_iff in Mv. destruct (IH seen) as [Hnd Hin].
        split; [exact Hnd|]. intros x. rewrite Hin. simpl.
        split; [tauto|]. intros [[-> | H] [H1 H2]]; tauto.
      * assert (Nv : ~ In v seen).
        { intros H. apply mem_str_iff in H. congruence. }
        destruct (IH (v :: seen)) as [Hnd Hin]. split.
        -- constructor; [|exact Hnd]. rewrite Hin. simpl. tauto.
        -- intros x. simpl. rewrite Hin. simpl.
           assert (v <> "") by (destruct v; [discriminate | discriminate]).
           destruct (string_dec v x) as [-> | Hne]; [tauto|]. tauto.
    + destruct v; [|discriminate]. destruct (IH seen) as [Hnd Hin].
      split; [exact Hnd|]. intros x. rewrite Hin. simpl.
      split; [tauto|]. intros [[<- | H] [H1 H2]]; tauto.
Qed.

Lemma upper_truthy (s : string) : truthy (upper s) = truthy s.
Proof. destruct s; reflexivity. Qed.

Lemma clean_articles_spec (articles : list string) :
  NoDup (clean_articles articles)
  /\ forall a, In a (clean_articles articles) <->
               exists raw, In raw articles /\ normalize_space raw <> ""
                           /\ a = upper (normalize_space raw).
Proof.
  unfold clean_articles, dedupe_keep_order.
  destruct (dedupe_from_spec []
              (map (fun a => upper (normalize_space a))
                 (filter (fun a => truthy (normalize_space a)) articles)))
    as [Hnd Hin].
  split; [exact Hnd|]. intros a. rewrite Hin, in_map_iff. split.
  - intros [(raw & <- & Hraw) _]. apply filter_In in Hraw.
    exists raw. repeat split; try tauto.
    destruct Hraw as [_ Ht]. intros E. rewrite E in Ht. discriminate.
  - intros (raw & Hraw & Hne & ->).
    assert (Ht : truthy (normalize_space raw) = true)
      by (destruct (normalize_space raw); [congruence | reflexivity]).
    split; [|split; [|intros []]].
    + exists raw. split; [reflexivity | apply filter_In; auto].
    + intros E. rewrite <- upper_truthy, E in Ht. discriminate.
Qed.



(** ** The HTTP client and the crawl loop on HTTP errors *)

Lemma backoff_run_cons (first : Z) (n : nat) :
  Backoff first :: backoff_run (first + 1) n = backoff_run first (S n).
Proof. reflexivity. Qed.

(** When the loop of [get_bytes] raises an [HTTPError], it does so on its
    last round, every earlier round having slept. *)
Lemma get_bytes_from_http_error (retries : Z) (url : string) (code : Z)
    (text : string) (remaining : nat) :
  forall (attempt : Z) (last_error : option string),
    retries = attempt + Z.of_nat remaining - 1 ->
    fst (get_bytes_from retries url remaining attempt last_error)
    = Raise (HTTPError code text) ->
    attempt <= retries
    /\ opener_open url retries = HttpFailure code text
    /\ snd (get_bytes_from retries url remaining attempt last_error)
       = backoff_run attempt (Z.to_nat (retries - attempt)).
Proof.
  induction remaining as [|n IH]; intros attempt last_error Hinv Hres.
  - simpl in Hres. discriminate.
  - cbn [get_bytes_from] in *.
    destruct (opener_open url attempt) as [raw hs | c t | t | t] eqn:Eop;
      cbn [fst snd] in *; try discriminate.
    + destruct (retries <=? attempt) eqn:El.
      * apply Z.leb_le in El. cbn [fst snd] in *.
        assert (attempt = retries) by lia. subst attempt.
        injection Hres as -> ->. rewrite Z.sub_diag. auto with zarith.
      * apply Z.leb_gt in El.
        destruct (get_bytes_from retries url n (attempt + 1) (Some t))
          as [r sleeps] eqn:Erec.
        cbn [fst snd] in *.
        specialize (IH (attempt + 1) (Some t)). rewrite Erec in IH.
        cbn [fst snd] in IH.
        destruct IH as (H1 & H2 & H3); [lia | exact Hres |].
        split; [lia|]. split; [exact H2|]. rewrite H3.
        replace (Z.to_nat (retries - attempt))
          with (S (Z.to_nat (retries - (attempt + 1)))) by lia.
        reflexivity.
    + destruct (retries <=? attempt) eqn:El; cbn [fst snd] in *; [discriminate|].
      apply Z.leb_gt in El.
      destruct (get_bytes_from retries url n (attempt + 1) (Some t))
        as [r sleeps] eqn:Erec.
      cbn [fst snd] in *.
      specialize (IH (attempt + 1) (Some t)). rewrite Erec in IH.
      cbn [fst snd] in IH.
      destruct IH as (H1 & H2 & H3); [lia | exact Hres |].
      split; [lia|]. split; [exact H2|]. rewrite H3.
      replace (Z.to_nat (retries - attempt))
        with (S (Z.to_nat (retries - (attempt + 1)))) by lia.
      reflexivity.
Qed.

Lemma get_bytes_http_error (retries : Z) (url : string) (code : Z)
    (text : string) :
  fst (get_bytes retries url) = Raise (HTTPError code text) ->
  1 <= retries
  /\ opener_open url retries = HttpFailure code text
  /\ snd (get_bytes retries url) = backoff_run 1 (Z.to_nat (retries - 1)).
Proof.
  unfold get_bytes. intros H.
  destruct (Z.to_nat retries) as [|n] eqn:En; [simpl in H; discriminate|].
  rewrite <- En in *.
  apply get_bytes_from_http_error in H; [exact H | lia].
Qed.

Lemma get_text_http_error (retries : Z) (url : string) (code : Z)
    (text : string) :
  fst (get_text retries url) = Raise (HTTPError code text) ->
  fst (get_bytes retries url) = Raise (HTTPError code text)
  /\ snd (get_text retries url) = snd (get_bytes retries url).
Proof.
  unfold get_text.
  destruct (get_bytes retries url) as [fetched sleeps]. cbn [fst snd].
  destruct fetched as [[raw headers] | e]; cbn [bind].
  - destruct (decode _ raw); discriminate.
  - auto.
Qed.

(** C1 (as amended).  When the fetch of a dequeued URL raises an HTTP
    error with status 404 or 410, the crawl loop sets the status of that
    item to 'gone' and records the status code; the rest of the store is
    untouched.  The client raises an HTTP error only on the last of its
    [retries] attempts: it has then slept 1.2 x k seconds after each
    earlier attempt k, so that no sleep is performed only when
    [retries] is 1. *)
Theorem crawl_url_gone (site_cfg : SiteConfig) (retries max_depth : Z)
    (discover_links : bool) (st : state) (row : QueueItem) (code : Z)
    (text : string) :
  fst (get_text retries (q_url row)) = Raise (HTTPError code text) ->
  code = 404 \/ code = 410 ->
  let st' := crawl_url site_cfg retries max_depth discover_links st row in
  st_db st'
  = set_url_status (st_db st) (key site_cfg) (q_url row) "gone" (Some code)
      false (Some ("HTTP " ++ str_of_int code)) (clock (st_tick st))
  /\ (forall r, In r (url_queue (st_db st')) ->
                q_site r = key site_cfg -> q_url r = q_url row ->
                q_status r = "gone" /\ q_last_http_status r = Some code)
  /\ 1 <= retries
  /\ opener_open (q_url row) retries = HttpFailure code text
  /\ st_trace st' = (st_trace st ++ backoff_run 1 (Z.to_nat (retries - 1)))%list.
Proof.
  intros Hfetch Hcode st'.
  destruct (get_text_http_error _ _ _ _ Hfetch) as [Hbytes Hsl].
  destruct (get_bytes_http_error _ _ _ _ Hbytes) as (Hr & Hop & Hsleeps).
  assert (Hst : st' = mark site_cfg (q_url row) "gone" (Some code) false
                        (Some ("HTTP " ++ str_of_int code))
                        (slept st (snd (get_text retries (q_url row))))).
  { subst st'. unfold crawl_url.
    destruct (get_text retries (q_url row)) as [fetched sleeps].
    cbn [fst snd] in *. subst fetched. cbn [on_exception].
    destruct Hcode as [-> | ->]; reflexivity. }
  rewrite Hst. unfold mark, stamped, slept. cbn [st_db st_tick st_trace].
  split; [reflexivity|]. split; [|split; [exact Hr | split; [exact Hop|]]].
  - intros r Hin Hs Hu. unfold set_url_status in Hin.
    cbn [url_queue with_url_queue] in Hin. apply in_map_iff in Hin.
    destruct Hin as (q & Hq & Hin).
    destruct (queue_key (key site_cfg) (q_url row) q) eqn:E.
    + subst r. cbn. auto.
    + subst q. unfold queue_key in E. rewrite Hs, Hu, !String.eqb_refl in E.
      discriminate.
  - now rewrite Hsl, Hsleeps.
Qed.

(** ** More text lemmas, for URL normalisation *)

Ltac ascii_cases c :=
  destruct c as [[] [] [] [] [] [] [] []]; vm_compute;
  intros; first [reflexivity | discriminate | congruence | tauto].

Lemma alpha_not_c0 (c : ascii) : is_alpha c = true -> is_c0_or_space c = false.
Proof. ascii_cases c. Qed.

Lemma lower_char_alpha (c : ascii) : is_alpha (lower_char c) = is_alpha c.
Proof. ascii_cases c. Qed.

Lemma lower_char_scheme (c : ascii) : scheme_char (lower_char c) = scheme_char c.
Proof. ascii_cases c. Qed.

Lemma lower_char_idem (c : ascii) : lower_char (lower_char c) = lower_char c.
Proof. ascii_cases c. Qed.

Lemma scheme_char_safe (c : ascii) : scheme_char c = true -> is_safe_byte c = true.
Proof. ascii_cases c. Qed.

Lemma scheme_char_not_colon (c : ascii) :
  scheme_char c = true -> Ascii.eqb c ":" = false.
Proof. ascii_cases c. Qed.

Lemma lower_idem (s : string) : lower (lower s) = lower s.
Proof.
  unfold lower. induction s as [|c s IH]; simpl; [reflexivity|].
  now rewrite lower_char_idem, IH.
Qed.

Lemma all_chars_app (p : ascii -> bool) (a b : string) :
  all_chars p (a ++ b) = (all_chars p a && all_chars p b)%bool.
Proof.
  induction a as [|c a IH]; simpl; [reflexivity|].
  now rewrite IH, andb_assoc.
Qed.

Lemma all_chars_impl (p q : ascii -> bool) (s : string) :
  (forall c, p c = true -> q c = true) ->
  all_chars p s = true -> all_chars q s = true.
Proof.
  intros Hpq. induction s as [|c s IH]; simpl; [reflexivity|].
  rewrite !andb_true_iff. intros [H1 H2]. auto.
Qed.

Lemma all_chars_lower (p : ascii -> bool) (s : string) :
  (forall c, p (lower_char c) = p c) ->
  all_chars p (lower s) = all_chars p s.
Proof.
  intros Hp. unfold lower. induction s as [|c s IH]; simpl; [reflexivity|].
  now rewrite Hp, IH.
Qed.

Lemma has_char_app (c : ascii) (a b : string) :
  has_char c (a ++ b) = (has_char c a || has_char c b)%bool.
Proof.
  induction a as [|x a IH]; simpl; [reflexivity|].
  now rewrite IH, orb_assoc.
Qed.

(** [c not in s], as a statement on all characters of [s]. *)
Lemma has_char_false_iff (c : ascii) (s : string) :
  has_char c s = false <-> all_chars (fun x => negb (Ascii.eqb x c)) s = true.
Proof.
  induction s as [|x s IH]; simpl; [tauto|].
  rewrite orb_false_iff, andb_true_iff, negb_true_iff, IH. tauto.
Qed.

Lemma filter_str_id (p : ascii -> bool) (s : string) :
  all_chars p s = true -> filter_str p s = s.
Proof.
  induction s as [|c s IH]; simpl; [reflexivity|].
  rewrite andb_true_iff. intros [H1 H2]. now rewrite H1, IH.
Qed.

Lemma filter_str_all (p : ascii -> bool) (s : string) :
  all_chars p (filter_str p s) = true.
Proof.
  induction s as [|c s IH]; simpl; [reflexivity|].
  destruct (p c) eqn:E; simpl; [now rewrite E|exact IH].
Qed.

Lemma break_at_spec (p : ascii -> bool) (s l r : string) :
  break_at p s = (l, r) ->
  s = l ++ r
  /\ all_chars (fun c => negb (p c)) l = true
  /\ (r = "" \/ exists c r', r = String c r' /\ p c = true).
Proof.
  revert l r. induction s as [|c s IH]; intros l r H; simpl in H.
  - injection H as <- <-. auto.
  - destruct (p c) eqn:E.
    + injection H as <- <-. simpl. repeat split; eauto.
    + destruct (break_at p s) as [l' r'] eqn:Eb. injection H as <- <-.
      destruct (IH l' r' eq_refl) as (-> & Hl & Hr).
      simpl. rewrite E. auto.
Qed.

Lemma break_at_app (p : ascii -> bool) (l r : string) :
  all_chars (fun c => negb (p c)) l = true ->
  (r = "" \/ exists c r', r = String c r' /\ p c = true) ->
  break_at p (l ++ r) = (l, r).
Proof.
  intros Hl Hr. induction l as [|c l IH]; simpl in *.
  - destruct Hr as [-> | (c & r' & -> & Hc)]; simpl; [reflexivity|].
    now rewrite Hc.
  - apply andb_true_iff in Hl. destruct Hl as [Hc Hl].
    apply negb_true_iff in Hc. rewrite Hc, (IH Hl). reflexivity.
Qed.

Lemma find_char_Some (c : ascii) (s l r : string) :
  find_char c s = Some (l, r) ->
  s = l ++ String c r /\ has_char c l = false.
Proof.
  unfold find_char. destruct (break_at (Ascii.eqb c) s) as [l' r'] eqn:E.
  destruct r' as [|x r']; [discriminate|]. intros H. injection H as <- <-.
  destruct (break_at_spec _ _ _ _ E) as (-> & Hl & Hr).
  destruct Hr as [Hr | (c' & r'' & Hr & Hc)]; [discriminate|].
  injection Hr as <- <-. apply Ascii.eqb_eq in Hc. subst x.
  split; [reflexivity|]. apply has_char_false_iff.
  eapply all_chars_impl; [|exact Hl]. intros y. simpl.
  now rewrite (Ascii.eqb_sym y c).
Qed.

Lemma find_char_app (c : ascii) (l r : string) :
  has_char c l = false -> find_char c (l ++ String c r) = Some (l, r).
Proof.
  intros H. unfold find_char. rewrite break_at_app; [reflexivity | |].
  - apply has_char_false_iff in H. eapply all_chars_impl; [|exact H].
    intros y. simpl. now rewrite (Ascii.eqb_sym y c).
  - right. exists c, r. split; [reflexivity | apply Ascii.eqb_refl].
Qed.

Lemma find_char_None (c : ascii) (s : string) :
  find_char c s = None <-> has_char c s = false.
Proof.
  unfold find_char. destruct (break_at (Ascii.eqb c) s) as [l r] eqn:E.
  destruct (break_at_spec _ _ _ _ E) as (-> & Hl & Hr).
  assert (Hl' : has_char c l = false).
  { apply has_char_false_iff. eapply all_chars_impl; [|exact Hl].
    intros y. simpl. now rewrite (Ascii.eqb_sym y c). }
  rewrite has_char_app, Hl'. simpl.
  destruct r as [|x r]; simpl; [tauto|].
  destruct Hr as [Hr | (c' & r'' & Hr & Hc)]; [discriminate|].
  injection Hr as <- <-. apply Ascii.eqb_eq in Hc. subst x.
  rewrite Ascii.eqb_refl. simpl. split; discriminate.
Qed.

Lemma rfind_char_Some (c : ascii) (s l r : string) :
  rfind_char c s = Some (l, r) ->
  s = l ++ String c r /\ has_char c r = false.
Proof.
  revert l r. induction s as [|x s IH]; intros l r H; simpl in H; [discriminate|].
  destruct (rfind_char c s) as [[l' r']|] eqn:E.
  - injection H as <- <-. destruct (IH l' r' eq_refl) as [-> Hr]. auto.
  - destruct (Ascii.eqb x c) eqn:Ex; [|discriminate].
    injection H as <- <-. apply Ascii.eqb_eq in Ex. subst x.
    split; [reflexivity|]. clear IH.
    induction s as [|y s IH]; [reflexivity|]. simpl in *.
    destruct (rfind_char c s) as [[? ?]|]; [discriminate|].
    destruct (Ascii.eqb y c); [discriminate|]. simpl. auto.
Qed.

Lemma rfind_char_None (c : ascii) (s : string) :
  rfind_char c s = None <-> has_char c s = false.
Proof.
  induction s as [|x s IH]; simpl; [tauto|].
  destruct (rfind_char c s) as [[l r]|].
  - rewrite orb_false_iff. split; [discriminate|].
    intros [_ H]. apply IH in H. discriminate.
  - destruct (Ascii.eqb x c); simpl; [split; discriminate|].
    rewrite <- IH. tauto.
Qed.

Lemma rfind_char_app (c : ascii) (l r : string) :
  has_char c r = false -> rfind_char c (l ++ String c r) = Some (l, r).
Proof.
  intros H. induction l as [|x l IH]; simpl.
  - apply rfind_char_None in H. rewrite H, Ascii.eqb_refl. reflexivity.
  - now rewrite IH.
Qed.

Lemma lstrip_by_id (p : ascii -> bool) (c : ascii) (s : string) :
  p c = false -> lstrip_by p (String c s) = String c s.
Proof. intros H. simpl. now rewrite H. Qed.

Lemma startswith_app (p r : string) : startswith p (p ++ r) = true.
Proof. apply startswith_iff. now exists r. Qed.

(** [endswith] of a one-character suffix looks at the last character. *)
Lemma endswith_char_app (c : ascii) (a : string) (x : ascii) (b : string) :
  endswith (String c "") (a ++ String x b)
  = endswith (String c "") (String x b).
Proof.
  induction a as [|y a IH]; [reflexivity|].
  cbn [append endswith]. rewrite IH.
  destruct (a ++ String x b) eqn:E.
  - destruct a; discriminate.
  - cbn. destruct (Ascii.eqb c y); reflexivity.
Qed.

Lemma endswith_char_snoc (c : ascii) (a : string) (x : ascii) :
  endswith (String c "") (a ++ String x "") = Ascii.eqb c x.
Proof.
  rewrite endswith_char_app. cbn.
  destruct (Ascii.eqb c x); reflexivity.
Qed.

Lemma endswith_char_no (c : ascii) (s : string) :
  has_char c s = false -> endswith (String c "") s = false.
Proof.
  induction s as [|x s IH]; [reflexivity|].
  cbn [has_char endswith]. rewrite orb_false_iff. intros [H1 H2].
  rewrite (IH H2), orb_false_r. cbn.
  rewrite Ascii.eqb_sym, H1. reflexivity.
Qed.

(** A non-empty text is a text followed by its last character. *)
Lemma last_char (c : ascii) (s : string) :
  exists a x, String c s = a ++ String x "".
Proof.
  revert c. induction s as [|y s IH]; intros c.
  - now exists "", c.
  - destruct (IH y) as (a & x & E). exists (String c a), x.
    simpl. now rewrite E.
Qed.

Lemma drop_last_snoc (a : string) (x : ascii) :
  drop_last (a ++ String x "") = a.
Proof.
  induction a as [|y a IH]; [reflexivity|].
  cbn [append drop_last]. rewrite IH.
  destruct (a ++ String x "") eqn:E; [destruct a; discriminate | reflexivity].
Qed.

Lemma truthy_iff (s : string) : truthy s = true <-> s <> "".
Proof. destruct s; simpl; split; congruence. Qed.

Lemma mem_str_lower_scheme (s : string) (l : list string) :
  lower s = s -> mem_str (lower s) l = mem_str s l.
Proof. now intros ->. Qed.

(** ** URL normalisation: parsing what [geturl] has assembled *)

Lemma urlparse_unfold (u : string) :
  urlparse u
  = (sp <- urlsplit u ;;
     Ok (mkParse (s_scheme sp) (s_netloc sp)
           (fst (split_params_of (s_scheme sp) (s_path sp)))
           (snd (split_params_of (s_scheme sp) (s_path sp)))
           (s_query sp) (s_fragment sp))).
Proof.
  unfold urlparse, split_params_of. destruct (urlsplit u) as [sp|e]; [|reflexivity].
  cbn [bind].
  destruct (mem_str (s_scheme sp) uses_params && has_char ";" (s_path sp))%bool;
    [destruct (splitparams (s_path sp))|]; reflexivity.
Qed.

Lemma splitparams_cases (x p q : string) :
  splitparams x = (p, q) ->
  (x = p /\ q = "") \/ (x = p ++ String ";" q /\ has_char "/" q = false).
Proof.
  unfold splitparams.
  destruct (rfind_char "/" x) as [[before after]|] eqn:Er.
  - apply rfind_char_Some in Er. destruct Er as [-> Hafter].
    destruct (find_char ";" after) as [[a b]|] eqn:Ef.
    + apply find_char_Some in Ef. destruct Ef as [-> Ha].
      intros H. injection H as <- <-. right.
      rewrite has_char_app in Hafter. apply orb_false_iff in Hafter.
      destruct Hafter as [_ Hb]. simpl in Hb.
      split; [now rewrite append_assoc | exact Hb].
    + intros H. injection H as <- <-. now left.
  - destruct (find_char ";" x) as [[a b]|] eqn:Ef.
    + apply find_char_Some in Ef. destruct Ef as [-> Ha].
      intros H. injection H as <- <-. right. split; [reflexivity|].
      apply rfind_char_None in Er. rewrite has_char_app in Er.
      apply orb_false_iff in Er. destruct Er as [_ Hb]. exact Hb.
    + intros H. injection H as <- <-. now left.
Qed.

Lemma splitparams_stable (x p q : string) :
  splitparams x = (p, q) ->
  (if has_char ";" (join_params p q)
   then splitparams (join_params p q)
   else (join_params p q, "")) = (p, q).
Proof.
  unfold splitparams at 1.
  destruct (rfind_char "/" x) as [[before after]|] eqn:Er.
  - apply rfind_char_Some in Er. destruct Er as [-> Hafter].
    destruct (find_char ";" after) as [[a b]|] eqn:Ef.
    + apply find_char_Some in Ef. destruct Ef as [-> Ha].
      intros H. injection H as <- <-.
      rewrite has_char_app in Hafter. apply orb_false_iff in Hafter.
      destruct Hafter as [Ha' Hb'].
      unfold join_params. destruct b as [|c b]; cbn [truthy].
      * destruct (has_char ";" (before ++ String "/" a)); [|reflexivity].
        unfold splitparams. rewrite (rfind_char_app _ _ _ Ha').
        apply find_char_None in Ha. now rewrite Ha.
      * rewrite append_assoc. cbn [append].
        rewrite has_char_app. cbn [has_char].
        rewrite has_char_app. cbn [has_char]. rewrite Ascii.eqb_refl.
        rewrite !orb_true_r. unfold splitparams.
        assert (Hno : has_char "/" (a ++ String ";" (String c b)) = false)
          by (rewrite has_char_app, Ha'; exact Hb').
        rewrite (rfind_char_app _ _ _ Hno), (find_char_app _ _ _ Ha).
        reflexivity.
    + intros H. injection H as <- <-. unfold join_params. cbn [truthy].
      destruct (has_char ";" (before ++ String "/" after)); [|reflexivity].
      unfold splitparams. now rewrite (rfind_char_app _ _ _ Hafter), Ef.
  - destruct (find_char ";" x) as [[a b]|] eqn:Ef.
    + pose proof Ef as Ef'. apply find_char_Some in Ef'. destruct Ef' as [Hx Ha].
      intros H. injection H as <- <-.
      unfold join_params. destruct b as [|c b]; cbn [truthy].
      * now rewrite Ha.
      * cbn [append]. rewrite <- Hx.
        assert (Hs : has_char ";" x = true).
        { destruct (has_char ";" x) eqn:E; [reflexivity|].
          apply find_char_None in E. congruence. }
        rewrite Hs. unfold splitparams. now rewrite Er, Ef.
    + intros H. injection H as <- <-. unfold join_params. cbn [truthy].
      apply find_char_None in Ef. now rewrite Ef.
Qed.

Lemma split_params_of_cases (s x p q : string) :
  split_params_of s x = (p, q) ->
  (x = p /\ q = "") \/ (x = p ++ String ";" q /\ has_char "/" q = false).
Proof.
  unfold split_params_of.
  destruct (mem_str s uses_params && has_char ";" x)%bool.
  - apply splitparams_cases.
  - intros H. injection H as <- <-. now left.
Qed.

Lemma split_params_of_stable (s x p q : string) :
  split_params_of s x = (p, q) ->
  split_params_of s (join_params p q) = (p, q).
Proof.
  unfold split_params_of.
  destruct (mem_str s uses_params) eqn:Em; cbn [andb].
  - destruct (has_char ";" x) eqn:Eh.
    + apply splitparams_stable.
    + intros H. injection H as <- <-. unfold join_params. cbn [truthy].
      now rewrite Eh.
  - intros H. injection H as <- <-. reflexivity.
Qed.

(** The body that [geturl] writes is the path of [urlsplit] without a
    final ";" that introduced empty params. *)
Lemma join_params_cases (s x p q : string) :
  split_params_of s x = (p, q) ->
  join_params p q = x \/ (x = join_params p q ++ ";" /\ q = "").
Proof.
  intros H. apply split_params_of_cases in H.
  unfold join_params. destruct H as [[-> ->] | [-> Hq]].
  - now left.
  - destruct q; cbn [truthy]; [right | left]; auto.
Qed.

Lemma valid_body_join (s x p q : string) :
  valid_body x -> split_params_of s x = (p, q) -> valid_body (join_params p q).
Proof.
  intros Hx H. destruct (join_params_cases _ _ _ _ H) as [-> | [E _]]; [exact Hx|].
  destruct Hx as (Hstart & Hh & Hq & Hsafe). rewrite E in Hstart, Hh, Hq, Hsafe.
  rewrite has_char_app in Hh, Hq. rewrite all_chars_app in Hsafe.
  apply orb_false_iff in Hh, Hq. apply andb_true_iff in Hsafe.
  repeat split; try tauto.
  destruct (join_params p q) as [|c b]; [now left|]. right.
  destruct Hstart as [Hs | Hs]; [discriminate | exact Hs].
Qed.

Lemma assemble_first_char (s nl body : string) :
  valid_scheme s ->
  exists c rest, assemble s nl body = String c rest /\ is_c0_or_space c = false.
Proof.
  intros [-> | (c0 & t & -> & Ha & _)]; unfold assemble; cbn [truthy].
  - eexists _, _. split; [reflexivity | reflexivity].
  - eexists _, _. split; [reflexivity | now apply alpha_not_c0].
Qed.

Lemma all_chars_cons (p : ascii -> bool) (c : ascii) (s : string) :
  all_chars p (String c s) = (p c && all_chars p s)%bool.
Proof. reflexivity. Qed.

Lemma assemble_safe (s nl body : string) :
  valid_scheme s -> all_chars is_safe_byte nl = true ->
  all_chars is_safe_byte body = true ->
  all_chars is_safe_byte (assemble s nl body) = true.
Proof.
  intros Hs Hn Hb.
  assert (Hrest : all_chars is_safe_byte ("//" ++ nl ++ body) = true)
    by (cbn [append all_chars]; rewrite all_chars_app, Hn, Hb; reflexivity).
  unfold assemble. destruct Hs as [-> | (c0 & t & -> & _ & Hsc & _)]; cbn [truthy].
  - exact Hrest.
  - rewrite all_chars_app, (all_chars_impl _ _ _ scheme_char_safe Hsc).
    change (":" ++ ("//" ++ nl ++ body)) with (String ":" ("//" ++ nl ++ body)).
    rewrite all_chars_cons, Hrest. reflexivity.
Qed.

Lemma split_scheme_assemble (s nl body : string) :
  valid_scheme s ->
  split_scheme (assemble s nl body) = (s, "//" ++ nl ++ body).
Proof.
  intros [-> | (c0 & t & -> & Ha & Hsc & Hl)]; unfold assemble; cbn [truthy].
  - unfold split_scheme.
    destruct (find_char ":" ("//" ++ nl ++ body)) as [[l r]|] eqn:E; [|reflexivity].
    destruct l as [|c l]; [reflexivity|].
    apply find_char_Some in E. destruct E as [E _].
    cbn in E. injection E as <- _. reflexivity.
  - unfold split_scheme.
    assert (Hno : has_char ":" (String c0 t) = false).
    { apply has_char_false_iff. eapply all_chars_impl; [|exact Hsc].
      intros c Hc. now rewrite (scheme_char_not_colon c Hc). }
    change (":" ++ ("//" ++ nl ++ body)) with (String ":" ("//" ++ nl ++ body)).
    rewrite (find_char_app _ _ _ Hno), Ha, Hsc, Hl. reflexivity.
Qed.

Lemma urlsplit_assemble (s nl body : string) :
  valid_scheme s -> valid_netloc nl -> valid_body body ->
  urlsplit (assemble s nl body) = Ok (mkSplit s nl body "" "").
Proof.
  intros Hs (Hd & Hnsafe & Hbr & Herr) (Hstart & Hh & Hq & Hbsafe).
  unfold urlsplit.
  destruct (assemble_first_char s nl body Hs) as (c & rest & E & Hc).
  rewrite E, (lstrip_by_id _ _ _ Hc), <- E.
  rewrite (filter_str_id _ _ (assemble_safe _ _ _ Hs Hnsafe Hbsafe)).
  rewrite (split_scheme_assemble _ _ _ Hs).
  cbn [append split_netloc].
  rewrite break_at_app; [| exact Hd |].
  - rewrite Hbr. unfold split_once.
    apply find_char_None in Hh, Hq. rewrite Hh, Hq, Herr. reflexivity.
  - destruct Hstart as [-> | Hst]; [now left|]. right.
    destruct body as [|x b]; [discriminate|].
    exists x, b. split; [reflexivity|].
    cbn [startswith] in Hst. apply andb_true_iff in Hst. destruct Hst as [Hx _].
    apply Ascii.eqb_eq in Hx. subst x. reflexivity.
Qed.

Lemma urlparse_assemble (s nl p q : string) :
  valid_scheme s -> valid_netloc nl -> valid_body (join_params p q) ->
  split_params_of s (join_params p q) = (p, q) ->
  urlparse (assemble s nl (join_params p q)) = Ok (mkParse s nl p q "" "").
Proof.
  intros Hs Hn Hb Hsplit.
  rewrite urlparse_unfold, (urlsplit_assemble _ _ _ Hs Hn Hb).
  cbn [bind s_scheme s_netloc s_path s_query s_fragment].
  now rewrite Hsplit.
Qed.

Lemma geturl_assemble (s nl p q : string) :
  nl <> "" -> valid_body (join_params p q) ->
  geturl (mkParse s nl p q "" "") = assemble s nl (join_params p q).
Proof.
  intros Hnl (Hstart & _). unfold geturl, urlunsplit, assemble.
  cbn [scheme netloc path params query fragment truthy].
  fold (join_params p q).
  apply truthy_iff in Hnl. rewrite Hnl. cbn [orb].
  assert (E : (truthy (join_params p q)
               && negb (startswith "/" (join_params p q)))%bool = false).
  { destruct Hstart as [-> | ->]; [reflexivity | apply andb_false_r]. }
  rewrite E. destruct (truthy s); reflexivity.
Qed.

(** ** URL normalisation: what [urlparse] returns *)

Lemma split_scheme_spec (u sch rest : string) :
  split_scheme u = (sch, rest) ->
  valid_scheme sch
  /\ (all_chars is_safe_byte u = true -> all_chars is_safe_byte rest = true).
Proof.
  unfold split_scheme.
  destruct (find_char ":" u) as [[l r]|] eqn:Ef;
    [destruct l as [|c0 pre];
     [|destruct (is_alpha c0 && all_chars scheme_char (String c0 pre))%bool eqn:Ec]|];
    intros H; injection H as <- <-; try (split; [now left | auto]).
  apply andb_true_iff in Ec. destruct Ec as [Ha Hsc].
  apply find_char_Some in Ef. destruct Ef as [-> _]. split.
  - right. exists (lower_char c0), (lower pre). repeat split.
    + now rewrite lower_char_alpha.
    + change (String (lower_char c0) (lower pre)) with (lower (String c0 pre)).
      now rewrite (all_chars_lower _ _ lower_char_scheme).
    + change (String (lower_char c0) (lower pre)) with (lower (String c0 pre)).
      apply lower_idem.
  - rewrite all_chars_app, all_chars_cons, !andb_true_iff. tauto.
Qed.

Lemma split_netloc_Some (url nl rest : string) :
  split_netloc url = Some (nl, rest) ->
  url = "//" ++ nl ++ rest
  /\ all_chars (fun c => negb (is_netloc_delim c)) nl = true
  /\ (rest = "" \/ exists c r', rest = String c r' /\ is_netloc_delim c = true).
Proof.
  destruct url as [|a [|b t]]; try discriminate.
  - destruct a as [[] [] [] [] [] [] [] []]; discriminate.
  - intros H.
    assert (Hab : a = "/"%char /\ b = "/"%char
                  /\ break_at is_netloc_delim t = (nl, rest)).
    { destruct a as [[] [] [] [] [] [] [] []]; try discriminate H;
      destruct b as [[] [] [] [] [] [] [] []]; try discriminate H.
      cbn in H. injection H as H. auto. }
    destruct Hab as (-> & -> & Hb).
    destruct (break_at_spec _ _ _ _ Hb) as (-> & Hl & Hr). auto.
Qed.

Lemma split_netloc_None (url : string) :
  split_netloc url = None ->
  forall (A : Type) (f : string * string -> A) (d : A),
    match split_netloc url with Some x => f x | None => d end = d.
Proof. intros H A f d. now rewrite H. Qed.

Lemma split_once_spec (c : ascii) (s l r : string) :
  split_once c s = (l, r) ->
  has_char c l = false /\ ((s = l /\ r = "") \/ s = l ++ String c r).
Proof.
  unfold split_once. destruct (find_char c s) as [[l' r']|] eqn:E.
  - intros H. injection H as <- <-. apply find_char_Some in E. tauto.
  - intros H. injection H as <- <-. apply find_char_None in E. auto.
Qed.

Lemma delim_is_slash (c : ascii) :
  is_netloc_delim c = true -> Ascii.eqb c "#" = false ->
  Ascii.eqb c "?" = false -> c = "/"%char.
Proof. ascii_cases c. Qed.

Lemma urlsplit_valid (u : string) (sp : SplitResult) :
  urlsplit u = Ok sp -> s_netloc sp <> "" ->
  valid_scheme (s_scheme sp) /\ valid_netloc (s_netloc sp)
  /\ valid_body (s_path sp).
Proof.
  unfold urlsplit.
  pose proof (filter_str_all is_safe_byte (lstrip_by is_c0_or_space u)) as Hsafe.
  destruct (split_scheme (filter_str is_safe_byte (lstrip_by is_c0_or_space u)))
    as [sch rest] eqn:Es.
  destruct (split_scheme_spec _ _ _ Es) as [Hv Hrs]. specialize (Hrs Hsafe).
  destruct (split_netloc rest) as [[nl rest']|] eqn:En.
  - destruct (split_netloc_Some _ _ _ En) as (-> & Hd & Hstart).
    destruct (unbalanced_brackets nl) eqn:Eb; [discriminate|].
    destruct (split_once "#" rest') as [a frag] eqn:Ea.
    destruct (split_once "?" a) as [b qry] eqn:Eq.
    destruct (netloc_error nl) eqn:Ee; [discriminate|].
    intros H _. injection H as <-.
    cbn [s_scheme s_netloc s_path].
    cbn [append] in Hrs. rewrite !all_chars_cons, all_chars_app in Hrs.
    apply andb_true_iff in Hrs. destruct Hrs as [_ Hrs].
    apply andb_true_iff in Hrs. destruct Hrs as [_ Hrs].
    apply andb_true_iff in Hrs. destruct Hrs as [Hnsafe Hrsafe].
    apply split_once_spec in Ea, Eq.
    destruct Ea as [Hah Ea], Eq as [Hbq Eq].
    assert (Hba : exists t, a = b ++ t).
    { destruct Eq as [[-> _] | ->]; [exists ""; now rewrite append_nil_r | eauto]. }
    assert (Har : exists t, rest' = a ++ t).
    { destruct Ea as [[-> _] | ->]; [exists ""; now rewrite append_nil_r | eauto]. }
    destruct Hba as (t1 & ->), Har as (t2 & ->).
    rewrite has_char_app in Hah. apply orb_false_iff in Hah. destruct Hah as [Hbh _].
    rewrite !all_chars_app in Hrsafe.
    apply andb_true_iff in Hrsafe. destruct Hrsafe as [Hrsafe _].
    apply andb_true_iff in Hrsafe. destruct Hrsafe as [Hbsafe _].
    split; [exact Hv|]. split; [repeat split; assumption|].
    repeat split; try assumption.
    destruct b as [|x b]; [now left|]. right.
    destruct Hstart as [Hst | (c & r' & Hst & Hc)]; [discriminate|].
    cbn in Hst. injection Hst as <- _.
    cbn [has_char] in Hbh, Hbq. apply orb_false_iff in Hbh, Hbq.
    rewrite (delim_is_slash x Hc (proj1 Hbh) (proj1 Hbq)). reflexivity.
  - cbn. destruct (split_once "#" rest) as [a frag].
    destruct (split_once "?" a) as [b qry].
    destruct (netloc_error ""); [discriminate|].
    intros H Hne. injection H as <-. now contradiction Hne.
Qed.

Lemma urlparse_valid (u : string) (r : ParseResult) :
  urlparse u = Ok r -> netloc r <> "" ->
  valid_scheme (scheme r) /\ valid_netloc (netloc r)
  /\ exists x, valid_body x
               /\ split_params_of (scheme r) x = (path r, params r).
Proof.
  rewrite urlparse_unfold. destruct (urlsplit u) as [sp|e] eqn:Es; [|discriminate].
  cbn [bind]. intros H Hne. injection H as <-.
  cbn [scheme netloc path params] in *.
  destruct (urlsplit_valid _ _ Es Hne) as (Hs & Hn & Hb).
  split; [exact Hs|]. split; [exact Hn|].
  exists (s_path sp). split; [exact Hb|].
  now destruct (split_params_of (s_scheme sp) (s_path sp)).
Qed.

(** ** URL normalisation: idempotence *)

Lemma endswith_iff (suf s : string) :
  endswith suf s = true -> exists a, s = a ++ suf.
Proof.
  induction s as [|c s IH]; cbn [endswith].
  - rewrite orb_false_r. intros H. apply String.eqb_eq in H. subst. now exists "".
  - rewrite orb_true_iff. intros [H | H].
    + apply String.eqb_eq in H. subst. now exists "".
    + destruct (IH H) as [a ->]. now exists (String c a).
Qed.

Lemma assemble_app (s nl a b : string) :
  assemble s nl (a ++ b) = assemble s nl a ++ b.
Proof.
  unfold assemble.
  destruct (truthy s); rewrite ?append_assoc; cbn [append];
    rewrite ?append_assoc; reflexivity.
Qed.

Lemma app_snoc_inj (a b : string) (x y : ascii) :
  a ++ String x "" = b ++ String y "" -> a = b /\ x = y.
Proof.
  revert b. induction a as [|c a IH]; intros b H.
  - destruct b as [|d b]; cbn in H.
    + injection H as ->. auto.
    + injection H as -> H. destruct b; discriminate.
  - destruct b as [|d b]; cbn in H.
    + injection H as -> H. destruct a; discriminate.
    + injection H as -> H. destruct (IH _ H) as [-> ->]. auto.
Qed.

Lemma endswith_slash_netloc (s nl : string) :
  endswith "twinset.com" nl = true -> endswith "/" (assemble s nl "") = false.
Proof.
  intros H. apply endswith_iff in H. destruct H as [a ->].
  unfold assemble.
  assert (E : forall pre, endswith "/" (pre ++ (a ++ "twinset.com") ++ "") = false).
  { intros pre. rewrite append_nil_r, <- append_assoc.
    change "twinset.com" with (String "t" "winset.com").
    now rewrite endswith_char_app. }
  destruct (truthy s).
  - specialize (E (s ++ "://")). rewrite append_assoc in E. exact E.
  - exact (E "//").
Qed.

(** C2 (as amended).  Normalising a normalised URL gives the same text
    whenever the URL has a network location and either the trailing-slash
    rule did not fire on it, or it fired and left a text ending neither
    in "/" nor in ";". *)
Theorem strip_query_and_fragment_idempotent (u n : string)
    (parsed : ParseResult) :
  urlparse u = Ok parsed ->
  netloc parsed <> "" ->
  strip_query_and_fragment u = Ok n ->
  trailing_slash_rule parsed
    (geturl (mkParse (scheme parsed) (netloc parsed) (path parsed)
               (params parsed) "" "")) = false
  \/ (endswith "/" n = false /\ endswith ";" n = false) ->
  strip_query_and_fragment n = Ok n.
Proof.
  intros Hparse Hne Hstrip Hcase.
  destruct (urlparse_valid _ _ Hparse Hne) as (Hs & Hn & x & Hx & Hsplit).
  pose proof (valid_body_join _ _ _ _ Hx Hsplit) as Hb.
  pose proof (split_params_of_stable _ _ _ _ Hsplit) as Hst.
  unfold strip_query_and_fragment in Hstrip. rewrite Hparse in Hstrip.
  cbn [bind] in Hstrip.
  rewrite (geturl_assemble _ _ _ _ Hne Hb) in Hstrip, Hcase.
  set (s := scheme parsed) in *. set (nl := netloc parsed) in *.
  set (p := path parsed) in *. set (q := params parsed) in *.
  assert (Hfix : forall p' q',
            valid_body (join_params p' q') ->
            split_params_of s (join_params p' q') = (p', q') ->
            endswith "/" (assemble s nl (join_params p' q')) = false
            \/ trailing_slash_rule parsed (assemble s nl (join_params p' q')) = false ->
            strip_query_and_fragment (assemble s nl (join_params p' q'))
            = Ok (assemble s nl (join_params p' q'))).
  { intros p' q' Hb' Hst' Hrule. unfold strip_query_and_fragment.
    rewrite (urlparse_assemble _ _ _ _ Hs Hn Hb' Hst'). cbn [bind].
    cbn [scheme netloc path params].
    rewrite (geturl_assemble _ _ _ _ Hne Hb').
    assert (E : trailing_slash_rule (mkParse s nl p' q' "" "")
                  (assemble s nl (join_params p' q')) = false).
    { destruct Hrule as [Hr | Hr].
      - unfold trailing_slash_rule. now rewrite Hr.
      - exact Hr. }
    now rewrite E. }
  destruct (trailing_slash_rule parsed (assemble s nl (join_params p q))) eqn:Er.
  - (* the rule fired *)
    injection Hstrip as <-.
    destruct Hcase as [Hc | [Hslash Hsemi]]; [discriminate|].
    unfold trailing_slash_rule in Er. fold nl in Er.
    apply andb_true_iff in Er. destruct Er as [Er _].
    apply andb_true_iff in Er. destruct Er as [Hends Htw].
    (* the body is a non-empty path ending in a slash, with no params *)
    destruct (join_params p q) as [|c0 body0] eqn:Ebody.
    { rewrite (endswith_slash_netloc s nl Htw) in Hends. discriminate. }
    destruct (last_char c0 body0) as (b1 & xl & Elast).
    rewrite Elast in *.
    rewrite assemble_app in Hends, Hslash, Hsemi |- *.
    rewrite endswith_char_snoc in Hends. apply Ascii.eqb_eq in Hends. subst xl.
    rewrite drop_last_snoc in Hslash, Hsemi |- *.
    assert (Hq : q = "").
    { destruct (split_params_of_cases _ _ _ _ Hsplit) as [[_ Hq] | [_ Hq]];
        [exact Hq|].
      destruct q as [|cq q']; [reflexivity|]. exfalso.
      unfold join_params in Ebody. cbn [truthy] in Ebody.
      destruct (last_char cq q') as (q1 & y & Eq). rewrite Eq in Ebody, Hq.
      change (p ++ ";" ++ q1 ++ String y "") with (p ++ String ";" (q1 ++ String y "")) in Ebody.
      change (String ";" (q1 ++ String y "")) with (String ";" q1 ++ String y "") in Ebody.
      rewrite <- append_assoc in Ebody.
      apply app_snoc_inj in Ebody. destruct Ebody as [_ ->].
      rewrite has_char_app in Hq. cbn in Hq. rewrite orb_true_r in Hq.
      discriminate. }
    (* the text left is the assembly of the path without its last slash *)
    assert (Hb1 : valid_body b1).
    { destruct Hb as (Hstart & Hh & Hqm & Hsafe).
      rewrite has_char_app in Hh, Hqm. rewrite all_chars_app in Hsafe.
      apply orb_false_iff in Hh, Hqm. apply andb_true_iff in Hsafe.
      repeat split; try tauto.
      destruct b1 as [|c b1']; [now left|]. right.
      destruct Hstart as [Hst0 | Hst0]; [discriminate | exact Hst0]. }
    destruct (split_params_of s b1) as [p' q'] eqn:Esp.
    destruct (join_params_cases _ _ _ _ Esp) as [Ej | [Ej _]].
    + rewrite <- Ej. apply Hfix.
      * now rewrite Ej.
      * eapply split_params_of_stable. exact Esp.
      * left. now rewrite Ej.
    + exfalso. rewrite Ej in Hsemi. rewrite assemble_app in Hsemi.
      rewrite endswith_char_snoc in Hsemi. discriminate.
  - (* the rule did not fire *)
    injection Hstrip as <-. apply Hfix; auto.
Qed.

(** ** The sitemap resolver *)

Lemma existsb_sitemap_key (site url : string) (rows : list SitemapRecord) :
  existsb (sitemap_key site url) rows = true <->
  exists r, In r rows /\ sm_site r = site /\ sm_url r = url.
Proof.
  rewrite existsb_exists. unfold sitemap_key.
  split; intros (r & Hin & H); exists r; split; auto.
  - apply andb_true_iff in H. now rewrite !String.eqb_eq in H.
  - destruct H as [-> ->]. now rewrite !String.eqb_refl.
Qed.

Lemma enqueued_type_iff (url_type : string) :
  enqueued_type url_type = true <->
  url_type = "product" \/ url_type = "category".
Proof. unfold enqueued_type. now rewrite orb_true_iff, !String.eqb_eq. Qed.

Lemma process_loc_sitemap (site_cfg : SiteConfig) (next_url : string)
    (st : state) (loc clean : string) :
  strip_query_and_fragment loc = Ok clean ->
  is_sitemap_url clean = true ->
  process_loc site_cfg next_url st loc
  = (stamped st (fun db now =>
                   enqueue_sitemap db (key site_cfg) clean (Some next_url) now),
     None).
Proof. intros H1 H2. unfold process_loc. now rewrite H1, H2. Qed.

Lemma process_loc_page (site_cfg : SiteConfig) (next_url : string)
    (st : state) (loc clean url_type : string) :
  strip_query_and_fragment loc = Ok clean ->
  is_sitemap_url clean = false ->
  classify_url site_cfg clean = Ok url_type ->
  process_loc site_cfg next_url st loc
  = if enqueued_type url_type
    then (stamped st (fun db now =>
                        enqueue_url db (key site_cfg) clean url_type 0
                          (Some next_url) now),
          None)
    else (st, None).
Proof. intros H1 H2 H3. unfold process_loc. now rewrite H1, H2, H3. Qed.

(** What one [<loc>] value does to the store.  A value whose normalised
    form ends in ".xml" or ".xml.gz", whatever the case of the letters,
    is enqueued as a sitemap and leaves [url_queue] alone.  Any other
    value is classified; it is enqueued in [url_queue], at depth 0 and
    with status 'pending', only when it is classified 'product' or
    'category', and a value classified 'other' changes nothing. *)
Lemma process_loc_spec (site_cfg : SiteConfig) (next_url : string)
    (st : state) (loc clean : string) :
  strip_query_and_fragment loc = Ok clean ->
  let st' := fst (process_loc site_cfg next_url st loc) in
  (is_sitemap_url clean = true ->
   url_queue (st_db st') = url_queue (st_db st)
   /\ (exists r, In r (sitemaps (st_db st'))
                 /\ sm_site r = key site_cfg /\ sm_url r = clean)
   /\ ((forall r, In r (sitemaps (st_db st)) ->
                  ~ (sm_site r = key site_cfg /\ sm_url r = clean)) ->
       sitemaps (st_db st')
       = (sitemaps (st_db st)
          ++ [mkSitemap (key site_cfg) clean "pending" (Some next_url) None 0
                None (clock (st_tick st))])%list))
  /\ (is_sitemap_url clean = false ->
      forall url_type, classify_url site_cfg clean = Ok url_type ->
        sitemaps (st_db st') = sitemaps (st_db st)
        /\ (url_type = "product" \/ url_type = "category" ->
            (exists r, In r (url_queue (st_db st'))
                       /\ q_site r = key site_cfg /\ q_url r = clean)
            /\ ((forall r, In r (url_queue (st_db st)) ->
                           ~ (q_site r = key site_cfg /\ q_url r = clean)) ->
                url_queue (st_db st')
                = (url_queue (st_db st)
                   ++ [mkQueueItem (key site_cfg) clean url_type "pending" 0
                         (Some next_url) 0 None 0 None (clock (st_tick st))])%list))
        /\ (url_type <> "product" -> url_type <> "category" -> st' = st)).
Proof.
  intros Hclean st'. subst st'. split.
  - intros Hsm. rewrite (process_loc_sitemap _ _ _ _ _ Hclean Hsm).
    cbn [fst stamped st_db]. unfold enqueue_sitemap.
    destruct (existsb (sitemap_key (key site_cfg) clean) (sitemaps (st_db st))) eqn:E.
    + split; [reflexivity|]. split; [now apply existsb_sitemap_key|].
      intros Hfresh. apply existsb_sitemap_key in E.
      destruct E as (r & Hin & Hk). exfalso. exact (Hfresh r Hin Hk).
    + cbn [url_queue sitemaps with_sitemaps]. split; [reflexivity|].
      split; [|reflexivity].
      eexists. split; [apply in_or_app; right; left; reflexivity|]. cbn. auto.
  - intros Hsm url_type Hcl.
    rewrite (process_loc_page _ _ _ _ _ _ Hclean Hsm Hcl).
    destruct (enqueued_type url_type) eqn:Et; cbn [fst stamped st_db].
    + unfold enqueue_url.
      destruct (existsb (queue_key (key site_cfg) clean) (url_queue (st_db st))) eqn:E.
      * split; [reflexivity|]. split.
        -- intros _. split; [now apply existsb_queue_key|].
           intros Hfresh. apply existsb_queue_key in E.
           destruct E as (r & Hin & Hk). exfalso. exact (Hfresh r Hin Hk).
        -- intros N1 N2. apply enqueued_type_iff in Et. tauto.
      * cbn [url_queue sitemaps with_url_queue]. split; [reflexivity|]. split.
        -- intros _. split; [|reflexivity].
           eexists. split; [apply in_or_app; right; left; reflexivity|]. cbn. auto.
        -- intros N1 N2. apply enqueued_type_iff in Et. tauto.
    + split; [reflexivity|]. split; [|reflexivity].
      intros H. apply enqueued_type_iff in H. congruence.
Qed.

Lemma crawl_sitemap_done (site_cfg : SiteConfig) (retries : Z) (st st' : state)
    (next_url raw : string) (headers : headers_t) (locs : list string) :
  fst (get_bytes retries next_url) = Ok (raw, headers) ->
  parse_sitemap_locs raw next_url = Ok locs ->
  process_locs site_cfg next_url
    (slept st (snd (get_bytes retries next_url))) locs = (st', None) ->
  crawl_sitemap site_cfg retries st next_url
  = (stamped st' (fun db now =>
                    set_sitemap_status db (key site_cfg) next_url "done"
                      (Some (Z.of_nat (List.length locs))) None now),
     true).
Proof.
  intros Hf Hp Hl. unfold crawl_sitemap.
  destruct (get_bytes retries next_url) as [fetched sleeps].
  cbn [fst snd] in *. subst fetched. rewrite Hp, Hl. reflexivity.
Qed.


Lemma sitemap_key_mk (site url s u st : string) (d : option string)
    (ic : option Z) (a : Z) (le : option string) (up : string) :
  sitemap_key site url (mkSitemap s u st d ic a le up)
  = (String.eqb s site && String.eqb u url)%bool.
Proof. reflexivity. Qed.

Lemma queue_key_mk (site url s u t st : string) (d : Z)
    (df : option string) (a : Z) (hs : option Z) (b : Z) (le : option string)
    (up : string) :
  queue_key site url (mkQueueItem s u t st d df a hs b le up)
  = (String.eqb s site && String.eqb u url)%bool.
Proof. reflexivity. Qed.

Lemma get_bytes_from_no_pause (retries : Z) (url : string) (remaining : nat) :
  forall attempt last_error,
    filter is_pause (snd (get_bytes_from retries url remaining attempt last_error))
    = [].
Proof.
  induction remaining as [|remaining IH]; intros attempt last_error;
    cbn [get_bytes_from]; [reflexivity|].
  destruct (opener_open url attempt); try reflexivity;
    (destruct (retries <=? attempt); [reflexivity|]);
    specialize (IH (attempt + 1) (Some text));
    destruct (get_bytes_from retries url remaining (attempt + 1) (Some text));
    cbn [snd filter is_pause] in *; exact IH.
Qed.

Lemma get_bytes_no_pause (retries : Z) (url : string) :
  filter is_pause (snd (get_bytes retries url)) = [].
Proof. apply get_bytes_from_no_pause. Qed.

Lemma draws_slept (st : state) (sleeps : list effect) :
  filter is_pause sleeps = [] -> draws (slept st sleeps) = draws st.
Proof.
  intros H. unfold draws, slept. cbn [st_trace].
  now rewrite filter_app, H, app_nil_r.
Qed.

Lemma draws_paused (st : state) (secs : float) :
  draws (slept st [Pause secs]) = S (draws st).
Proof.
  unfold draws, slept. cbn [st_trace].
  rewrite filter_app, length_app. cbn. lia.
Qed.

Lemma process_loc_frame (site_cfg : SiteConfig) (next_url : string)
    (st : state) (loc : string) :
  st_trace (fst (process_loc site_cfg next_url st loc)) = st_trace st.
Proof.
  unfold process_loc.
  destruct (strip_query_and_fragment loc) as [clean|]; [|reflexivity].
  destruct (is_sitemap_url clean); [reflexivity|].
  destruct (classify_url site_cfg clean) as [url_type|]; [|reflexivity].
  destruct (enqueued_type url_type); reflexivity.
Qed.

Lemma process_locs_frame (site_cfg : SiteConfig) (next_url : string)
    (locs : list string) :
  forall st, st_trace (fst (process_locs site_cfg next_url st locs)) = st_trace st.
Proof.
  induction locs as [|loc rest IH]; intros st; cbn [process_locs]; [reflexivity|].
  pose proof (process_loc_frame site_cfg next_url st loc) as H.
  destruct (process_loc site_cfg next_url st loc) as [st1 [e|]]; cbn [fst] in *.
  - exact H.
  - now rewrite IH.
Qed.

(** A round of the resolver draws no random number. *)
Lemma crawl_sitemap_draws (site_cfg : SiteConfig) (retries : Z) (st : state)
    (next_url : string) :
  draws (fst (crawl_sitemap site_cfg retries st next_url)) = draws st.
Proof.
  unfold crawl_sitemap.
  pose proof (get_bytes_no_pause retries next_url) as Hs.
  destruct (get_bytes retries next_url) as [fetched sleeps]. cbn [snd] in Hs.
  pose proof (draws_slept st sleeps Hs) as Hd.
  destruct fetched as [[raw headers]|e]; [|exact Hd].
  destruct (parse_sitemap_locs raw next_url) as [locs|e]; [|exact Hd].
  pose proof (process_locs_frame site_cfg next_url locs (slept st sleeps)) as Hf.
  destruct (process_locs site_cfg next_url (slept st sleeps) locs) as [st1 [e|]];
    cbn [fst] in *; unfold draws in *; cbn [stamped st_trace];
    rewrite Hf; exact Hd.
Qed.

(** A pause that returns leaves the store and the clock alone and takes
    one draw when [delay_max] is positive, none otherwise. *)
Lemma pause_returns (delay_min delay_max : float) (st : state) :
  pauses_return delay_min delay_max (draws st) 1 ->
  exists st',
    pause delay_min delay_max st = Ok st'
    /\ st_db st' = st_db st /\ st_tick st' = st_tick st
    /\ (draws st <= draws st' <= S (draws st))%nat
    /\ (PrimFloat.ltb 0%float delay_max = true -> draws st' = S (draws st)).
Proof.
  intros H. unfold pause. unfold pauses_return in H.
  destruct (PrimFloat.ltb 0%float delay_max).
  - rewrite (H eq_refl (draws st)) by lia.
    eexists. split; [reflexivity|]. split; [reflexivity|]. split; [reflexivity|].
    rewrite draws_paused. split; [lia | reflexivity].
  - exists st. split; [reflexivity|]. split; [reflexivity|].
    split; [reflexivity|]. split; [lia | discriminate].
Qed.

Lemma pause_raises (delay_min delay_max : float) (st : state) (e : exn) :
  PrimFloat.ltb 0%float delay_max = true ->
  sleep (uniform (draws st) delay_min delay_max) = Some e ->
  pause delay_min delay_max st = Raise e.
Proof. intros H1 H2. unfold pause. now rewrite H1, H2. Qed.

Lemma pauses_return_split (delay_min delay_max : float) (first count : nat) :
  pauses_return delay_min delay_max first (S count) ->
  pauses_return delay_min delay_max first 1
  /\ pauses_return delay_min delay_max (S first) count
  /\ pauses_return delay_min delay_max first count.
Proof.
  intros H. repeat split; intros Hd n Hn; apply (H Hd); lia.
Qed.

Lemma loop_step (fuel : nat) (site_cfg : SiteConfig) (retries : Z)
    (delay_min delay_max : float) (processed : Z)
    (st st' st'' : state) (next_url : string) :
  next_pending_sitemap (st_db st) (key site_cfg) = Some next_url ->
  truthy next_url = true ->
  crawl_sitemap site_cfg retries st next_url = (st', true) ->
  pause delay_min delay_max st' = Ok st'' ->
  crawl_sitemaps_loop (S fuel) site_cfg retries delay_min delay_max None
    processed st
  = crawl_sitemaps_loop fuel site_cfg retries delay_min delay_max None
      (processed + 1) st''.
Proof.
  intros Hn Ht Hc Hp. cbn [crawl_sitemaps_loop budget_spent].
  now rewrite Hn, Ht, Hc, Hp.
Qed.

Lemma loop_stop (fuel : nat) (site_cfg : SiteConfig) (retries : Z)
    (delay_min delay_max : float) (processed : Z) (st : state) :
  next_pending_sitemap (st_db st) (key site_cfg) = None ->
  crawl_sitemaps_loop fuel site_cfg retries delay_min delay_max None processed st
  = Some (Ok (st, processed)).
Proof.
  intros Hn. destruct fuel; cbn [crawl_sitemaps_loop budget_spent]; now rewrite Hn.
Qed.

(** A sitemap index with two nested sitemaps. *)
Lemma index_step (site_cfg : SiteConfig) (retries : Z) (st : state)
    (idx raw : string) (headers : headers_t) (l1 l2 c1 c2 : string) :
  fst (get_bytes retries idx) = Ok (raw, headers) ->
  parse_sitemap_locs raw idx = Ok [l1; l2] ->
  strip_query_and_fragment l1 = Ok c1 -> is_sitemap_url c1 = true ->
  strip_query_and_fragment l2 = Ok c2 -> is_sitemap_url c2 = true ->
  existsb (sitemap_key (key site_cfg) c1) (sitemaps (st_db st)) = false ->
  existsb (sitemap_key (key site_cfg) c2) (sitemaps (st_db st)) = false ->
  c1 <> c2 ->
  exists st',
    crawl_sitemap site_cfg retries st idx = (st', true)
    /\ sitemaps (st_db st')
       = map (done_row (key site_cfg) idx 2 (clock (S (S (st_tick st)))))
           (sitemaps (st_db st)
            ++ [mkSitemap (key site_cfg) c1 "pending" (Some idx) None 0 None
                  (clock (st_tick st));
                mkSitemap (key site_cfg) c2 "pending" (Some idx) None 0 None
                  (clock (S (st_tick st)))])%list
    /\ url_queue (st_db st') = url_queue (st_db st).
Proof.
  intros Hf Hp Hs1 Hx1 Hs2 Hx2 E1 E2 N12.
  eexists. split.
  - eapply crawl_sitemap_done; [exact Hf | exact Hp |].
    cbn [process_locs].
    rewrite (process_loc_sitemap _ _ _ _ _ Hs1 Hx1).
    rewrite (process_loc_sitemap _ _ _ _ _ Hs2 Hx2). reflexivity.
  - cbn [stamped slept st_db st_tick st_trace].
    unfold enqueue_sitemap. rewrite E1. cbn [sitemaps with_sitemaps].
    rewrite existsb_app, E2. cbn [existsb orb].
    rewrite sitemap_key_mk, String.eqb_refl, (proj2 (String.eqb_neq c1 c2) N12).
    cbn [andb orb].
    unfold set_sitemap_status. cbn [sitemaps url_queue with_sitemaps].
    split; [|reflexivity].
    rewrite <- app_assoc. reflexivity.
Qed.

(** A leaf sitemap with one product URL that is not yet queued. *)
Lemma leaf_step (site_cfg : SiteConfig) (retries : Z) (st : state)
    (c raw : string) (headers : headers_t) (p q : string) :
  fst (get_bytes retries c) = Ok (raw, headers) ->
  parse_sitemap_locs raw c = Ok [p] ->
  strip_query_and_fragment p = Ok q -> is_sitemap_url q = false ->
  classify_url site_cfg q = Ok "product" ->
  existsb (queue_key (key site_cfg) q) (url_queue (st_db st)) = false ->
  exists st',
    crawl_sitemap site_cfg retries st c = (st', true)
    /\ sitemaps (st_db st')
       = map (done_row (key site_cfg) c 1 (clock (S (st_tick st))))
           (sitemaps (st_db st))
    /\ url_queue (st_db st')
       = (url_queue (st_db st)
          ++ [mkQueueItem (key site_cfg) q "product" "pending" 0 (Some c) 0
                None 0 None (clock (st_tick st))])%list.
Proof.
  intros Hf Hp Hs Hx Hc E.
  eexists. split.
  - eapply crawl_sitemap_done; [exact Hf | exact Hp |].
    cbn [process_locs].
    rewrite (process_loc_page _ _ _ _ _ _ Hs Hx Hc). reflexivity.
  - cbn [stamped slept st_db st_tick st_trace].
    unfold enqueue_url. rewrite E.
    unfold set_sitemap_status. cbn [sitemaps url_queue with_sitemaps with_url_queue].
    split; reflexivity.
Qed.

(** *** The values of one sitemap *)

Lemma process_loc_fails (site_cfg : SiteConfig) (next_url : string)
    (st : state) (loc : string) (e : exn) :
  fails site_cfg loc e ->
  process_loc site_cfg next_url st loc = (st, Some e).
Proof.
  intros [H | (clean & H1 & H2 & H3)]; unfold process_loc.
  - now rewrite H.
  - now rewrite H1, H2, H3.
Qed.

Lemma resolved_same_db (site_cfg : SiteConfig) (next_url : string)
    (locs : list string) (st st' : state) :
  st_db st' = st_db st -> resolved site_cfg next_url locs st st'.
Proof.
  intros E. unfold resolved. rewrite E.
  repeat split; try (exists []; split; [now rewrite app_nil_r | constructor]).
Qed.

Lemma resolved_refl (site_cfg : SiteConfig) (next_url : string)
    (locs : list string) (st : state) :
  resolved site_cfg next_url locs st st.
Proof. now apply resolved_same_db. Qed.

Lemma resolved_trans (site_cfg : SiteConfig) (next_url : string)
    (locs : list string) (st1 st2 st3 : state) :
  resolved site_cfg next_url locs st1 st2 ->
  resolved site_cfg next_url locs st2 st3 ->
  resolved site_cfg next_url locs st1 st3.
Proof.
  intros ((a1 & E1 & F1) & (b1 & G1 & H1) & P1 & X1)
         ((a2 & E2 & F2) & (b2 & G2 & H2) & P2 & X2).
  repeat split.
  - exists (a1 ++ a2)%list. split.
    + now rewrite E2, E1, app_assoc.
    + apply Forall_app. now split.
  - exists (b1 ++ b2)%list. split.
    + now rewrite G2, G1, app_assoc.
    + apply Forall_app. now split.
  - congruence.
  - congruence.
Qed.

(** One value that is handled: its row is in the table it belongs to
    afterwards, and the state has grown by that row at most. *)
Lemma process_loc_handled (site_cfg : SiteConfig) (next_url : string)
    (locs : list string) (st : state) (loc : string) :
  In loc locs -> handled site_cfg loc ->
  exists st',
    process_loc site_cfg next_url st loc = (st', None)
    /\ resolved site_cfg next_url locs st st'
    /\ (forall clean,
          strip_query_and_fragment loc = Ok clean ->
          is_sitemap_url clean = true ->
          exists r, In r (sitemaps (st_db st'))
                    /\ sm_site r = key site_cfg /\ sm_url r = clean)
    /\ (forall clean url_type,
          strip_query_and_fragment loc = Ok clean ->
          is_sitemap_url clean = false ->
          classify_url site_cfg clean = Ok url_type ->
          url_type = "product" \/ url_type = "category" ->
          exists r, In r (url_queue (st_db st'))
                    /\ q_site r = key site_cfg /\ q_url r = clean).
Proof.
  intros Hin (clean & Hs & Hc).
  destruct (is_sitemap_url clean) eqn:Hx.
  - (* the address of a sitemap *)
    rewrite (process_loc_sitemap _ _ _ _ _ Hs Hx).
    destruct (process_loc_spec site_cfg next_url st loc clean Hs) as [Hspec _].
    rewrite (process_loc_sitemap _ _ _ _ _ Hs Hx) in Hspec. cbn [fst] in Hspec.
    destruct (Hspec Hx) as (Hq & Hex & _).
    eexists. split; [reflexivity|]. split; [|split].
    + unfold stamped, enqueue_sitemap.
      destruct (existsb (sitemap_key (key site_cfg) clean) (sitemaps (st_db st))).
      * now apply resolved_same_db.
      * repeat split; cbn [sitemaps url_queue products sku_index with_sitemaps].
        -- eexists. split; [reflexivity|].
           constructor; [|constructor].
           repeat split; cbn. exists loc. auto.
        -- exists []. split; [now rewrite app_nil_r | constructor].
    + intros clean' Hs' _. assert (clean' = clean) by congruence. subst clean'.
      exact Hex.
    + intros clean' url_type Hs' Hx'. assert (clean' = clean) by congruence.
      subst clean'. congruence.
  - (* any other address *)
    destruct Hc as [Hc | (url_type & Hc)]; [discriminate|].
    destruct (process_loc_spec site_cfg next_url st loc clean Hs) as [_ Hspec].
    specialize (Hspec Hx url_type Hc).
    rewrite (process_loc_page _ _ _ _ _ _ Hs Hx Hc) in Hspec |- *.
    destruct Hspec as (Hsm & Hrow & Hother).
    destruct (enqueued_type url_type) eqn:Et.
    + apply enqueued_type_iff in Et.
      eexists. split; [reflexivity|]. cbn [fst] in *. split; [|split].
      * unfold stamped, enqueue_url.
        destruct (existsb (queue_key (key site_cfg) clean) (url_queue (st_db st))).
        -- now apply resolved_same_db.
        -- repeat split; cbn [sitemaps url_queue products sku_index with_url_queue].
           ++ exists []. split; [now rewrite app_nil_r | constructor].
           ++ eexists. split; [reflexivity|].
              constructor; [|constructor].
              repeat split; cbn; try exact Et. exists loc. auto.
      * intros clean' Hs' Hx'. assert (clean' = clean) by congruence.
        subst clean'. congruence.
      * intros clean' url_type' Hs' _ Hc' _.
        assert (clean' = clean) by congruence. subst clean'.
        exact (proj1 (Hrow Et)).
    + exists st. split; [reflexivity|]. split; [apply resolved_refl|]. split.
      * intros clean' Hs' Hx'. assert (clean' = clean) by congruence.
        subst clean'. congruence.
      * intros clean' url_type' Hs' _ Hc' Ht.
        assert (clean' = clean) by congruence. subst clean'.
        assert (url_type' = url_type) by congruence. subst url_type'.
        apply enqueued_type_iff in Ht. congruence.
Qed.

Lemma resolved_keeps_sitemap (site_cfg : SiteConfig) (next_url : string)
    (locs : list string) (st st' : state) (clean : string) :
  resolved site_cfg next_url locs st st' ->
  (exists r, In r (sitemaps (st_db st))
             /\ sm_site r = key site_cfg /\ sm_url r = clean) ->
  exists r, In r (sitemaps (st_db st'))
            /\ sm_site r = key site_cfg /\ sm_url r = clean.
Proof.
  intros ((a & E & _) & _) (r & Hin & Hk). exists r. split; [|exact Hk].
  rewrite E. apply in_or_app. now left.
Qed.

Lemma resolved_keeps_url (site_cfg : SiteConfig) (next_url : string)
    (locs : list string) (st st' : state) (clean : string) :
  resolved site_cfg next_url locs st st' ->
  (exists r, In r (url_queue (st_db st))
             /\ q_site r = key site_cfg /\ q_url r = clean) ->
  exists r, In r (url_queue (st_db st'))
            /\ q_site r = key site_cfg /\ q_url r = clean.
Proof.
  intros (_ & (a & E & _) & _) (r & Hin & Hk). exists r. split; [|exact Hk].
  rewrite E. apply in_or_app. now left.
Qed.

(** The values of a sitemap that are all handled. *)
Lemma process_locs_handled (site_cfg : SiteConfig) (next_url : string)
    (all : list string) :
  forall (locs : list string) (st : state),
    incl locs all ->
    (forall loc, In loc locs -> handled site_cfg loc) ->
    exists st',
      process_locs site_cfg next_url st locs = (st', None)
      /\ resolved site_cfg next_url all st st'
      /\ (forall loc clean,
            In loc locs -> strip_query_and_fragment loc = Ok clean ->
            is_sitemap_url clean = true ->
            exists r, In r (sitemaps (st_db st'))
                      /\ sm_site r = key site_cfg /\ sm_url r = clean)
      /\ (forall loc clean url_type,
            In loc locs -> strip_query_and_fragment loc = Ok clean ->
            is_sitemap_url clean = false ->
            classify_url site_cfg clean = Ok url_type ->
            url_type = "product" \/ url_type = "category" ->
            exists r, In r (url_queue (st_db st'))
                      /\ q_site r = key site_cfg /\ q_url r = clean).
Proof.
  induction locs as [|loc rest IH]; intros st Hincl Hall; cbn [process_locs].
  - exists st. split; [reflexivity|]. split; [apply resolved_refl|].
    split; intros; contradiction.
  - destruct (process_loc_handled site_cfg next_url all st loc)
      as (st1 & E1 & R1 & S1 & U1).
    { apply Hincl. now left. }
    { apply Hall. now left. }
    rewrite E1.
    destruct (IH st1) as (st' & E2 & R2 & S2 & U2).
    { intros x Hx. apply Hincl. now right. }
    { intros x Hx. apply Hall. now right. }
    exists st'. split; [exact E2|]. split; [eapply resolved_trans; eauto|]. split.
    + intros l clean [<- | Hl] Hs Hx.
      * eapply resolved_keeps_sitemap; [exact R2|]. eapply S1; eauto.
      * eapply S2; eauto.
    + intros l clean url_type [<- | Hl] Hs Hx Hc Ht.
      * eapply resolved_keeps_url; [exact R2|]. eapply U1; eauto.
      * eapply U2; eauto.
Qed.

(** The first value that raises ends the loop: the values before it have
    been handled, the values after it are not looked at. *)
Lemma process_locs_fails (site_cfg : SiteConfig) (next_url : string)
    (bad : string) (after : list string) (e : exn) :
  fails site_cfg bad e ->
  forall (before : list string) (st : state),
    (forall loc, In loc before -> handled site_cfg loc) ->
    process_locs site_cfg next_url st (before ++ bad :: after)
    = (fst (process_locs site_cfg next_url st before), Some e).
Proof.
  intros Hbad. induction before as [|loc rest IH]; intros st Hall;
    cbn [process_locs app].
  - now rewrite (process_loc_fails _ _ _ _ _ Hbad).
  - destruct (process_loc_handled site_cfg next_url [loc] st loc)
      as (st1 & E1 & _); [now left | apply Hall; now left |].
    rewrite E1. apply IH. intros x Hx. apply Hall. now right.
Qed.

(** A round of the resolver whose sitemap was fetched and parsed: it ends
    in 'done' with the number of values when they are all handled, in
    'error' with the text of the exception when one raises. *)
Lemma crawl_sitemap_fetched (site_cfg : SiteConfig) (retries : Z) (st : state)
    (next_url raw : string) (headers : headers_t) (locs : list string) :
  fst (get_bytes retries next_url) = Ok (raw, headers) ->
  parse_sitemap_locs raw next_url = Ok locs ->
  crawl_sitemap site_cfg retries st next_url
  = match process_locs site_cfg next_url
            (slept st (snd (get_bytes retries next_url))) locs with
    | (st', None) =>
        (stamped st' (fun db now =>
                        set_sitemap_status db (key site_cfg) next_url "done"
                          (Some (Z.of_nat (List.length locs))) None now),
         true)
    | (st', Some e) =>
        (stamped st' (fun db now =>
                        set_sitemap_status db (key site_cfg) next_url "error"
                          None (Some (safe_exc e)) now),
         false)
    end.
Proof.
  intros Hf Hp. unfold crawl_sitemap.
  destruct (get_bytes retries next_url) as [fetched sleeps].
  cbn [fst snd] in *. subst fetched. rewrite Hp.
  destruct (process_locs site_cfg next_url (slept st sleeps) locs) as [st' [e|]];
    reflexivity.
Qed.

(** *** A sitemap index and its two leaves *)

Lemma two_leaf_sitemaps (site_cfg : SiteConfig) (retries : Z)
    (delay_min delay_max : float)
    (tick : nat) (trace : list effect) (now0 : string)
    (idx l1 l2 c1 c2 p1 p2 q1 q2 raw_i raw_1 raw_2 : string)
    (h_i h_1 h_2 : headers_t) :
  idx <> "" -> c1 <> "" -> c2 <> "" ->
  c1 <> c2 -> c1 <> idx -> c2 <> idx -> q1 <> q2 ->
  fst (get_bytes retries idx) = Ok (raw_i, h_i) ->
  parse_sitemap_locs raw_i idx = Ok [l1; l2] ->
  strip_query_and_fragment l1 = Ok c1 -> is_sitemap_url c1 = true ->
  strip_query_and_fragment l2 = Ok c2 -> is_sitemap_url c2 = true ->
  fst (get_bytes retries c1) = Ok (raw_1, h_1) ->
  parse_sitemap_locs raw_1 c1 = Ok [p1] ->
  fst (get_bytes retries c2) = Ok (raw_2, h_2) ->
  parse_sitemap_locs raw_2 c2 = Ok [p2] ->
  strip_query_and_fragment p1 = Ok q1 -> is_sitemap_url q1 = false ->
  classify_url site_cfg q1 = Ok "product" ->
  strip_query_and_fragment p2 = Ok q2 -> is_sitemap_url q2 = false ->
  classify_url site_cfg q2 = Ok "product" ->
  let st0 :=
    mkState (enqueue_sitemap empty_db (key site_cfg) idx None now0) tick trace in
  pauses_return delay_min delay_max (draws st0) 3 ->
  exists st' r1 r2,
    crawl_sitemaps_loop 3 site_cfg retries delay_min delay_max None 0 st0
    = Some (Ok (st', 3))
    /\ Permutation (url_queue (st_db st')) [r1; r2]
    /\ q_url r1 = q1 /\ q_url r2 = q2
    /\ (forall r, r = r1 \/ r = r2 ->
          q_site r = key site_cfg /\ q_url_type r = "product"
          /\ q_depth r = 0 /\ q_status r = "pending").
Proof.
  intros Hidx Hc1 Hc2 N12 N1i N2i Nq Hfi Hpi Hs1 Hx1 Hs2 Hx2
    Hf1 Hp1 Hf2 Hp2 Hsq1 Hnx1 Hcl1 Hsq2 Hnx2 Hcl2 st0 Hpz.
  assert (E12 : String.eqb c1 c2 = false) by now apply String.eqb_neq.
  assert (E21 : String.eqb c2 c1 = false) by (apply String.eqb_neq; congruence).
  assert (E1i : String.eqb c1 idx = false) by now apply String.eqb_neq.
  assert (Ei1 : String.eqb idx c1 = false) by (apply String.eqb_neq; congruence).
  assert (E2i : String.eqb c2 idx = false) by now apply String.eqb_neq.
  assert (Ei2 : String.eqb idx c2 = false) by (apply String.eqb_neq; congruence).
  assert (Eq12 : String.eqb q1 q2 = false) by now apply String.eqb_neq.
  assert (Eq21 : String.eqb q2 q1 = false) by (apply String.eqb_neq; congruence).
  apply truthy_iff in Hidx, Hc1, Hc2.
  (* round 1: the index *)
  assert (Hsm0 : sitemaps (st_db st0)
                 = [mkSitemap (key site_cfg) idx "pending" None None 0 None now0])
    by reflexivity.
  assert (Hq0 : url_queue (st_db st0) = []) by reflexivity.
  destruct (index_step site_cfg retries st0 idx raw_i h_i l1 l2 c1 c2
              Hfi Hpi Hs1 Hx1 Hs2 Hx2) as (st1 & Hcr1 & Hsm1 & Hq1); auto.
  { rewrite Hsm0. cbn [existsb].
    now rewrite sitemap_key_mk, String.eqb_refl, Ei1. }
  { rewrite Hsm0. cbn [existsb].
    now rewrite sitemap_key_mk, String.eqb_refl, Ei2. }
  rewrite Hsm0 in Hsm1. rewrite Hq0 in Hq1.
  cbn [app map] in Hsm1. unfold done_row in Hsm1.
  rewrite !sitemap_key_mk, !String.eqb_refl, E1i, E2i in Hsm1.
  cbn [andb sm_site sm_url sm_discovered_from sm_attempts] in Hsm1.
  pose proof (crawl_sitemap_draws site_cfg retries st0 idx) as Hd1.
  rewrite Hcr1 in Hd1. cbn [fst] in Hd1.
  destruct (pause_returns delay_min delay_max st1)
    as (st1p & Hpa1 & Hdb1 & _ & Hdr1 & _).
  { intros Hd n Hn. apply (Hpz Hd). lia. }
  rewrite <- Hdb1 in Hsm1, Hq1.
  rewrite (loop_step 2 site_cfg retries delay_min delay_max 0 st0 st1 st1p idx);
    [| | exact Hidx | exact Hcr1 | exact Hpa1].
  2:{ unfold next_pending_sitemap. rewrite Hsm0.
      cbn [filter sm_site sm_status]. rewrite String.eqb_refl. reflexivity. }
  assert (Hnext1 : next_pending_sitemap (st_db st1p) (key site_cfg) = Some c1
                   \/ next_pending_sitemap (st_db st1p) (key site_cfg) = Some c2).
  { unfold next_pending_sitemap. rewrite Hsm1.
    cbn [filter sm_site sm_status]. rewrite !String.eqb_refl.
    cbn [andb String.eqb Ascii.eqb Bool.eqb first_min].
    match goal with |- context [if ?b then _ else _] => destruct b end; auto. }
  assert (Hfin : forall st,
            (forall r, In r (sitemaps (st_db st)) -> sm_status r = "done") ->
            next_pending_sitemap (st_db st) (key site_cfg) = None).
  { intros st Hall. unfold next_pending_sitemap.
    induction (sitemaps (st_db st)) as [|r rows IH]; [reflexivity|].
    cbn [filter]. rewrite (Hall r (or_introl eq_refl)).
    rewrite andb_false_r. apply IH. intros r' Hr'. apply Hall. now right. }
  destruct Hnext1 as [Hn | Hn].
  - (* the first leaf is resolved first *)
    destruct (leaf_step site_cfg retries st1p c1 raw_1 h_1 p1 q1
                Hf1 Hp1 Hsq1 Hnx1 Hcl1) as (st2 & Hcr2 & Hsm2 & Hq2);
      [now rewrite Hq1|].
    rewrite Hsm1 in Hsm2. rewrite Hq1 in Hq2. cbn [map app] in Hsm2, Hq2.
    unfold done_row in Hsm2.
    rewrite !sitemap_key_mk, !String.eqb_refl, Ei1, E21 in Hsm2.
    cbn [andb sm_site sm_url sm_discovered_from sm_attempts] in Hsm2.
    pose proof (crawl_sitemap_draws site_cfg retries st1p c1) as Hd2.
    rewrite Hcr2 in Hd2. cbn [fst] in Hd2.
    destruct (pause_returns delay_min delay_max st2)
      as (st2p & Hpa2 & Hdb2 & _ & Hdr2 & _).
    { intros Hd n Hn'. apply (Hpz Hd). lia. }
    rewrite <- Hdb2 in Hsm2, Hq2.
    rewrite (loop_step 1 _ _ _ _ _ st1p st2 st2p c1 Hn Hc1 Hcr2 Hpa2).
    assert (Hn2 : next_pending_sitemap (st_db st2p) (key site_cfg) = Some c2).
    { unfold next_pending_sitemap. rewrite Hsm2.
      cbn [filter sm_site sm_status]. rewrite !String.eqb_refl.
      cbn [andb String.eqb Ascii.eqb Bool.eqb first_min]. reflexivity. }
    destruct (leaf_step site_cfg retries st2p c2 raw_2 h_2 p2 q2
                Hf2 Hp2 Hsq2 Hnx2 Hcl2) as (st3 & Hcr3 & Hsm3 & Hq3).
    { rewrite Hq2. cbn [existsb].
      now rewrite queue_key_mk, String.eqb_refl, Eq12. }
    rewrite Hsm2 in Hsm3. rewrite Hq2 in Hq3. cbn [map app] in Hsm3, Hq3.
    unfold done_row in Hsm3.
    rewrite !sitemap_key_mk, !String.eqb_refl, Ei2, E12 in Hsm3.
    cbn [andb sm_site sm_url sm_discovered_from sm_attempts] in Hsm3.
    pose proof (crawl_sitemap_draws site_cfg retries st2p c2) as Hd3.
    rewrite Hcr3 in Hd3. cbn [fst] in Hd3.
    destruct (pause_returns delay_min delay_max st3)
      as (st3p & Hpa3 & Hdb3 & _ & Hdr3 & _).
    { intros Hd n Hn'. apply (Hpz Hd). lia. }
    rewrite <- Hdb3 in Hsm3, Hq3.
    rewrite (loop_step 0 _ _ _ _ _ st2p st3 st3p c2 Hn2 Hc2 Hcr3 Hpa3).
    rewrite loop_stop.
    2:{ apply Hfin. rewrite Hsm3. intros r [<- | [<- | [<- | []]]]; reflexivity. }
    eexists st3p, _, _. split; [reflexivity|]. rewrite Hq3.
    split; [apply Permutation_refl|]. split; [reflexivity|]. split; [reflexivity|].
    intros r [-> | ->]; cbn; auto.
  - (* the second leaf is resolved first *)
    destruct (leaf_step site_cfg retries st1p c2 raw_2 h_2 p2 q2
                Hf2 Hp2 Hsq2 Hnx2 Hcl2) as (st2 & Hcr2 & Hsm2 & Hq2);
      [now rewrite Hq1|].
    rewrite Hsm1 in Hsm2. rewrite Hq1 in Hq2. cbn [map app] in Hsm2, Hq2.
    unfold done_row in Hsm2.
    rewrite !sitemap_key_mk, !String.eqb_refl, Ei2, E12 in Hsm2.
    cbn [andb sm_site sm_url sm_discovered_from sm_attempts] in Hsm2.
    pose proof (crawl_sitemap_draws site_cfg retries st1p c2) as Hd2.
    rewrite Hcr2 in Hd2. cbn [fst] in Hd2.
    destruct (pause_returns delay_min delay_max st2)
      as (st2p & Hpa2 & Hdb2 & _ & Hdr2 & _).
    { intros Hd n Hn'. apply (Hpz Hd). lia. }
    rewrite <- Hdb2 in Hsm2, Hq2.
    rewrite (loop_step 1 _ _ _ _ _ st1p st2 st2p c2 Hn Hc2 Hcr2 Hpa2).
    assert (Hn2 : next_pending_sitemap (st_db st2p) (key site_cfg) = Some c1).
    { unfold next_pending_sitemap. rewrite Hsm2.
      cbn [filter sm_site sm_status]. rewrite !String.eqb_refl.
      cbn [andb String.eqb Ascii.eqb Bool.eqb first_min]. reflexivity. }
    destruct (leaf_step site_cfg retries st2p c1 raw_1 h_1 p1 q1
                Hf1 Hp1 Hsq1 Hnx1 Hcl1) as (st3 & Hcr3 & Hsm3 & Hq3).
    { rewrite Hq2. cbn [existsb].
      now rewrite queue_key_mk, String.eqb_refl, Eq21. }
    rewrite Hsm2 in Hsm3. rewrite Hq2 in Hq3. cbn [map app] in Hsm3, Hq3.
    unfold done_row in Hsm3.
    rewrite !sitemap_key_mk, !String.eqb_refl, Ei1, E21 in Hsm3.
    cbn [andb sm_site sm_url sm_discovered_from sm_attempts] in Hsm3.
    pose proof (crawl_sitemap_draws site_cfg retries st2p c1) as Hd3.
    rewrite Hcr3 in Hd3. cbn [fst] in Hd3.
    destruct (pause_returns delay_min delay_max st3)
      as (st3p & Hpa3 & Hdb3 & _ & Hdr3 & _).
    { intros Hd n Hn'. apply (Hpz Hd). lia. }
    rewrite <- Hdb3 in Hsm3, Hq3.
    rewrite (loop_step 0 _ _ _ _ _ st2p st3 st3p c1 Hn2 Hc1 Hcr3 Hpa3).
    rewrite loop_stop.
    2:{ apply Hfin. rewrite Hsm3. intros r [<- | [<- | [<- | []]]]; reflexivity. }
    eexists st3p, _, _. split; [reflexivity|]. rewrite Hq3.
    split; [apply perm_swap|]. split; [reflexivity|]. split; [reflexivity|].
    intros r [-> | ->]; cbn; auto.
Qed.

(** A pause that raises ends the resolver with the exception, whatever is
    left in the queue. *)
Lemma crawl_sitemaps_loop_pause_raises (fuel : nat) (site_cfg : SiteConfig)
    (retries : Z) (delay_min delay_max : float) (max_sitemaps : option Z)
    (processed : Z) (st : state) (next_url : string) (e : exn) :
  budget_spent max_sitemaps processed = false ->
  next_pending_sitemap (st_db st) (key site_cfg) = Some next_url ->
  next_url <> "" ->
  PrimFloat.ltb 0%float delay_max = true ->
  sleep (uniform (draws st) delay_min delay_max) = Some e ->
  crawl_sitemaps_loop (S fuel) site_cfg retries delay_min delay_max max_sitemaps
    processed st
  = Some (Raise e).
Proof.
  intros Hb Hn Ht Hd Hs. apply truthy_iff in Ht.
  cbn [crawl_sitemaps_loop]. rewrite Hb, Hn, Ht. cbn [negb].
  pose proof (crawl_sitemap_draws site_cfg retries st next_url) as Hdr.
  destruct (crawl_sitemap site_cfg retries st next_url) as [st' counted].
  cbn [fst] in Hdr.
  rewrite (pause_raises delay_min delay_max st' e Hd); [reflexivity|].
  now rewrite Hdr.
Qed.

(** C9 (as amended).  During the resolution of one sitemap the [<loc>]
    values are handled in the order of the document.  A value whose
    normalised form ends in ".xml" or ".xml.gz" (in any letter case) is
    enqueued as a nested sitemap and leaves the URL queue alone; any other
    value is classified and is enqueued into the URL queue, at depth 0,
    only when it is classified 'product' or 'category' (a value
    classified 'other' is dropped).  When no value raises, every value is
    handled so: afterwards each has its row, and the two tables have
    grown by such rows only.  The first value whose normalisation or
    classification raises ends the handling: the values before it have
    been handled, the values after it are not enqueued, and the sitemap is
    set to 'error' with the text of the exception instead of 'done', and
    is not counted.  Consequently, resolving from a fresh store a sitemap
    index that points to two distinct leaf sitemaps, each containing one
    product URL, the two being distinct, ends after three sitemaps with
    exactly two queue items, both of type 'product' and at depth 0,
    provided the three pauses between the rounds return; a pause that
    raises ends the resolver with its exception. *)
Theorem sitemap_resolution_spec :
  (forall (site_cfg : SiteConfig) (next_url : string) (st : state)
          (loc clean : string),
     strip_query_and_fragment loc = Ok clean ->
     let st' := fst (process_loc site_cfg next_url st loc) in
     (is_sitemap_url clean = true ->
      url_queue (st_db st') = url_queue (st_db st)
      /\ (exists r, In r (sitemaps (st_db st'))
                    /\ sm_site r = key site_cfg /\ sm_url r = clean)
      /\ ((forall r, In r (sitemaps (st_db st)) ->
                     ~ (sm_site r = key site_cfg /\ sm_url r = clean)) ->
          sitemaps (st_db st')
          = (sitemaps (st_db st)
             ++ [mkSitemap (key site_cfg) clean "pending" (Some next_url) None
                   0 None (clock (st_tick st))])%list))
     /\ (is_sitemap_url clean = false ->
         forall url_type, classify_url site_cfg clean = Ok url_type ->
           sitemaps (st_db st') = sitemaps (st_db st)
           /\ (url_type = "product" \/ url_type = "category" ->
               (exists r, In r (url_queue (st_db st'))
                          /\ q_site r = key site_cfg /\ q_url r = clean)
               /\ ((forall r, In r (url_queue (st_db st)) ->
                              ~ (q_site r = key site_cfg /\ q_url r = clean)) ->
                   url_queue (st_db st')
                   = (url_queue (st_db st)
                      ++ [mkQueueItem (key site_cfg) clean url_type "pending"
                            0 (Some next_url) 0 None 0 None
                            (clock (st_tick st))])%list))
           /\ (url_type <> "product" -> url_type <> "category" -> st' = st)))
  /\ (forall (site_cfg : SiteConfig) (next_url : string) (st : state)
             (locs : list string),
        (forall loc, In loc locs -> handled site_cfg loc) ->
        exists st',
          process_locs site_cfg next_url st locs = (st', None)
          /\ (forall loc clean,
                In loc locs -> strip_query_and_fragment loc = Ok clean ->
                is_sitemap_url clean = true ->
                exists r, In r (sitemaps (st_db st'))
                          /\ sm_site r = key site_cfg /\ sm_url r = clean)
          /\ (forall loc clean url_type,
                In loc locs -> strip_query_and_fragment loc = Ok clean ->
                is_sitemap_url clean = false ->
                classify_url site_cfg clean = Ok url_type ->
                url_type = "product" \/ url_type = "category" ->
                exists r, In r (url_queue (st_db st'))
                          /\ q_site r = key site_cfg /\ q_url r = clean)
          /\ (exists added,
                sitemaps (st_db st') = (sitemaps (st_db st) ++ added)%list
                /\ Forall (nested_row site_cfg next_url locs) added)
          /\ (exists added,
                url_queue (st_db st') = (url_queue (st_db st) ++ added)%list
                /\ Forall (leaf_row site_cfg next_url locs) added)
          /\ products (st_db st') = products (st_db st)
          /\ sku_index (st_db st') = sku_index (st_db st))
  /\ (forall (site_cfg : SiteConfig) (next_url : string) (st : state)
             (before : list string) (bad : string) (after : list string)
             (e : exn),
        (forall loc, In loc before -> handled site_cfg loc) ->
        fails site_cfg bad e ->
        process_locs site_cfg next_url st (before ++ bad :: after)
        = (fst (process_locs site_cfg next_url st before), Some e))
  /\ (forall (site_cfg : SiteConfig) (retries : Z) (st : state)
             (next_url raw : string) (headers : headers_t)
             (locs : list string),
        fst (get_bytes retries next_url) = Ok (raw, headers) ->
        parse_sitemap_locs raw next_url = Ok locs ->
        crawl_sitemap site_cfg retries st next_url
        = match process_locs site_cfg next_url
                  (slept st (snd (get_bytes retries next_url))) locs with
          | (st', None) =>
              (stamped st'
                 (fun db now =>
                    set_sitemap_status db (key site_cfg) next_url "done"
                      (Some (Z.of_nat (List.length locs))) None now),
               true)
          | (st', Some e) =>
              (stamped st'
                 (fun db now =>
                    set_sitemap_status db (key site_cfg) next_url "error"
                      None (Some (safe_exc e)) now),
               false)
          end)
  /\ (forall (site_cfg : SiteConfig) (retries : Z)
             (delay_min delay_max : float) (tick : nat)
             (trace : list effect) (now0 : string)
             (idx l1 l2 c1 c2 p1 p2 q1 q2 raw_i raw_1 raw_2 : string)
             (h_i h_1 h_2 : headers_t),
        idx <> "" -> c1 <> "" -> c2 <> "" ->
        c1 <> c2 -> c1 <> idx -> c2 <> idx -> q1 <> q2 ->
        fst (get_bytes retries idx) = Ok (raw_i, h_i) ->
        parse_sitemap_locs raw_i idx = Ok [l1; l2] ->
        strip_query_and_fragment l1 = Ok c1 -> is_sitemap_url c1 = true ->
        strip_query_and_fragment l2 = Ok c2 -> is_sitemap_url c2 = true ->
        fst (get_bytes retries c1) = Ok (raw_1, h_1) ->
        parse_sitemap_locs raw_1 c1 = Ok [p1] ->
        fst (get_bytes retries c2) = Ok (raw_2, h_2) ->
        parse_sitemap_locs raw_2 c2 = Ok [p2] ->
        strip_query_and_fragment p1 = Ok q1 -> is_sitemap_url q1 = false ->
        classify_url site_cfg q1 = Ok "product" ->
        strip_query_and_fragment p2 = Ok q2 -> is_sitemap_url q2 = false ->
        classify_url site_cfg q2 = Ok "product" ->
        let st0 :=
          mkState (enqueue_sitemap empty_db (key site_cfg) idx None now0)
            tick trace in
        pauses_return delay_min delay_max (draws st0) 3 ->
        exists st' r1 r2,
          crawl_sitemaps_loop 3 site_cfg retries delay_min delay_max None 0 st0
          = Some (Ok (st', 3))
          /\ Permutation (url_queue (st_db st')) [r1; r2]
          /\ q_url r1 = q1 /\ q_url r2 = q2
          /\ (forall r, r = r1 \/ r = r2 ->
                q_site r = key site_cfg /\ q_url_type r = "product"
                /\ q_depth r = 0 /\ q_status r = "pending"))
  /\ (forall (fuel : nat) (site_cfg : SiteConfig) (retries : Z)
             (delay_min delay_max : float) (max_sitemaps : option Z)
             (processed : Z) (st : state) (next_url : string) (e : exn),
        budget_spent max_sitemaps processed = false ->
        next_pending_sitemap (st_db st) (key site_cfg) = Some next_url ->
        next_url <> "" ->
        PrimFloat.ltb 0%float delay_max = true ->
        sleep (uniform (draws st) delay_min delay_max) = Some e ->
        crawl_sitemaps_loop (S fuel) site_cfg retries delay_min delay_max
          max_sitemaps processed st
        = Some (Raise e)).
Proof.
  split; [exact process_loc_spec|].
  split.
  { intros site_cfg next_url st locs Hall.
    destruct (process_locs_handled site_cfg next_url locs locs st
                (incl_refl locs) Hall)
      as (st' & E & (Rs & Rq & Rp & Rx) & S & U).
    exists st'. repeat split; assumption. }
  split.
  { intros site_cfg next_url st before bad after e Hall Hbad.
    now apply process_locs_fails. }
  split; [exact crawl_sitemap_fetched|].
  split; [exact two_leaf_sitemaps | exact crawl_sitemaps_loop_pause_raises].
Qed.


(** ** Regular expressions: what [matches] computes *)

Lemma length_append (a b : string) :
  String.length (a ++ b) = (String.length a + String.length b)%nat.
Proof. induction a as [|c a IH]; simpl; [reflexivity | now rewrite IH]. Qed.

Lemma steps_suffix (r : regex) (s s' : string) :
  steps r s s' -> exists w, s = w ++ s'.
Proof.
  induction 1 as [s | p c s Hp | r1 r2 s s1 s2 _ [w1 ->] _ [w2 ->]
                  | r1 r2 s s' _ IH | r1 r2 s s' _ IH | r s
                  | r s s1 s2 _ [w1 ->] _ [w2 ->] | s Hs].
  - now exists "".
  - now exists (String c "").
  - exists (w1 ++ w2). now rewrite append_assoc.
  - exact IH.
  - exact IH.
  - now exists "".
  - exists (w1 ++ w2). now rewrite append_assoc.
  - now exists "".
Qed.

Lemma suffix_same_length (w s : string) :
  String.length (w ++ s) = String.length s -> w = "".
Proof.
  rewrite length_append. destruct w; [reflexivity | simpl; lia].
Qed.

Lemma star_iter_sound (r : regex) (step : string -> list string) :
  (forall a b, In b (step a) -> steps r a b) ->
  forall fuel s s', In s' (star_iter step fuel s) -> steps (Star r) s s'.
Proof.
  intros Hstep. induction fuel as [|fuel IH]; intros s s' Hin.
  - destruct Hin as [<- | []]. constructor.
  - cbn [star_iter] in Hin. apply in_app_or in Hin.
    destruct Hin as [Hin | [<- | []]]; [|constructor].
    apply in_flat_map in Hin. destruct Hin as (s1 & H1 & H2).
    destruct (Nat.ltb (String.length s1) (String.length s)); [|destruct H2].
    econstructor; [apply Hstep; exact H1 | apply IH; exact H2].
Qed.

Lemma matches_sound (r : regex) :
  forall s s', In s' (matches r s) -> steps r s s'.
Proof.
  induction r as [| p | r1 IH1 r2 IH2 | r1 IH1 r2 IH2 | r IH |];
    intros s s' Hin; cbn [matches] in Hin.
  - destruct Hin as [<- | []]. constructor.
  - destruct s as [|c s]; [destruct Hin|].
    destruct (p c) eqn:E; [|destruct Hin].
    destruct Hin as [<- | []]. now constructor.
  - apply in_flat_map in Hin. destruct Hin as (s1 & H1 & H2).
    econstructor; eauto.
  - apply in_app_or in Hin. destruct Hin as [H | H].
    + apply steps_alt_l. auto.
    + apply steps_alt_r. auto.
  - eapply star_iter_sound; eauto.
  - destruct (at_eol s) eqn:E; [|destruct Hin].
    destruct Hin as [<- | []]. now constructor.
Qed.

(** Above the length of the text, more fuel changes nothing. *)
Lemma star_iter_fuel (step : string -> list string) :
  forall fuel1 fuel2 s,
    (String.length s <= fuel1)%nat -> (String.length s <= fuel2)%nat ->
    star_iter step fuel1 s = star_iter step fuel2 s.
Proof.
  induction fuel1 as [|f1 IH]; intros fuel2 s H1 H2.
  - destruct fuel2 as [|f2]; [reflexivity|].
    cbn [star_iter]. assert (E : String.length s = 0%nat) by lia.
    rewrite E. clear.
    induction (step s) as [|x l IHl]; [reflexivity|].
    cbn [flat_map]. exact IHl.
  - destruct fuel2 as [|f2].
    + cbn [star_iter]. assert (E : String.length s = 0%nat) by lia.
      rewrite E. clear.
      induction (step s) as [|x l IHl]; [reflexivity|].
      cbn [flat_map]. exact IHl.
    + cbn [star_iter]. f_equal.
      induction (step s) as [|x l IHl]; [reflexivity|].
      cbn [flat_map]. rewrite IHl. f_equal.
      destruct (Nat.ltb (String.length x) (String.length s)) eqn:E; [|reflexivity].
      apply Nat.ltb_lt in E. apply IH; lia.
Qed.

Lemma matches_complete (r : regex) (s s' : string) :
  steps r s s' -> In s' (matches r s).
Proof.
  induction 1 as [s | p c s Hp | r1 r2 s s1 s2 _ IH1 _ IH2
                  | r1 r2 s s' _ IH | r1 r2 s s' _ IH | r s
                  | r s s1 s2 H1 IH1 H2 IH2 | s Hs]; cbn [matches].
  - now left.
  - rewrite Hp. now left.
  - apply in_flat_map. eauto.
  - apply in_or_app. now left.
  - apply in_or_app. now right.
  - destruct (String.length s); cbn [star_iter];
      [now left | apply in_or_app; right; now left].
  - cbn [matches] in IH2.
    destruct (steps_suffix _ _ _ H1) as [w Hw].
    destruct (Nat.ltb (String.length s1) (String.length s)) eqn:E.
    + pose proof E as E'. apply Nat.ltb_lt in E'.
      remember (String.length s) as n eqn:En.
      destruct n as [|n]; [lia|].
      cbn [star_iter]. apply in_or_app. left.
      apply in_flat_map. exists s1. split; [exact IH1|].
      rewrite <- En, E.
      rewrite (star_iter_fuel _ n (String.length s1)); [exact IH2 | lia | lia].
    + apply Nat.ltb_ge in E. subst s.
      assert (w = "")
        by (apply (suffix_same_length w s1); rewrite length_append in *; lia).
      subst w. exact IH2.
  - rewrite Hs. now left.
Qed.

Lemma matches_iff (r : regex) (s s' : string) :
  In s' (matches r s) <-> steps r s s'.
Proof. split; [apply matches_sound | apply matches_complete]. Qed.

Lemma re_match_iff (r : regex) (s : string) :
  re_match r s = true <-> exists s', steps r s s'.
Proof.
  unfold re_match. split.
  - destruct (matches r s) as [|s' l] eqn:E; [discriminate|]. intros _.
    exists s'. apply matches_sound. rewrite E. now left.
  - intros [s' H]. apply matches_complete in H.
    destruct (matches r s); [destruct H | reflexivity].
Qed.

(** ** The SKU pattern *)

Lemma steps_eps_inv (s s' : string) : steps Eps s s' -> s' = s.
Proof. intros H. inversion H. reflexivity. Qed.

Lemma steps_sym_inv (p : ascii -> bool) (s s' : string) :
  steps (Sym p) s s' -> exists c, s = String c s' /\ p c = true.
Proof. intros H. inversion H; subst. eauto. Qed.

Lemma steps_cat_inv (r1 r2 : regex) (s s2 : string) :
  steps (Cat r1 r2) s s2 -> exists s1, steps r1 s s1 /\ steps r2 s1 s2.
Proof. intros H. inversion H; subst. eauto. Qed.

Lemma steps_alt_inv (r1 r2 : regex) (s s' : string) :
  steps (Alt r1 r2) s s' -> steps r1 s s' \/ steps r2 s s'.
Proof. intros H. inversion H; subst; auto. Qed.

Lemma steps_eol_inv (s s' : string) :
  steps Eol s s' -> s' = s /\ at_eol s = true.
Proof. intros H. inversion H; subst. auto. Qed.

Lemma steps_class_times (p : ascii -> bool) (n : nat) (s s' : string) :
  steps (times n (Sym p)) s s' <->
  exists w, s = w ++ s' /\ String.length w = n /\ all_chars p w = true.
Proof.
  revert s. induction n as [|n IH]; intros s; cbn [times].
  - split.
    + intros H. apply steps_eps_inv in H. subst. now exists "".
    + intros (w & -> & Hl & _). destruct w; [constructor | discriminate].
  - split.
    + intros H. apply steps_cat_inv in H. destruct H as (s1 & H1 & H2).
      apply steps_sym_inv in H1. destruct H1 as (c & -> & Hc).
      apply IH in H2. destruct H2 as (w & -> & Hl & Hw).
      exists (String c w). cbn. rewrite Hc, Hw, Hl. auto.
    + intros (w & -> & Hl & Hw). destruct w as [|c w]; [discriminate|].
      cbn in Hl, Hw. apply andb_true_iff in Hw. destruct Hw as [Hc Hw].
      econstructor; [constructor; exact Hc|].
      apply IH. exists w. split; [reflexivity|]. split; [lia | exact Hw].
Qed.

Lemma steps_class_star (p : ascii -> bool) (s s' : string) :
  steps (Star (Sym p)) s s' <-> exists w, s = w ++ s' /\ all_chars p w = true.
Proof.
  split.
  - intros H. remember (Star (Sym p)) as r eqn:Er.
    induction H as [ | | | | | r0 s | r0 s s1 s2 H1 _ H2 IH2 | ];
      try discriminate.
    + now exists "".
    + injection Er as ->. destruct (IH2 eq_refl) as (w & -> & Hw).
      apply steps_sym_inv in H1. destruct H1 as (c & -> & Hc).
      exists (String c w). cbn. now rewrite Hc, Hw.
  - intros (w & -> & Hw). induction w as [|c w IH]; [constructor|].
    cbn in Hw. apply andb_true_iff in Hw. destruct Hw as [Hc Hw].
    econstructor; [constructor; exact Hc | exact (IH Hw)].
Qed.

Lemma steps_class_upto (p : ascii -> bool) (n : nat) (s s' : string) :
  steps (upto n (Sym p)) s s' <->
  exists w, s = w ++ s' /\ (String.length w <= n)%nat /\ all_chars p w = true.
Proof.
  revert s. induction n as [|n IH]; intros s; cbn [upto opt].
  - split.
    + intros H. apply steps_eps_inv in H. subst. exists "". auto.
    + intros (w & -> & Hl & _). destruct w; [constructor | cbn in Hl; lia].
  - split.
    + intros H. apply steps_alt_inv in H. destruct H as [H | H].
      * apply steps_cat_inv in H. destruct H as (s1 & H1 & H2).
        apply steps_sym_inv in H1. destruct H1 as (c & -> & Hc).
        apply IH in H2. destruct H2 as (w & -> & Hl & Hw).
        exists (String c w). cbn.
        rewrite Hc, Hw. split; [reflexivity | split; [lia | reflexivity]].
      * apply steps_eps_inv in H. subst. exists "". cbn.
        split; [reflexivity | split; [lia | reflexivity]].
    + intros (w & -> & Hl & Hw). destruct w as [|c w].
      * apply steps_alt_r. constructor.
      * cbn in Hl, Hw. apply andb_true_iff in Hw. destruct Hw as [Hc Hw].
        apply steps_alt_l. econstructor; [constructor; exact Hc|].
        apply IH. exists w. split; [reflexivity|]. split; [lia | exact Hw].
Qed.

Lemma steps_lit_ci (t s s' : string) :
  steps (lit_ci t) s s' <-> exists w, s = w ++ s' /\ lower w = lower t.
Proof.
  revert s. induction t as [|c t IH]; intros s; cbn [lit_ci].
  - split.
    + intros H. apply steps_eps_inv in H. subst. now exists "".
    + intros (w & -> & Hw). destruct w; [constructor | discriminate].
  - split.
    + intros H. apply steps_cat_inv in H. destruct H as (s1 & H1 & H2).
      apply steps_sym_inv in H1. destruct H1 as (x & -> & Hx).
      apply IH in H2. destruct H2 as (w & -> & Hw).
      exists (String x w). cbn.
      apply Ascii.eqb_eq in Hx. unfold lower in *. now rewrite Hx, Hw.
    + intros (w & -> & Hw). destruct w as [|x w]; [discriminate|].
      cbn in Hw. injection Hw as Hx Hw.
      econstructor.
      * constructor. apply Ascii.eqb_eq. exact Hx.
      * apply IH. now exists w.
Qed.

Lemma split_at (n : nat) (s : string) :
  (n <= String.length s)%nat ->
  exists a b, s = a ++ b /\ String.length a = n.
Proof.
  revert s. induction n as [|n IH]; intros s H.
  - now exists "", s.
  - destruct s as [|c s]; [cbn in H; lia|]. cbn in H.
    destruct (IH s) as (a & b & -> & Ha); [lia|].
    exists (String c a), b. cbn. auto.
Qed.

Lemma steps_sku_group (s s' : string) :
  steps sku_group_re s s' <-> exists g, s = g ++ s' /\ sku_token g.
Proof.
  unfold sku_group_re, digit, letter, alnum. split.
  - intros H.
    apply steps_cat_inv in H. destruct H as (s1 & H1 & H).
    apply steps_cat_inv in H. destruct H as (s3 & H2 & H).
    apply steps_cat_inv in H2. destruct H2 as (s2 & H2 & H3).
    apply steps_cat_inv in H. destruct H as (s4 & H4 & H5).
    apply steps_class_times in H1, H2, H4.
    apply steps_class_upto in H3. apply steps_class_star in H5.
    destruct H5 as (a3 & -> & Ha3).
    destruct H4 as (a2 & -> & Ha2 & Ha2').
    destruct H3 as (l3 & -> & Hl3 & Hl3').
    destruct H2 as (l2 & -> & Hl2 & Hl2').
    destruct H1 as (d & -> & Hd & Hd').
    exists (d ++ (l2 ++ l3) ++ (a2 ++ a3)). split.
    + now rewrite !append_assoc.
    + exists d, (l2 ++ l3), (a2 ++ a3).
      rewrite !length_append, !all_chars_app, Hl2', Hl3', Ha2', Ha3.
      repeat split; auto; lia.
  - intros (g & -> & d & l & a & -> & Hd & Hd' & Hl & Hl' & Ha & Ha').
    destruct (split_at 2 l) as (l2 & l3 & -> & Hl2); [lia|].
    destruct (split_at 2 a) as (a2 & a3 & -> & Ha2); [lia|].
    rewrite length_append in Hl. rewrite all_chars_app in Hl', Ha'.
    apply andb_true_iff in Hl', Ha'.
    rewrite !append_assoc.
    econstructor; [apply steps_class_times; exists d; eauto|].
    econstructor.
    + econstructor; [apply steps_class_times; exists l2; split; [reflexivity|tauto]|].
      apply steps_class_upto. exists l3. split; [reflexivity|].
      split; [lia | tauto].
    + econstructor; [apply steps_class_times; exists a2; split; [reflexivity|tauto]|].
      apply steps_class_star. exists a3. split; [reflexivity | tauto].
Qed.

Lemma chr_ci_plain (c x : ascii) :
  is_alpha c = false ->
  Ascii.eqb (lower_char x) (lower_char c) = true -> x = c.
Proof.
  intros Hc H. apply Ascii.eqb_eq in H. revert Hc H.
  destruct c as [[] [] [] [] [] [] [] []]; try discriminate;
  destruct x as [[] [] [] [] [] [] [] []]; vm_compute; congruence.
Qed.

Lemma steps_chr_plain (c : ascii) (s s' : string) :
  is_alpha c = false ->
  steps (chr_ci c) s s' <-> s = String c s'.
Proof.
  intros Hc. unfold chr_ci. split.
  - intros H. apply steps_sym_inv in H. destruct H as (x & -> & Hx).
    now rewrite (chr_ci_plain c x Hc Hx).
  - intros ->. constructor. apply Ascii.eqb_refl.
Qed.

Lemma steps_sku_post (s s' : string) :
  steps sku_post_re s s' <->
  exists suffix ext,
    s = suffix ++ ext ++ s'
    /\ (suffix = ""
        \/ exists x, suffix = String "_" x /\ x <> ""
                     /\ all_chars is_alnum x = true)
    /\ lower ext = ".html" /\ at_eol s' = true.
Proof.
  unfold sku_post_re, opt, plus, alnum. split.
  - intros H.
    apply steps_cat_inv in H. destruct H as (s1 & H1 & H).
    apply steps_cat_inv in H. destruct H as (s2 & H2 & H3).
    apply steps_eol_inv in H3. destruct H3 as [-> He].
    apply steps_lit_ci in H2. destruct H2 as (ext & -> & Hext).
    apply steps_alt_inv in H1. destruct H1 as [H1 | H1].
    + apply steps_cat_inv in H1. destruct H1 as (s3 & H1 & H4).
      apply steps_chr_plain in H1; [|reflexivity]. subst s.
      apply steps_cat_inv in H4. destruct H4 as (s4 & H4 & H5).
      apply steps_sym_inv in H4. destruct H4 as (c & -> & Hc).
      apply steps_class_star in H5. destruct H5 as (w & -> & Hw).
      exists (String "_" (String c w)), ext. cbn [append].
      repeat split; auto.
      right. exists (String c w). cbn. rewrite Hc, Hw. repeat split; congruence.
    + apply steps_eps_inv in H1. subst. exists "", ext. auto.
  - intros (suffix & ext & -> & Hs & Hext & He).
    apply steps_cat with (s1 := ext ++ s').
    + destruct Hs as [-> | (x & -> & Hx & Hx')].
      * apply steps_alt_r. constructor.
      * apply steps_alt_l. destruct x as [|c x]; [congruence|].
        cbn in Hx'. apply andb_true_iff in Hx'. destruct Hx' as [Hc Hx'].
        cbn [append].
        apply steps_cat with (s1 := String c (x ++ ext ++ s')).
        -- apply steps_chr_plain; reflexivity.
        -- apply steps_cat with (s1 := x ++ ext ++ s');
             [constructor; exact Hc|].
           apply steps_class_star. exists x. split; [reflexivity | exact Hx'].
    + apply steps_cat with (s1 := s').
      * apply steps_lit_ci. exists ext. split; [reflexivity | exact Hext].
      * now constructor.
Qed.

Lemma substring_prefix (a b : string) :
  substring 0 (String.length a) (a ++ b) = a.
Proof.
  induction a as [|c a IH]; cbn.
  - destruct b; reflexivity.
  - now rewrite IH.
Qed.

Lemma consumed_app (g rest : string) : consumed (g ++ rest) rest = g.
Proof.
  unfold consumed. rewrite length_append.
  replace (String.length g + String.length rest - String.length rest)%nat
    with (String.length g) by lia.
  apply substring_prefix.
Qed.

Lemma match_group_Some (pre g post : regex) (s x : string) :
  match_group pre g post s = Some x ->
  exists s1 s2 s3,
    steps pre s s1 /\ steps g s1 s2 /\ steps post s2 s3 /\ x = consumed s1 s2.
Proof.
  unfold match_group. intros H.
  match type of H with hd_error ?l = _ => assert (Hin : In x l) end.
  { match type of H with hd_error ?l = _ => destruct l as [|y l'] end;
      [discriminate|]. injection H as ->. now left. }
  apply in_flat_map in Hin. destruct Hin as (s1 & H1 & Hin).
  apply in_flat_map in Hin. destruct Hin as (s2 & H2 & Hin).
  destruct (matches post s2) as [|s3 l3] eqn:E3; [destruct Hin|].
  destruct Hin as [<- | []].
  exists s1, s2, s3. repeat split; try (apply matches_sound; assumption).
  apply matches_sound. rewrite E3. now left.
Qed.

Lemma match_group_None (pre g post : regex) (s : string) :
  match_group pre g post s = None ->
  forall s1 s2 s3, steps pre s s1 -> steps g s1 s2 -> ~ steps post s2 s3.
Proof.
  unfold match_group. intros H s1 s2 s3 H1 H2 H3.
  apply matches_complete in H1, H2, H3.
  match type of H with hd_error ?l = _ =>
    assert (Hin : In (consumed s1 s2) l) end.
  { apply in_flat_map. exists s1. split; [exact H1|].
    apply in_flat_map. exists s2. split; [exact H2|].
    destruct (matches post s2); [destruct H3 | now left]. }
  match type of H with hd_error ?l = _ => destruct l end;
    [destruct Hin | discriminate].
Qed.

Lemma search_group_Some (pre g post : regex) (s x : string) :
  search_group pre g post s = Some x ->
  exists before s0 s1 s2 s3,
    s = before ++ s0 /\ steps pre s0 s1 /\ steps g s1 s2
    /\ steps post s2 s3 /\ x = consumed s1 s2.
Proof.
  induction s as [|c s IH]; cbn [search_group].
  - destruct (match_group pre g post "") eqn:E; [|discriminate].
    intros H. injection H as ->. apply match_group_Some in E.
    destruct E as (s1 & s2 & s3 & H). exists "", "", s1, s2, s3. tauto.
  - destruct (match_group pre g post (String c s)) eqn:E.
    + intros H. injection H as ->. apply match_group_Some in E.
      destruct E as (s1 & s2 & s3 & H). exists "", (String c s), s1, s2, s3. tauto.
    + intros H. destruct (IH H) as (before & s0 & s1 & s2 & s3 & -> & H').
      exists (String c before), s0, s1, s2, s3. tauto.
Qed.

Lemma search_group_None (pre g post : regex) (s : string) :
  search_group pre g post s = None ->
  forall before s0 s1 s2 s3,
    s = before ++ s0 -> steps pre s0 s1 -> steps g s1 s2 -> ~ steps post s2 s3.
Proof.
  induction s as [|c s IH]; cbn [search_group];
    destruct (match_group pre g post _) eqn:E; try discriminate;
    intros H before s0 s1 s2 s3 Hs.
  - destruct before; [|discriminate]. cbn in Hs. subst s0.
    now apply (match_group_None _ _ _ _ E).
  - destruct before as [|b before]; cbn in Hs.
    + subst s0. now apply (match_group_None _ _ _ _ E).
    + injection Hs as -> ->. now apply (IH H before s0).
Qed.

(** The SKU extractor finds something exactly when a SKU is syntactically
    derivable, and what it returns is a token of the URL in upper case. *)
Lemma extract_sku_spec (url : string) :
  (forall sku,
     extract_twinset_com_sku_from_url url = Some sku ->
     exists before g t,
       url = before ++ String "-" (g ++ t) /\ sku_token g /\ sku_tail t
       /\ sku = upper g)
  /\ (truthy_opt (extract_twinset_com_sku_from_url url) = true <->
      sku_derivable url).
Proof.
  assert (Hval : forall sku,
     extract_twinset_com_sku_from_url url = Some sku ->
     exists before g t,
       url = before ++ String "-" (g ++ t) /\ sku_token g /\ sku_tail t
       /\ sku = upper g).
  { intros sku H. unfold extract_twinset_com_sku_from_url in H.
    destruct (search_group sku_pre_re sku_group_re sku_post_re url) as [x|] eqn:E;
      [|discriminate].
    injection H as <-. apply search_group_Some in E.
    destruct E as (before & s0 & s1 & s2 & s3 & -> & H1 & H2 & H3 & ->).
    apply steps_chr_plain in H1; [|reflexivity]. subst s0.
    apply steps_sku_group in H2. destruct H2 as (g & -> & Hg).
    apply steps_sku_post in H3.
    destruct H3 as (suffix & ext & -> & Hs & Hext & He).
    exists before, g, (suffix ++ ext ++ s3). rewrite consumed_app.
    repeat split; auto. exists suffix, ext, s3. auto. }
  split; [exact Hval|]. split.
  - destruct (extract_twinset_com_sku_from_url url) as [sku|] eqn:E;
      [|discriminate].
    intros _. destruct (Hval sku eq_refl) as (before & g & t & H1 & H2 & H3 & _).
    now exists before, g, t.
  - intros (before & g & t & -> & Hg & suffix & ext & eol & -> & Hs & Hext & He).
    unfold extract_twinset_com_sku_from_url.
    destruct (search_group sku_pre_re sku_group_re sku_post_re
                (before ++ String "-" (g ++ suffix ++ ext ++ eol))) as [x|] eqn:E.
    + pose proof E as E'. apply search_group_Some in E'.
      destruct E' as (b' & s0 & s1 & s2 & s3 & _ & H1 & H2 & H3 & ->).
      apply steps_sku_group in H2. destruct H2 as (g' & -> & Hg').
      rewrite consumed_app.
      destruct Hg' as (d & l & a & -> & Hd & _).
      destruct d as [|c d]; [discriminate | reflexivity].
    + exfalso.
      eapply (search_group_None _ _ _ _ E before _ _ _ eol eq_refl).
      * apply steps_chr_plain; [reflexivity | reflexivity].
      * apply steps_sku_group. exists g. split; [reflexivity | exact Hg].
      * apply steps_sku_post. exists suffix, ext. auto.
Qed.

(** ** The classifier *)

(** C7.  Classification works on the normalised URL [clean], in this
    order: for twinset.ru a URL matching the stale-path pattern is
    'other'; otherwise a URL matching the product pattern is 'product',
    except that for twinset.com it is 'product' only when a SKU is
    syntactically derivable from it (a "-", then 3 digits, 2 to 5 letters
    and alphanumerics, then an optional "_" part and ".html" at the end,
    hence in the final path segment) and 'category' when none is;
    otherwise a URL matching the category pattern is 'category';
    otherwise it is 'other'.  The result depends on the URL through its
    normalised form only: two URLs with the same normalised form are
    classified alike. *)
Theorem classify_url_spec (site_cfg : SiteConfig) (url clean : string) :
  strip_query_and_fragment url = Ok clean ->
  let stale :=
    key site_cfg = "twinset.ru" /\ re_match stale_path_re clean = true in
  let product_shape := re_match (product_url_re site_cfg) clean = true in
  let category_shape := re_match (category_url_re site_cfg) clean = true in
  (stale -> classify_url site_cfg url = Ok "other")
  /\ (~ stale -> product_shape -> key site_cfg <> "twinset.com" ->
      classify_url site_cfg url = Ok "product")
  /\ (~ stale -> product_shape -> key site_cfg = "twinset.com" ->
      sku_derivable clean -> classify_url site_cfg url = Ok "product")
  /\ (~ stale -> product_shape -> key site_cfg = "twinset.com" ->
      ~ sku_derivable clean -> classify_url site_cfg url = Ok "category")
  /\ (~ stale -> ~ product_shape -> category_shape ->
      classify_url site_cfg url = Ok "category")
  /\ (~ stale -> ~ product_shape -> ~ category_shape ->
      classify_url site_cfg url = Ok "other")
  /\ (forall url', strip_query_and_fragment url' = Ok clean ->
                   classify_url site_cfg url' = classify_url site_cfg url).
Proof.
  intros Hclean stale product_shape category_shape.
  subst stale product_shape category_shape.
  assert (Hstale : forall b : bool,
            ~ (key site_cfg = "twinset.ru" /\ b = true) ->
            (String.eqb (key site_cfg) "twinset.ru" && b)%bool = false).
  { intros b Hn. destruct (String.eqb (key site_cfg) "twinset.ru") eqn:E;
      [|reflexivity].
    apply String.eqb_eq in E. destruct b; [exfalso; auto | reflexivity]. }
  pose proof (proj2 (extract_sku_spec clean)) as Hsku.
  unfold classify_url. rewrite Hclean. cbn [bind].
  split; [|split; [|split; [|split; [|split; [|split]]]]].
  - intros [Hk Hs]. now rewrite Hk, Hs.
  - intros Hn Hp Hk. rewrite (Hstale _ Hn), Hp.
    now rewrite (proj2 (String.eqb_neq _ _) Hk).
  - intros Hn Hp Hk Hs. apply Hsku in Hs.
    rewrite (Hstale _ Hn), Hp, Hk, Hs. reflexivity.
  - intros Hn Hp Hk Hs. rewrite (Hstale _ Hn), Hp, Hk.
    destruct (truthy_opt (extract_twinset_com_sku_from_url clean));
      [exfalso; apply Hs, Hsku; reflexivity | reflexivity].
  - intros Hn Hp Hc. rewrite (Hstale _ Hn), Hc.
    apply not_true_is_false in Hp. now rewrite Hp.
  - intros Hn Hp Hc. rewrite (Hstale _ Hn).
    apply not_true_is_false in Hp, Hc. now rewrite Hp, Hc.
  - intros url' H'. now rewrite H'.
Qed.

(** A URL that cannot be normalised cannot be classified. *)
Lemma classify_url_raises (site_cfg : SiteConfig) (url : string) (e : exn) :
  strip_query_and_fragment url = Raise e -> classify_url site_cfg url = Raise e.
Proof. intros H. unfold classify_url. now rewrite H. Qed.

End Indexer.

(* ================================================================== *)
(** * Part III. The theorems at work                                   *)
(* ================================================================== *)

(** ** URL normalisation *)

Example strip_ex1 :
  strip_query_and_fragment offline
    "https://www.twinset.com/row/a-b.html?x=1#top"
  = Ok "https://www.twinset.com/row/a-b.html".
Proof. reflexivity. Qed.

Example strip_ex2 :
  strip_query_and_fragment offline "https://www.twinset.com/row//"
  = Ok "https://www.twinset.com/row/".
Proof. reflexivity. Qed.

Example strip_ex3 :
  strip_query_and_fragment offline "https://www.twinset.com/row/"
  = Ok "https://www.twinset.com/row".
Proof. reflexivity. Qed.

Example strip_ex4 :
  strip_query_and_fragment offline "HTTP:foo;x;?q" = Ok "http:///foo;x;".
Proof. reflexivity. Qed.

Example strip_ex5 :
  strip_query_and_fragment offline "https://www.twinset.com/a/b;/"
  = Ok "https://www.twinset.com/a/b;"
  /\ strip_query_and_fragment offline "https://www.twinset.com/a/b;"
     = Ok "https://www.twinset.com/a/b".
Proof. split; reflexivity. Qed.

(** The claim C2 as stated fails: a twinset.com URL ending in two slashes
    loses one slash at each normalisation. *)
Lemma strip_query_and_fragment_not_idempotent :
  (n <- strip_query_and_fragment offline "https://www.twinset.com/row//" ;;
   strip_query_and_fragment offline n)
  <> strip_query_and_fragment offline "https://www.twinset.com/row//".
Proof. vm_compute. discriminate. Qed.

Lemma strip_query_and_fragment_idempotent_witness :
  strip_query_and_fragment offline "https://www.twinset.com/row"
  = Ok "https://www.twinset.com/row".
Proof.
  apply (strip_query_and_fragment_idempotent offline
           "https://www.twinset.com/row/?page=2#top"
           "https://www.twinset.com/row"
           (mkParse "https" "www.twinset.com" "/row/" "" "page=2" "top")).
  - reflexivity.
  - discriminate.
  - reflexivity.
  - right. split; reflexivity.
Defined.

(** ** The classifier *)

Example sku_ex1 :
  extract_twinset_com_sku_from_url
    "https://www.twinset.com/row/long-dress-241tp2130_00006.html"
  = Some "241TP2130".
Proof. vm_compute. reflexivity. Qed.

Example classify_ex1 :
  classify_url offline twinset_com
    "https://www.twinset.com/row/long-dress-241tp2130_00006.html?x=1"
  = Ok "product".
Proof. vm_compute. reflexivity. Qed.

Example classify_ex2 :
  classify_url offline twinset_com
    "https://www.twinset.com/row/women-clothing.html"
  = Ok "category".
Proof. vm_compute. reflexivity. Qed.

Example classify_ex3 :
  classify_url offline twinset_ru "https://twinset.ru/catalog/12345/"
  = Ok "other".
Proof. vm_compute. reflexivity. Qed.

Example classify_ex4 :
  classify_url offline twinset_ru
    "https://twinset.ru/catalog/odezhda/platya/12345/"
  = Ok "product".
Proof. vm_compute. reflexivity. Qed.

(** Classifying a URL and classifying its normal form can differ, the
    classifier normalising once more. *)
Example classify_ex5 :
  classify_url offline twinset_com "https://www.twinset.com/row//"
  = Ok "category"
  /\ classify_url offline twinset_com "https://www.twinset.com/row/"
     = Ok "other".
Proof. split; vm_compute; reflexivity. Qed.

Lemma classify_url_spec_witness :
  classify_url offline twinset_com
    "https://www.twinset.com/row/long-dress-241tp2130_00006.html?x=1"
  = Ok "product".
Proof.
  pose proof (classify_url_spec offline twinset_com
                "https://www.twinset.com/row/long-dress-241tp2130_00006.html?x=1"
                "https://www.twinset.com/row/long-dress-241tp2130_00006.html"
                eq_refl) as H.
  cbv zeta in H. destruct H as (_ & _ & H & _). apply H.
  - intros [H' _]. discriminate H'.
  - vm_compute. reflexivity.
  - reflexivity.
  - exists "https://www.twinset.com/row/long-dress", "241tp2130", "_00006.html".
    split; [reflexivity|]. split.
    + exists "241", "tp", "2130". repeat split; cbn; lia.
    + exists "_00006", ".html", "". repeat split.
      right. exists "00006". repeat split. discriminate.
Defined.

(** ** The HTTP client and the crawl loop *)

(** The claim C1 as stated fails in its second half: with the default of
    three attempts, a 404 reaches the caller only after two sleeps. *)
Lemma http_error_is_retried_with_backoff :
  fst (get_bytes always_404 3 "https://twinset.ru/catalog/dresses/123/")
  = Raise (HTTPError 404 "HTTP Error 404: Not Found")
  /\ snd (get_bytes always_404 3 "https://twinset.ru/catalog/dresses/123/")
     = [Backoff 1; Backoff 2]
  /\ snd (get_bytes always_404 3 "https://twinset.ru/catalog/dresses/123/")
     <> [].
Proof. repeat split. discriminate. Qed.

Lemma crawl_url_gone_witness :
  url_queue (st_db (crawl_url always_404 twinset_ru 3 2 true dress_state dress_row))
  = [mkQueueItem "twinset.ru" "https://twinset.ru/catalog/dresses/123/"
       "product" "gone" 1 (Some "https://twinset.ru/catalog/") 1 (Some 404) 0
       (Some "HTTP 404") "t1"]
  /\ st_trace (crawl_url always_404 twinset_ru 3 2 true dress_state dress_row)
     = [Backoff 1; Backoff 2].
Proof.
  pose proof (crawl_url_gone always_404 twinset_ru 3 2 true dress_state
                dress_row 404 "HTTP Error 404: Not Found" eq_refl
                (or_introl eq_refl)) as H.
  cbv zeta in H. destruct H as (Hdb & _ & _ & _ & Htr).
  rewrite Hdb, Htr. split; reflexivity.
Defined.

Example one_attempt_no_sleep :
  get_bytes always_404 1 "https://twinset.ru/catalog/dresses/123/"
  = (Raise (HTTPError 404 "HTTP Error 404: Not Found"), []).
Proof. reflexivity. Qed.

(** ** The queue store *)

Lemma enqueue_url_existing_key_witness :
  enqueue_url two_rows "twinset.ru" "https://twinset.ru/catalog/a/1/"
    "category" 0 (Some "seed") "t9"
  = two_rows.
Proof.
  apply (enqueue_url_existing_key two_rows "twinset.ru"
           "https://twinset.ru/catalog/a/1/" "category" 0 (Some "seed") "t9").
  eexists. split; [left; reflexivity | split; reflexivity].
Defined.

Lemma reset_errors_spec_witness :
  exists r',
    nth_error (url_queue (fst (reset_errors two_rows "twinset.ru" "t9"))) 0
    = Some r'
    /\ q_status r' = "pending" /\ q_blocked r' = 0 /\ q_last_error r' = None
    /\ q_updated_at r' = "t9" /\ q_attempts r' = 2
    /\ q_last_http_status r' = Some 500.
Proof.
  destruct (proj1 (reset_errors_spec two_rows "twinset.ru" "t9" 0 _ eq_refl))
    as (r' & H0 & H1 & H2 & H3 & H4 & _ & _ & _ & _ & _ & H5 & H6).
  - split; [reflexivity | left; reflexivity].
  - exists r'. repeat split; assumption.
Defined.

Example reset_errors_other_site :
  nth_error (url_queue (fst (reset_errors two_rows "twinset.ru" "t9"))) 1
  = nth_error (url_queue two_rows) 1
  /\ snd (reset_errors two_rows "twinset.ru" "t9") = 1.
Proof. split; reflexivity. Qed.

Example next_pending_url_ex :
  option_map q_url
    (next_pending_url three_pending "twinset.ru" ["product"; "category"] 2)
  = Some "https://twinset.ru/catalog/c/"
  /\ next_pending_url three_pending "twinset.ru" ["product"] 0 = None.
Proof. split; reflexivity. Qed.

(** ** Products, the SKU index and the match layer *)

Example match_articles_ex :
  match_articles variants ["abc123"; " Abc123 "; ""; "none1"]
  = ([ mkFound "ABC123" "twinset.com"
         "https://www.twinset.com/row/a-abc123_2.html" (Some "Dress") None "t3";
       mkFound "ABC123" "twinset.com"
         "https://www.twinset.com/row/a-abc123_1.html" (Some "Dress") None "t1" ],
     [ "NONE1" ]).
Proof. reflexivity. Qed.

Example upsert_product_new_sku_ex :
  let db1 :=
    upsert_product empty_db "twinset.com" "https://www.twinset.com/row/a.html"
      (Some "OLD111") (Some "Dress") None "{}" "t1" "t2" in
  let db2 :=
    upsert_product db1 "twinset.com" "https://www.twinset.com/row/a.html"
      (Some "NEW222") (Some "Dress") None "{}" "t3" "t4" in
  map x_sku (sku_index db2) = ["OLD111"; "NEW222"]
  /\ map p_sku (products db2) = [Some "NEW222"].
Proof. split; reflexivity. Qed.

(** ** The sitemap resolver *)

Example two_leaf_sitemaps_run :
  match crawl_sitemaps_loop small_site 5 twinset_com 3 0.5 1.5 None 0
          fresh_with_index with
  | Some (Ok (st, n)) => Some (url_queue (st_db st), st_trace st, n)
  | _ => None
  end
  = Some ([ mkQueueItem "twinset.com" dress_url "product" "pending" 0
              (Some leaf1_url) 0 None 0 None "t4";
            mkQueueItem "twinset.com" skirt_url "product" "pending" 0
              (Some leaf2_url) 0 None 0 None "t6" ],
          [Pause 1; Pause 1; Pause 1],
          3).
Proof. vm_compute. reflexivity. Qed.

Lemma sitemap_resolution_spec_witness :
  exists st' r1 r2,
    crawl_sitemaps_loop small_site 3 twinset_com 3 0.5 1.5 None 0
      fresh_with_index
    = Some (Ok (st', 3))
    /\ Permutation (url_queue (st_db st')) [r1; r2]
    /\ q_url r1 = dress_url /\ q_url r2 = skirt_url
    /\ (forall r, r = r1 \/ r = r2 ->
          q_site r = "twinset.com" /\ q_url_type r = "product"
          /\ q_depth r = 0 /\ q_status r = "pending").
Proof.
  apply (proj1 (proj2 (proj2 (proj2 (proj2
                 (sitemap_resolution_spec small_site)))))
           twinset_com 3 0.5%float 1.5%float 1%nat [] "t0"
           idx_url leaf1_url leaf2_url leaf1_url leaf2_url dress_url skirt_url
           dress_url skirt_url "index" "leaf 1" "leaf 2" [] [] []);
    try discriminate; vm_compute; reflexivity.
Defined.

(** A value that cannot be normalised ends the handling of its sitemap:
    the sitemap and the product listed after it are not enqueued. *)
Example loc_that_raises_ends_the_handling :
  process_locs offline twinset_com idx_url (mkState empty_db 0 [])
    ["https://[x/"; leaf1_url; dress_url]
  = (mkState empty_db 0 [], Some (Exception "Invalid IPv6 URL"))
  /\ url_queue
       (st_db (fst (process_locs offline twinset_com idx_url
                      (mkState empty_db 0 []) [leaf1_url; dress_url])))
     = [ mkQueueItem "twinset.com" dress_url "product" "pending" 0
           (Some idx_url) 0 None 0 None "t1" ].
Proof. split; vm_compute; reflexivity. Qed.

(** With a negative [--delay-min] the first pause draws a negative
    length, and [time.sleep] ends the resolver after the first sitemap. *)
Example negative_delay_ends_the_resolver :
  crawl_sitemaps_loop small_site 5 twinset_com 3 (-1) 0.5 None 0
    fresh_with_index
  = Some (Raise (Exception "sleep length must be non-negative")).
Proof. vm_compute. reflexivity. Qed.

(** The claim C9 as stated fails: a [<loc>] value that does not end in
    ".xml" or ".xml.gz" and is classified 'other' is not enqueued. *)
Lemma loc_classified_other_is_dropped :
  is_sitemap_url "https://twinset.ru/catalog/12345/" = false
  /\ classify_url offline twinset_ru "https://twinset.ru/catalog/12345/"
     = Ok "other"
  /\ url_queue
       (st_db (fst (process_loc offline twinset_ru
                      "https://twinset.ru/sitemap.xml"
                      (mkState empty_db 0 [])
                      "https://twinset.ru/catalog/12345/")))
     = [].
Proof. repeat split; vm_compute; reflexivity. Qed.

(** A value that ends in ".xml" only through its query string is not a
    sitemap either. *)
Example loc_xml_in_query :
  fst (process_loc offline twinset_ru "https://twinset.ru/sitemap.xml"
         (mkState empty_db 0 []) "https://twinset.ru/about?format=.xml")
  = mkState empty_db 0 [].
Proof. vm_compute. reflexivity. Qed.

(* ================================================================== *)
(** * Part IV. Further properties                                      *)
(* ================================================================== *)

Ltac by_ascii_cases c :=
  destruct c as [[] [] [] [] [] [] [] []]; vm_compute;
  intros; first [reflexivity | discriminate | congruence | tauto].

(** ** Embedded JavaScript values *)

Lemma strip_prefix_spec (p s r : string) :
  strip_prefix p s = Some r <-> s = p ++ r.
Proof.
  revert s; induction p as [|a p IH]; intros s; simpl.
  - split; [intros [= ->]; reflexivity | intros ->; reflexivity].
  - destruct s as [|b s]; [split; discriminate|].
    destruct (Ascii.eqb a b) eqn:E.
    + apply Ascii.eqb_eq in E; subst b. rewrite IH.
      split; [intros ->; reflexivity | intros [= ->]; reflexivity].
    + split; [discriminate|]. intros [= -> _].
      rewrite Ascii.eqb_refl in E; discriminate.
Qed.

Lemma strip_prefix_startswith (p s : string) :
  strip_prefix p s = None <-> startswith p s = false.
Proof.
  revert s; induction p as [|a p IH]; intros s; simpl.
  - split; discriminate.
  - destruct s as [|b s]; [tauto|].
    destruct (Ascii.eqb a b); simpl; [apply IH | tauto].
Qed.

Lemma find_sub_spec (marker s l r : string) :
  find_sub marker s = Some (l, r) ->
  s = l ++ marker ++ r
  /\ forall l1 l2, l = l1 ++ l2 -> l2 <> "" ->
                   startswith marker (l2 ++ marker ++ r) = false.
Proof.
  revert l r; induction s as [|a s IH]; intros l r; simpl.
  - destruct (strip_prefix marker "") eqn:E; [|discriminate].
    intros [= <- <-]. apply strip_prefix_spec in E. split; [exact E|].
    intros l1 l2 H. destruct l1; simpl in H; [subst l2; congruence | discriminate].
  - destruct (strip_prefix marker (String a s)) eqn:E.
    + intros [= <- <-]. apply strip_prefix_spec in E. split; [exact E|].
      intros l1 l2 H. destruct l1; simpl in H; [subst l2; congruence | discriminate].
    + destruct (find_sub marker s) as [[l' r']|] eqn:F; [|discriminate].
      intros [= <- <-]. destruct (IH _ _ eq_refl) as [-> Hfirst].
      split; [reflexivity|].
      intros l1 l2 H Hne. destruct l1 as [|c l1]; simpl in H.
      * subst l2. simpl. apply strip_prefix_startswith in E. exact E.
      * injection H as _ H. eapply Hfirst; eauto.
Qed.

Lemma find_sub_None (marker s : string) :
  find_sub marker s = None <-> contains marker s = false.
Proof.
  induction s as [|a s IH]; simpl.
  - destruct (strip_prefix marker "") eqn:E.
    + split; [discriminate|]. intros H.
      assert (startswith marker "" = false) by (destruct (startswith marker ""); [discriminate | reflexivity]).
      apply strip_prefix_startswith in H0. congruence.
    + apply strip_prefix_startswith in E. rewrite E. tauto.
  - destruct (strip_prefix marker (String a s)) eqn:E.
    + split; [discriminate|]. intros H. apply orb_false_iff in H as [H _].
      apply strip_prefix_startswith in H. congruence.
    + apply strip_prefix_startswith in E. rewrite E. simpl.
      destruct (find_sub marker s) as [[l r]|]; [|exact IH].
      split; [discriminate|]. intros H. apply IH in H. discriminate.
Qed.

Lemma lstrip_by_spec (p : ascii -> bool) (s : string) :
  exists ws, s = ws ++ lstrip_by p s /\ all_chars p ws = true
             /\ match lstrip_by p s with
                | EmptyString => True
                | String c _ => p c = false
                end.
Proof.
  induction s as [|a s (ws & E & Hws & Hc)]; simpl.
  - exists "". auto.
  - destruct (p a) eqn:Pa.
    + exists (String a ws). simpl. rewrite Pa, Hws. rewrite <- E. auto.
    + exists "". simpl. rewrite Pa. auto.
Qed.

Lemma close_of_cases (o c : ascii) :
  close_of o = Some c ->
  (o = "{"%char /\ c = "}"%char) \/ (o = "["%char /\ c = "]"%char).
Proof.
  unfold close_of.
  destruct (Ascii.eqb o "{") eqn:E1; [apply Ascii.eqb_eq in E1; intros [= <-]; auto|].
  destruct (Ascii.eqb o "[") eqn:E2; [apply Ascii.eqb_eq in E2; intros [= <-]; auto|].
  discriminate.
Qed.

(** The value returned by the scan is a prefix of the text and ends in
    the closing character. *)
Lemma scan_value_prefix (o c : ascii) (s : string) :
  forall st v, scan_value o c st s = Some v ->
  exists inner rest, v = inner ++ String c "" /\ s = v ++ rest.
Proof.
  induction s as [|ch s IH]; intros st v; simpl; [discriminate|].
  destruct (scan_step o c st ch) as [st'|] eqn:E.
  - destruct (scan_value o c st' s) as [v'|] eqn:F; [|discriminate].
    intros [= <-]. destruct (IH _ _ F) as (inner & rest & -> & ->).
    exists (String ch inner), rest. split; reflexivity.
  - intros [= <-]. exists "", s. split; [|reflexivity]. simpl.
    unfold scan_step in E.
    destruct (sc_in_string st).
    { destruct (sc_escaped st); [discriminate|].
      destruct (Ascii.eqb ch "\"); [discriminate|].
      destruct (String.eqb _ _); discriminate. }
    destruct (Ascii.eqb ch "'" || Ascii.eqb ch dquote)%bool; [discriminate|].
    destruct (Ascii.eqb ch o); [discriminate|].
    destruct (Ascii.eqb ch c) eqn:Ec; [|discriminate].
    apply Ascii.eqb_eq in Ec. now subst.
Qed.

(** X1.  [extract_js_value] finds nothing when the marker does not occur
    in the page.  A value it finds stands in the page after the first
    occurrence of the marker and the white space that follows it, opens
    with a brace or a bracket and ends with the matching closer. *)
Theorem extract_js_value_shape (page_html marker : string) :
  (contains marker page_html = false ->
   extract_js_value page_html marker = None)
  /\ forall v,
       extract_js_value page_html marker = Some v ->
       exists before ws rest open_ch close_ch inner,
         page_html = before ++ marker ++ ws ++ v ++ rest
         /\ (forall b1 b2, before = b1 ++ b2 -> b2 <> "" ->
               startswith marker (b2 ++ marker ++ ws ++ v ++ rest) = false)
         /\ all_chars is_space ws = true
         /\ ((open_ch = "{"%char /\ close_ch = "}"%char)
             \/ (open_ch = "["%char /\ close_ch = "]"%char))
         /\ v = String open_ch (inner ++ String close_ch "").
Proof.
  split.
  { intros H. apply find_sub_None in H. unfold extract_js_value. now rewrite H. }
  intros v. unfold extract_js_value.
  destruct (find_sub marker page_html) as [[before after]|] eqn:F; [|discriminate].
  destruct (find_sub_spec _ _ _ _ F) as [Hpage Hfirst].
  destruct (lstrip_by_spec is_space after) as (ws & Hafter & Hws & _).
  destruct (lstrip_by is_space after) as [|o body'] eqn:L; [discriminate|].
  destruct (close_of o) as [c|] eqn:C; [|discriminate].
  intros Hscan.
  destruct (scan_value_prefix _ _ _ _ _ Hscan) as (inner & rest & Hv & Hbody).
  pose proof (close_of_cases _ _ C) as Hoc.
  assert (Hinner : exists inner', v = String o (inner' ++ String c "")).
  { destruct inner as [|i inner].
    - simpl in Hv. subst v. simpl in Hbody. injection Hbody as Ho _.
      destruct Hoc as [[-> ->]|[-> ->]]; discriminate.
    - simpl in Hv. subst v. simpl in Hbody. injection Hbody as Ho _.
      subst i. now exists inner. }
  destruct Hinner as (inner' & Hv').
  exists before, ws, rest, o, c, inner'.
  assert (E : after = ws ++ v ++ rest) by (rewrite Hafter, Hbody; reflexivity).
  rewrite <- E. repeat split; auto.
Qed.

Lemma count_char_app (c : ascii) (a b : string) :
  count_char c (a ++ b) = count_char c a + count_char c b.
Proof. induction a as [|x a IH]; simpl; [reflexivity | rewrite IH; lia]. Qed.

Lemma count_char_nonneg (c : ascii) (s : string) : 0 <= count_char c s.
Proof. induction s as [|x s IH]; simpl; [lia | destruct (Ascii.eqb x c); lia]. Qed.

(** One round of the loop outside a string literal, on a character that is
    not a quote. *)
Lemma scan_step_plain (o c ch : ascii) (d : Z) (e : bool) (q : string) :
  o <> c -> ch <> "'"%char -> ch <> dquote ->
  scan_step o c (mkScan d false e q) ch
  = let d' := d + (if Ascii.eqb ch o then 1 else 0)
                - (if Ascii.eqb ch c then 1 else 0) in
    if (Ascii.eqb ch c && (d' =? 0))%bool then None
    else Some (mkScan d' false e q).
Proof.
  intros Hoc H1 H2. unfold scan_step; simpl.
  apply Ascii.eqb_neq in H1, H2. rewrite H1, H2. simpl.
  destruct (Ascii.eqb ch o) eqn:Eo.
  - apply Ascii.eqb_eq in Eo. subst ch.
    assert (Ascii.eqb o c = false) as -> by now apply Ascii.eqb_neq.
    simpl. now replace (d + 1 - 0) with (d + 1) by lia.
  - destruct (Ascii.eqb ch c) eqn:Ec; simpl.
    + replace (d + 0 - 1) with (d - 1) by lia.
      destruct (d - 1 =? 0); reflexivity.
    + now replace (d + 0 - 0) with d by lia.
Qed.

Lemma quote_free_cons (x : ascii) (v : string) :
  quote_free (String x v) <->
  x <> "'"%char /\ x <> dquote /\ quote_free v.
Proof.
  unfold quote_free; simpl. rewrite !orb_false_iff, !Ascii.eqb_neq. tauto.
Qed.

(** Outside string literals the scan counts brackets: from depth [d >= 1]
    it returns the prefix at whose end the depth first reaches 0. *)
Lemma scan_value_plain (o c : ascii) (Hoc : o <> c) (v : string) :
  forall (s : string) (d : Z) (e : bool) (q : string),
  1 <= d -> quote_free v ->
  (scan_value o c (mkScan d false e q) s = Some v <->
   (exists rest, s = v ++ rest)
   /\ d + count_char o v - count_char c v = 0
   /\ forall p p', v = p ++ p' -> p' <> "" ->
                   1 <= d + count_char o p - count_char c p).
Proof.
  induction v as [|x v IH]; intros s d e q Hd Hq.
  - split.
    + intros H. destruct (scan_value_prefix _ _ _ _ _ H) as (inner & rest & E & _).
      destruct inner; discriminate.
    + intros (_ & H & _). simpl in H. lia.
  - apply quote_free_cons in Hq as (Hx1 & Hx2 & Hq).
    destruct s as [|y s].
    { split; [discriminate | intros ((rest & E) & _); discriminate]. }
    destruct (ascii_dec y x) as [->|Hyx].
    2:{ split.
        - intros H. destruct (scan_value_prefix _ _ _ _ _ H)
            as (? & rest & _ & E). simpl in E. congruence.
        - intros ((rest & E) & _). simpl in E. congruence. }
    cbn [scan_value].
    rewrite (scan_step_plain o c x d e q Hoc Hx1 Hx2). cbv zeta.
    set (d' := d + (if Ascii.eqb x o then 1 else 0) - (if Ascii.eqb x c then 1 else 0)).
    assert (Hcnt : forall w, d + count_char o (String x w) - count_char c (String x w)
                             = d' + count_char o w - count_char c w).
    { intros w. unfold d'. simpl. lia. }
    assert (Hd' : 0 <= d').
    { unfold d'. destruct (Ascii.eqb x o), (Ascii.eqb x c); lia. }
    destruct (Ascii.eqb x c && (d' =? 0))%bool eqn:Eret.
    + apply andb_true_iff in Eret as [Exc Ed0]. apply Z.eqb_eq in Ed0.
      split.
      * intros [= <-]. split; [exists s; reflexivity|].
        split; [rewrite Hcnt; simpl; lia|].
        intros p p' Hp Hp'. destruct p as [|a p]; [simpl; lia|].
        simpl in Hp. injection Hp as _ Hp. destruct p; destruct p'; try discriminate.
        congruence.
      * intros ((rest & E) & Hz & Hpre). simpl in E. injection E as E.
        destruct v as [|z v]; [reflexivity|].
        specialize (Hpre (String x "") (String z v) eq_refl ltac:(discriminate)).
        rewrite Hcnt in Hpre. simpl in Hpre. lia.
    + assert (Hd1 : 1 <= d').
      { apply andb_false_iff in Eret. unfold d' in *.
        destruct (Ascii.eqb x o), (Ascii.eqb x c); try lia;
          destruct Eret as [?|E0]; try discriminate; apply Z.eqb_neq in E0; lia. }
      specialize (IH s d' e q Hd1 Hq).
      split.
      * intros H. destruct (scan_value o c (mkScan d' false e q) s) as [v'|] eqn:F;
          [|discriminate].
        injection H as ->. destruct IH as [IH _]. specialize (IH eq_refl).
        destruct IH as ((rest & E) & Hz & Hpre).
        split; [exists rest; simpl; now rewrite E|].
        split; [now rewrite Hcnt|].
        intros p p' Hp Hp'. destruct p as [|a p]; [simpl; lia|].
        simpl in Hp. injection Hp as <- Hp. rewrite Hcnt. now apply (Hpre p p').
      * intros ((rest & E) & Hz & Hpre). simpl in E. injection E as E.
        destruct IH as [_ IH]. rewrite IH; [reflexivity|].
        split; [now exists rest|]. split; [now rewrite <- Hcnt|].
        intros p p' Hp Hp'. rewrite <- Hcnt. apply (Hpre (String x p) p'); [|exact Hp'].
        simpl. now rewrite Hp.
Qed.

(** X2.  When the value holds no quote character, it is the shortest
    non-empty prefix of the text from the opening bracket on in which the
    opening and the closing bracket occur equally often. *)
Theorem extract_js_value_balanced
    (page_html marker before ws body' v : string) (open_ch close_ch : ascii) :
  find_sub marker page_html = Some (before, ws ++ String open_ch body') ->
  all_chars is_space ws = true ->
  close_of open_ch = Some close_ch ->
  quote_free v ->
  (extract_js_value page_html marker = Some v <->
   shortest_balanced open_ch close_ch (String open_ch body') v).
Proof.
  intros F Hws C Hq.
  pose proof (close_of_cases _ _ C) as Hoc.
  assert (Hne : open_ch <> close_ch) by (destruct Hoc as [[-> ->]|[-> ->]]; discriminate).
  assert (Hsp : is_space open_ch = false) by (destruct Hoc as [[-> _]|[-> _]]; reflexivity).
  assert (Hq1 : open_ch <> "'"%char /\ open_ch <> dquote)
    by (destruct Hoc as [[-> _]|[-> _]]; split; discriminate).
  assert (L : lstrip_by is_space (ws ++ String open_ch body') = String open_ch body').
  { clear F. induction ws as [|a ws IH]; simpl in *; [now rewrite Hsp|].
    apply andb_true_iff in Hws as [-> Hws]. auto. }
  unfold extract_js_value. rewrite F, L, C. cbn [scan_value].
  destruct Hq1 as [Hq1 Hq2].
  rewrite (scan_step_plain open_ch close_ch open_ch 0 false "" Hne Hq1 Hq2).
  cbv zeta. rewrite Ascii.eqb_refl.
  assert (Ascii.eqb open_ch close_ch = false) as -> by now apply Ascii.eqb_neq.
  cbn [andb]. replace (0 + 1 - 0) with 1 by lia.
  unfold shortest_balanced.
  destruct v as [|x v].
  { split.
    - destruct (scan_value _ _ _ body'); discriminate.
    - intros (_ & H & _). congruence. }
  apply quote_free_cons in Hq as (_ & _ & Hq).
  pose proof (scan_value_plain open_ch close_ch Hne v body' 1 false "" ltac:(lia) Hq) as P.
  assert (Hco : forall w, count_char open_ch (String open_ch w) = 1 + count_char open_ch w)
    by (intros w; simpl; now rewrite Ascii.eqb_refl).
  assert (Hcc : forall w, count_char close_ch (String open_ch w) = count_char close_ch w).
  { intros w; simpl.
    assert (Ascii.eqb open_ch close_ch = false) as -> by now apply Ascii.eqb_neq.
    lia. }
  split.
  - intros H. destruct (scan_value _ _ _ body') as [v'|] eqn:S; [|discriminate].
    injection H as <- <-. destruct P as [P _]. destruct (P eq_refl) as ((rest & E) & Hz & Hpre).
    split; [exists rest; simpl; now rewrite E|].
    split; [discriminate|]. split; [rewrite Hco, Hcc; lia|].
    intros p p' Hp Hpne Hp'. destruct p as [|a p]; [congruence|].
    simpl in Hp. injection Hp as <- Hp. rewrite Hco, Hcc.
    specialize (Hpre p p' Hp Hp'). lia.
  - intros ((rest & E) & _ & Hz & Hpre). simpl in E. injection E as <- E.
    destruct P as [_ P]. rewrite P; [reflexivity|].
    split; [now exists rest|]. rewrite Hco, Hcc in Hz. split; [lia|].
    intros p p' Hp Hp'.
    specialize (Hpre (String open_ch p) p'). rewrite Hco, Hcc in Hpre.
    assert (count_char close_ch p < 1 + count_char open_ch p); [|lia].
    apply Hpre; [simpl; now rewrite Hp | discriminate | exact Hp'].
Qed.

(** X3.  A string literal, with its backslash escapes, is passed over whole:
    the brackets and quotes of the other kind inside it do not count. *)
Theorem scan_value_skips_literal (open_ch close_ch qc : ascii) (d : Z)
    (body rest : string) :
  qc = "'"%char \/ qc = dquote ->
  literal_body qc body ->
  scan_value open_ch close_ch (mkScan d false false "")
    (String qc (body ++ String qc rest))
  = option_map (fun v => String qc (body ++ String qc v))
      (scan_value open_ch close_ch (mkScan d false false "") rest).
Proof.
  intros Hqc Hbody. cbn [scan_value].
  assert (E : scan_step open_ch close_ch (mkScan d false false "") qc
              = Some (mkScan d true false (String qc ""))).
  { unfold scan_step; simpl. destruct Hqc as [-> | ->]; reflexivity. }
  rewrite E.
  assert (Hin : scan_value open_ch close_ch (mkScan d true false (String qc ""))
                  (body ++ String qc rest)
                = option_map (fun v => body ++ String qc v)
                    (scan_value open_ch close_ch (mkScan d false false "") rest)).
  { induction Hbody as [|c s Hc1 Hc2 _ IH|c s _ IH].
    - cbn [append scan_value]. unfold scan_step at 1. cbn [sc_in_string sc_escaped sc_quote_char sc_depth].
      assert (Ascii.eqb qc "\" = false) as ->
        by (destruct Hqc as [-> | ->]; reflexivity).
      rewrite String.eqb_refl.
      destruct (scan_value _ _ _ rest); reflexivity.
    - cbn [append scan_value]. unfold scan_step at 1. cbn [sc_in_string sc_escaped sc_quote_char sc_depth].
      assert (Ascii.eqb c "\" = false) as -> by now apply Ascii.eqb_neq.
      assert (String.eqb (String c "") (String qc "") = false) as ->
        by (apply String.eqb_neq; congruence).
      rewrite IH. destruct (scan_value _ _ _ rest); reflexivity.
    - cbn [append scan_value]. unfold scan_step at 1. cbn [sc_in_string sc_escaped sc_quote_char sc_depth].
      rewrite Ascii.eqb_refl. cbn [scan_value].
      unfold scan_step at 1. cbn [sc_in_string sc_escaped sc_quote_char sc_depth].
      rewrite IH. destruct (scan_value _ _ _ rest); reflexivity. }
  rewrite Hin. destruct (scan_value _ _ _ rest); reflexivity.
Qed.

(** ** White space *)

Lemma collapse_spaces_single (s : string) :
  forall b, single_spaced b (collapse_spaces b s) = true.
Proof.
  induction s as [|a s IH]; intros b; simpl; [reflexivity|].
  destruct (is_space a) eqn:Ea.
  - destruct b; [apply IH|]. simpl. now rewrite IH.
  - simpl. rewrite Ea. apply IH.
Qed.

Lemma collapse_spaces_id (s : string) :
  forall b, single_spaced b s = true -> collapse_spaces b s = s.
Proof.
  induction s as [|a s IH]; intros b; simpl; [reflexivity|].
  destruct (is_space a) eqn:Ea.
  - intros H. apply andb_true_iff in H as [H Hs]. apply andb_true_iff in H as [Hsp Hb].
    apply Ascii.eqb_eq in Hsp. subst a. destruct b; [discriminate|].
    now rewrite (IH true Hs).
  - intros H. now rewrite (IH false H).
Qed.

Lemma single_spaced_weaken (s : string) (b : bool) :
  single_spaced b s = true -> single_spaced false s = true.
Proof.
  destruct s as [|a s]; simpl; [reflexivity|].
  destruct (is_space a); [|tauto].
  intros H. apply andb_true_iff in H as [H Hs]. apply andb_true_iff in H as [-> _].
  now rewrite Hs.
Qed.

Lemma single_spaced_lstrip (s : string) :
  forall b, single_spaced b s = true ->
            single_spaced false (lstrip_by is_space s) = true.
Proof.
  induction s as [|a s IH]; intros b; simpl; [reflexivity|].
  destruct (is_space a) eqn:Ea.
  - intros H. apply andb_true_iff in H as [_ Hs]. eapply IH; eauto.
  - intros H. simpl. now rewrite Ea.
Qed.

Lemma rstrip_cons (a : ascii) (s : string) :
  rstrip (String a s)
  = match rstrip s with
    | EmptyString => if is_space a then EmptyString else String a EmptyString
    | t => String a t
    end.
Proof. reflexivity. Qed.

Lemma single_spaced_rstrip (s : string) :
  forall b, single_spaced b s = true -> single_spaced b (rstrip s) = true.
Proof.
  induction s as [|a s IH]; intros b H; [reflexivity|].
  rewrite rstrip_cons. simpl in H.
  destruct (is_space a) eqn:Ea.
  - apply andb_true_iff in H as [H Hs]. specialize (IH true Hs).
    destruct (rstrip s) as [|x t]; [reflexivity|].
    simpl. rewrite Ea. simpl in IH. now rewrite H, IH.
  - specialize (IH false H).
    destruct (rstrip s) as [|x t]; simpl; now rewrite Ea.
Qed.

Lemma rstrip_idem (s : string) : rstrip (rstrip s) = rstrip s.
Proof.
  induction s as [|a s IH]; [reflexivity|].
  rewrite rstrip_cons. destruct (rstrip s) as [|x t] eqn:E.
  - destruct (is_space a) eqn:Ea; [reflexivity|]. simpl. now rewrite Ea.
  - rewrite rstrip_cons, IH. reflexivity.
Qed.

Lemma rstrip_head (a : ascii) (s : string) :
  is_space a = false -> exists t, rstrip (String a s) = String a t.
Proof.
  intros Ea. rewrite rstrip_cons. destruct (rstrip s) as [|x t].
  - rewrite Ea. now exists "".
  - now exists (String x t).
Qed.

Lemma lstrip_head (s : string) :
  match lstrip_by is_space s with
  | EmptyString => True
  | String c _ => is_space c = false
  end.
Proof.
  induction s as [|a s IH]; simpl; [exact I|].
  destruct (is_space a) eqn:Ea; [exact IH | exact Ea].
Qed.

Lemma strip_idem (s : string) : strip (strip s) = strip s.
Proof.
  unfold strip. pose proof (lstrip_head s) as H.
  destruct (lstrip_by is_space s) as [|c r]; [reflexivity|].
  destruct (rstrip_head c r H) as (t & E). rewrite E.
  rewrite (lstrip_by_id is_space c t H). rewrite <- E. apply rstrip_idem.
Qed.

Lemma normalize_space_single (s : string) :
  single_spaced false (normalize_space s) = true.
Proof.
  unfold normalize_space, strip. apply single_spaced_rstrip.
  eapply single_spaced_lstrip. apply collapse_spaces_single.
Qed.

Lemma normalize_space_idem (s : string) :
  normalize_space (normalize_space s) = normalize_space s.
Proof.
  unfold normalize_space at 1.
  rewrite (collapse_spaces_id _ false (normalize_space_single s)).
  unfold normalize_space. apply strip_idem.
Qed.

Lemma rstrip_app_space (s w : string) :
  all_chars is_space w = true -> rstrip (s ++ w) = rstrip s.
Proof.
  intros Hw. assert (R : rstrip w = "").
  { induction w as [|a w IH]; [reflexivity|]. simpl in Hw.
    apply andb_true_iff in Hw as [Ha Hw]. rewrite rstrip_cons, (IH Hw), Ha. reflexivity. }
  induction s as [|a s IH]; simpl append; [exact R|].
  now rewrite !rstrip_cons, IH.
Qed.

Lemma rstrip_snoc (s : string) (z : ascii) :
  is_space z = false -> rstrip (s ++ String z "") = s ++ String z "".
Proof.
  intros Hz. induction s as [|a s IH]; simpl append.
  - simpl. now rewrite Hz.
  - rewrite rstrip_cons, IH. destruct s; reflexivity.
Qed.

Lemma lstrip_app_space (w s : string) :
  all_chars is_space w = true ->
  lstrip_by is_space (w ++ s) = lstrip_by is_space s.
Proof.
  induction w as [|a w IH]; simpl; [reflexivity|].
  intros H. apply andb_true_iff in H as [-> H]. auto.
Qed.

(** [strip] removes the white space around a text that starts and ends
    with other characters. *)
Lemma strip_padded (w1 w2 core : string) (c z : ascii) (mid : string) :
  all_chars is_space w1 = true -> all_chars is_space w2 = true ->
  core = String c mid -> (exists front, core = front ++ String z "") ->
  is_space c = false -> is_space z = false ->
  strip (w1 ++ core ++ w2) = core.
Proof.
  intros H1 H2 Hc (front & Hz) Ec Ez. unfold strip.
  rewrite (lstrip_app_space _ _ H1). rewrite Hc. simpl append.
  rewrite (lstrip_by_id is_space c _ Ec).
  change (String c (mid ++ w2)) with (String c mid ++ w2).
  rewrite (rstrip_app_space _ _ H2), <- Hc, Hz. now apply rstrip_snoc.
Qed.

Lemma collapse_spaces_plain (u : string) (b : bool) :
  all_chars (fun c => negb (is_space c)) u = true -> collapse_spaces b u = u.
Proof.
  revert b. induction u as [|a u IH]; intros b; simpl; [reflexivity|].
  intros H. apply andb_true_iff in H as [Ha Hu]. apply negb_true_iff in Ha.
  rewrite Ha. now rewrite IH.
Qed.

Lemma collapse_spaces_pad (w u : string) :
  all_chars is_space w = true ->
  collapse_spaces true (w ++ u) = collapse_spaces true u.
Proof.
  induction w as [|a w IH]; simpl; [reflexivity|].
  intros H. apply andb_true_iff in H as [-> H]. auto.
Qed.

(** [normalize_space] of a text without white space, with white space in
    front, is the text. *)
Lemma normalize_space_padded (w u : string) :
  all_chars is_space w = true ->
  all_chars (fun c => negb (is_space c)) u = true -> u <> "" ->
  normalize_space (w ++ u) = u.
Proof.
  intros Hw Hu Hne. unfold normalize_space.
  destruct u as [|c mid]; [congruence|].
  destruct (last_char c mid) as (front & z & Eu).
  assert (Ec : is_space c = false).
  { simpl in Hu. apply andb_true_iff in Hu as [Hc _]. now apply negb_true_iff in Hc. }
  assert (Ez : is_space z = false).
  { rewrite Eu, all_chars_app in Hu. apply andb_true_iff in Hu as [_ Hz].
    simpl in Hz. rewrite andb_true_r in Hz. now apply negb_true_iff in Hz. }
  assert (S : forall w1, all_chars is_space w1 = true ->
                         strip (w1 ++ String c mid) = String c mid).
  { intros w1 H1.
    rewrite <- (append_nil_r (String c mid)) at 1.
    apply (strip_padded w1 "" (String c mid) c z mid); auto. now exists front. }
  destruct w as [|a w].
  - simpl append. rewrite (collapse_spaces_plain _ false Hu). apply (S "" eq_refl).
  - simpl in Hw. apply andb_true_iff in Hw as [Ha Hw].
    simpl append. cbn [collapse_spaces]. rewrite Ha.
    rewrite (collapse_spaces_pad _ _ Hw), (collapse_spaces_plain _ true Hu).
    apply (S (String " " "") eq_refl).
Qed.

(** ** robots.txt *)

Lemma splitlines_line (l rest : string) :
  all_chars (fun c => negb (is_linebreak c)) l = true ->
  splitlines (l ++ String "010" rest) = l :: splitlines rest.
Proof.
  induction l as [|a l IH]; intros H.
  - simpl append. cbn [splitlines].
    change (is_linebreak "010") with true. cbv iota.
    destruct rest as [|c2 r]; reflexivity.
  - simpl in H. apply andb_true_iff in H as [Ha Hl]. apply negb_true_iff in Ha.
    simpl append. cbn [splitlines]. rewrite Ha, (IH Hl). reflexivity.
Qed.

Lemma splitlines_single (l : string) :
  all_chars (fun c => negb (is_linebreak c)) l = true -> l <> "" ->
  splitlines l = [l].
Proof.
  induction l as [|a l IH]; intros H Hne; [congruence|].
  simpl in H. apply andb_true_iff in H as [Ha Hl]. apply negb_true_iff in Ha.
  cbn [splitlines]. rewrite Ha.
  destruct l as [|b l]; [reflexivity|].
  rewrite (IH Hl); [reflexivity | discriminate].
Qed.

Lemma lower_letter_plain (a : ascii) :
  is_alpha (lower_char a) = true ->
  is_space a = false /\ Ascii.eqb a ":" = false.
Proof. by_ascii_cases a. Qed.

(** A keyword that reads "sitemap" in some letter case. *)
Lemma sitemap_keyword (kw : string) :
  lower kw = "sitemap" ->
  has_char ":" kw = false
  /\ exists c mid, kw = String c mid /\ is_space c = false.
Proof.
  intros H.
  do 8 (destruct kw as [|? kw]; try discriminate H).
  injection H as H1 H2 H3 H4 H5 H6 H7.
  assert (L : forall x y, lower_char x = y -> is_alpha y = true ->
                          is_space x = false /\ Ascii.eqb x ":" = false).
  { intros x y <-. apply lower_letter_plain. }
  destruct (L _ _ H1 eq_refl) as [S1 C1]. destruct (L _ _ H2 eq_refl) as [_ C2].
  destruct (L _ _ H3 eq_refl) as [_ C3]. destruct (L _ _ H4 eq_refl) as [_ C4].
  destruct (L _ _ H5 eq_refl) as [_ C5]. destruct (L _ _ H6 eq_refl) as [_ C6].
  destruct (L _ _ H7 eq_refl) as [_ C7].
  split.
  - simpl. now rewrite C1, C2, C3, C4, C5, C6, C7.
  - eexists _, _. split; [reflexivity | exact S1].
Qed.

(** One line of robots.txt never raises; what it yields is a non-empty,
    normalised text that follows the first colon of a line whose keyword
    reads "sitemap". *)
Lemma robots_line_ok (line : string) :
  exists found,
    robots_line line = Ok found
    /\ forall u, In u found ->
         u <> "" /\ normalize_space u = u
         /\ exists kw after,
              strip line = kw ++ String ":" after /\ lower kw = "sitemap"
              /\ u = normalize_space after.
Proof.
  unfold robots_line.
  destruct (startswith "sitemap:" (lower (strip line))) eqn:S; simpl.
  2:{ exists []. split; [reflexivity | intros u []]. }
  apply startswith_iff in S as (r & S).
  change "sitemap:" with ("sitemap" ++ ":") in S. rewrite append_assoc in S.
  unfold lower in S. apply map_str_split in S as (kw & tl & E & Hkw & Htl).
  destruct (sitemap_keyword kw Hkw) as (Hcolon & _).
  destruct tl as [|c after]; [discriminate Htl|].
  simpl in Htl. injection Htl as Hc _.
  assert (c = ":"%char) as -> by (revert Hc; clear; by_ascii_cases c).
  rewrite E, (find_char_app ":" kw after Hcolon).
  destruct (normalize_space after) as [|x u'] eqn:N.
  - exists []. split; [reflexivity | intros u []].
  - exists [String x u']. split; [reflexivity|].
    intros u [<-|[]]. split; [discriminate|]. split.
    + rewrite <- N. apply normalize_space_idem.
    + exists kw, after. auto.
Qed.

Lemma robots_lines_ok (lines : list string) :
  exists out,
    robots_lines lines = Ok out
    /\ forall u, In u out ->
         u <> "" /\ normalize_space u = u
         /\ exists line kw after,
              In line lines /\ strip line = kw ++ String ":" after
              /\ lower kw = "sitemap" /\ u = normalize_space after.
Proof.
  induction lines as [|line rest (more & E & H)]; simpl.
  - exists []. split; [reflexivity | intros u []].
  - destruct (robots_line_ok line) as (found & F & Hf). rewrite F, E. simpl.
    exists (found ++ more)%list. split; [reflexivity|].
    intros u Hu. apply in_app_or in Hu as [Hu|Hu].
    + destruct (Hf u Hu) as (A & B & kw & after & C1 & C2 & C3).
      split; [exact A|]. split; [exact B|]. exists line, kw, after. auto.
    + destruct (H u Hu) as (A & B & l & kw & after & C0 & C1 & C2 & C3).
      split; [exact A|]. split; [exact B|]. exists l, kw, after. auto.
Qed.

(** X4.  [parse_robots_for_sitemaps] never raises; the addresses it returns
    are pairwise different, non-empty and normalised, and each is what
    follows the first colon of a line that starts, white space and letter
    case apart, with "sitemap:". *)
Theorem parse_robots_for_sitemaps_spec (robots_text : string) :
  exists urls,
    parse_robots_for_sitemaps robots_text = Ok urls
    /\ NoDup urls
    /\ forall u, In u urls ->
         u <> "" /\ normalize_space u = u
         /\ exists line kw after,
              In line (splitlines robots_text)
              /\ strip line = kw ++ String ":" after
              /\ lower kw = "sitemap" /\ u = normalize_space after.
Proof.
  unfold parse_robots_for_sitemaps.
  destruct (robots_lines_ok (splitlines robots_text)) as (out & E & H).
  rewrite E. simpl. exists (dedupe_keep_order out). split; [reflexivity|].
  destruct (dedupe_from_spec [] out) as [ND Hin].
  split; [exact ND|]. intros u Hu. apply Hin in Hu as (Hu & _). now apply H.
Qed.

(** X5.  A line "Sitemap: <address>", in any letter case and with padding
    anywhere around the address, yields the address. *)
Theorem parse_robots_for_sitemaps_line (pad1 kw pad2 u pad3 : string) :
  lower kw = "sitemap" ->
  all_chars is_padding pad1 = true -> all_chars is_padding pad2 = true ->
  all_chars is_padding pad3 = true ->
  u <> "" -> all_chars (fun c => negb (is_space c)) u = true ->
  parse_robots_for_sitemaps (pad1 ++ kw ++ String ":" (pad2 ++ u ++ pad3))
  = Ok [u].
Proof.
  intros Hkw H1 H2 H3 Hne Hu.
  destruct (sitemap_keyword kw Hkw) as (Hcolon & c & mid & Ekw & Ec).
  assert (P : forall w, all_chars is_padding w = true ->
                        all_chars is_space w = true
                        /\ all_chars (fun c => negb (is_linebreak c)) w = true).
  { intros w. induction w as [|a w IH]; simpl; [auto|].
    intros H. apply andb_true_iff in H as [Ha Hw]. destruct (IH Hw) as [-> ->].
    unfold is_padding in Ha. apply andb_true_iff in Ha as [-> ->]. auto. }
  destruct (P _ H1) as [S1 L1]. destruct (P _ H2) as [S2 L2].
  destruct (P _ H3) as [S3 L3].
  assert (Lu : all_chars (fun c => negb (is_linebreak c)) u = true).
  { clear - Hu. induction u as [|a u IH]; simpl in *; [reflexivity|].
    apply andb_true_iff in Hu as [Ha Hu]. rewrite (IH Hu), andb_true_r.
    revert Ha. clear. by_ascii_cases a. }
  assert (Lkw : all_chars (fun c => negb (is_linebreak c)) kw = true).
  { clear - Hkw. revert Hkw. unfold lower.
    do 8 (destruct kw as [|? kw]; try discriminate).
    intros H. injection H as H1 H2 H3 H4 H5 H6 H7.
    assert (L : forall x y, lower_char x = y -> is_alpha y = true ->
                            negb (is_linebreak x) = true).
    { intros x y <-. clear. by_ascii_cases x. }
    simpl. now rewrite (L _ _ H1), (L _ _ H2), (L _ _ H3), (L _ _ H4),
      (L _ _ H5), (L _ _ H6), (L _ _ H7). }
  set (line := pad1 ++ kw ++ String ":" (pad2 ++ u ++ pad3)).
  assert (Lline : all_chars (fun c => negb (is_linebreak c)) line = true).
  { unfold line. rewrite !all_chars_app. simpl. rewrite !all_chars_app.
    now rewrite L1, Lkw, L2, Lu, L3. }
  assert (Nline : line <> "").
  { unfold line. rewrite Ekw. destruct pad1; discriminate. }
  unfold parse_robots_for_sitemaps. rewrite (splitlines_single line Lline Nline).
  cbn [robots_lines]. unfold robots_line.
  destruct u as [|u0 u']; [congruence|].
  destruct (last_char u0 u') as (ufront & z & Eu).
  assert (Ez : is_space z = false).
  { rewrite Eu, all_chars_app in Hu. apply andb_true_iff in Hu as [_ Hz].
    simpl in Hz. rewrite andb_true_r in Hz. now apply negb_true_iff in Hz. }
  set (core := kw ++ String ":" (pad2 ++ String u0 u')).
  assert (Ecore : strip line = core).
  { unfold line.
    replace (pad1 ++ kw ++ String ":" (pad2 ++ String u0 u' ++ pad3))
      with (pad1 ++ core ++ pad3).
    2:{ unfold core. rewrite !append_assoc. simpl. now rewrite !append_assoc. }
    apply (strip_padded pad1 pad3 core c z (mid ++ String ":" (pad2 ++ String u0 u'))); auto.
    - unfold core. now rewrite Ekw.
    - exists (kw ++ String ":" (pad2 ++ ufront)). unfold core. rewrite Eu.
      rewrite !append_assoc. simpl. now rewrite !append_assoc. }
  rewrite Ecore.
  assert (Hst : startswith "sitemap:" (lower core) = true).
  { unfold core, lower. rewrite map_str_app. fold (lower kw). rewrite Hkw.
    reflexivity. }
  rewrite Hst. cbn [negb]. unfold core. rewrite (find_char_app ":" kw _ Hcolon).
  rewrite (normalize_space_padded pad2 (String u0 u') S2 Hu Hne).
  reflexivity.
Qed.

(** A line that does not start with "sitemap:" adds nothing. *)
Lemma parse_robots_for_sitemaps_skips (line rest : string) :
  all_chars (fun c => negb (is_linebreak c)) line = true ->
  startswith "sitemap:" (lower (strip line)) = false ->
  parse_robots_for_sitemaps (line ++ String "010" rest)
  = parse_robots_for_sitemaps rest.
Proof.
  intros Hl Hs. unfold parse_robots_for_sitemaps.
  rewrite (splitlines_line line rest Hl). cbn [robots_lines].
  unfold robots_line at 1. rewrite Hs. simpl.
  destruct (robots_lines (splitlines rest)); reflexivity.
Qed.

(** ** The store *)

Lemma map_key_update {A K : Type} (k : A -> K) (f : A -> A) (l : list A) :
  (forall r, k (f r) = k r) -> map k (map f l) = map k l.
Proof.
  intros H. rewrite map_map. apply map_ext. exact H.
Qed.

Lemma NoDup_snoc {K : Type} (l : list K) (x : K) :
  NoDup l -> ~ In x l -> NoDup (l ++ [x]).
Proof.
  intros Hl Hx. apply NoDup_app; auto.
  - repeat constructor. intros [].
  - intros y Hy [<-|[]]. contradiction.
Qed.

Lemma existsb_key_false {A K : Type} (k : A -> K) (test : A -> bool) (x : K)
    (l : list A) :
  (forall r, k r = x -> test r = true) ->
  existsb test l = false -> ~ In x (map k l).
Proof.
  intros Ht He Hin. apply in_map_iff in Hin as (r & Hk & Hr).
  assert (existsb test l = true) by (apply existsb_exists; exists r; auto).
  congruence.
Qed.

Lemma enqueue_sitemap_keys (db : IndexDb) (site url : string)
    (discovered_from : option string) (now : string) :
  keys_unique db -> keys_unique (enqueue_sitemap db site url discovered_from now).
Proof.
  intros (H1 & H2 & H3 & H4). unfold enqueue_sitemap.
  destruct (existsb (sitemap_key site url) (sitemaps db)) eqn:E;
    [repeat split; assumption|].
  repeat split; cbn; try assumption.
  rewrite map_app. apply NoDup_snoc; [exact H1|].
  apply (existsb_key_false _ (sitemap_key site url)); [|exact E].
  intros r [= <- <-]. unfold sitemap_key. now rewrite !String.eqb_refl.
Qed.

Lemma enqueue_url_keys (db : IndexDb) (site url url_type : string) (depth : Z)
    (discovered_from : option string) (now : string) :
  keys_unique db ->
  keys_unique (enqueue_url db site url url_type depth discovered_from now).
Proof.
  intros (H1 & H2 & H3 & H4). unfold enqueue_url.
  destruct (existsb (queue_key site url) (url_queue db)) eqn:E;
    [repeat split; assumption|].
  repeat split; cbn; try assumption.
  rewrite map_app. apply NoDup_snoc; [exact H2|].
  apply (existsb_key_false _ (queue_key site url)); [|exact E].
  intros r [= <- <-]. unfold queue_key. now rewrite !String.eqb_refl.
Qed.

Lemma set_sitemap_status_keys (db : IndexDb) (site url status : string)
    (item_count : option Z) (error : option string) (now : string) :
  keys_unique db ->
  keys_unique (set_sitemap_status db site url status item_count error now).
Proof.
  intros (H1 & H2 & H3 & H4). unfold set_sitemap_status.
  repeat split; cbn; try assumption.
  rewrite map_key_update; [exact H1|].
  intros r. destruct (sitemap_key site url r); reflexivity.
Qed.

Lemma set_url_status_keys (db : IndexDb) (site url status : string)
    (http_status : option Z) (blocked : bool) (error : option string)
    (now : string) :
  keys_unique db ->
  keys_unique (set_url_status db site url status http_status blocked error now).
Proof.
  intros (H1 & H2 & H3 & H4). unfold set_url_status.
  repeat split; cbn; try assumption.
  rewrite map_key_update; [exact H2|].
  intros r. destruct (queue_key site url r); reflexivity.
Qed.

Lemma reset_errors_keys (db : IndexDb) (site now : string) :
  keys_unique db -> keys_unique (fst (reset_errors db site now)).
Proof.
  intros (H1 & H2 & H3 & H4). unfold reset_errors.
  repeat split; cbn; try assumption.
  rewrite map_key_update; [exact H2|].
  intros r. destruct (resets site r); reflexivity.
Qed.

Lemma upsert_products_row_keys (rows : list ProductRecord) (site url : string)
    (sku title category_path : option string) (payload_json now : string) :
  NoDup (map (fun r => (p_site r, p_url r)) rows) ->
  NoDup (map (fun r => (p_site r, p_url r))
           (upsert_products_row rows site url sku title category_path
              payload_json now)).
Proof.
  intros H. unfold upsert_products_row.
  destruct (existsb (product_key site url) rows) eqn:E.
  - rewrite map_key_update; [exact H|].
    intros r. destruct (product_key site url r); reflexivity.
  - rewrite map_app. apply NoDup_snoc; [exact H|].
    apply (existsb_key_false _ (product_key site url)); [|exact E].
    intros r [= <- <-]. unfold product_key. now rewrite !String.eqb_refl.
Qed.

Lemma upsert_sku_index_row_keys (rows : list SkuIndexEntry)
    (site sku url : string) (title category_path : option string)
    (now : string) :
  NoDup (map (fun r => (x_site r, x_sku r, x_url r)) rows) ->
  NoDup (map (fun r => (x_site r, x_sku r, x_url r))
           (upsert_sku_index_row rows site sku url title category_path now)).
Proof.
  intros H. unfold upsert_sku_index_row.
  destruct (existsb (sku_key site sku url) rows) eqn:E.
  - rewrite map_key_update; [exact H|].
    intros r. destruct (sku_key site sku url r); reflexivity.
  - rewrite map_app. apply NoDup_snoc; [exact H|].
    apply (existsb_key_false _ (sku_key site sku url)); [|exact E].
    intros r [= <- <- <-]. unfold sku_key. now rewrite !String.eqb_refl.
Qed.

Lemma upsert_product_keys (db : IndexDb) (site url : string)
    (sku title category_path : option string) (payload_json now1 now2 : string) :
  keys_unique db ->
  keys_unique
    (upsert_product db site url sku title category_path payload_json now1 now2).
Proof.
  intros (H1 & H2 & H3 & H4). unfold upsert_product.
  pose proof (upsert_products_row_keys (products db) site url sku title
                category_path payload_json now1 H3) as P.
  destruct sku as [s|]; [destruct (truthy s)|];
    repeat split; cbn; try assumption.
  now apply upsert_sku_index_row_keys.
Qed.

(** X8.  Every operation of the store keeps the primary keys of the four
    tables pairwise different. *)
Theorem store_keeps_keys_unique (db : IndexDb) :
  keys_unique db ->
  (forall site url discovered_from now,
     keys_unique (enqueue_sitemap db site url discovered_from now))
  /\ (forall site url status item_count error now,
        keys_unique (set_sitemap_status db site url status item_count error now))
  /\ (forall site url url_type depth discovered_from now,
        keys_unique (enqueue_url db site url url_type depth discovered_from now))
  /\ (forall site url status http_status blocked error now,
        keys_unique (set_url_status db site url status http_status blocked
                       error now))
  /\ (forall site url sku title category_path payload_json now1 now2,
        keys_unique (upsert_product db site url sku title category_path
                       payload_json now1 now2))
  /\ (forall site now, keys_unique (fst (reset_errors db site now))).
Proof.
  intros H. repeat split; intros.
  all: first [ now apply enqueue_sitemap_keys | now apply set_sitemap_status_keys
             | now apply enqueue_url_keys | now apply set_url_status_keys
             | now apply upsert_product_keys | now apply reset_errors_keys ].
Qed.

(** ** The sitemap queue *)

Lemma sitemap_before_irrefl (a : SitemapRecord) : sitemap_before a a = false.
Proof.
  unfold sitemap_before. rewrite Z.ltb_irrefl, string_ltb_irrefl.
  now rewrite andb_false_r.
Qed.

Lemma sitemap_before_trans (a b c : SitemapRecord) :
  sitemap_before a b = true -> sitemap_before b c = true ->
  sitemap_before a c = true.
Proof.
  unfold sitemap_before. intros H1 H2.
  apply orb_true_iff in H1. apply orb_true_iff in H2. apply orb_true_iff.
  destruct H1 as [H1|H1]; destruct H2 as [H2|H2].
  - left. apply Z.ltb_lt in H1, H2. apply Z.ltb_lt. lia.
  - apply andb_true_iff in H2 as [H2 _]. apply Z.eqb_eq in H2.
    left. apply Z.ltb_lt in H1. apply Z.ltb_lt. lia.
  - apply andb_true_iff in H1 as [H1 _]. apply Z.eqb_eq in H1.
    left. apply Z.ltb_lt in H2. apply Z.ltb_lt. lia.
  - apply andb_true_iff in H1 as [H1 L1]. apply andb_true_iff in H2 as [H2 L2].
    apply Z.eqb_eq in H1, H2. right. apply andb_true_iff. split.
    + apply Z.eqb_eq. lia.
    + eapply string_ltb_trans; eauto.
Qed.

Lemma not_sitemap_before_le (a b : SitemapRecord) :
  sitemap_before a b = false -> sitemap_le b a.
Proof.
  unfold sitemap_before, sitemap_le. intros H.
  apply orb_false_iff in H as [H1 H2]. apply Z.ltb_ge in H1.
  destruct (Z.eq_dec (sm_attempts a) (sm_attempts b)) as [E|E].
  - right. split; [lia|]. rewrite E, Z.eqb_refl in H2. simpl in H2.
    now apply string_not_ltb_leb.
  - left. lia.
Qed.

(** X9.  [next_pending_sitemap] returns the address of a pending sitemap
    of the site that no other pending sitemap of the site precedes in the
    order (attempts, updated_at), and [None] exactly when the site has no
    pending sitemap. *)
Theorem next_pending_sitemap_spec (db : IndexDb) (site : string) :
  match next_pending_sitemap db site with
  | Some url =>
      exists row,
        In row (sitemaps db) /\ sm_site row = site
        /\ sm_status row = "pending" /\ sm_url row = url
        /\ forall r', In r' (sitemaps db) -> sm_site r' = site ->
                      sm_status r' = "pending" -> sitemap_le row r'
  | None =>
      forall r', In r' (sitemaps db) -> sm_site r' = site ->
                 sm_status r' <> "pending"
  end.
Proof.
  unfold next_pending_sitemap.
  set (cand := filter _ (sitemaps db)).
  assert (Hc : forall r, In r cand <->
                 In r (sitemaps db) /\ sm_site r = site /\ sm_status r = "pending").
  { intros r. unfold cand. rewrite filter_In, andb_true_iff, !String.eqb_eq. tauto. }
  pose proof (first_min_spec sitemap_before sitemap_before_irrefl
                sitemap_before_trans cand None [] eq_refl) as H.
  destruct (first_min sitemap_before None cand) as [row|].
  - destruct H as [Hin Hmin]. simpl in Hin, Hmin. apply Hc in Hin as (H1 & H2 & H3).
    exists row. repeat split; auto.
    intros r' Hr' Hs Hp. apply not_sitemap_before_le. apply Hmin. apply Hc. auto.
  - destruct H as [_ Hnil]. intros r' Hr' Hs Hp.
    assert (In r' cand) by (apply Hc; auto). rewrite Hnil in H. destruct H.
Qed.

(** ** Products and the SKU index *)

Lemma existsb_false_forall {A : Type} (test : A -> bool) (l : list A) :
  existsb test l = false -> forall r, In r l -> test r = false.
Proof.
  intros H r Hr. destruct (test r) eqn:E; [|reflexivity].
  assert (existsb test l = true) by (apply existsb_exists; eauto). congruence.
Qed.

Lemma map_id_on {A : Type} (f : A -> A) (l : list A) :
  (forall r, In r l -> f r = r) -> map f l = l.
Proof.
  induction l as [|a l IH]; intros H; simpl; [reflexivity|].
  rewrite (H a (or_introl eq_refl)), IH; [reflexivity|].
  intros r Hr. apply H. now right.
Qed.

Lemma product_key_iff (site url : string) (p : ProductRecord) :
  product_key site url p = true <-> p_site p = site /\ p_url p = url.
Proof. unfold product_key. now rewrite andb_true_iff, !String.eqb_eq. Qed.

Lemma upsert_products_row_twice (rows : list ProductRecord) (site url : string)
    (sku1 title1 category1 : option string) (payload1 now1 : string)
    (sku2 title2 category2 : option string) (payload2 now2 : string) :
  upsert_products_row
    (upsert_products_row rows site url sku1 title1 category1 payload1 now1)
    site url sku2 title2 category2 payload2 now2
  = upsert_products_row rows site url sku2 title2 category2 payload2 now2.
Proof.
  unfold upsert_products_row.
  destruct (existsb (product_key site url) rows) eqn:E.
  - assert (E' : existsb (product_key site url)
                   (map (fun r => if product_key site url r
                                  then mkProduct (p_site r) (p_url r) sku1 title1
                                         category1 payload1 now1
                                  else r) rows) = true).
    { apply existsb_exists in E as (r & Hr & Hk). apply existsb_exists.
      eexists. split; [apply in_map; exact Hr|]. rewrite Hk. exact Hk. }
    rewrite E', map_map. apply map_ext. intros r.
    destruct (product_key site url r) eqn:K; [|now rewrite K].
    unfold product_key at 1. cbn [p_site p_url]. fold (product_key site url r).
    now rewrite K.
  - rewrite existsb_app. cbn [existsb]. unfold product_key at 2. cbn [p_site p_url].
    rewrite !String.eqb_refl, orb_true_r. cbn.
    rewrite map_app. cbn [map]. unfold product_key at 2. cbn [p_site p_url].
    rewrite !String.eqb_refl. cbn.
    rewrite map_id_on; [reflexivity|].
    intros r Hr. now rewrite (existsb_false_forall _ _ E r Hr).
Qed.

Lemma upsert_sku_index_row_twice (rows : list SkuIndexEntry)
    (site sku url : string) (title1 category1 : option string) (now1 : string)
    (title2 category2 : option string) (now2 : string) :
  upsert_sku_index_row
    (upsert_sku_index_row rows site sku url title1 category1 now1)
    site sku url title2 category2 now2
  = upsert_sku_index_row rows site sku url title2 category2 now2.
Proof.
  unfold upsert_sku_index_row.
  destruct (existsb (sku_key site sku url) rows) eqn:E.
  - assert (E' : existsb (sku_key site sku url)
                   (map (fun r => if sku_key site sku url r
                                  then mkSkuIndex (x_site r) (x_sku r) (x_url r)
                                         title1 category1 now1
                                  else r) rows) = true).
    { apply existsb_exists in E as (r & Hr & Hk). apply existsb_exists.
      eexists. split; [apply in_map; exact Hr|]. rewrite Hk. exact Hk. }
    rewrite E', map_map. apply map_ext. intros r.
    destruct (sku_key site sku url r) eqn:K; [|now rewrite K].
    unfold sku_key at 1. cbn [x_site x_sku x_url]. fold (sku_key site sku url r).
    now rewrite K.
  - rewrite existsb_app. cbn [existsb]. unfold sku_key at 2.
    cbn [x_site x_sku x_url].
    rewrite !String.eqb_refl, orb_true_r. cbn.
    rewrite map_app. cbn [map]. unfold sku_key at 2. cbn [x_site x_sku x_url].
    rewrite !String.eqb_refl. cbn.
    rewrite map_id_on; [reflexivity|].
    intros r Hr. now rewrite (existsb_false_forall _ _ E r Hr).
Qed.

(** X10.  The last write wins.  Recording a product page twice under the
    same SKU leaves the store as the second recording alone would: no row
    is doubled, and title, category, payload and time are those of the
    second.  In particular recording the same data twice changes
    nothing. *)
Theorem upsert_product_last_wins (db : IndexDb) (site url : string)
    (sku : option string)
    (title1 category1 : option string) (payload1 now1 now1' : string)
    (title2 category2 : option string) (payload2 now2 now2' : string) :
  upsert_product
    (upsert_product db site url sku title1 category1 payload1 now1 now1')
    site url sku title2 category2 payload2 now2 now2'
  = upsert_product db site url sku title2 category2 payload2 now2 now2'.
Proof.
  unfold upsert_product.
  destruct sku as [s|]; [destruct (truthy s)|];
    unfold with_sku_index, with_products; cbn [products sku_index sitemaps url_queue];
    rewrite upsert_products_row_twice; try reflexivity.
  now rewrite upsert_sku_index_row_twice.
Qed.

Lemma upsert_products_row_other (rows : list ProductRecord) (site url : string)
    (sku title category_path : option string) (payload_json now : string)
    (p : ProductRecord) :
  In p (upsert_products_row rows site url sku title category_path payload_json now) ->
  product_key site url p = false -> In p rows.
Proof.
  unfold upsert_products_row.
  destruct (existsb (product_key site url) rows).
  - intros H K. apply in_map_iff in H as (r & Hr & Hin).
    destruct (product_key site url r) eqn:Kr; [|now subst].
    subst p. unfold product_key in K at 1. cbn [p_site p_url] in K.
    fold (product_key site url r) in K. congruence.
  - intros H K. apply in_app_or in H as [H|[<-|[]]]; [exact H|].
    unfold product_key in K. cbn in K. now rewrite !String.eqb_refl in K.
Qed.

(** [upsert_product] keeps the SKU index complete. *)
Lemma upsert_product_indexed (db : IndexDb) (site url : string)
    (sku title category_path : option string) (payload_json now1 now2 : string) :
  indexed db ->
  indexed (upsert_product db site url sku title category_path payload_json
             now1 now2).
Proof.
  intros Hdb p s Hp Hs Ht.
  assert (Hprod : products (upsert_product db site url sku title category_path
                              payload_json now1 now2)
                  = upsert_products_row (products db) site url sku title
                      category_path payload_json now1).
  { unfold upsert_product. destruct sku as [x|]; [destruct (truthy x)|]; reflexivity. }
  rewrite Hprod in Hp.
  destruct (product_key site url p) eqn:K.
  - apply product_key_iff in K as [Ks Ku].
    destruct (upsert_products_row_sku (products db) site url sku title
                category_path payload_json now1) as [Hsku _].
    rewrite (Hsku p Hp Ks Ku) in Hs. subst sku.
    unfold upsert_product. rewrite Ht. cbn [sku_index with_sku_index with_products].
    destruct (upsert_sku_index_row_has (sku_index db) site s url title
                category_path now2) as (e & He & E1 & E2 & E3 & _).
    exists e. rewrite Ks, Ku. auto.
  - pose proof (upsert_products_row_other _ _ _ _ _ _ _ _ _ Hp K) as Hold.
    destruct (Hdb p s Hold Hs Ht) as (e & He & E1 & E2 & E3).
    unfold upsert_product.
    destruct sku as [x|]; [destruct (truthy x)|];
      cbn [sku_index with_sku_index with_products]; try (exists e; now auto).
    destruct (upsert_sku_index_row_keeps (sku_index db) site x url title
                category_path now2 e He) as [_ (e' & He' & F1 & F2 & F3)].
    exists e'. split; [exact He'|]. rewrite F1, F2, F3. auto.
Qed.

(** ** Requeueing and the statistics *)

Lemma resets_after (site now : string) (r : QueueItem) :
  resets site
    (if resets site r
     then mkQueueItem (q_site r) (q_url r) (q_url_type r) "pending"
            (q_depth r) (q_discovered_from r) (q_attempts r)
            (q_last_http_status r) 0 None now
     else r) = false.
Proof.
  destruct (resets site r) eqn:E; [|exact E].
  unfold resets. cbn. now rewrite andb_false_r.
Qed.

(** X11.  After [reset_errors] no row of the site is left in status
    'error' or 'blocked', and a second [reset_errors] finds nothing to
    reset: it reports 0 rows and leaves the store as it is. *)
Theorem reset_errors_twice (db : IndexDb) (site now1 now2 : string) :
  let db1 := fst (reset_errors db site now1) in
  (forall r, In r (url_queue db1) -> q_site r = site ->
             q_status r <> "error" /\ q_status r <> "blocked")
  /\ reset_errors db1 site now2 = (db1, 0).
Proof.
  cbv zeta.
  assert (Hno : forall r, In r (url_queue (fst (reset_errors db site now1))) ->
                          resets site r = false).
  { unfold reset_errors. cbn. intros r Hr. apply in_map_iff in Hr as (q & <- & _).
    apply resets_after. }
  split.
  - intros r Hr Hs. specialize (Hno r Hr). unfold resets in Hno.
    rewrite Hs, String.eqb_refl in Hno. cbn in Hno.
    apply orb_false_iff in Hno as [H1 H2].
    apply String.eqb_neq in H1, H2. auto.
  - set (db1 := fst (reset_errors db site now1)) in *.
    unfold reset_errors at 1. f_equal.
    + rewrite map_id_on.
      * unfold db1, reset_errors, with_url_queue; cbn. reflexivity.
      * intros r Hr. now rewrite (Hno r Hr).
    + assert (filter (resets site) (url_queue db1) = []) as ->; [|reflexivity].
      clear - Hno. induction (url_queue db1) as [|a l IH]; [reflexivity|].
      simpl. rewrite (Hno a (or_introl eq_refl)). apply IH.
      intros r Hr. apply Hno. now right.
Qed.

Lemma filter_length_map {A : Type} (f : A -> A) (p q : A -> bool) (l : list A) :
  (forall r, In r l -> p (f r) = q r) ->
  List.length (filter p (map f l)) = List.length (filter q l).
Proof.
  induction l as [|a l IH]; intros H; simpl; [reflexivity|].
  rewrite (H a (or_introl eq_refl)).
  destruct (q a); simpl; rewrite IH; auto; intros r Hr; apply H; now right.
Qed.

Lemma filter_length_or {A : Type} (p q : A -> bool) (l : list A) :
  (forall r, In r l -> p r = true -> q r = false) ->
  List.length (filter (fun r => (p r || q r)%bool) l)
  = (List.length (filter p l) + List.length (filter q l))%nat.
Proof.
  induction l as [|a l IH]; intros H; simpl; [reflexivity|].
  assert (IH' := IH (fun r Hr => H r (or_intror Hr))).
  destruct (p a) eqn:Pa; simpl.
  - rewrite (H a (or_introl eq_refl) Pa). simpl. now rewrite IH'.
  - destruct (q a); simpl; rewrite IH'; lia.
Qed.

(** X12.  In the statistics of the queue, [reset_errors] moves the rows it
    reports from 'error' and 'blocked' to 'pending': the count of 'pending'
    grows by the number returned, the counts of 'error' and 'blocked' fall
    to 0, and every other count, of this site and of the others, stays. *)
Theorem stats_after_reset_errors (db : IndexDb) (site now : string) :
  let db' := fst (reset_errors db site now) in
  let n := snd (reset_errors db site now) in
  n = stats_url_queue (stats db site) "error"
      + stats_url_queue (stats db site) "blocked"
  /\ stats_url_queue (stats db' site) "pending"
     = stats_url_queue (stats db site) "pending" + n
  /\ stats_url_queue (stats db' site) "error" = 0
  /\ stats_url_queue (stats db' site) "blocked" = 0
  /\ (forall status, status <> "pending" -> status <> "error" ->
        status <> "blocked" ->
        stats_url_queue (stats db' site) status
        = stats_url_queue (stats db site) status)
  /\ (forall other status, other <> site ->
        stats_url_queue (stats db' other) status
        = stats_url_queue (stats db other) status)
  /\ (forall other,
        stats_sitemaps (stats db' other) = stats_sitemaps (stats db other)
        /\ stats_products_with_sku (stats db' other)
           = stats_products_with_sku (stats db other)
        /\ stats_distinct_skus (stats db' other)
           = stats_distinct_skus (stats db other)).
Proof.
  cbv zeta. unfold stats, reset_errors, group_count. cbn.
  set (upd := fun r => if resets site r then _ else r).
  assert (Hsite : forall r, q_site (upd r) = q_site r)
    by (intros r; unfold upd; destruct (resets site r); reflexivity).
  assert (Hst : forall r, resets site r = false -> upd r = r)
    by (intros r H; unfold upd; now rewrite H).
  assert (Hres : forall r, resets site r = true ->
                           q_status (upd r) = "pending")
    by (intros r H; unfold upd; now rewrite H).
  assert (Hsplit : List.length (filter (resets site) (url_queue db))
                   = (List.length
                        (filter (fun r => (String.eqb (q_site r) site
                                           && String.eqb (q_status r) "error")%bool)
                                (url_queue db))
                      + List.length
                          (filter (fun r => (String.eqb (q_site r) site
                                             && String.eqb (q_status r) "blocked")%bool)
                                  (url_queue db)))%nat).
  { rewrite <- filter_length_or.
    - f_equal. apply filter_ext. intros r. unfold resets.
      destruct (String.eqb (q_site r) site); reflexivity.
    - intros r _ H. apply andb_true_iff in H as [_ H]. apply String.eqb_eq in H.
      rewrite H. now rewrite andb_false_r. }
  split; [rewrite Hsplit; lia|].
  split.
  { rewrite (filter_length_map upd _
               (fun r => ((String.eqb (q_site r) site
                           && String.eqb (q_status r) "pending")
                          || resets site r)%bool)).
    - rewrite filter_length_or; [lia|].
      intros r _ H. apply andb_true_iff in H as [_ H]. apply String.eqb_eq in H.
      unfold resets. rewrite H. now rewrite andb_false_r.
    - intros r _. rewrite Hsite. destruct (resets site r) eqn:E.
      + rewrite (Hres r E). unfold resets in E. apply andb_true_iff in E as [-> _].
        now rewrite orb_true_r.
      + rewrite (Hst r E). now rewrite orb_false_r. }
  assert (Hzero : forall status, status = "error" \/ status = "blocked" ->
            List.length
              (filter (fun r => (String.eqb (q_site r) site
                                 && String.eqb (q_status r) status)%bool)
                      (map upd (url_queue db))) = 0%nat).
  { intros status Hs. rewrite (filter_length_map upd _ (fun _ => false)).
    - clear. induction (url_queue db); simpl; auto.
    - intros r _. rewrite Hsite. destruct (resets site r) eqn:E.
      + rewrite (Hres r E). destruct Hs as [-> | ->]; now rewrite andb_false_r.
      + rewrite (Hst r E). unfold resets in E.
        destruct (String.eqb (q_site r) site); [|reflexivity]. cbn in *.
        apply orb_false_iff in E as [E1 E2]. destruct Hs as [-> | ->]; assumption. }
  split; [rewrite Hzero; auto|]. split; [rewrite Hzero; auto|].
  split; [|split].
  - intros status H1 H2 H3. f_equal. apply filter_length_map.
    intros r _. rewrite Hsite. destruct (resets site r) eqn:E.
    + rewrite (Hres r E). unfold resets in E. apply andb_true_iff in E as [_ E].
      assert (String.eqb "pending" status = false) as ->
        by (apply String.eqb_neq; congruence).
      rewrite andb_false_r.
      apply orb_true_iff in E as [E|E]; apply String.eqb_eq in E; rewrite E;
        symmetry; apply andb_false_iff; right; apply String.eqb_neq; congruence.
    + now rewrite (Hst r E).
  - intros other status Ho. f_equal. apply filter_length_map.
    intros r _. rewrite Hsite. destruct (resets site r) eqn:E.
    + unfold resets in E. apply andb_true_iff in E as [E _].
      apply String.eqb_eq in E. rewrite E.
      assert (String.eqb site other = false) as -> by (apply String.eqb_neq; congruence).
      reflexivity.
    + now rewrite (Hst r E).
  - auto.
Qed.

(** X13.  Two status updates of the same address compose: both are counted
    in [attempts]; status, block flag, error text and time are those of
    the second; the HTTP status is that of the second when it gives one,
    else that of the first when it gives one, else the one stored before
    ([COALESCE]). *)
Theorem set_url_status_twice (db : IndexDb) (site url : string)
    (status1 status2 : string) (http1 http2 : option Z) (blocked1 blocked2 : bool)
    (error1 error2 : option string) (now1 now2 : string) (i : nat)
    (r : QueueItem) :
  nth_error (url_queue db) i = Some r ->
  let db2 :=
    set_url_status
      (set_url_status db site url status1 http1 blocked1 error1 now1)
      site url status2 http2 blocked2 error2 now2 in
  (q_site r = site /\ q_url r = url ->
   nth_error (url_queue db2) i
   = Some (mkQueueItem (q_site r) (q_url r) (q_url_type r) status2 (q_depth r)
             (q_discovered_from r) (q_attempts r + 2)
             (coalesce http2 (coalesce http1 (q_last_http_status r)))
             (if blocked2 then 1 else 0) error2 now2))
  /\ (~ (q_site r = site /\ q_url r = url) ->
      nth_error (url_queue db2) i = Some r)
  /\ List.length (url_queue db2) = List.length (url_queue db)
  /\ sitemaps db2 = sitemaps db /\ products db2 = products db
  /\ sku_index db2 = sku_index db.
Proof.
  intros Hi. cbv zeta. unfold set_url_status. cbn.
  rewrite map_map, !length_map.
  split; [|split; [|auto]].
  - intros [Hs Hu]. rewrite nth_error_map, Hi. cbn.
    assert (K : queue_key site url r = true)
      by (unfold queue_key; rewrite Hs, Hu, !String.eqb_refl; reflexivity).
    rewrite K. unfold queue_key at 1. cbn. rewrite Hs, Hu, !String.eqb_refl. cbn.
    do 2 f_equal. lia.
  - intros Hn. rewrite nth_error_map, Hi. cbn.
    assert (K : queue_key site url r = false).
    { unfold queue_key. apply andb_false_iff.
      destruct (String.eqb (q_site r) site) eqn:E1; [|now left].
      destruct (String.eqb (q_url r) url) eqn:E2; [|now right].
      apply String.eqb_eq in E1, E2. tauto. }
    rewrite K. now rewrite K.
Qed.

(** ** Error texts *)

Lemma single_spaced_chars (s : string) :
  forall b, single_spaced b s = true ->
  forall c, has_char c s = true -> is_space c = true -> c = " "%char.
Proof.
  induction s as [|a s IH]; intros b H c Hc Hs; simpl in *; [discriminate|].
  destruct (is_space a) eqn:Ea.
  - apply andb_true_iff in H as [H Hrest]. apply andb_true_iff in H as [Ha _].
    apply Ascii.eqb_eq in Ha. apply orb_true_iff in Hc as [Hc|Hc].
    + apply Ascii.eqb_eq in Hc. congruence.
    + eapply IH; eauto.
  - apply orb_true_iff in Hc as [Hc|Hc].
    + apply Ascii.eqb_eq in Hc. congruence.
    + eapply IH; eauto.
Qed.

Lemma single_spaced_no_double (s : string) :
  forall b, single_spaced b s = true -> contains "  " s = false.
Proof.
  induction s as [|a s IH]; intros b H; [reflexivity|].
  cbn [contains]. apply orb_false_iff. split.
  - destruct (startswith "  " (String a s)) eqn:S; [|reflexivity].
    apply startswith_iff in S as (r & S). simpl in S. injection S as -> ->.
    cbn in H. destruct b; cbn in H; discriminate H.
  - simpl in H. destruct (is_space a); [|now apply (IH false)].
    apply andb_true_iff in H as [_ Hrest]. now apply (IH true).
Qed.

Lemma single_spaced_prefix (n : nat) (s : string) :
  forall b, single_spaced b s = true -> single_spaced b (substring 0 n s) = true.
Proof.
  revert s. induction n as [|n IH]; intros s b H.
  - destruct s; reflexivity.
  - destruct s as [|a s]; [reflexivity|]. simpl in *.
    destruct (is_space a).
    + apply andb_true_iff in H as [H Hrest]. rewrite H. now apply IH.
    + now apply IH.
Qed.

Lemma substring_length_le (n : nat) (s : string) :
  (String.length (substring 0 n s) <= n)%nat.
Proof.
  revert s. induction n as [|n IH]; intros s.
  - destruct s; simpl; lia.
  - destruct s as [|a s]; simpl; [lia|]. specialize (IH s). lia.
Qed.

Lemma substring_all (n : nat) (s : string) :
  (String.length s <= n)%nat -> substring 0 n s = s.
Proof.
  revert s. induction n as [|n IH]; intros s H.
  - destruct s; simpl in *; [reflexivity | lia].
  - destruct s as [|a s]; [reflexivity|]. simpl in *. rewrite IH; [reflexivity | lia].
Qed.

Lemma normalize_space_head (s : string) :
  startswith " " (normalize_space s) = false.
Proof.
  unfold normalize_space, strip.
  pose proof (lstrip_head (collapse_spaces false s)) as H.
  destruct (lstrip_by is_space (collapse_spaces false s)) as [|c r]; [reflexivity|].
  destruct (rstrip_head c r H) as (t & ->). cbn [startswith].
  destruct (Ascii.eqb " " c) eqn:E; [|reflexivity].
  apply Ascii.eqb_eq in E. subst c. discriminate.
Qed.

(** X14.  The text [safe_exc] makes of an exception has at most 1200
    characters, is one line whose only white space is single blanks, does
    not start with a blank, and is the normalised message itself when that
    is short enough. *)
Theorem safe_exc_spec (e : exn) :
  (String.length (safe_exc e) <= 1200)%nat
  /\ (forall c, has_char c (safe_exc e) = true -> is_space c = true ->
                c = " "%char)
  /\ contains "  " (safe_exc e) = false
  /\ startswith " " (safe_exc e) = false
  /\ ((String.length (normalize_space (exn_text e)) <= 1200)%nat ->
      safe_exc e = normalize_space (exn_text e)).
Proof.
  unfold safe_exc.
  pose proof (single_spaced_prefix 1200 _ false
                (normalize_space_single (exn_text e))) as H.
  split; [apply substring_length_le|].
  split; [exact (single_spaced_chars _ false H)|].
  split; [exact (single_spaced_no_double _ false H)|].
  split.
  - pose proof (normalize_space_head (exn_text e)) as Hh.
    destruct (normalize_space (exn_text e)) as [|c r]; [reflexivity|]. exact Hh.
  - apply substring_all.
Qed.

(** ** Deduplication and the article list *)

Lemma dedupe_from_clean (l : list string) :
  forall seen, NoDup l -> ~ In "" l -> (forall x, In x l -> ~ In x seen) ->
               dedupe_from seen l = l.
Proof.
  induction l as [|v rest IH]; intros seen Hnd Hne Hseen; [reflexivity|].
  cbn [dedupe_from].
  assert (Tv : truthy v = true).
  { destruct v; [|reflexivity]. exfalso. apply Hne. now left. }
  rewrite Tv. cbn [negb].
  assert (Mv : mem_str v seen = false).
  { destruct (mem_str v seen) eqn:M; [|reflexivity].
    apply mem_str_iff in M. exfalso. apply (Hseen v); [now left | exact M]. }
  rewrite Mv. f_equal. inversion Hnd as [|? ? Hv Hrest]; subst.
  apply IH; [exact Hrest | intros H; apply Hne; now right |].
  intros x Hx [<-|Hin]; [contradiction|]. apply (Hseen x); [now right | exact Hin].
Qed.

(** X15.  [dedupe_keep_order] returns, without repetition, exactly the
    non-empty values it is given; a list that has no empty value and no
    repetition comes back as it is, order included, so that deduplicating
    twice is deduplicating once. *)
Theorem dedupe_keep_order_spec (values : list string) :
  NoDup (dedupe_keep_order values)
  /\ (forall x, In x (dedupe_keep_order values) <-> In x values /\ x <> "")
  /\ (NoDup values -> ~ In "" values -> dedupe_keep_order values = values)
  /\ dedupe_keep_order (dedupe_keep_order values) = dedupe_keep_order values.
Proof.
  unfold dedupe_keep_order.
  destruct (dedupe_from_spec [] values) as [Hnd Hin].
  assert (Hclean : forall l, NoDup l -> ~ In "" l -> dedupe_from [] l = l)
    by (intros l H1 H2; apply dedupe_from_clean; auto).
  split; [exact Hnd|]. split; [|split].
  - intros x. rewrite Hin. simpl. tauto.
  - apply Hclean.
  - apply Hclean; [exact Hnd|]. intros H. apply Hin in H. tauto.
Qed.

Lemma upper_char_space (c : ascii) : is_space (upper_char c) = is_space c.
Proof. by_ascii_cases c. Qed.

Lemma upper_char_idem (c : ascii) : upper_char (upper_char c) = upper_char c.
Proof. by_ascii_cases c. Qed.

Lemma upper_idem (s : string) : upper (upper s) = upper s.
Proof.
  unfold upper. induction s as [|c s IH]; simpl; [reflexivity|].
  now rewrite upper_char_idem, IH.
Qed.

Lemma collapse_spaces_upper (s : string) :
  forall b, collapse_spaces b (upper s) = upper (collapse_spaces b s).
Proof.
  unfold upper. induction s as [|a s IH]; intros b; simpl; [reflexivity|].
  rewrite upper_char_space. destruct (is_space a).
  - destruct b; simpl; now rewrite IH.
  - simpl. now rewrite IH.
Qed.

Lemma lstrip_upper (s : string) :
  lstrip_by is_space (upper s) = upper (lstrip_by is_space s).
Proof.
  unfold upper. induction s as [|a s IH]; simpl; [reflexivity|].
  rewrite upper_char_space. destruct (is_space a); [exact IH | reflexivity].
Qed.

Lemma rstrip_upper (s : string) : rstrip (upper s) = upper (rstrip s).
Proof.
  unfold upper. induction s as [|a s IH]; [reflexivity|].
  cbn [map_str]. rewrite !rstrip_cons, IH, upper_char_space.
  destruct (rstrip s); simpl; [destruct (is_space a)|]; reflexivity.
Qed.

Lemma normalize_space_upper (s : string) :
  normalize_space (upper s) = upper (normalize_space s).
Proof.
  unfold normalize_space, strip.
  now rewrite collapse_spaces_upper, lstrip_upper, rstrip_upper.
Qed.

(** An article as [clean_articles] leaves it. *)
Lemma cleaned_fixed (raw : string) :
  let a := upper (normalize_space raw) in
  normalize_space a = a /\ upper a = a.
Proof.
  cbv zeta. split.
  - now rewrite normalize_space_upper, normalize_space_idem.
  - apply upper_idem.
Qed.

Lemma clean_articles_idem (articles : list string) :
  clean_articles (clean_articles articles) = clean_articles articles.
Proof.
  destruct (clean_articles_spec articles) as [Hnd Hin].
  set (l := clean_articles articles) in *.
  assert (Hfix : forall a, In a l -> a <> "" /\ normalize_space a = a /\ upper a = a).
  { intros a Ha. apply Hin in Ha as (raw & _ & Hne & ->).
    destruct (cleaned_fixed raw) as [H1 H2]. split; [|auto].
    intros E. assert (T : truthy (upper (normalize_space raw)) = false) by now rewrite E.
    rewrite upper_truthy in T. destruct (normalize_space raw); [congruence | discriminate]. }
  unfold clean_articles at 1.
  assert (F : filter (fun a => truthy (normalize_space a)) l = l).
  { clear - Hfix. induction l as [|a l IH]; [reflexivity|]. simpl.
    destruct (Hfix a (or_introl eq_refl)) as (H1 & H2 & _). rewrite H2.
    destruct a; [congruence|]. simpl. f_equal. apply IH.
    intros x Hx. apply Hfix. now right. }
  rewrite F.
  assert (M : map (fun a => upper (normalize_space a)) l = l).
  { apply map_id_on. intros a Ha. destruct (Hfix a Ha) as (_ & H2 & H3).
    now rewrite H2. }
  rewrite M.
  unfold dedupe_keep_order. apply dedupe_from_clean; [exact Hnd | | auto].
  intros H. now destruct (Hfix "" H) as [H0 _].
Qed.

(** Cleaning an article list twice is cleaning it once, so that
    [match_articles] gives for a list cleaned beforehand what it gives for
    the raw list. *)
Lemma match_articles_cleaned (db : IndexDb) (articles : list string) :
  clean_articles (clean_articles articles) = clean_articles articles
  /\ match_articles db (clean_articles articles) = match_articles db articles.
Proof.
  split; [apply clean_articles_idem|].
  unfold match_articles. now rewrite clean_articles_idem.
Qed.

Lemma split_on_no_sep (sep : ascii) (s : string) :
  forall f, In f (split_on sep s) -> has_char sep f = false.
Proof.
  induction s as [|c s IH]; intros f Hf; simpl in Hf.
  - destruct Hf as [<-|[]]. reflexivity.
  - destruct (Ascii.eqb c sep) eqn:E.
    + destruct Hf as [<-|Hf]; [reflexivity | now apply IH].
    + destruct (split_on sep s) as [|field rest].
      * destruct Hf as [<-|[]]. simpl. now rewrite E.
      * destruct Hf as [<-|Hf].
        -- simpl. rewrite E. apply IH. now left.
        -- apply IH. now right.
Qed.

Lemma has_char_collapse (c : ascii) (s : string) :
  forall b, has_char c (collapse_spaces b s) = true ->
            c = " "%char \/ has_char c s = true.
Proof.
  induction s as [|a s IH]; intros b H; cbn [collapse_spaces has_char] in *;
    [discriminate|].
  destruct (is_space a).
  - destruct b.
    + destruct (IH _ H) as [? | ->]; [now left | right; apply orb_true_r].
    + cbn [has_char] in H. apply orb_true_iff in H as [H|H].
      * apply Ascii.eqb_eq in H. now left.
      * destruct (IH _ H) as [? | ->]; [now left | right; apply orb_true_r].
  - cbn [has_char] in H. apply orb_true_iff in H as [H|H].
    + right. now rewrite H.
    + destruct (IH _ H) as [? | ->]; [now left | right; apply orb_true_r].
Qed.

Lemma has_char_lstrip (c : ascii) (s : string) :
  has_char c (lstrip_by is_space s) = true -> has_char c s = true.
Proof.
  induction s as [|a s IH]; simpl; [discriminate|].
  destruct (is_space a); [|simpl; tauto].
  intros H. rewrite (IH H). apply orb_true_r.
Qed.

Lemma has_char_rstrip (c : ascii) (s : string) :
  has_char c (rstrip s) = true -> has_char c s = true.
Proof.
  induction s as [|a s IH]; [discriminate|].
  rewrite rstrip_cons. destruct (rstrip s) as [|x t].
  - destruct (is_space a); [discriminate|]. simpl. rewrite orb_false_r.
    intros ->. reflexivity.
  - cbn [has_char]. intros H. apply orb_true_iff in H as [H|H].
    + now rewrite H.
    + rewrite (IH H). apply orb_true_r.
Qed.

Lemma has_char_normalize (c : ascii) (s : string) :
  has_char c (normalize_space s) = true ->
  c = " "%char \/ has_char c s = true.
Proof.
  unfold normalize_space, strip. intros H.
  apply has_char_rstrip, has_char_lstrip in H.
  eapply has_char_collapse; eauto.
Qed.

Lemma has_char_upper_comma (s : string) :
  has_char "," (upper s) = has_char "," s.
Proof.
  unfold upper. induction s as [|a s IH]; simpl; [reflexivity|].
  rewrite IH. f_equal. clear. by_ascii_cases a.
Qed.

(** X16.  The articles read from [--articles] are pairwise different,
    non-empty, in upper case and normalised, and hold no comma; each is
    the upper-cased, normalised text of a field between two commas.
    [match_articles] takes them as they are. *)
Theorem cli_articles_spec (articles : string) :
  NoDup (cli_articles articles)
  /\ (forall a, In a (cli_articles articles) <->
        exists field, In field (split_on "," articles)
                      /\ normalize_space field <> ""
                      /\ a = upper (normalize_space field))
  /\ (forall a, In a (cli_articles articles) ->
        a <> "" /\ has_char "," a = false
        /\ normalize_space a = a /\ upper a = a)
  /\ clean_articles (cli_articles articles) = cli_articles articles.
Proof.
  change (cli_articles articles) with (clean_articles (split_on "," articles)).
  destruct (clean_articles_spec (split_on "," articles)) as [Hnd Hin].
  split; [exact Hnd|]. split; [exact Hin|]. split; [|apply clean_articles_idem].
  intros a Ha. apply Hin in Ha as (field & Hf & Hne & ->).
  destruct (cleaned_fixed field) as [H1 H2].
  split; [|split; [|auto]].
  - intros E. assert (T : truthy (upper (normalize_space field)) = false) by now rewrite E.
    rewrite upper_truthy in T. destruct (normalize_space field); [congruence | discriminate].
  - rewrite has_char_upper_comma.
    destruct (has_char "," (normalize_space field)) eqn:E; [|reflexivity].
    apply has_char_normalize in E as [E|E]; [discriminate|].
    now rewrite (split_on_no_sep "," articles field Hf) in E.
Qed.

Lemma filter_none {A : Type} (p : A -> bool) (l : list A) :
  existsb p l = false -> filter p l = [].
Proof.
  induction l as [|a l IH]; simpl; [reflexivity|].
  intros H. apply orb_false_iff in H as [-> H]. auto.
Qed.

Lemma select_by_sku_nil (db : IndexDb) (a : string) :
  select_by_sku db a = []
  <-> existsb (fun r => String.eqb (x_sku r) a) (sku_index db) = false.
Proof.
  unfold select_by_sku.
  pose proof (sort_desc_perm
                (filter (fun r => String.eqb (x_sku r) a) (sku_index db))) as P.
  split.
  - intros E. rewrite E in P. apply Permutation_sym, Permutation_nil in P.
    destruct (existsb _ (sku_index db)) eqn:X; [|reflexivity].
    apply existsb_exists in X as (r & Hr & Hk).
    assert (In r (filter (fun r => String.eqb (x_sku r) a) (sku_index db)))
      by (apply filter_In; auto).
    rewrite P in H. destruct H.
  - intros X.
    assert (F : filter (fun r => String.eqb (x_sku r) a) (sku_index db) = []).
    { now apply filter_none. }
    rewrite F. reflexivity.
Qed.

Lemma filter_length_split {A : Type} (p : A -> bool) (l : list A) :
  (List.length (filter p l) + List.length (filter (fun x => negb (p x)) l)
   = List.length l)%nat.
Proof.
  induction l as [|a l IH]; simpl; [reflexivity|].
  destruct (p a); simpl; lia.
Qed.

(** X17.  In the summary of a match, [missing_articles] counts the cleaned
    articles that no row of the SKU index carries, [found_articles] those
    that some row carries, and the two add up to [total_articles]. *)
Theorem match_summary_spec (db : IndexDb) (articles : list string) :
  let s := match_summary db articles in
  let in_index a := existsb (fun r => String.eqb (x_sku r) a) (sku_index db) in
  total_articles s = Z.of_nat (List.length (clean_articles articles))
  /\ found_articles s
     = Z.of_nat (List.length (filter in_index (clean_articles articles)))
  /\ missing_articles s
     = Z.of_nat (List.length (filter (fun a => negb (in_index a))
                                (clean_articles articles)))
  /\ found_articles s + missing_articles s = total_articles s
  /\ missing_articles s = Z.of_nat (List.length (snd (match_articles db articles))).
Proof.
  cbv zeta. unfold match_summary, match_articles. cbn.
  rewrite match_loop_closed_form. cbn [snd].
  set (cleaned := clean_articles articles).
  assert (E : filter (fun a => match select_by_sku db a with
                               | [] => true | _ => false end) cleaned
              = filter (fun a => negb (existsb (fun r => String.eqb (x_sku r) a)
                                         (sku_index db))) cleaned).
  { apply filter_ext. intros a.
    destruct (existsb _ (sku_index db)) eqn:X.
    - destruct (select_by_sku db a) eqn:S; [|reflexivity].
      apply select_by_sku_nil in S. congruence.
    - apply select_by_sku_nil in X. now rewrite X. }
  rewrite E.
  pose proof (filter_length_split
                (fun a => existsb (fun r => String.eqb (x_sku r) a) (sku_index db))
                cleaned) as L.
  repeat split; lia.
Qed.

Section Client.

Variable env : Environment.

(** ** The HTTP client *)

Lemma get_bytes_from_decisive (retries : Z) (url : string) (k : Z) (n : nat) :
  forall (attempt : Z) (remaining : nat) (last_error : option string),
    k = attempt + Z.of_nat n ->
    retries = attempt + Z.of_nat remaining - 1 ->
    k <= retries ->
    (forall j, attempt <= j < k -> transient (env_opener_open env url j) = true) ->
    (k = retries \/ transient (env_opener_open env url k) = false) ->
    get_bytes_from env retries url remaining attempt last_error
    = (outcome url (env_opener_open env url k), backoff_run attempt n).
Proof.
  induction n as [|n IH]; intros attempt remaining last_error Hk Hr Hle Hbefore Hlast.
  - assert (Ek : k = attempt) by (simpl in Hk; lia). clear Hk. subst k.
    destruct remaining as [|remaining]; [lia|]. cbn [get_bytes_from backoff_run].
    destruct (env_opener_open env url attempt) as [raw hs|c t|t|t] eqn:E;
      cbn [outcome]; try reflexivity.
    + destruct Hlast as [->|H]; [|discriminate]. now rewrite Z.leb_refl.
    + destruct Hlast as [->|H]; [|discriminate]. now rewrite Z.leb_refl.
  - destruct remaining as [|remaining]; [lia|]. cbn [get_bytes_from backoff_run].
    assert (Ht : transient (env_opener_open env url attempt) = true)
      by (apply Hbefore; lia).
    assert (El : (retries <=? attempt) = false) by (apply Z.leb_gt; lia).
    specialize (IH (attempt + 1) remaining).
    destruct (env_opener_open env url attempt) as [raw hs|c t|t|t] eqn:E;
      try discriminate; rewrite El;
      rewrite (IH (Some t)); try reflexivity; try lia; auto;
      intros j Hj; apply Hbefore; lia.
Qed.

(** X6.  [get_bytes] tries again, after a sleep of 1.2 x j seconds, every
    attempt j that fails with an HTTP or a network error and is not the
    last of its [retries]; the first attempt k that is the last or ends
    otherwise decides: a response is returned with its header names in
    lower case, an HTTP error is raised as such, a network error as a
    [RuntimeError] that quotes it, anything else as it is. *)
Theorem get_bytes_spec (retries : Z) (url : string) (k : Z) :
  1 <= k <= retries ->
  (forall j, 1 <= j < k -> transient (env_opener_open env url j) = true) ->
  (k = retries \/ transient (env_opener_open env url k) = false) ->
  get_bytes env retries url
  = (outcome url (env_opener_open env url k),
     backoff_run 1 (Z.to_nat (k - 1))).
Proof.
  intros Hk Hbefore Hlast. unfold get_bytes.
  apply get_bytes_from_decisive; auto; lia.
Qed.

Lemma get_bytes_from_sleeps (retries : Z) (url : string) (remaining : nat) :
  forall (attempt : Z) (last_error : option string),
    retries = attempt + Z.of_nat remaining - 1 ->
    exists n, snd (get_bytes_from env retries url remaining attempt last_error)
              = backoff_run attempt n
              /\ (n < remaining \/ n = 0)%nat.
Proof.
  induction remaining as [|m IH]; intros attempt last_error Hr.
  - exists 0%nat. simpl. auto.
  - cbn [get_bytes_from].
    assert (Hrec : forall t, (retries <=? attempt) = false ->
              exists n,
                snd (let '(r, sleeps) :=
                       get_bytes_from env retries url m (attempt + 1) (Some t) in
                     (r, Backoff attempt :: sleeps))
                = backoff_run attempt n /\ (n < S m \/ n = 0)%nat).
    { intros t El. apply Z.leb_gt in El.
      destruct (IH (attempt + 1) (Some t) ltac:(lia)) as (n & Hn & Hb).
      destruct (get_bytes_from env retries url m (attempt + 1) (Some t)) as [r sl].
      cbn [fst snd] in *. exists (S n). subst sl. split; [reflexivity|]. lia. }
    destruct (env_opener_open env url attempt) as [raw hs|c t|t|t] eqn:E.
    + exists 0%nat. simpl. split; [reflexivity | lia].
    + destruct (retries <=? attempt) eqn:El; [|now apply Hrec].
      exists 0%nat. simpl. split; [reflexivity | lia].
    + destruct (retries <=? attempt) eqn:El; [|now apply Hrec].
      exists 0%nat. simpl. split; [reflexivity | lia].
    + exists 0%nat. simpl. split; [reflexivity | lia].
Qed.

(** X7.  Whatever the network does, [get_bytes] sleeps 1.2 x 1, 1.2 x 2,
    ... seconds in this order, at most [retries - 1] times, and never after
    its last attempt; with [retries <= 0] it makes no request at all and
    raises a [RuntimeError] that quotes no error. *)
Theorem get_bytes_sleeps (retries : Z) (url : string) :
  (exists n, snd (get_bytes env retries url) = backoff_run 1 n
             /\ Z.of_nat n <= Z.max (retries - 1) 0)
  /\ (retries <= 0 ->
      get_bytes env retries url = (Raise (http_failed url None), [])).
Proof.
  split.
  - unfold get_bytes. destruct (Z.le_gt_cases retries 0) as [H|H].
    + replace (Z.to_nat retries) with 0%nat by lia.
      exists 0%nat. split; [reflexivity | lia].
    + destruct (get_bytes_from_sleeps retries url (Z.to_nat retries) 1 None)
        as (n & Hn & Hb); [lia|].
      exists n. split; [exact Hn | lia].
  - intros H. unfold get_bytes. replace (Z.to_nat retries) with 0%nat by lia.
    reflexivity.
Qed.





End Client.

(** ** What the operations of one site leave alone *)

Lemma filter_app_out {A : Type} (p : A -> bool) (l : list A) (x : A) :
  p x = false -> filter p (l ++ [x]) = filter p l.
Proof.
  intros H. rewrite filter_app. simpl. rewrite H. apply app_nil_r.
Qed.

Lemma filter_map_same {A : Type} (p : A -> bool) (f : A -> A) (l : list A) :
  (forall r, p (f r) = p r) -> (forall r, p r = true -> f r = r) ->
  filter p (map f l) = filter p l.
Proof.
  intros H1 H2. induction l as [|a l IH]; simpl; [reflexivity|].
  rewrite H1. destruct (p a) eqn:E; [rewrite (H2 a E)|]; now rewrite IH.
Qed.

Lemma other_sites_enqueue_sitemap (site : string) (db : IndexDb) (url : string)
    (discovered_from : option string) (now : string) :
  other_sites site (enqueue_sitemap db site url discovered_from now)
  = other_sites site db.
Proof.
  unfold enqueue_sitemap. destruct (existsb _ _); [reflexivity|].
  unfold other_sites; cbn. rewrite filter_app_out; [reflexivity|].
  cbn. now rewrite String.eqb_refl.
Qed.

Lemma other_sites_enqueue_url (site : string) (db : IndexDb) (url url_type : string)
    (depth : Z) (discovered_from : option string) (now : string) :
  other_sites site (enqueue_url db site url url_type depth discovered_from now)
  = other_sites site db.
Proof.
  unfold enqueue_url. destruct (existsb _ _); [reflexivity|].
  unfold other_sites; cbn. rewrite filter_app_out; [reflexivity|].
  cbn. now rewrite String.eqb_refl.
Qed.

Lemma other_sites_set_sitemap_status (site : string) (db : IndexDb)
    (url status : string) (item_count : option Z) (error : option string)
    (now : string) :
  other_sites site (set_sitemap_status db site url status item_count error now)
  = other_sites site db.
Proof.
  unfold other_sites, set_sitemap_status; cbn. f_equal.
  apply filter_map_same.
  - intros r. destruct (sitemap_key site url r); reflexivity.
  - intros r H. unfold sitemap_key. apply negb_true_iff in H. now rewrite H.
Qed.

Lemma other_sites_set_url_status (site : string) (db : IndexDb)
    (url status : string) (http_status : option Z) (blocked : bool)
    (error : option string) (now : string) :
  other_sites site
    (set_url_status db site url status http_status blocked error now)
  = other_sites site db.
Proof.
  unfold other_sites, set_url_status; cbn. f_equal.
  apply filter_map_same.
  - intros r. destruct (queue_key site url r); reflexivity.
  - intros r H. unfold queue_key. apply negb_true_iff in H. now rewrite H.
Qed.

Lemma other_sites_upsert_product (site : string) (db : IndexDb) (url : string)
    (sku title category_path : option string) (payload_json now1 now2 : string) :
  other_sites site
    (upsert_product db site url sku title category_path payload_json now1 now2)
  = other_sites site db.
Proof.
  assert (P : filter (fun r => negb (String.eqb (p_site r) site))
                (upsert_products_row (products db) site url sku title
                   category_path payload_json now1)
              = filter (fun r => negb (String.eqb (p_site r) site)) (products db)).
  { unfold upsert_products_row. destruct (existsb _ _).
    - apply filter_map_same.
      + intros r. destruct (product_key site url r); reflexivity.
      + intros r H. unfold product_key. apply negb_true_iff in H. now rewrite H.
    - apply filter_app_out. cbn. now rewrite String.eqb_refl. }
  assert (X : forall s,
            filter (fun r => negb (String.eqb (x_site r) site))
              (upsert_sku_index_row (sku_index db) site s url title
                 category_path now2)
            = filter (fun r => negb (String.eqb (x_site r) site)) (sku_index db)).
  { intros s. unfold upsert_sku_index_row. destruct (existsb _ _).
    - apply filter_map_same.
      + intros r. destruct (sku_key site s url r); reflexivity.
      + intros r H. unfold sku_key. apply negb_true_iff in H. now rewrite H.
    - apply filter_app_out. cbn. now rewrite String.eqb_refl. }
  unfold upsert_product, other_sites.
  destruct sku as [s|]; [destruct (truthy s)|]; cbn; rewrite P; try reflexivity.
  now rewrite X.
Qed.

Lemma other_sites_reset_errors (site : string) (db : IndexDb) (now : string) :
  other_sites site (fst (reset_errors db site now)) = other_sites site db.
Proof.
  unfold other_sites, reset_errors; cbn. f_equal.
  apply filter_map_same.
  - intros r. destruct (resets site r); reflexivity.
  - intros r H. unfold resets. apply negb_true_iff in H. now rewrite H.
Qed.

Lemma site_ops_trans (site : string) (a b c : IndexDb) :
  site_ops site a b -> site_ops site b c -> site_ops site a c.
Proof.
  intros Hab Hbc. induction Hbc; [exact Hab | | | | | |]; now constructor.
Qed.

Lemma site_ops_other_sites (site : string) (db db' : IndexDb) :
  site_ops site db db' -> other_sites site db' = other_sites site db.
Proof.
  induction 1;
    [reflexivity | | | | | |]; rewrite <- IHsite_ops.
  - apply other_sites_enqueue_sitemap.
  - apply other_sites_set_sitemap_status.
  - apply other_sites_enqueue_url.
  - apply other_sites_set_url_status.
  - apply other_sites_upsert_product.
  - apply other_sites_reset_errors.
Qed.

Lemma site_ops_keys_unique (site : string) (db db' : IndexDb) :
  site_ops site db db' -> keys_unique db -> keys_unique db'.
Proof.
  induction 1; intros K;
    [exact K | | | | | |].
  - now apply enqueue_sitemap_keys, IHsite_ops.
  - now apply set_sitemap_status_keys, IHsite_ops.
  - now apply enqueue_url_keys, IHsite_ops.
  - now apply set_url_status_keys, IHsite_ops.
  - now apply upsert_product_keys, IHsite_ops.
  - now apply reset_errors_keys, IHsite_ops.
Qed.

Lemma indexed_same_tables (db db' : IndexDb) :
  products db' = products db -> sku_index db' = sku_index db ->
  indexed db -> indexed db'.
Proof. unfold indexed. intros -> ->. auto. Qed.

Lemma site_ops_indexed (site : string) (db db' : IndexDb) :
  site_ops site db db' -> indexed db -> indexed db'.
Proof.
  induction 1; intros K;
    [exact K | | | | | |].
  - apply (indexed_same_tables db'); auto;
      unfold enqueue_sitemap; destruct (existsb _ _); reflexivity.
  - apply (indexed_same_tables db'); auto.
  - apply (indexed_same_tables db'); auto;
      unfold enqueue_url; destruct (existsb _ _); reflexivity.
  - apply (indexed_same_tables db'); auto.
  - now apply upsert_product_indexed, IHsite_ops.
  - apply (indexed_same_tables db'); auto.
Qed.

Section Crawl.

Variable env : Environment.

(** ** The crawl loops as operations of one site *)

Lemma stamped_ops (site : string) (db0 : IndexDb) (st : state)
    (op : IndexDb -> string -> IndexDb) :
  site_ops site db0 (st_db st) ->
  (forall db now, site_ops site db0 db -> site_ops site db0 (op db now)) ->
  site_ops site db0 (st_db (stamped env st op)).
Proof. intros H Hop. unfold stamped. cbn. now apply Hop. Qed.

Lemma mark_ops (site_cfg : SiteConfig) (db0 : IndexDb) (url status : string)
    (http_status : option Z) (blocked : bool) (error : option string)
    (st : state) :
  site_ops (key site_cfg) db0 (st_db st) ->
  site_ops (key site_cfg) db0
    (st_db (mark env site_cfg url status http_status blocked error st)).
Proof. intros H. unfold mark, stamped. cbn. now constructor. Qed.

Lemma on_exception_ops (site_cfg : SiteConfig) (db0 : IndexDb) (url : string)
    (st : state) (exc : exn) :
  site_ops (key site_cfg) db0 (st_db st) ->
  site_ops (key site_cfg) db0 (st_db (on_exception env site_cfg url st exc)).
Proof.
  intros H. unfold on_exception.
  destruct exc as [code text|text]; [destruct (_ || _)%bool|]; now apply mark_ops.
Qed.

Lemma enqueue_links_ops (site_cfg : SiteConfig) (db0 : IndexDb) (url : string)
    (depth : Z) (links : list string) :
  forall st, site_ops (key site_cfg) db0 (st_db st) ->
  site_ops (key site_cfg) db0
    (st_db (fst (enqueue_links env site_cfg url depth st links))).
Proof.
  induction links as [|link rest IH]; intros st H; cbn [enqueue_links]; [exact H|].
  destruct (negb (startswith (base_url site_cfg) link)); [now apply IH|].
  destruct (classify_url env site_cfg link) as [link_type|e]; [|exact H].
  destruct (enqueued_type link_type); [|now apply IH].
  apply IH. unfold stamped. cbn. now constructor.
Qed.

Lemma record_product_ops (site_cfg : SiteConfig) (db0 : IndexDb)
    (url url_type page_html : string) (headers : headers_t) (st : state) :
  site_ops (key site_cfg) db0 (st_db st) ->
  site_ops (key site_cfg) db0
    (st_db (record_product env site_cfg url url_type page_html headers st)).
Proof.
  intros H. unfold record_product.
  destruct (env_parse_product env (key site_cfg) page_html url) as [[sku title] cat].
  cbn. now constructor.
Qed.

Lemma crawl_url_ops (site_cfg : SiteConfig) (retries max_depth : Z)
    (discover_links : bool) (db0 : IndexDb) (st : state) (row : QueueItem) :
  site_ops (key site_cfg) db0 (st_db st) ->
  site_ops (key site_cfg) db0
    (st_db (crawl_url env site_cfg retries max_depth discover_links st row)).
Proof.
  intros H. unfold crawl_url.
  destruct (get_text env retries (q_url row)) as [fetched sleeps].
  assert (H0 : site_ops (key site_cfg) db0 (st_db (slept st sleeps))) by exact H.
  destruct fetched as [[page_html headers]|exc]; [|now apply on_exception_ops].
  destruct (detect_block_page page_html); [now apply mark_ops|].
  set (st1 := if String.eqb (q_url_type row) "product" then _ else _).
  assert (H1 : site_ops (key site_cfg) db0 (st_db st1)).
  { unfold st1. destruct (String.eqb (q_url_type row) "product");
      [now apply record_product_ops | exact H0]. }
  destruct (discover_links && (q_depth row <? max_depth))%bool.
  - destruct (env_extract_links env page_html (q_url row)) as [links|e].
    + pose proof (enqueue_links_ops site_cfg db0 (q_url row) (q_depth row) links
                    st1 H1) as H2.
      destruct (enqueue_links env site_cfg (q_url row) (q_depth row) st1 links)
        as [st2 [exc|]]; cbn [fst] in H2;
        [now apply on_exception_ops | now apply mark_ops].
    + now apply on_exception_ops.
  - now apply mark_ops.
Qed.

(** A pause that returns leaves the store and the clock alone, and takes
    one draw at most. *)
Lemma pause_inv (delay_min delay_max : float) (st st' : state) :
  pause env delay_min delay_max st = Ok st' ->
  st_db st' = st_db st /\ st_tick st' = st_tick st
  /\ (draws st <= draws st' <= S (draws st))%nat.
Proof.
  unfold pause. destruct (PrimFloat.ltb 0%float delay_max).
  - destruct (env_sleep env _); [discriminate|]. intros [= <-].
    rewrite draws_paused. repeat split; lia.
  - intros [= <-]. repeat split; lia.
Qed.

Lemma next_pending_row_inv (db : IndexDb) (site : string) (max_depth : Z)
    (found : option QueueItem) :
  next_pending_row db site max_depth = Ok found ->
  sqlite_integer max_depth = true
  /\ found = next_pending_url db site ["product"; "category"] max_depth.
Proof.
  unfold next_pending_row. destruct (sqlite_integer max_depth); [|discriminate].
  intros [= <-]. auto.
Qed.

Lemma crawl_urls_loop_ops (fuel : nat) (site_cfg : SiteConfig)
    (retries : Z) (delay_min delay_max : float) (max_pages : option Z)
    (max_depth : Z) (discover_links : bool) :
  forall (processed : Z) (st st' : state) (n : Z),
    crawl_urls_loop env fuel site_cfg retries delay_min delay_max max_pages
      max_depth discover_links processed st = Some (Ok (st', n)) ->
    site_ops (key site_cfg) (st_db st) (st_db st').
Proof.
  induction fuel as [|fuel IH]; intros processed st st' n; cbn [crawl_urls_loop].
  - destruct (budget_spent max_pages processed); [intros [= <- _]; constructor|].
    destruct (next_pending_row _ _ _) as [[row|]|e];
      [discriminate | intros [= <- _]; constructor | discriminate].
  - destruct (budget_spent max_pages processed); [intros [= <- _]; constructor|].
    destruct (next_pending_row _ _ _) as [[row|]|e];
      [|intros [= <- _]; constructor | discriminate].
    cbv zeta. destruct (round_continues env retries (q_url row)).
    { intros H. apply IH in H. eapply site_ops_trans; [|exact H].
      apply crawl_url_ops. constructor. }
    destruct (pause env delay_min delay_max _) as [st1|e] eqn:P; [|discriminate].
    apply pause_inv in P. destruct P as (Hdb & _).
    intros H. apply IH in H. eapply site_ops_trans; [|exact H].
    rewrite Hdb. apply crawl_url_ops. constructor.
Qed.

Lemma process_loc_ops (site_cfg : SiteConfig) (db0 : IndexDb) (next_url : string)
    (st : state) (loc : string) :
  site_ops (key site_cfg) db0 (st_db st) ->
  site_ops (key site_cfg) db0
    (st_db (fst (process_loc env site_cfg next_url st loc))).
Proof.
  intros H. unfold process_loc.
  destruct (strip_query_and_fragment env loc) as [clean|e]; [|exact H].
  destruct (is_sitemap_url clean); [unfold stamped; cbn; now constructor|].
  destruct (classify_url env site_cfg clean) as [url_type|e]; [|exact H].
  destruct (enqueued_type url_type); [unfold stamped; cbn; now constructor | exact H].
Qed.

Lemma process_locs_ops (site_cfg : SiteConfig) (db0 : IndexDb) (next_url : string)
    (locs : list string) :
  forall st, site_ops (key site_cfg) db0 (st_db st) ->
  site_ops (key site_cfg) db0
    (st_db (fst (process_locs env site_cfg next_url st locs))).
Proof.
  induction locs as [|loc rest IH]; intros st H; cbn [process_locs]; [exact H|].
  pose proof (process_loc_ops site_cfg db0 next_url st loc H) as H1.
  destruct (process_loc env site_cfg next_url st loc) as [st1 [e|]];
    cbn [fst] in *; [exact H1 | now apply IH].
Qed.

Lemma crawl_sitemap_ops (site_cfg : SiteConfig) (retries : Z) (db0 : IndexDb)
    (st : state) (next_url : string) :
  site_ops (key site_cfg) db0 (st_db st) ->
  site_ops (key site_cfg) db0
    (st_db (fst (crawl_sitemap env site_cfg retries st next_url))).
Proof.
  intros H. unfold crawl_sitemap.
  destruct (get_bytes env retries next_url) as [fetched sleeps].
  assert (H0 : site_ops (key site_cfg) db0 (st_db (slept st sleeps))) by exact H.
  destruct fetched as [[raw hs]|e]; [|unfold stamped; cbn; now constructor].
  destruct (parse_sitemap_locs env raw next_url) as [locs|e];
    [|unfold stamped; cbn; now constructor].
  pose proof (process_locs_ops site_cfg db0 next_url locs _ H0) as H1.
  destruct (process_locs env site_cfg next_url (slept st sleeps) locs)
    as [st1 [e|]]; cbn [fst] in *; unfold stamped; cbn; now constructor.
Qed.

Lemma crawl_sitemaps_loop_ops (fuel : nat) (site_cfg : SiteConfig)
    (retries : Z) (delay_min delay_max : float) (max_sitemaps : option Z) :
  forall (processed : Z) (st st' : state) (n : Z),
    crawl_sitemaps_loop env fuel site_cfg retries delay_min delay_max
      max_sitemaps processed st
    = Some (Ok (st', n)) ->
    site_ops (key site_cfg) (st_db st) (st_db st').
Proof.
  induction fuel as [|fuel IH]; intros processed st st' n; cbn [crawl_sitemaps_loop].
  - destruct (budget_spent max_sitemaps processed); [intros [= <- _]; constructor|].
    destruct (next_pending_sitemap _ _) as [u|]; [|intros [= <- _]; constructor].
    destruct (negb (truthy u)); [intros [= <- _]; constructor | discriminate].
  - destruct (budget_spent max_sitemaps processed); [intros [= <- _]; constructor|].
    destruct (next_pending_sitemap _ _) as [u|]; [|intros [= <- _]; constructor].
    destruct (negb (truthy u)); [intros [= <- _]; constructor|].
    pose proof (crawl_sitemap_ops site_cfg retries (st_db st) st u
                  (ops_none _ _)) as H1.
    destruct (crawl_sitemap env site_cfg retries st u) as [st1 counted].
    cbn [fst] in H1.
    destruct (pause env delay_min delay_max st1) as [st2|e] eqn:P; [|discriminate].
    apply pause_inv in P. destruct P as (Hdb & _). rewrite <- Hdb in H1.
    intros H. apply IH in H. eapply site_ops_trans; eauto.
Qed.

Lemma enqueue_robots_sitemaps_ops (site_cfg : SiteConfig) (db0 : IndexDb)
    (candidate : string) (urls : list string) :
  forall st, site_ops (key site_cfg) db0 (st_db st) ->
  site_ops (key site_cfg) db0
    (st_db (fst (enqueue_robots_sitemaps env site_cfg candidate st urls))).
Proof.
  induction urls as [|u rest IH]; intros st H; cbn [enqueue_robots_sitemaps];
    [exact H|].
  destruct (strip_query_and_fragment env u) as [clean|e]; [|exact H].
  apply IH. unfold stamped. cbn. now constructor.
Qed.

Lemma seed_candidate_ops (site_cfg : SiteConfig) (retries : Z) (db0 : IndexDb)
    (st st' : state) (candidate : string) :
  seed_candidate env site_cfg retries st candidate = Ok st' ->
  site_ops (key site_cfg) db0 (st_db st) ->
  site_ops (key site_cfg) db0 (st_db st').
Proof.
  unfold seed_candidate. intros E H.
  destruct (endswith "robots.txt" candidate).
  - destruct (get_text env retries candidate) as [fetched sleeps].
    assert (H0 : site_ops (key site_cfg) db0 (st_db (slept st sleeps))) by exact H.
    destruct fetched as [[text hs]|e]; [|now injection E as <-].
    destruct (parse_robots_for_sitemaps text) as [urls|e]; [|now injection E as <-].
    injection E as <-. now apply enqueue_robots_sitemaps_ops.
  - destruct (strip_query_and_fragment env candidate) as [clean|e];
      [|discriminate]. cbn [bind] in E. injection E as <-.
    unfold stamped. cbn. now constructor.
Qed.

Lemma seed_sitemaps_ops (site_cfg : SiteConfig) (retries : Z) (db0 : IndexDb)
    (candidates : list string) :
  forall st st',
    seed_sitemaps env site_cfg retries st candidates = Ok st' ->
    site_ops (key site_cfg) db0 (st_db st) ->
    site_ops (key site_cfg) db0 (st_db st').
Proof.
  induction candidates as [|c rest IH]; intros st st'; cbn [seed_sitemaps].
  - now intros [= <-].
  - destruct (seed_candidate env site_cfg retries st c) as [st1|e] eqn:E;
      [|discriminate]. cbn [bind]. intros H H0.
    eapply IH; [exact H|]. eapply seed_candidate_ops; eauto.
Qed.

Lemma enqueue_seeds_ops (site_cfg : SiteConfig) (db0 : IndexDb)
    (seeds : list string) :
  forall st st',
    enqueue_seeds env site_cfg st seeds = Ok st' ->
    site_ops (key site_cfg) db0 (st_db st) ->
    site_ops (key site_cfg) db0 (st_db st').
Proof.
  induction seeds as [|seed rest IH]; intros st st'; cbn [enqueue_seeds].
  - now intros [= <-].
  - destruct (strip_query_and_fragment env seed) as [clean|e]; [|discriminate].
    cbn [bind]. intros H H0. eapply IH; [exact H|].
    unfold stamped. cbn. now constructor.
Qed.

Lemma crawl_sitemaps_ops (fuel : nat) (site_cfg : SiteConfig) (retries : Z)
    (delay_min delay_max : float) (max_sitemaps : option Z)
    (st st' : state) (n : Z) :
  crawl_sitemaps env fuel site_cfg retries delay_min delay_max max_sitemaps st
  = Some (Ok (st', n)) ->
  site_ops (key site_cfg) (st_db st) (st_db st').
Proof.
  unfold crawl_sitemaps.
  destruct (seed_sitemaps env site_cfg retries st (sitemap_candidates site_cfg))
    as [st0|e] eqn:S; [|discriminate].
  intros L. eapply site_ops_trans.
  - eapply seed_sitemaps_ops; [exact S | constructor].
  - eapply crawl_sitemaps_loop_ops; eauto.
Qed.

Lemma crawl_urls_ops (fuel : nat) (site_cfg : SiteConfig) (retries : Z)
    (delay_min delay_max : float) (max_pages : option Z) (max_depth : Z)
    (discover_links : bool) (st st' : state) (n : Z) :
  crawl_urls env fuel site_cfg retries delay_min delay_max max_pages max_depth
    discover_links st
  = Some (Ok (st', n)) ->
  site_ops (key site_cfg) (st_db st) (st_db st').
Proof.
  unfold crawl_urls.
  destruct (enqueue_seeds env site_cfg st (seed_category_urls site_cfg))
    as [st0|e] eqn:S; [|discriminate].
  intros L. eapply site_ops_trans.
  - eapply enqueue_seeds_ops; [exact S | constructor].
  - eapply crawl_urls_loop_ops; eauto.
Qed.

(** X18.  Whatever the network answers, [crawl_sitemaps] and [crawl_urls]
    for one site leave every row of the other sites, in all four tables,
    as it was. *)
Theorem crawl_leaves_other_sites (fuel : nat) (site_cfg : SiteConfig)
    (retries : Z) (delay_min delay_max : float) (limit : option Z)
    (max_depth : Z) (discover_links : bool) (st st' : state) (n : Z) :
  crawl_sitemaps env fuel site_cfg retries delay_min delay_max limit st
  = Some (Ok (st', n))
  \/ crawl_urls env fuel site_cfg retries delay_min delay_max limit max_depth
       discover_links st
     = Some (Ok (st', n)) ->
  other_sites (key site_cfg) (st_db st') = other_sites (key site_cfg) (st_db st).
Proof.
  intros [H|H]; apply site_ops_other_sites.
  - eapply crawl_sitemaps_ops; eauto.
  - eapply crawl_urls_ops; eauto.
Qed.

Lemma SITE_CONFIGS_key (site_key : string) (cfg : SiteConfig) :
  SITE_CONFIGS site_key = Some cfg -> key cfg = site_key.
Proof.
  unfold SITE_CONFIGS.
  destruct (String.eqb site_key "twinset.ru") eqn:E1.
  - apply String.eqb_eq in E1. now intros [= <-].
  - destruct (String.eqb site_key "twinset.com") eqn:E2; [|discriminate].
    apply String.eqb_eq in E2. now intros [= <-].
Qed.

Lemma crawl_site_ops (fuel : nat) (site_key : string) (retry_errors : bool)
    (retries : Z) (delay_min delay_max : float)
    (max_sitemaps max_pages : option Z) (max_depth : Z)
    (discover_links : bool) (st st' : state) :
  crawl_site env fuel site_key retry_errors retries delay_min delay_max
    max_sitemaps max_pages max_depth discover_links st = Some (Ok st') ->
  site_ops site_key (st_db st) (st_db st').
Proof.
  unfold crawl_site.
  destruct (SITE_CONFIGS site_key) as [cfg|] eqn:C; [|discriminate].
  apply SITE_CONFIGS_key in C. subst site_key.
  set (st0 := if retry_errors then _ else st).
  assert (H0 : site_ops (key cfg) (st_db st) (st_db st0)).
  { unfold st0. destruct retry_errors; [|constructor].
    unfold stamped. cbn. constructor. constructor. }
  destruct (crawl_sitemaps env fuel cfg retries delay_min delay_max max_sitemaps
              st0)
    as [[[st1 n1]|e]|] eqn:S; try discriminate.
  destruct (crawl_urls env fuel cfg retries delay_min delay_max max_pages
              max_depth discover_links st1)
    as [[[st2 n2]|e]|] eqn:U; try discriminate.
  intros [= <-].
  eapply site_ops_trans; [exact H0|].
  eapply site_ops_trans; [eapply crawl_sitemaps_ops | eapply crawl_urls_ops]; eauto.
Qed.

(** X19.  A run of [run_crawl] keeps the store consistent: the primary
    keys of the four tables stay pairwise different, and every product
    that has a SKU stays in the SKU index under that SKU.  When one site
    is selected, the rows of the other sites stay as they were. *)
Theorem run_crawl_keeps_store_consistent (fuel : nat) (site : string)
    (retry_errors : bool) (retries : Z) (delay_min delay_max : float)
    (max_sitemaps max_pages : option Z)
    (max_depth : Z) (discover_links : bool) (st st' : state) :
  run_crawl env fuel site retry_errors retries delay_min delay_max max_sitemaps
    max_pages max_depth discover_links st = Some (Ok st') ->
  (keys_unique (st_db st) -> keys_unique (st_db st'))
  /\ (indexed (st_db st) -> indexed (st_db st'))
  /\ (site <> "both" ->
      other_sites site (st_db st') = other_sites site (st_db st)).
Proof.
  unfold run_crawl. intros H.
  assert (G : forall sites st0,
            crawl_sites env fuel sites retry_errors retries delay_min delay_max
              max_sitemaps max_pages max_depth discover_links st0
            = Some (Ok st') ->
            (keys_unique (st_db st0) -> keys_unique (st_db st'))
            /\ (indexed (st_db st0) -> indexed (st_db st'))).
  { induction sites as [|s rest IH]; intros st0; cbn [crawl_sites].
    - intros [= <-]. auto.
    - destruct (crawl_site env fuel s retry_errors retries delay_min delay_max
                  max_sitemaps max_pages max_depth discover_links st0)
        as [[st1|e]|] eqn:E;
        try discriminate.
      intros H1. apply crawl_site_ops in E. destruct (IH st1 H1) as [K I].
      split; intros H0.
      + apply K. eapply site_ops_keys_unique; eauto.
      + apply I. eapply site_ops_indexed; eauto. }
  destruct (G _ _ H) as [K I]. split; [exact K|]. split; [exact I|].
  intros Hne. unfold selected_sites in H.
  assert (String.eqb site "both" = false) as E by now apply String.eqb_neq.
  rewrite E in H. cbn [crawl_sites] in H.
  destruct (crawl_site env fuel site retry_errors retries delay_min delay_max
              max_sitemaps max_pages max_depth discover_links st)
    as [[st1|e]|] eqn:C; try discriminate.
  injection H as <-. apply site_ops_other_sites. eapply crawl_site_ops; eauto.
Qed.

(** ** One round of the crawl loop *)

Lemma enqueued_type_cases (t : string) :
  enqueued_type t = true -> t = "product" \/ t = "category".
Proof.
  unfold enqueued_type. intros H. apply orb_true_iff in H as [H|H];
    apply String.eqb_eq in H; auto.
Qed.

Lemma enqueue_links_shape (site_cfg : SiteConfig) (row : QueueItem)
    (links : list string) :
  forall st,
  exists added,
    url_queue (st_db (fst (enqueue_links env site_cfg (q_url row) (q_depth row)
                             st links)))
    = (url_queue (st_db st) ++ added)%list
    /\ Forall (discovered site_cfg row) added.
Proof.
  induction links as [|link rest IH]; intros st; cbn [enqueue_links].
  - exists []. split; [now rewrite app_nil_r | constructor].
  - destruct (negb (startswith (base_url site_cfg) link)) eqn:Eb; [apply IH|].
    apply negb_false_iff in Eb.
    destruct (classify_url env site_cfg link) as [link_type|e].
    2:{ exists []. split; [now rewrite app_nil_r | constructor]. }
    destruct (enqueued_type link_type) eqn:Et; [|apply IH].
    destruct (IH (stamped env st
                    (fun db now =>
                       enqueue_url db (key site_cfg) link link_type
                         (q_depth row + 1) (Some (q_url row)) now)))
      as (added & E & F).
    rewrite E. unfold stamped. cbn [st_db]. unfold enqueue_url.
    destruct (existsb _ _).
    + exists added. auto.
    + cbn [url_queue with_url_queue]. rewrite <- app_assoc.
      eexists. split; [reflexivity|]. constructor; [|exact F].
      unfold discovered. cbn. repeat split; auto.
      now apply enqueued_type_cases.
Qed.

Lemma record_product_queue (site_cfg : SiteConfig) (url url_type page_html : string)
    (headers : headers_t) (st : state) :
  url_queue (st_db (record_product env site_cfg url url_type page_html headers st))
  = url_queue (st_db st).
Proof.
  unfold record_product.
  destruct (env_parse_product env (key site_cfg) page_html url) as [[sku title] cat].
  cbn [st_db]. unfold upsert_product.
  destruct (or_none _) as [s|]; [destruct (truthy s)|]; reflexivity.
Qed.

Lemma on_exception_mark (site_cfg : SiteConfig) (url : string) (st : state)
    (exc : exn) :
  exists status http_status error,
    on_exception env site_cfg url st exc
    = mark env site_cfg url status http_status false error st
    /\ (status = "gone" \/ status = "error").
Proof.
  unfold on_exception. destruct exc as [code text|text].
  - destruct (_ || _)%bool; eexists _, _, _; split; try reflexivity; auto.
  - eexists _, _, _; split; try reflexivity; auto.
Qed.

(** [crawl_url] ends with one status update of the crawled address, on a
    queue that has grown by the rows discovered. *)
Lemma crawl_url_shape (site_cfg : SiteConfig) (retries max_depth : Z)
    (discover_links : bool) (st : state) (row : QueueItem) :
  exists mid status http_status blocked error added,
    crawl_url env site_cfg retries max_depth discover_links st row
    = mark env site_cfg (q_url row) status http_status blocked error mid
    /\ (status = "done" \/ status = "blocked" \/ status = "gone"
        \/ status = "error")
    /\ url_queue (st_db mid) = (url_queue (st_db st) ++ added)%list
    /\ Forall (discovered site_cfg row) added
    /\ ((discover_links && (q_depth row <? max_depth))%bool = false ->
        added = []).
Proof.
  unfold crawl_url.
  destruct (get_text env retries (q_url row)) as [fetched sleeps].
  assert (Q0 : url_queue (st_db (slept st sleeps)) = (url_queue (st_db st) ++ [])%list)
    by (now rewrite app_nil_r).
  destruct fetched as [[page_html headers]|exc].
  2:{ destruct (on_exception_mark site_cfg (q_url row) (slept st sleeps) exc)
        as (status & http & error & E & Hs).
      exists (slept st sleeps), status, http, false, error, [].
      split; [exact E|]. split; [tauto|]. split; [exact Q0|]. split; [constructor | auto]. }
  destruct (detect_block_page page_html).
  { exists (slept st sleeps), "blocked", (Some 200), true, (Some "captcha_or_block"), [].
    split; [reflexivity|]. split; [tauto|]. split; [exact Q0|]. split; [constructor | auto]. }
  set (st1 := if String.eqb (q_url_type row) "product" then _ else _).
  assert (Q1 : url_queue (st_db st1) = url_queue (st_db st)).
  { unfold st1. destruct (String.eqb (q_url_type row) "product");
      [rewrite record_product_queue|]; reflexivity. }
  destruct (discover_links && (q_depth row <? max_depth))%bool.
  - destruct (env_extract_links env page_html (q_url row)) as [links|e].
    + destruct (enqueue_links_shape site_cfg row links st1) as (added & E & F).
      rewrite Q1 in E.
      destruct (enqueue_links env site_cfg (q_url row) (q_depth row) st1 links)
        as [st2 [exc|]]; cbn [fst] in E.
      * destruct (on_exception_mark site_cfg (q_url row) st2 exc)
          as (status & http & error & E' & Hs).
        exists st2, status, http, false, error, added.
        split; [exact E'|]. split; [tauto|]. split; [exact E|]. split; [exact F | discriminate].
      * exists st2, "done", (Some 200), false, None, added.
        split; [reflexivity|]. split; [tauto|]. split; [exact E|]. split; [exact F | discriminate].
    + destruct (on_exception_mark site_cfg (q_url row) st1 e)
        as (status & http & error & E' & Hs).
      exists st1, status, http, false, error, [].
      split; [exact E'|]. split; [tauto|]. rewrite app_nil_r.
      split; [exact Q1|]. split; [constructor | auto].
  - exists st1, "done", (Some 200), false, None, [].
    split; [reflexivity|]. split; [tauto|]. rewrite app_nil_r.
    split; [exact Q1|]. split; [constructor | auto].
Qed.

Lemma enqueue_links_sitemaps (site_cfg : SiteConfig) (url : string) (depth : Z)
    (links : list string) :
  forall st,
    sitemaps (st_db (fst (enqueue_links env site_cfg url depth st links)))
    = sitemaps (st_db st).
Proof.
  induction links as [|link rest IH]; intros st; cbn [enqueue_links]; [reflexivity|].
  destruct (negb (startswith (base_url site_cfg) link)); [apply IH|].
  destruct (classify_url env site_cfg link) as [link_type|e]; [|reflexivity].
  destruct (enqueued_type link_type); [|apply IH].
  rewrite IH. unfold stamped, enqueue_url. cbn [st_db].
  destruct (existsb _ _); reflexivity.
Qed.

Lemma record_product_sitemaps (site_cfg : SiteConfig)
    (url url_type page_html : string) (headers : headers_t) (st : state) :
  sitemaps (st_db (record_product env site_cfg url url_type page_html headers st))
  = sitemaps (st_db st).
Proof.
  unfold record_product.
  destruct (env_parse_product env (key site_cfg) page_html url) as [[sku title] cat].
  cbn [st_db]. unfold upsert_product.
  destruct (or_none _) as [s|]; [destruct (truthy s)|]; reflexivity.
Qed.

Lemma on_exception_sitemaps (site_cfg : SiteConfig) (url : string) (st : state)
    (exc : exn) :
  sitemaps (st_db (on_exception env site_cfg url st exc)) = sitemaps (st_db st).
Proof.
  unfold on_exception. destruct exc as [code text|text];
    [destruct (_ || _)%bool|]; reflexivity.
Qed.

Lemma crawl_url_sitemaps (site_cfg : SiteConfig) (retries max_depth : Z)
    (discover_links : bool) (st : state) (row : QueueItem) :
  sitemaps (st_db (crawl_url env site_cfg retries max_depth discover_links st row))
  = sitemaps (st_db st).
Proof.
  unfold crawl_url.
  destruct (get_text env retries (q_url row)) as [fetched sleeps].
  destruct fetched as [[page_html headers]|exc];
    [|now rewrite on_exception_sitemaps].
  destruct (detect_block_page page_html); [reflexivity|].
  set (st1 := if String.eqb (q_url_type row) "product" then _ else _).
  assert (Q1 : sitemaps (st_db st1) = sitemaps (st_db st)).
  { unfold st1. destruct (String.eqb (q_url_type row) "product");
      [rewrite record_product_sitemaps|]; reflexivity. }
  destruct (discover_links && (q_depth row <? max_depth))%bool.
  - destruct (env_extract_links env page_html (q_url row)) as [links|e].
    + pose proof (enqueue_links_sitemaps site_cfg (q_url row) (q_depth row) links st1) as E.
      destruct (enqueue_links env site_cfg (q_url row) (q_depth row) st1 links)
        as [st2 [exc|]]; cbn [fst] in E.
      * now rewrite on_exception_sitemaps, E.
      * cbn. now rewrite E.
    + now rewrite on_exception_sitemaps.
  - cbn. exact Q1.
Qed.

(** X20.  One round of the crawl loop changes the queue in two ways only:
    it appends the rows that link discovery found, each pending, one level
    deeper than the crawled row, of type product or category and under
    the site's base address, and none unless discovery is on and the
    depth of the row is smaller than [max_depth]; and it updates the
    status of the crawled address, to 'done', 'blocked', 'gone' or
    'error', counting one more attempt.  No row is deleted and no other
    row is changed. *)
Theorem crawl_url_queue (site_cfg : SiteConfig) (retries max_depth : Z)
    (discover_links : bool) (st : state) (row : QueueItem) :
  let st' := crawl_url env site_cfg retries max_depth discover_links st row in
  exists (status : string) (http_status : option Z) (blocked : bool)
         (error : option string) (now : string) (added : list QueueItem),
    url_queue (st_db st')
    = map (fun r =>
             if queue_key (key site_cfg) (q_url row) r
             then mkQueueItem (q_site r) (q_url r) (q_url_type r) status
                    (q_depth r) (q_discovered_from r) (q_attempts r + 1)
                    (coalesce http_status (q_last_http_status r))
                    (if blocked then 1 else 0) error now
             else r)
        (url_queue (st_db st) ++ added)
    /\ (status = "done" \/ status = "blocked" \/ status = "gone"
        \/ status = "error")
    /\ Forall (discovered site_cfg row) added
    /\ ((discover_links && (q_depth row <? max_depth))%bool = false ->
        added = [])
    /\ sitemaps (st_db st') = sitemaps (st_db st).
Proof.
  cbv zeta.
  destruct (crawl_url_shape site_cfg retries max_depth discover_links st row)
    as (mid & status & http & blk & error & added & E & Hs & Q & F & N).
  exists status, http, blk, error, (env_clock env (st_tick mid)), added.
  rewrite E. unfold mark, stamped, set_url_status. cbn. rewrite Q.
  repeat split; auto.
  pose proof (crawl_url_sitemaps site_cfg retries max_depth discover_links st row)
    as S.
  rewrite E in S. exact S.
Qed.

End Crawl.

Section Loops.

Variable env : Environment.

(** ** The crawl loop as a whole *)

Lemma crawl_url_depth (site_cfg : SiteConfig) (retries max_depth : Z)
    (discover_links : bool) (st : state) (row : QueueItem) (r : QueueItem) :
  In r (url_queue (st_db (crawl_url env site_cfg retries max_depth
                            discover_links st row))) ->
  q_depth r <= max_depth
  \/ exists r0, In r0 (url_queue (st_db st))
                /\ q_site r0 = q_site r /\ q_url r0 = q_url r
                /\ q_depth r0 = q_depth r.
Proof.
  destruct (crawl_url_shape env site_cfg retries max_depth discover_links st row)
    as (mid & status & http & blk & error & added & E & _ & Q & F & N).
  rewrite E. unfold mark, stamped, set_url_status. cbn. rewrite Q.
  intros Hin. apply in_map_iff in Hin as (r1 & Hr & Hin).
  assert (K : q_site r = q_site r1 /\ q_url r = q_url r1 /\ q_depth r = q_depth r1).
  { destruct (queue_key (key site_cfg) (q_url row) r1); subst r; cbn; auto. }
  destruct K as (K1 & K2 & K3).
  apply in_app_or in Hin as [Hin|Hin].
  - right. exists r1. rewrite K1, K2, K3. auto.
  - left. rewrite K3.
    destruct (discover_links && (q_depth row <? max_depth))%bool eqn:D.
    + apply andb_true_iff in D as [_ D]. apply Z.ltb_lt in D.
      rewrite Forall_forall in F. destruct (F r1 Hin) as (_ & _ & _ & _ & Hd & _).
      lia.
    + rewrite (N eq_refl) in Hin. destruct Hin.
Qed.

Lemma enqueue_links_trace (site_cfg : SiteConfig) (url : string) (depth : Z)
    (links : list string) :
  forall st,
    st_trace (fst (enqueue_links env site_cfg url depth st links)) = st_trace st.
Proof.
  induction links as [|link rest IH]; intros st; cbn [enqueue_links];
    [reflexivity|].
  destruct (negb (startswith (base_url site_cfg) link)); [apply IH|].
  destruct (classify_url env site_cfg link) as [link_type|e]; [|reflexivity].
  destruct (enqueued_type link_type); [|apply IH].
  now rewrite IH.
Qed.

Lemma on_exception_trace (site_cfg : SiteConfig) (url : string) (st : state)
    (exc : exn) :
  st_trace (on_exception env site_cfg url st exc) = st_trace st.
Proof.
  unfold on_exception. destruct exc as [code text|text]; [|reflexivity].
  destruct ((code =? 404) || (code =? 410))%bool; reflexivity.
Qed.

(** A round of the crawl loop sleeps as its fetch does, and no more. *)
Lemma crawl_url_trace (site_cfg : SiteConfig) (retries max_depth : Z)
    (discover_links : bool) (st : state) (row : QueueItem) :
  st_trace (crawl_url env site_cfg retries max_depth discover_links st row)
  = (st_trace st ++ snd (get_text env retries (q_url row)))%list.
Proof.
  unfold crawl_url.
  destruct (get_text env retries (q_url row)) as [fetched sleeps]. cbn [snd].
  destruct fetched as [[page_html headers]|exc];
    [|now rewrite on_exception_trace].
  destruct (detect_block_page page_html); [reflexivity|].
  set (st1 := if String.eqb (q_url_type row) "product" then _ else _).
  assert (T1 : st_trace st1 = (st_trace st ++ sleeps)%list).
  { unfold st1. destruct (String.eqb (q_url_type row) "product"); [|reflexivity].
    unfold record_product.
    destruct (env_parse_product env (key site_cfg) page_html (q_url row))
      as [[sku title] category_path]. reflexivity. }
  destruct (discover_links && (q_depth row <? max_depth))%bool.
  - destruct (env_extract_links env page_html (q_url row)) as [links|e].
    + pose proof (enqueue_links_trace site_cfg (q_url row) (q_depth row) links st1)
        as T2.
      destruct (enqueue_links env site_cfg (q_url row) (q_depth row) st1 links)
        as [st2 [exc|]]; cbn [fst] in T2.
      * now rewrite on_exception_trace, T2.
      * unfold mark, stamped. cbn [st_trace]. now rewrite T2.
    + now rewrite on_exception_trace.
  - unfold mark, stamped. cbn [st_trace]. exact T1.
Qed.

Lemma get_text_sleeps (retries : Z) (url : string) :
  snd (get_text env retries url) = snd (get_bytes env retries url).
Proof.
  unfold get_text. destruct (get_bytes env retries url) as [fetched sleeps].
  reflexivity.
Qed.

(** A round of the crawl loop draws no random number. *)
Lemma crawl_url_draws (site_cfg : SiteConfig) (retries max_depth : Z)
    (discover_links : bool) (st : state) (row : QueueItem) :
  draws (crawl_url env site_cfg retries max_depth discover_links st row)
  = draws st.
Proof.
  unfold draws. rewrite crawl_url_trace, filter_app, get_text_sleeps,
    get_bytes_no_pause. now rewrite app_nil_r.
Qed.

(** X21.  The loop of [crawl_urls] never goes deeper than [max_depth]: a
    row of the queue after the loop has a depth of at most [max_depth],
    unless the queue held its address at that depth before the loop.  In
    particular a queue within [max_depth] stays within it. *)
Theorem crawl_urls_depth_bound (fuel : nat) (site_cfg : SiteConfig)
    (retries : Z) (delay_min delay_max : float) (max_pages : option Z)
    (max_depth : Z) (discover_links : bool)
    (processed : Z) (st st' : state) (n : Z) :
  crawl_urls_loop env fuel site_cfg retries delay_min delay_max max_pages
    max_depth discover_links processed st = Some (Ok (st', n)) ->
  (forall r, In r (url_queue (st_db st')) ->
     q_depth r <= max_depth
     \/ exists r0, In r0 (url_queue (st_db st))
                   /\ q_site r0 = q_site r /\ q_url r0 = q_url r
                   /\ q_depth r0 = q_depth r)
  /\ ((forall r, In r (url_queue (st_db st)) -> q_depth r <= max_depth) ->
      forall r, In r (url_queue (st_db st')) -> q_depth r <= max_depth).
Proof.
  intros H.
  assert (G : forall r, In r (url_queue (st_db st')) ->
     q_depth r <= max_depth
     \/ exists r0, In r0 (url_queue (st_db st))
                   /\ q_site r0 = q_site r /\ q_url r0 = q_url r
                   /\ q_depth r0 = q_depth r).
  { revert processed st H. induction fuel as [|fuel IH]; intros processed st;
      cbn [crawl_urls_loop].
    - destruct (budget_spent max_pages processed).
      + intros [= <- _] r Hr. right. now exists r.
      + destruct (next_pending_row _ _ _) as [[row|]|e]; try discriminate.
        intros [= <- _] r Hr. right. now exists r.
    - destruct (budget_spent max_pages processed).
      + intros [= <- _] r Hr. right. now exists r.
      + destruct (next_pending_row _ _ _) as [[row|]|e]; try discriminate.
        2:{ intros [= <- _] r Hr. right. now exists r. }
        cbv zeta.
        assert (K : forall st1,
                  st_db st1
                  = st_db (crawl_url env site_cfg retries max_depth
                             discover_links st row) ->
                  crawl_urls_loop env fuel site_cfg retries delay_min delay_max
                    max_pages max_depth discover_links (processed + 1) st1
                  = Some (Ok (st', n)) ->
                  forall r, In r (url_queue (st_db st')) ->
                    q_depth r <= max_depth
                    \/ exists r0, In r0 (url_queue (st_db st))
                                  /\ q_site r0 = q_site r /\ q_url r0 = q_url r
                                  /\ q_depth r0 = q_depth r).
        { intros st1 Hdb H r Hr.
          destruct (IH _ _ H r Hr) as [Hd|(r1 & H1 & S1 & U1 & D1)];
            [now left|].
          rewrite Hdb in H1.
          destruct (crawl_url_depth site_cfg retries max_depth discover_links st
                      row r1 H1) as [Hd|(r0 & H0 & S0 & U0 & D0)].
          - left. lia.
          - right. exists r0. repeat split; congruence. }
        destruct (round_continues env retries (q_url row)).
        { apply K. reflexivity. }
        destruct (pause env delay_min delay_max _) as [st1|e] eqn:P;
          [|discriminate].
        apply pause_inv in P. destruct P as (Hdb & _).
        apply K. exact Hdb. }
  split; [exact G|].
  intros Hall r Hr. destruct (G r Hr) as [Hd|(r0 & H0 & _ & _ & D0)]; [exact Hd|].
  rewrite <- D0. now apply Hall.
Qed.

Lemma filter_length_lt {A : Type} (p q : A -> bool) (l : list A) (x : A) :
  (forall r, q r = true -> p r = true) ->
  In x l -> p x = true -> q x = false ->
  (List.length (filter q l) < List.length (filter p l))%nat.
Proof.
  intros Hqp. induction l as [|a l IH]; intros Hin Hp Hq; [destruct Hin|].
  assert (Hle : forall l', (List.length (filter q l') <= List.length (filter p l'))%nat).
  { intros l'. induction l' as [|b l' IH']; simpl; [lia|].
    destruct (q b) eqn:Qb; [rewrite (Hqp b Qb); simpl; lia|].
    destruct (p b); simpl; lia. }
  simpl. destruct Hin as [-> | Hin].
  - rewrite Hp, Hq. simpl. specialize (Hle l). lia.
  - specialize (IH Hin Hp Hq).
    destruct (q a) eqn:Qa; [rewrite (Hqp a Qa); simpl; lia|].
    destruct (p a); simpl; lia.
Qed.

Lemma next_pending_url_In (db : IndexDb) (site : string)
    (allowed_types : list string) (max_depth : Z) (row : QueueItem) :
  next_pending_url db site allowed_types max_depth = Some row ->
  In row (url_queue db)
  /\ pending_candidate site allowed_types max_depth row = true.
Proof.
  unfold next_pending_url. intros H.
  pose proof (first_min_spec queue_before queue_before_irrefl queue_before_trans
                (filter (pending_candidate site allowed_types max_depth)
                   (url_queue db)) None [] eq_refl) as S.
  rewrite H in S. destruct S as [S _]. simpl in S. now apply filter_In in S.
Qed.

(** Without link discovery, a round of the loop leaves fewer rows to
    crawl. *)
Lemma crawl_url_progress (site_cfg : SiteConfig) (retries max_depth : Z)
    (st : state) (row : QueueItem) :
  next_pending_url (st_db st) (key site_cfg) ["product"; "category"] max_depth
  = Some row ->
  (List.length
     (crawlable site_cfg max_depth
        (st_db (crawl_url env site_cfg retries max_depth false st row)))
   < List.length (crawlable site_cfg max_depth (st_db st)))%nat.
Proof.
  intros H. apply next_pending_url_In in H as [Hin Hc].
  destruct (crawl_url_shape env site_cfg retries max_depth false st row)
    as (mid & status & http & blk & error & added & E & Hs & Q & _ & N).
  rewrite (N eq_refl), app_nil_r in Q.
  unfold crawlable. rewrite E. unfold mark, stamped, set_url_status. cbn.
  rewrite Q.
  set (cand := pending_candidate (key site_cfg) ["product"; "category"] max_depth).
  set (upd := fun r : QueueItem => if queue_key (key site_cfg) (q_url row) r then _ else r).
  rewrite (filter_length_map upd cand
             (fun r => (cand r && negb (queue_key (key site_cfg) (q_url row) r))%bool)).
  - apply (filter_length_lt cand _ (url_queue (st_db st)) row); auto.
    + intros r Hr. now apply andb_true_iff in Hr as [Hr _].
    + fold cand in Hc. rewrite Hc. cbn.
      unfold cand, pending_candidate in Hc.
      apply andb_true_iff in Hc as [Hc _]. apply andb_true_iff in Hc as [Hc _].
      apply andb_true_iff in Hc as [Hc _]. apply String.eqb_eq in Hc.
      unfold queue_key. now rewrite Hc, !String.eqb_refl.
  - intros r _. unfold upd.
    destruct (queue_key (key site_cfg) (q_url row) r) eqn:K;
      [|now rewrite andb_true_r].
    rewrite andb_false_r. unfold cand, pending_candidate. cbn.
    assert (String.eqb status "pending" = false) as ->.
    { apply String.eqb_neq. destruct Hs as [-> | [-> | [-> | ->]]]; discriminate. }
    now rewrite andb_false_r.
Qed.

Lemma next_pending_url_none (site_cfg : SiteConfig) (max_depth : Z)
    (db : IndexDb) :
  next_pending_url db (key site_cfg) ["product"; "category"] max_depth = None ->
  crawlable site_cfg max_depth db = [].
Proof.
  intros N. unfold next_pending_url in N.
  pose proof (first_min_spec queue_before queue_before_irrefl
                queue_before_trans (crawlable site_cfg max_depth db)
                None [] eq_refl) as S.
  unfold crawlable in S at 1. rewrite N in S. now destruct S.
Qed.

(** X22.  Without link discovery the loop of [crawl_urls] terminates when
    [max_depth] is an integer that SQLite takes and the pauses return: as
    many rounds as there are pending rows to crawl suffice.  Each round
    crawls one of them, and the loop ends when none is left or the page
    limit is reached.  Otherwise the loop ends with an exception: at once
    with [OverflowError] when [max_depth] is no such integer, unless the
    page limit is reached already, and with what [time.sleep] raises at
    the end of the round whose pause raises, a round that finds a block
    page making no pause. *)
Theorem crawl_urls_terminates (site_cfg : SiteConfig) (retries : Z)
    (delay_min delay_max : float) (max_pages : option Z) (max_depth : Z)
    (fuel : nat) (processed : Z) (st : state) :
  ((List.length (crawlable site_cfg max_depth (st_db st)) <= fuel)%nat ->
   sqlite_integer max_depth = true ->
   pauses_return env delay_min delay_max (draws st)
     (List.length (crawlable site_cfg max_depth (st_db st))) ->
   exists st' n,
     crawl_urls_loop env fuel site_cfg retries delay_min delay_max max_pages
       max_depth false processed st = Some (Ok (st', n))
     /\ processed <= n
     /\ n - processed
        <= Z.of_nat (List.length (crawlable site_cfg max_depth (st_db st)))
     /\ (crawlable site_cfg max_depth (st_db st') = []
         \/ budget_spent max_pages n = true))
  /\ (forall discover_links,
        budget_spent max_pages processed = false ->
        sqlite_integer max_depth = false ->
        crawl_urls_loop env fuel site_cfg retries delay_min delay_max max_pages
          max_depth discover_links processed st
        = Some (Raise (Exception
                         "Python int too large to convert to SQLite INTEGER")))
  /\ (forall discover_links row e,
        budget_spent max_pages processed = false ->
        sqlite_integer max_depth = true ->
        next_pending_url (st_db st) (key site_cfg) ["product"; "category"]
          max_depth = Some row ->
        round_continues env retries (q_url row) = false ->
        PrimFloat.ltb 0%float delay_max = true ->
        env_sleep env (env_uniform env (draws st) delay_min delay_max) = Some e ->
        crawl_urls_loop env (S fuel) site_cfg retries delay_min delay_max
          max_pages max_depth discover_links processed st
        = Some (Raise e)).
Proof.
  split; [|split].
  - revert processed st. induction fuel as [|fuel IH];
      intros processed st Hf Hi Hp; cbn [crawl_urls_loop];
      unfold next_pending_row; rewrite Hi.
    + destruct (budget_spent max_pages processed) eqn:B.
      * exists st, processed. repeat split; auto; lia.
      * destruct (next_pending_url _ _ _ _) as [row|] eqn:N.
        -- apply next_pending_url_In in N as [Hin Hc].
           assert (In row (crawlable site_cfg max_depth (st_db st)))
             by (apply filter_In; auto).
           destruct (crawlable site_cfg max_depth (st_db st));
             [destruct H | simpl in Hf; lia].
        -- exists st, processed. split; [reflexivity|]. split; [lia|].
           split; [lia|]. left. now apply next_pending_url_none.
    + destruct (budget_spent max_pages processed) eqn:B.
      * exists st, processed. repeat split; auto; lia.
      * destruct (next_pending_url _ _ _ _) as [row|] eqn:N.
        -- pose proof (crawl_url_progress site_cfg retries max_depth st row N) as P.
           pose proof (crawl_url_draws site_cfg retries max_depth false st row)
             as D.
           cbv zeta. destruct (round_continues env retries (q_url row)).
           ++ destruct (IH (processed + 1)
                          (crawl_url env site_cfg retries max_depth false st row))
                as (st' & n & E & H1 & H2 & H3).
              { lia. }
              { exact Hi. }
              { intros Hd k Hk. apply (Hp Hd). lia. }
              exists st', n. split; [exact E|]. split; [lia|].
              split; [lia | exact H3].
           ++ destruct (pause_returns env delay_min delay_max
                          (crawl_url env site_cfg retries max_depth false st row))
                as (st1 & E1 & Hdb & _ & Hdr & _).
              { intros Hd k Hk. apply (Hp Hd). lia. }
              rewrite E1.
              destruct (IH (processed + 1) st1) as (st' & n & E & H1 & H2 & H3).
              { rewrite Hdb. lia. }
              { exact Hi. }
              { rewrite Hdb. intros Hd k Hk. apply (Hp Hd). lia. }
              rewrite Hdb in H2.
              exists st', n. split; [exact E|]. split; [lia|].
              split; [lia | exact H3].
        -- exists st, processed. split; [reflexivity|]. split; [lia|].
           split; [lia|]. left. now apply next_pending_url_none.
  - intros discover_links B Hi.
    destruct fuel; cbn [crawl_urls_loop]; unfold next_pending_row;
      now rewrite B, Hi.
  - intros discover_links row e B Hi N Hc Hd Hs.
    cbn [crawl_urls_loop]. unfold next_pending_row. rewrite B, Hi, N.
    cbv zeta. rewrite Hc.
    rewrite (pause_raises env delay_min delay_max _ e Hd); [reflexivity|].
    now rewrite crawl_url_draws.
Qed.

(** X23.  Both loops respect their limit: the count they return starts from
    the count so far, grows by one per round at most, and does not pass
    [max_sitemaps], respectively [max_pages], when one is given that
    the count so far has not passed. *)
Theorem crawl_respects_limit (fuel : nat) (site_cfg : SiteConfig)
    (retries : Z) (delay_min delay_max : float) (limit : option Z)
    (max_depth : Z) (discover_links : bool)
    (processed : Z) (st st' : state) (n : Z) :
  crawl_sitemaps_loop env fuel site_cfg retries delay_min delay_max limit
    processed st
  = Some (Ok (st', n))
  \/ crawl_urls_loop env fuel site_cfg retries delay_min delay_max limit
       max_depth discover_links processed st = Some (Ok (st', n)) ->
  processed <= n <= processed + Z.of_nat fuel
  /\ (forall m, limit = Some m -> processed <= m -> n <= m).
Proof.
  intros [H|H].
  - revert processed st H. induction fuel as [|fuel IH]; intros processed st;
      cbn [crawl_sitemaps_loop].
    + destruct (budget_spent limit processed) eqn:B.
      * intros [= _ <-]. split; [lia|]. intros m -> Hm. lia.
      * destruct (next_pending_sitemap _ _) as [u|].
        -- destruct (negb (truthy u)); [|discriminate].
           intros [= _ <-]. split; [lia|]. intros m -> Hm. lia.
        -- intros [= _ <-]. split; [lia|]. intros m -> Hm. lia.
    + destruct (budget_spent limit processed) eqn:B.
      * intros [= _ <-]. split; [lia|]. intros m -> Hm. lia.
      * destruct (next_pending_sitemap _ _) as [u|].
        2:{ intros [= _ <-]. split; [lia|]. intros m -> Hm. lia. }
        destruct (negb (truthy u)).
        { intros [= _ <-]. split; [lia|]. intros m -> Hm. lia. }
        destruct (crawl_sitemap env site_cfg retries st u) as [st1 counted].
        destruct (pause env delay_min delay_max st1) as [st2|e]; [|discriminate].
        intros H. apply IH in H as [H1 H2]. split; [destruct counted; lia|].
        intros m -> Hm. apply (H2 m eq_refl). simpl in B. apply Z.leb_gt in B.
        destruct counted; lia.
  - revert processed st H. induction fuel as [|fuel IH]; intros processed st;
      cbn [crawl_urls_loop].
    + destruct (budget_spent limit processed) eqn:B.
      * intros [= _ <-]. split; [lia|]. intros m -> Hm. lia.
      * destruct (next_pending_row _ _ _) as [[row|]|e]; try discriminate.
        intros [= _ <-]. split; [lia|]. intros m -> Hm. lia.
    + destruct (budget_spent limit processed) eqn:B.
      * intros [= _ <-]. split; [lia|]. intros m -> Hm. lia.
      * destruct (next_pending_row _ _ _) as [[row|]|e]; try discriminate.
        2:{ intros [= _ <-]. split; [lia|]. intros m -> Hm. lia. }
        cbv zeta.
        assert (K : forall st1,
                  crawl_urls_loop env fuel site_cfg retries delay_min delay_max
                    limit max_depth discover_links (processed + 1) st1
                  = Some (Ok (st', n)) ->
                  processed <= n <= processed + Z.of_nat (S fuel)
                  /\ (forall m, limit = Some m -> processed <= m -> n <= m)).
        { intros st1 H. apply IH in H as [H1 H2]. split; [lia|].
          intros m -> Hm. apply (H2 m eq_refl). simpl in B.
          apply Z.leb_gt in B. lia. }
        destruct (round_continues env retries (q_url row)); [apply K|].
        destruct (pause env delay_min delay_max _) as [st1|e]; [|discriminate].
        apply K.
Qed.

End Loops.

Section Rounds.

Variable env : Environment.

(** ** Blocked pages and failed fetches *)

Lemma set_url_status_row (db : IndexDb) (site url status : string)
    (http_status : option Z) (blocked : bool) (error : option string)
    (now : string) (r : QueueItem) :
  In r (url_queue (set_url_status db site url status http_status blocked error now)) ->
  q_site r = site -> q_url r = url ->
  q_status r = status /\ q_blocked r = (if blocked then 1 else 0)
  /\ q_last_error r = error /\ q_updated_at r = now
  /\ exists r0, In r0 (url_queue db) /\ q_site r0 = site /\ q_url r0 = url
                /\ q_attempts r = q_attempts r0 + 1
                /\ q_last_http_status r
                   = coalesce http_status (q_last_http_status r0)
                /\ q_url_type r = q_url_type r0 /\ q_depth r = q_depth r0.
Proof.
  unfold set_url_status. cbn. intros Hin Hs Hu.
  apply in_map_iff in Hin as (r0 & Hr & Hin).
  destruct (queue_key site url r0) eqn:K.
  - subst r. cbn in *. repeat split; auto. exists r0. repeat split; auto.
  - subst r0. unfold queue_key in K. now rewrite Hs, Hu, !String.eqb_refl in K.
Qed.

(** X24.  A page that [detect_block_page] takes for a block page is not
    parsed and its links are not followed: the round only sets the row to
    'blocked', with HTTP status 200, the block flag and the error text
    "captcha_or_block".  A later [reset_errors] makes the row pending
    again, the block flag and the error text cleared, the attempt
    counted. *)
Theorem crawl_url_blocked (site_cfg : SiteConfig) (retries max_depth : Z)
    (discover_links : bool) (st : state) (row : QueueItem)
    (page_html : string) (headers : headers_t) (later : string) :
  fst (get_text env retries (q_url row)) = Ok (page_html, headers) ->
  detect_block_page page_html = true ->
  let st' := crawl_url env site_cfg retries max_depth discover_links st row in
  st_db st'
  = set_url_status (st_db st) (key site_cfg) (q_url row) "blocked" (Some 200)
      true (Some "captcha_or_block") (env_clock env (st_tick st))
  /\ (forall r, In r (url_queue (st_db st')) ->
        q_site r = key site_cfg -> q_url r = q_url row ->
        q_status r = "blocked" /\ q_blocked r = 1
        /\ q_last_http_status r = Some 200)
  /\ (forall r,
        In r (url_queue (fst (reset_errors (st_db st') (key site_cfg) later))) ->
        q_site r = key site_cfg -> q_url r = q_url row ->
        q_status r = "pending" /\ q_blocked r = 0 /\ q_last_error r = None
        /\ q_last_http_status r = Some 200
        /\ exists r0, In r0 (url_queue (st_db st))
                      /\ q_attempts r = q_attempts r0 + 1).
Proof.
  intros Hfetch Hblock st'.
  assert (E : st_db st'
              = set_url_status (st_db st) (key site_cfg) (q_url row) "blocked"
                  (Some 200) true (Some "captcha_or_block")
                  (env_clock env (st_tick st))).
  { subst st'. unfold crawl_url.
    destruct (get_text env retries (q_url row)) as [fetched sleeps].
    cbn [fst] in Hfetch. subst fetched. rewrite Hblock. reflexivity. }
  split; [exact E|]. rewrite E. split.
  - intros r Hin Hs Hu.
    destruct (set_url_status_row _ _ _ _ _ _ _ _ r Hin Hs Hu)
      as (H1 & H2 & _ & _ & r0 & _ & _ & _ & _ & H3 & _).
    auto.
  - intros r Hin Hs Hu. unfold reset_errors in Hin. cbn [fst url_queue with_url_queue] in Hin.
    apply in_map_iff in Hin as (r1 & Hr & Hin).
    assert (K : q_site r1 = key site_cfg /\ q_url r1 = q_url row).
    { destruct (resets (key site_cfg) r1); subst r; cbn in *; auto. }
    destruct K as [K1 K2].
    destruct (set_url_status_row _ _ _ _ _ _ _ _ r1 Hin K1 K2)
      as (H1 & H2 & _ & _ & r0 & Hr0 & _ & _ & Ha & H3 & _).
    assert (R : resets (key site_cfg) r1 = true).
    { unfold resets. rewrite K1, H1, String.eqb_refl. reflexivity. }
    rewrite R in Hr. subst r. cbn. repeat split; auto.
    exists r0. auto.
Qed.

(** X25.  When the fetch of a row fails otherwise than with HTTP status 404
    or 410, the round only sets the row to 'error' with the text of
    [safe_exc]: the HTTP status is recorded for an HTTP error, and the
    status recorded before is kept for any other exception. *)
Theorem crawl_url_fetch_error (site_cfg : SiteConfig) (retries max_depth : Z)
    (discover_links : bool) (st : state) (row : QueueItem) (exc : exn) :
  fst (get_text env retries (q_url row)) = Raise exc ->
  (forall code text, exc = HTTPError code text -> code <> 404 /\ code <> 410) ->
  let st' := crawl_url env site_cfg retries max_depth discover_links st row in
  st_db st'
  = set_url_status (st_db st) (key site_cfg) (q_url row) "error"
      (match exc with HTTPError code _ => Some code | Exception _ => None end)
      false (Some (safe_exc exc)) (env_clock env (st_tick st))
  /\ (forall r, In r (url_queue (st_db st')) ->
        q_site r = key site_cfg -> q_url r = q_url row ->
        q_status r = "error" /\ q_last_error r = Some (safe_exc exc)
        /\ exists r0, In r0 (url_queue (st_db st))
             /\ q_site r0 = key site_cfg /\ q_url r0 = q_url row
             /\ q_attempts r = q_attempts r0 + 1
             /\ q_last_http_status r
                = match exc with
                  | HTTPError code _ => Some code
                  | Exception _ => q_last_http_status r0
                  end)
  /\ st_trace st' = (st_trace st ++ snd (get_text env retries (q_url row)))%list.
Proof.
  intros Hfetch Hcode st'.
  assert (E : st' = mark env site_cfg (q_url row) "error"
                      (match exc with HTTPError code _ => Some code
                                    | Exception _ => None end)
                      false (Some (safe_exc exc))
                      (slept st (snd (get_text env retries (q_url row))))).
  { subst st'. unfold crawl_url.
    destruct (get_text env retries (q_url row)) as [fetched sleeps].
    cbn [fst snd] in *. subst fetched. unfold on_exception.
    destruct exc as [code text|text]; [|reflexivity].
    destruct (Hcode code text eq_refl) as [H1 H2].
    apply Z.eqb_neq in H1, H2. now rewrite H1, H2. }
  rewrite E. unfold mark, stamped, slept. cbn [st_db st_tick st_trace].
  split; [reflexivity|]. split; [|reflexivity].
  intros r Hin Hs Hu.
  destruct (set_url_status_row _ _ _ _ _ _ _ _ r Hin Hs Hu)
    as (H1 & _ & H2 & _ & r0 & Hr0 & S0 & U0 & Ha & H3 & _).
  split; [exact H1|]. split; [exact H2|].
  exists r0. repeat split; auto. rewrite H3. destruct exc; reflexivity.
Qed.

End Rounds.

Section Seeding.

Variable env : Environment.

(** ** Sitemap parsing and the seeds of the sitemap queue *)



Lemma enqueue_sitemap_shape (db : IndexDb) (site url : string)
    (discovered_from : option string) (now : string) :
  exists added,
    sitemaps (enqueue_sitemap db site url discovered_from now)
    = (sitemaps db ++ added)%list
    /\ (added = []
        \/ added = [mkSitemap site url "pending" discovered_from None 0 None now])
    /\ (exists row, In row (sitemaps (enqueue_sitemap db site url
                                        discovered_from now))
                    /\ sm_site row = site /\ sm_url row = url)
    /\ url_queue (enqueue_sitemap db site url discovered_from now) = url_queue db
    /\ products (enqueue_sitemap db site url discovered_from now) = products db
    /\ sku_index (enqueue_sitemap db site url discovered_from now) = sku_index db.
Proof.
  unfold enqueue_sitemap.
  destruct (existsb (sitemap_key site url) (sitemaps db)) eqn:E.
  - exists []. rewrite app_nil_r. repeat split; auto.
    apply existsb_sitemap_key in E as (r & Hr & Hs & Hu). now exists r.
  - eexists. cbn. split; [reflexivity|]. repeat split; auto.
    eexists. split; [apply in_or_app; right; left; reflexivity|]. auto.
Qed.

Lemma seeds_only_refl (site_cfg : SiteConfig) (db : IndexDb) :
  seeds_only site_cfg db db.
Proof.
  split; [|auto]. exists []. split; [now rewrite app_nil_r | constructor].
Qed.

Lemma seeds_only_trans (site_cfg : SiteConfig) (a b c : IndexDb) :
  seeds_only site_cfg a b -> seeds_only site_cfg b c -> seeds_only site_cfg a c.
Proof.
  intros ((x & Ex & Fx) & Q1 & P1 & X1) ((y & Ey & Fy) & Q2 & P2 & X2).
  split; [|repeat split; congruence].
  exists (x ++ y)%list. split; [now rewrite Ey, Ex, app_assoc|].
  apply Forall_app. auto.
Qed.

Lemma seeds_only_enqueue (site_cfg : SiteConfig) (db : IndexDb) (url : string)
    (discovered_from : option string) (now : string) :
  (discovered_from = None
   \/ exists candidate,
        discovered_from = Some candidate
        /\ In candidate (sitemap_candidates site_cfg)
        /\ endswith "robots.txt" candidate = true) ->
  seeds_only site_cfg db
    (enqueue_sitemap db (key site_cfg) url discovered_from now).
Proof.
  intros Hd.
  destruct (enqueue_sitemap_shape db (key site_cfg) url discovered_from now)
    as (added & E & Ha & _ & Q & P & X).
  split; [|auto]. exists added. split; [exact E|].
  destruct Ha as [-> | ->]; constructor; [|constructor].
  unfold seeded. cbn. repeat split; auto.
Qed.

Lemma seeds_only_keeps (site_cfg : SiteConfig) (db db' : IndexDb)
    (row : SitemapRecord) :
  seeds_only site_cfg db db' -> In row (sitemaps db) -> In row (sitemaps db').
Proof.
  intros ((added & E & _) & _) H. rewrite E. apply in_or_app. now left.
Qed.

Lemma enqueue_robots_sitemaps_seeds (site_cfg : SiteConfig) (candidate : string)
    (urls : list string) :
  In candidate (sitemap_candidates site_cfg) ->
  endswith "robots.txt" candidate = true ->
  forall st,
    seeds_only site_cfg (st_db st)
      (st_db (fst (enqueue_robots_sitemaps env site_cfg candidate st urls))).
Proof.
  intros Hc Hr. induction urls as [|u rest IH]; intros st;
    cbn [enqueue_robots_sitemaps]; [apply seeds_only_refl|].
  destruct (strip_query_and_fragment env u) as [clean|e];
    [|apply seeds_only_refl].
  eapply seeds_only_trans; [|apply IH].
  unfold stamped. cbn [st_db]. apply seeds_only_enqueue.
  right. now exists candidate.
Qed.

Lemma seed_candidate_spec (site_cfg : SiteConfig) (retries : Z) (st : state)
    (candidate : string) :
  In candidate (sitemap_candidates site_cfg) ->
  (endswith "robots.txt" candidate = true ->
   exists st',
     seed_candidate env site_cfg retries st candidate = Ok st'
     /\ seeds_only site_cfg (st_db st) (st_db st')
     /\ ((exists e, fst (get_text env retries candidate) = Raise e) ->
         st_db st' = st_db st))
  /\ (endswith "robots.txt" candidate = false ->
      forall clean, strip_query_and_fragment env candidate = Ok clean ->
      exists st',
        seed_candidate env site_cfg retries st candidate = Ok st'
        /\ seeds_only site_cfg (st_db st) (st_db st')
        /\ exists row, In row (sitemaps (st_db st'))
                       /\ sm_site row = key site_cfg /\ sm_url row = clean).
Proof.
  intros Hc. unfold seed_candidate. split.
  - intros Hr. rewrite Hr.
    destruct (get_text env retries candidate) as [fetched sleeps]. cbn [fst].
    destruct fetched as [[text hs]|e].
    + destruct (parse_robots_for_sitemaps text) as [urls|e].
      * eexists. split; [reflexivity|]. split.
        -- apply (enqueue_robots_sitemaps_seeds site_cfg candidate urls Hc Hr
                    (slept st sleeps)).
        -- intros (e & He). discriminate.
      * eexists. split; [reflexivity|]. split; [apply seeds_only_refl | auto].
    + eexists. split; [reflexivity|]. split; [apply seeds_only_refl | auto].
  - intros Hr clean Hs. rewrite Hr, Hs. cbn [bind].
    eexists. split; [reflexivity|]. unfold stamped. cbn [st_db]. split.
    + apply seeds_only_enqueue. now left.
    + destruct (enqueue_sitemap_shape (st_db st) (key site_cfg) clean None
                  (env_clock env (st_tick st)))
        as (_ & _ & _ & Hrow & _). exact Hrow.
Qed.

(** X27.  Seeding the sitemap queue cannot fail on robots.txt: whatever is
    raised while it is fetched, decoded or read is dropped, and a fetch
    that fails changes no table.  Provided the other candidates can be
    normalised, seeding returns; it only appends pending rows of the site
    to the sitemap table, leaving the rows there and the other tables as
    they were, and afterwards the table holds every candidate other than
    robots.txt under its normalised address. *)
Theorem seed_sitemaps_spec (site_cfg : SiteConfig) (retries : Z) (st : state) :
  (forall c, In c (sitemap_candidates site_cfg) ->
             endswith "robots.txt" c = false ->
             exists clean, strip_query_and_fragment env c = Ok clean) ->
  exists st',
    seed_sitemaps env site_cfg retries st (sitemap_candidates site_cfg) = Ok st'
    /\ seeds_only site_cfg (st_db st) (st_db st')
    /\ (forall c clean,
          In c (sitemap_candidates site_cfg) ->
          endswith "robots.txt" c = false ->
          strip_query_and_fragment env c = Ok clean ->
          exists row, In row (sitemaps (st_db st'))
                      /\ sm_site row = key site_cfg /\ sm_url row = clean)
    /\ ((forall c, In c (sitemap_candidates site_cfg) ->
                   endswith "robots.txt" c = true ->
                   exists e, fst (get_text env retries c) = Raise e) ->
        forall r, In r (sitemaps (st_db st')) ->
                  In r (sitemaps (st_db st)) \/ sm_discovered_from r = None).
Proof.
  intros Hnorm.
  assert (G : forall cs, incl cs (sitemap_candidates site_cfg) ->
            forall st0,
            exists st',
              seed_sitemaps env site_cfg retries st0 cs = Ok st'
              /\ seeds_only site_cfg (st_db st0) (st_db st')
              /\ (forall c clean, In c cs ->
                    endswith "robots.txt" c = false ->
                    strip_query_and_fragment env c = Ok clean ->
                    exists row, In row (sitemaps (st_db st'))
                                /\ sm_site row = key site_cfg
                                /\ sm_url row = clean)
              /\ ((forall c, In c cs -> endswith "robots.txt" c = true ->
                     exists e, fst (get_text env retries c) = Raise e) ->
                  forall r, In r (sitemaps (st_db st')) ->
                            In r (sitemaps (st_db st0))
                            \/ sm_discovered_from r = None)).
  { induction cs as [|c rest IH]; intros Hincl st0; cbn [seed_sitemaps].
    - exists st0. split; [reflexivity|]. split; [apply seeds_only_refl|].
      split; [intros c clean []|]. auto.
    - assert (Hc : In c (sitemap_candidates site_cfg)) by (apply Hincl; now left).
      assert (Hrest : incl rest (sitemap_candidates site_cfg))
        by (intros x Hx; apply Hincl; now right).
      destruct (seed_candidate_spec site_cfg retries st0 c Hc) as [Hrob Hplain].
      destruct (endswith "robots.txt" c) eqn:R.
      + destruct (Hrob eq_refl) as (st1 & E1 & S1 & F1). rewrite E1. cbn [bind].
        destruct (IH Hrest st1) as (st' & E & S & Hrows & Hfail).
        exists st'. split; [exact E|].
        split; [eapply seeds_only_trans; eauto|]. split.
        * intros c0 clean [<-|Hin] Hr Hs; [congruence|]. eapply Hrows; eauto.
        * intros Hall r Hr.
          destruct (Hfail (fun c0 H0 => Hall c0 (or_intror H0)) r Hr) as [H|H];
            [|now right].
          left. rewrite (F1 (Hall c (or_introl eq_refl) R)) in H. exact H.
      + destruct (Hnorm c Hc R) as (clean & Hclean).
        destruct (Hplain eq_refl clean Hclean) as (st1 & E1 & S1 & row & Hrow & K1 & K2).
        rewrite E1. cbn [bind].
        destruct (IH Hrest st1) as (st' & E & S & Hrows & Hfail).
        exists st'. split; [exact E|].
        split; [eapply seeds_only_trans; eauto|]. split.
        * intros c0 clean0 [<-|Hin] Hr Hs.
          -- assert (clean0 = clean) by congruence. subst clean0.
             exists row. split; [eapply seeds_only_keeps; eauto | auto].
          -- eapply Hrows; eauto.
        * intros Hall r Hr.
          destruct (Hfail (fun c0 H0 => Hall c0 (or_intror H0)) r Hr) as [H|H];
            [|now right].
          unfold seed_candidate in E1. rewrite R, Hclean in E1. cbn [bind] in E1.
          injection E1 as <-. unfold stamped in H. cbn [st_db] in H.
          destruct (enqueue_sitemap_shape (st_db st0) (key site_cfg) clean None
                      (env_clock env (st_tick st0))) as (added & Ea & Ha & _).
          rewrite Ea in H. apply in_app_or in H as [H|H]; [now left|].
          destruct Ha as [-> | ->]; [destruct H|].
          destruct H as [<-|[]]. now right. }
  apply G. apply incl_refl.
Qed.

End Seeding.

Section Urls.

Variable env : Environment.

(** ** What a normalised address is made of *)

Lemma plain_text_app (a b : string) :
  plain_text (a ++ b) <-> plain_text a /\ plain_text b.
Proof.
  unfold plain_text. rewrite all_chars_app, !has_char_app, andb_true_iff,
    !orb_false_iff. tauto.
Qed.

Lemma plain_text_cons (c : ascii) (s : string) :
  plain_text (String c s) <-> plain_text (String c "") /\ plain_text s.
Proof. apply (plain_text_app (String c "") s). Qed.

Lemma scheme_char_plain (c : ascii) :
  scheme_char c = true ->
  is_safe_byte c = true /\ Ascii.eqb c "?" = false /\ Ascii.eqb c "#" = false.
Proof. by_ascii_cases c. Qed.

Lemma not_delim_plain (c : ascii) :
  negb (is_netloc_delim c) = true ->
  Ascii.eqb c "?" = false /\ Ascii.eqb c "#" = false.
Proof. by_ascii_cases c. Qed.

Lemma valid_scheme_plain (s : string) : valid_scheme s -> plain_text s.
Proof.
  intros [->|(c0 & t & -> & _ & H & _)]; [repeat split|].
  revert H. generalize (String c0 t). clear. intros s.
  induction s as [|c s IH]; [repeat split|].
  cbn [all_chars]. intros H. apply andb_true_iff in H as [Hc Hs].
  destruct (scheme_char_plain c Hc) as (H1 & H2 & H3).
  destruct (IH Hs) as (I1 & I2 & I3).
  unfold plain_text. cbn [all_chars has_char]. now rewrite H1, H2, H3, I1, I2, I3.
Qed.

Lemma plain_text_prefix (a b : string) :
  plain_text (a ++ b) -> plain_text a.
Proof. intros H. now apply plain_text_app in H. Qed.

Lemma urlsplit_plain (u : string) (sp : SplitResult) :
  urlsplit env u = Ok sp ->
  plain_text (s_scheme sp) /\ plain_text (s_netloc sp)
  /\ plain_text (s_path sp).
Proof.
  unfold urlsplit.
  pose proof (filter_str_all is_safe_byte (lstrip_by is_c0_or_space u)) as Hsafe.
  destruct (split_scheme (filter_str is_safe_byte (lstrip_by is_c0_or_space u)))
    as [sch rest] eqn:Es.
  destruct (split_scheme_spec _ _ _ Es) as [Hv Hrs]. specialize (Hrs Hsafe).
  assert (Hpath : forall rest', all_chars is_safe_byte rest' = true ->
            forall a frag b qry,
              split_once "#" rest' = (a, frag) -> split_once "?" a = (b, qry) ->
              plain_text b).
  { intros rest' Hr a frag b qry Ea Eq.
    apply split_once_spec in Ea, Eq.
    destruct Ea as [Hah Ea], Eq as [Hbq Eq].
    assert (Hba : exists t, a = b ++ t).
    { destruct Eq as [[-> _] | ->]; [exists ""; now rewrite append_nil_r | eauto]. }
    assert (Har : exists t, rest' = a ++ t).
    { destruct Ea as [[-> _] | ->]; [exists ""; now rewrite append_nil_r | eauto]. }
    destruct Hba as (t1 & ->), Har as (t2 & ->).
    rewrite has_char_app in Hah. apply orb_false_iff in Hah as [Hbh _].
    rewrite !all_chars_app in Hr.
    apply andb_true_iff in Hr as [Hr _]. apply andb_true_iff in Hr as [Hb _].
    repeat split; assumption. }
  destruct (split_netloc rest) as [[nl rest']|] eqn:En.
  - destruct (split_netloc_Some _ _ _ En) as (-> & Hd & _).
    destruct (unbalanced_brackets nl); [discriminate|].
    destruct (split_once "#" rest') as [a frag] eqn:Ea.
    destruct (split_once "?" a) as [b qry] eqn:Eq.
    destruct (env_netloc_error env nl); [discriminate|].
    intros H. injection H as <-. cbn [s_scheme s_netloc s_path].
    cbn [append] in Hrs. rewrite !all_chars_cons, all_chars_app in Hrs.
    apply andb_true_iff in Hrs as [_ Hrs]. apply andb_true_iff in Hrs as [_ Hrs].
    apply andb_true_iff in Hrs as [Hnsafe Hrsafe].
    split; [now apply valid_scheme_plain|]. split.
    + split; [exact Hnsafe|]. clear - Hd.
      induction nl as [|c nl IH]; [split; reflexivity|].
      cbn [all_chars] in Hd. apply andb_true_iff in Hd as [Hc Hd].
      destruct (not_delim_plain c Hc) as [H1 H2]. destruct (IH Hd) as [I1 I2].
      cbn [has_char]. now rewrite H1, H2, I1, I2.
    + eapply Hpath; eauto.
  - cbn [unbalanced_brackets has_char andb orb negb].
    destruct (split_once "#" rest) as [a frag] eqn:Ea.
    destruct (split_once "?" a) as [b qry] eqn:Eq.
    destruct (env_netloc_error env ""); [discriminate|].
    intros H. injection H as <-. cbn [s_scheme s_netloc s_path].
    split; [now apply valid_scheme_plain|]. split; [repeat split|].
    eapply Hpath; eauto.
Qed.

Lemma drop_last_prefix (s : string) : exists t, s = drop_last s ++ t.
Proof.
  induction s as [|a s (t & IH)]; [now exists ""|].
  destruct s as [|b s]; [now exists (String a "")|].
  exists t. cbn [drop_last append] in *. now rewrite <- IH.
Qed.

(** X28.  The address [strip_query_and_fragment] returns holds no "?" and
    no "#", hence no query and no fragment, and no TAB, CR or LF. *)
Theorem strip_query_and_fragment_plain (url normalized : string) :
  strip_query_and_fragment env url = Ok normalized ->
  has_char "?" normalized = false /\ has_char "#" normalized = false
  /\ all_chars is_safe_byte normalized = true.
Proof.
  unfold strip_query_and_fragment. rewrite urlparse_unfold.
  destruct (urlsplit env url) as [sp|e] eqn:Es; [|discriminate].
  cbn [bind scheme netloc path params].
  destruct (urlsplit_plain _ _ Es) as (Hs & Hn & Hp).
  set (pp := split_params_of _ _).
  assert (Hpp : plain_text (fst pp) /\ plain_text (snd pp)).
  { unfold pp, split_params_of.
    destruct (mem_str (s_scheme sp) uses_params && has_char ";" (s_path sp))%bool;
      [|split; [exact Hp | repeat split]].
    destruct (splitparams (s_path sp)) as [p q] eqn:E.
    destruct (splitparams_cases _ _ _ E) as [[E1 ->] | [E1 _]]; cbn [fst snd].
    - rewrite <- E1. split; [exact Hp | repeat split].
    - rewrite E1 in Hp. apply plain_text_app in Hp as [H1 H2].
      apply plain_text_cons in H2 as [_ H2]. auto. }
  destruct Hpp as [Hp1 Hp2].
  assert (G : plain_text
                (geturl (mkParse (s_scheme sp) (s_netloc sp) (fst pp) (snd pp) "" ""))).
  { unfold geturl, urlunsplit. cbn [scheme netloc path params query fragment truthy].
    set (body := if truthy (snd pp) then fst pp ++ ";" ++ snd pp else fst pp).
    assert (Hb : plain_text body).
    { unfold body. destruct (truthy (snd pp)); [|exact Hp1].
      apply plain_text_app. split; [exact Hp1|]. apply plain_text_app.
      split; [repeat split | exact Hp2]. }
    set (u1 := if (truthy (s_netloc sp) || _)%bool then _ else body).
    assert (H1 : plain_text u1).
    { unfold u1. destruct (truthy (s_netloc sp) || _)%bool; [|exact Hb].
      apply plain_text_app. split; [repeat split|].
      apply plain_text_app. split; [exact Hn|].
      destruct (truthy body && negb (startswith "/" body))%bool; [|exact Hb].
      apply plain_text_cons. split; [repeat split | exact Hb]. }
    destruct (truthy (s_scheme sp)); [|exact H1].
    apply plain_text_app. split; [exact Hs|]. apply plain_text_app.
    split; [repeat split | exact H1]. }
  assert (R : forall s, plain_text s ->
            has_char "?" s = false /\ has_char "#" s = false
            /\ all_chars is_safe_byte s = true)
    by (intros s (A & B & C); auto).
  destruct (trailing_slash_rule _ _); intros [= <-]; apply R; [|exact G].
  destruct (drop_last_prefix
              (geturl (mkParse (s_scheme sp) (s_netloc sp) (fst pp) (snd pp) "" "")))
    as (t & Et).
  rewrite Et in G. now apply plain_text_prefix in G.
Qed.

(** X29.  A SKU read from a twinset.com address is in upper case and made
    of letters and digits only, at least seven of them: three digits, two
    to five letters, then two letters or digits or more; up to letter
    case it stands in the address after a "-" and before ".html" or "_". *)
Theorem extract_twinset_com_sku_from_url_sound (url sku : string) :
  extract_twinset_com_sku_from_url url = Some sku ->
  upper sku = sku
  /\ all_chars is_alnum sku = true
  /\ (7 <= String.length sku)%nat
  /\ all_chars is_digit (substring 0 3 sku) = true
  /\ all_chars is_alpha (substring 3 2 sku) = true
  /\ exists before token rest,
       url = before ++ String "-" (token ++ rest)
       /\ upper token = sku
       /\ (startswith ".html" (lower rest) = true
           \/ startswith "_" rest = true).
Proof.
  intros H. destruct (extract_sku_spec url) as [Hs _].
  destruct (Hs sku H) as (before & g & t & Hurl & Htok & Htail & ->).
  destruct Htok as (d & l & a & -> & Hd & Hdd & Hl & Hll & Ha & Haa).
  assert (Up : forall p s, (forall c, p (upper_char c) = p c) ->
                           all_chars p (upper s) = all_chars p s).
  { intros p s Hp. unfold upper. induction s as [|c s IH]; [reflexivity|].
    cbn [map_str all_chars]. now rewrite Hp, IH. }
  assert (U1 : forall c, is_digit (upper_char c) = is_digit c)
    by (intros c; by_ascii_cases c).
  assert (U2 : forall c, is_alpha (upper_char c) = is_alpha c)
    by (intros c; by_ascii_cases c).
  assert (U3 : forall c, is_alnum (upper_char c) = is_alnum c)
    by (intros c; by_ascii_cases c).
  assert (D3 : forall c, is_digit c = true -> is_alnum c = true)
    by (intros c; by_ascii_cases c).
  assert (A3 : forall c, is_alpha c = true -> is_alnum c = true)
    by (intros c; by_ascii_cases c).
  split; [apply upper_idem|]. split.
  { rewrite (Up _ _ U3), !all_chars_app.
    rewrite (all_chars_impl _ _ d D3 Hdd), (all_chars_impl _ _ l A3 Hll), Haa.
    reflexivity. }
  assert (Len : forall s, String.length (upper s) = String.length s).
  { intros s. unfold upper. induction s; simpl; auto. }
  assert (La : forall x y, String.length (x ++ y) = (String.length x + String.length y)%nat).
  { intros x y. induction x; simpl; auto. }
  split; [rewrite Len, !La; lia|].
  do 4 (destruct d as [|? d]; try (simpl in Hd; lia)).
  destruct l as [|l1 [|l2 l]]; try (simpl in Hl; lia).
  cbn [all_chars] in Hdd, Hll.
  apply andb_true_iff in Hdd as [Hd0 Hdd]. apply andb_true_iff in Hdd as [Hd1 Hdd].
  apply andb_true_iff in Hdd as [Hd2 _].
  apply andb_true_iff in Hll as [Hl1 Hll]. apply andb_true_iff in Hll as [Hl2 Hll].
  split.
  { unfold upper. cbn [map_str append substring all_chars].
    assert (S0 : forall s, substring 0 0 s = "") by (intros []; reflexivity).
    rewrite ?S0. now rewrite !U1, Hd0, Hd1, Hd2. }
  split.
  { unfold upper. cbn [map_str append substring all_chars].
    assert (S0 : forall s, substring 0 0 s = "") by (intros []; reflexivity).
    rewrite ?S0. now rewrite !U2, Hl1, Hl2. }
  exists before, (String a0 (String a1 (String a2 "")) ++ String l1 (String l2 l) ++ a), t.
  split; [exact Hurl|]. split; [reflexivity|].
  destruct Htail as (suffix & ext & eol & -> & Hsuf & Hext & _).
  destruct Hsuf as [-> | (x & -> & _)].
  - left. cbn [append]. unfold lower. rewrite map_str_app. fold (lower ext).
    rewrite Hext. reflexivity.
  - right. reflexivity.
Qed.

End Urls.

(* ================================================================== *)
(** * Part V. Examples for Part IV                                     *)
(* ================================================================== *)

(** ** Embedded JavaScript values *)

Lemma extract_js_value_balanced_witness :
  shortest_balanced "{" "}" "{[{}]} ;" "{[{}]}".
Proof.
  apply (extract_js_value_balanced "window.vueProduct = {[{}]} ;"
           "window.vueProduct =" "" " " "[{}]} ;" "{[{}]}" "{" "}");
    try reflexivity.
  split; reflexivity.
Defined.

Lemma scan_value_skips_literal_witness :
  scan_value "{" "}" (mkScan 1 false false "") "'}\'{'}; x = {}"
  = Some "'}\'{'}".
Proof.
  refine (eq_trans
            (scan_value_skips_literal "{" "}" "'" 1 "}\'{" "}; x = {}"
               (or_introl eq_refl) _)
            eq_refl).
  repeat first [ apply literal_nil
               | apply literal_plain; [discriminate | discriminate |]
               | apply literal_escape ].
Defined.

Example extract_js_value_ex :
  extract_js_value
    "<script>window.vueProduct = [{'name': 'a]b', 'colors': []}];</script>"
    "window.vueProduct ="
  = Some "[{'name': 'a]b', 'colors': []}]".
Proof. reflexivity. Qed.

(** ** robots.txt *)

Lemma parse_robots_for_sitemaps_line_witness :
  parse_robots_for_sitemaps " SiteMap: https://twinset.ru/sitemap.xml  "
  = Ok ["https://twinset.ru/sitemap.xml"].
Proof.
  apply (parse_robots_for_sitemaps_line " " "SiteMap" " "
           "https://twinset.ru/sitemap.xml" "  ");
    try reflexivity.
  discriminate.
Defined.

Example parse_robots_for_sitemaps_ex :
  parse_robots_for_sitemaps
    ("User-agent: *" ++ String "010"
       ("Disallow: /bitrix/" ++ String "013" (String "010"
          ("sitemap:https://twinset.ru/sitemap.xml?x=1" ++ String "010"
             ("Sitemap: https://twinset.ru/sitemap.xml?x=1" ++ String "010"
                "Sitemap:")))))
  = Ok ["https://twinset.ru/sitemap.xml?x=1"].
Proof. reflexivity. Qed.

(** ** The HTTP client *)

Lemma get_bytes_spec_witness :
  get_bytes flaky 3 "https://twinset.ru/catalog/"
  = (Ok ("ok", [("content-type", "text/html")]), [Backoff 1; Backoff 2]).
Proof.
  apply (get_bytes_spec flaky 3 "https://twinset.ru/catalog/" 3).
  - lia.
  - intros j Hj. assert (E : j = 1 \/ j = 2) by lia.
    destruct E as [-> | ->]; reflexivity.
  - left. reflexivity.
Defined.

Example get_bytes_gives_up :
  get_bytes flaky 2 "https://twinset.ru/catalog/"
  = (Raise (HTTPError 503 "HTTP Error 503: Service Unavailable"), [Backoff 1])
  /\ get_bytes flaky 0 "https://twinset.ru/catalog/"
     = (Raise (Exception "HTTP failed for https://twinset.ru/catalog/: None"), []).
Proof. split; reflexivity. Qed.


(** ** The store *)

Lemma two_rows_keys_unique : keys_unique two_rows.
Proof.
  unfold keys_unique, two_rows; cbn.
  repeat split;
    repeat (apply NoDup_cons; [cbn; intuition discriminate|]); apply NoDup_nil.
Qed.

Lemma store_keeps_keys_unique_witness :
  keys_unique
    (upsert_product two_rows "twinset.ru" "https://twinset.ru/catalog/a/1/"
       (Some "241TP2130") None None "{}" "t8" "t9").
Proof.
  apply (store_keeps_keys_unique two_rows).
  exact two_rows_keys_unique.
Defined.

Lemma set_url_status_twice_witness :
  nth_error
    (url_queue
       (set_url_status
          (set_url_status two_rows "twinset.ru" "https://twinset.ru/catalog/a/1/"
             "error" (Some 503) false (Some "HTTP Error 503") "t8")
          "twinset.ru" "https://twinset.ru/catalog/a/1/"
          "error" None false (Some "timed out") "t9")) 0
  = Some (mkQueueItem "twinset.ru" "https://twinset.ru/catalog/a/1/" "product"
            "error" 1 None 4 (Some 503) 0 (Some "timed out") "t9").
Proof.
  apply (set_url_status_twice two_rows "twinset.ru"
           "https://twinset.ru/catalog/a/1/" "error" "error" (Some 503) None
           false false (Some "HTTP Error 503") (Some "timed out") "t8" "t9"
           0%nat _ eq_refl).
  split; reflexivity.
Defined.

Example stats_ex :
  let s := stats two_rows "twinset.ru" in
  stats_url_queue s "error" = 1 /\ stats_url_queue s "blocked" = 0
  /\ stats_url_queue (stats (fst (reset_errors two_rows "twinset.ru" "t9"))
                        "twinset.ru") "pending" = 1.
Proof. repeat split. Qed.

Example cli_articles_ex :
  cli_articles "241tp2130, 242TT2041 ,, 241TP2130 ,x  y"
  = ["241TP2130"; "242TT2041"; "X Y"].
Proof. reflexivity. Qed.

Example match_summary_ex :
  match_summary variants ["abc123"; " Abc123 "; ""; "none1"]
  = mkSummary 2 1 1.
Proof. reflexivity. Qed.

(** ** The crawl loops *)

Lemma crawl_leaves_other_sites_witness :
  exists st' n,
    crawl_urls offline 5 twinset_ru 1 0.5 1.5 None 2 true pending_state
    = Some (Ok (st', n))
    /\ other_sites "twinset.ru" (st_db st')
       = other_sites "twinset.ru" three_pending.
Proof.
  destruct (crawl_urls offline 5 twinset_ru 1 0.5 1.5 None 2 true pending_state)
    as [[[st' n]|e]|] eqn:E; try (vm_compute in E; discriminate E).
  exists st', n. split; [reflexivity|].
  exact (crawl_leaves_other_sites offline 5 twinset_ru 1 0.5%float 1.5%float
           None 2 true pending_state st' n (or_intror E)).
Defined.

Lemma three_pending_keys_unique : keys_unique three_pending.
Proof.
  unfold keys_unique, three_pending; cbn.
  repeat split;
    repeat (apply NoDup_cons; [cbn; intuition discriminate|]); apply NoDup_nil.
Qed.

Lemma run_crawl_keeps_store_consistent_witness :
  exists st',
    run_crawl offline 5 "twinset.ru" true 1 0.5 1.5 None None 2 true
      pending_state
    = Some (Ok st')
    /\ keys_unique (st_db st')
    /\ other_sites "twinset.ru" (st_db st')
       = other_sites "twinset.ru" three_pending.
Proof.
  destruct (run_crawl offline 5 "twinset.ru" true 1 0.5 1.5 None None 2 true
              pending_state)
    as [[st'|e]|] eqn:E; try (vm_compute in E; discriminate E).
  exists st'. split; [reflexivity|].
  destruct (run_crawl_keeps_store_consistent offline 5 "twinset.ru" true 1
              0.5%float 1.5%float None None 2 true pending_state st' E)
    as (K & _ & O).
  split; [exact (K three_pending_keys_unique) | apply O; discriminate].
Defined.

Example run_crawl_offline_ex :
  match run_crawl offline 5 "both" false 1 0.5 1.5 None None 2 true
          pending_state with
  | Some (Ok st') =>
      (map sm_status (sitemaps (st_db st')),
       map q_status (url_queue (st_db st')))
  | _ => ([], [])
  end
  = (["error"; "error"],
     ["error"; "error"; "error"; "error"; "error"; "error"]).
Proof. vm_compute. reflexivity. Qed.

(** With [--delay-max 0] the loops do not pause; with a negative
    [--delay-min] the first pause ends the run. *)
Example run_crawl_delays_ex :
  match run_crawl offline 5 "twinset.ru" false 1 0 0 None None 2 true
          pending_state with
  | Some (Ok st') => Some (st_trace st')
  | _ => None
  end
  = Some []
  /\ run_crawl offline 5 "twinset.ru" false 1 (-1) 0.5 None None 2 true
       pending_state
     = Some (Raise (Exception "sleep length must be non-negative")).
Proof. split; vm_compute; reflexivity. Qed.

(** On a site whose pages link to two categories the loop adds these at
    depth 1 and, with [max_depth] 1, follows no link of theirs. *)
Lemma crawl_urls_depth_bound_witness :
  exists st' n,
    crawl_urls_loop linked_site 10 twinset_ru 1 0.5 1.5 None 1 true 0
      pending_state
    = Some (Ok (st', n))
    /\ map (fun r => (q_url r, q_depth r)) (url_queue (st_db st'))
       = [ ("https://twinset.ru/catalog/a/1/", 1);
           ("https://twinset.ru/catalog/b/", 0);
           ("https://twinset.ru/catalog/c/", 0);
           ("https://www.twinset.com/row/women", 0);
           ("https://twinset.ru/catalog/dresses/", 1);
           ("https://twinset.ru/catalog/skirts/", 1) ]
    /\ forall r, In r (url_queue (st_db st')) -> q_depth r <= 1.
Proof.
  destruct (crawl_urls_loop linked_site 10 twinset_ru 1 0.5 1.5 None 1 true 0
              pending_state)
    as [[[st' n]|e]|] eqn:E; try (vm_compute in E; discriminate E).
  pose proof E as E'. vm_compute in E'. injection E' as <- <-.
  eexists _, _. split; [reflexivity|]. split; [reflexivity|].
  apply (crawl_urls_depth_bound linked_site 10 twinset_ru 1 0.5%float 1.5%float
           None 1 true 0 pending_state _ _ E).
  cbn. intros r H.
  repeat (destruct H as [<- | H]; [cbn; lia|]). destruct H.
Defined.

Lemma crawl_urls_terminates_witness :
  exists st' n,
    crawl_urls_loop offline 3 twinset_ru 1 0.5 1.5 None 2 false 0 pending_state
    = Some (Ok (st', n))
    /\ 0 <= n
    /\ n - 0 <= Z.of_nat (List.length (crawlable twinset_ru 2 (st_db pending_state)))
    /\ (crawlable twinset_ru 2 (st_db st') = []
        \/ budget_spent None n = true).
Proof.
  apply (proj1 (crawl_urls_terminates offline twinset_ru 1 0.5%float 1.5%float
                  None 2 3 0 pending_state)).
  - vm_compute. lia.
  - reflexivity.
  - intros _ k _. vm_compute. reflexivity.
Defined.

Example crawl_urls_offline_ex :
  match crawl_urls_loop offline 3 twinset_ru 1 0.5 1.5 None 2 false 0
          pending_state with
  | Some (Ok (st, n)) =>
      Some (map q_status (url_queue (st_db st)), st_trace st, n)
  | _ => None
  end
  = Some (["error"; "error"; "error"; "pending"],
          [Pause 1; Pause 1; Pause 1], 3).
Proof. vm_compute. reflexivity. Qed.

(** A round that finds a block page makes no pause. *)
Example crawl_urls_blocked_ex :
  match crawl_urls_loop challenge_site 5 twinset_ru 1 0.5 1.5 None 2 true 0
          pending_state with
  | Some (Ok (st, n)) =>
      Some (map q_status (url_queue (st_db st)), st_trace st, n)
  | _ => None
  end
  = Some (["blocked"; "blocked"; "blocked"; "pending"], [], 3).
Proof. vm_compute. reflexivity. Qed.

(** The two ways out of the loop by an exception: a [--max-depth] that
    SQLite does not take, and a pause of negative length. *)
Example crawl_urls_raises_ex :
  crawl_urls_loop offline 3 twinset_ru 1 0.5 1.5 None (2 ^ 63) false 0
    pending_state
  = Some (Raise (Exception "Python int too large to convert to SQLite INTEGER"))
  /\ crawl_urls_loop offline 3 twinset_ru 1 0.5 1.5 (Some 0) (2 ^ 63) false 0
       pending_state
     = Some (Ok (pending_state, 0))
  /\ crawl_urls_loop offline 3 twinset_ru 1 (-1) 0.5 None 2 false 0
       pending_state
     = Some (Raise (Exception "sleep length must be non-negative")).
Proof. repeat split; vm_compute; reflexivity. Qed.

Lemma crawl_respects_limit_witness :
  exists st' n,
    crawl_urls_loop offline 5 twinset_ru 1 0.5 1.5 (Some 2) 2 true 0
      pending_state
    = Some (Ok (st', n))
    /\ n <= 2.
Proof.
  destruct (crawl_urls_loop offline 5 twinset_ru 1 0.5 1.5 (Some 2) 2 true 0
              pending_state)
    as [[[st' n]|e]|] eqn:E; try (vm_compute in E; discriminate E).
  exists st', n. split; [reflexivity|].
  apply (proj2 (crawl_respects_limit offline 5 twinset_ru 1 0.5%float 1.5%float
                  (Some 2) 2 true 0 pending_state st' n (or_intror E))
           2 eq_refl).
  lia.
Defined.

Lemma crawl_url_blocked_witness :
  url_queue
    (st_db (crawl_url challenge_site twinset_ru 3 2 true dress_state dress_row))
  = [mkQueueItem "twinset.ru" "https://twinset.ru/catalog/dresses/123/"
       "product" "blocked" 1 (Some "https://twinset.ru/catalog/") 1 (Some 200)
       1 (Some "captcha_or_block") "t1"]
  /\ products
       (st_db (crawl_url challenge_site twinset_ru 3 2 true dress_state dress_row))
     = [].
Proof.
  pose proof (crawl_url_blocked challenge_site twinset_ru 3 2 true dress_state
                dress_row "<html><div id='cf-challenge'>wait</div></html>" []
                "t9" eq_refl eq_refl) as H.
  cbv zeta in H. destruct H as (Hdb & _). rewrite Hdb. split; reflexivity.
Defined.

Lemma crawl_url_fetch_error_witness :
  url_queue (st_db (crawl_url offline twinset_ru 2 2 true dress_state dress_row))
  = [mkQueueItem "twinset.ru" "https://twinset.ru/catalog/dresses/123/"
       "product" "error" 1 (Some "https://twinset.ru/catalog/") 1 None 0
       (Some "HTTP failed for https://twinset.ru/catalog/dresses/123/: <urlopen error timed out>")
       "t1"]
  /\ st_trace (crawl_url offline twinset_ru 2 2 true dress_state dress_row)
     = [Backoff 1].
Proof.
  pose proof (crawl_url_fetch_error offline twinset_ru 2 2 true dress_state
                dress_row
                (Exception "HTTP failed for https://twinset.ru/catalog/dresses/123/: <urlopen error timed out>")
                eq_refl) as H.
  cbv zeta in H. destruct H as (Hdb & _ & Htr); [intros code text E; discriminate E|].
  rewrite Hdb, Htr. split; reflexivity.
Defined.

(** ** Seeding and addresses *)

Lemma seed_sitemaps_spec_witness :
  exists st',
    seed_sitemaps offline twinset_ru 1 (mkState empty_db 0 [])
      (sitemap_candidates twinset_ru) = Ok st'
    /\ exists row, In row (sitemaps (st_db st'))
                   /\ sm_site row = "twinset.ru"
                   /\ sm_url row = "https://twinset.ru/sitemap.xml".
Proof.
  destruct (seed_sitemaps_spec offline twinset_ru 1 (mkState empty_db 0 []))
    as (st' & E & _ & Hrows & _).
  - intros c [<- | [<- | []]] H; [eexists; vm_compute; reflexivity|].
    vm_compute in H. discriminate H.
  - exists st'. split; [exact E|].
    apply (Hrows "https://twinset.ru/sitemap.xml"); [now left | reflexivity|].
    vm_compute. reflexivity.
Defined.

Example seed_sitemaps_ex :
  match seed_sitemaps offline twinset_ru 1 (mkState empty_db 0 [])
          (sitemap_candidates twinset_ru) with
  | Ok st' => map sm_url (sitemaps (st_db st'))
  | Raise _ => []
  end = ["https://twinset.ru/sitemap.xml"].
Proof. vm_compute. reflexivity. Qed.

Lemma strip_query_and_fragment_plain_witness :
  has_char "?" "https://www.twinset.com/row/women" = false
  /\ has_char "#" "https://www.twinset.com/row/women" = false
  /\ all_chars is_safe_byte "https://www.twinset.com/row/women" = true.
Proof.
  apply (strip_query_and_fragment_plain offline
           "https://www.twinset.com/row/women/?page=2#top").
  vm_compute. reflexivity.
Defined.

Lemma extract_twinset_com_sku_from_url_sound_witness :
  upper "241TP2130" = "241TP2130"
  /\ all_chars is_alnum "241TP2130" = true
  /\ (7 <= String.length "241TP2130")%nat.
Proof.
  destruct (extract_twinset_com_sku_from_url_sound dress_url "241TP2130")
    as (H1 & H2 & H3 & _).
  - vm_compute. reflexivity.
  - auto.
Defined.
